(* ===== verification/_CoqProject ===== *)
-Q . S2P
Prelude.v
Float64.v
Buffer.v
Values.v
Snapshot.v
Messages.v
Packet.v
Config.v
Keys.v
InputBuffer.v
Registry.v
Payload.v
Decode.v
Scenes.v
Interest.v
Metrics.v
Runtime.v
View.v
Budget.v
Window.v
ReliableIn.v
ReliableOut.v
ReliableStream.v
UdpClients.v
Outbound.v
UdpSnapshot.v
Server.v
Interleaving.v
Handshake.v
NetObjects.v
Session.v
GoText.v
Debug.v
Process.v
Play.v
