(* ===== verification/Prelude.v ===== *)
(** * Enserva: a verification library of its networking runtime

    Enserva ([network/]) is a Go runtime for authoritative game servers.  A game
    registers objects with a [Runtime], which calls their hooks on ticks and on
    the requests of clients; a [UDPServer] receives the clients' datagrams,
    authenticates them, hands their requests and inputs to the runtime and sends
    them responses and, every few ticks, a snapshot of what they may see.  This
    library models that code as pure functions, file by file, and proves what the
    parts promise to each other.

    ** The parts

    The wire format, from bytes up.  [Buffer] has the integer, float, string and
    byte fields ([network/wire.go]); [Values] the self-describing snapshot values;
    [Snapshot] the two-level object maps, their codec and their deltas
    ([network/snapshot_delta.go]); [Messages] the payload codec of every built-in
    message, behind the interface [WireCodec]; [Packet] packet framing, reliable
    envelopes and acknowledgement bits ([network/reliability.go]); [Registry] the
    registry that maps message ids and Go types to codecs, validators and handlers
    ([network/wire_registry.go]).

    The simulation.  [Config] is the configuration, its normalization, the rates
    derived from it and the handshake ([network/protocol.go]); [Keys] the
    trimming of identifiers; [InputBuffer] the buffered client inputs
    ([network/input_buffer.go]); [Scenes] and [Interest] the two features that
    decide what a client sees ([network/scene_management.go],
    [network/interest_management.go]); [Runtime] the object tables, ticks,
    requests, scene switches and authentication, and [View] the snapshots made
    from them ([network/runtime.go]).  [Float64] is the float64 arithmetic that
    [Interest], [Budget] and the metrics need.

    The transport ([network/udp.go]).  [Window] is the replay window of a client,
    [ReliableIn] and [ReliableOut] the two sides of reliable delivery, [Budget]
    its token bucket, [Metrics] the counters, [UdpClients] the client table over
    them, [Outbound] the responses, [UdpSnapshot] the snapshots, and [Server] the
    whole: [handleMessage] and [advanceAndMaybeBroadcast] on a world made of the
    runtime, the game and the client table.  [ReliableStream] composes the two
    sides of reliable delivery with the packet format and the window.  [Handshake] follows
    the first datagram of a client, from the encoders a client calls to the authentication
    of [Server].  [Interleaving] has the
    goroutines: what each of them does under a lock is one step, and a run is any
    interleaving of such steps.

    The game's side.  [Payload] is assignment and conversion by reflection
    ([network/payload.go]) over reflected types and values, and [Decode] applies it
    to the built-in messages and to the [Decode] methods of the contexts;
    [NetObjects] is the sample game ([netObjects/]), an instance of the interface
    that [Runtime] and [Server] ask of game code, and [Session] composes it with the
    snapshots: what a client that logs in is shown.

    The process.  [Debug] is the debug report and its endpoints
    ([network/debug.go]), with [GoText] for durations and addresses as text;
    [Process] is [network/server.go] and [main.go]: the flags, the start and the two
    loops of the transport as a fold over what happens on the socket and the ticker.
    [Play] is that process with the sample game: what holds after every event.

    ** Conventions

    A mutable struct is a record, and a method a function from the record (and an
    argument for what it asks the clock) to the new record and the results; each
    definition has the name of the function it models, and comments name the
    others.  Go's locks make the critical sections of a component atomic, so that an
    interleaving of goroutines is a sequence of such sections; the invariants are
    proved for all sequences ([interleaved], and coarser [server_run], [reachable],
    [operation], [exchange]), and the handlers are functions that are proved to be
    runs of them ([handlers_interleave]).  Errors are
    [result] values with the sentinel that [errors.Is] finds; a Go panic is
    [ErrPanic].  Machine integers are [Z] with wrap-around written out ([wrap],
    [u64_inc], [to_i64]).  Maps are [gmap]; where the order of a Go [range] can be
    observed it is an argument, elsewhere it is the order of [map_to_list] and the
    theorems hold for every content of the map.

    Code outside the repository is a parameter: the game's objects and factories
    are the class [GameCode], whose hooks may do anything to the world that the
    laws [GameLaws] and [ServerLaws] allow, namely to call the methods of the
    runtime and to answer through their writer; [encoding/json] (for copies of snapshots
    with its documented laws, [JSONLaws]), the method sets and
    the conversions that [Payload] cannot decide ([Decode.Reflection]),
    [strings.EqualFold], [strconv.ParseFloat], the names of Go types and the socket are
    functions ([Server.Libraries] and [Debug.Diagnostics] collect them).  Every hypothesis has an instance among
    the witnesses that follow the theorems.

    Two functions have fuel.  [decodeWireValue] recurses at most as deep as the
    limit of the code and [decodeWireValue_fuel] shows that its 17 levels are never
    exceeded; [release_buffered] runs once per buffered message and
    [release_buffered_ok] shows that the size of the buffer is enough.  No theorem
    assumes that fuel suffices.

    ** The theorems

    - The format: encoders succeed on exactly the values stated and decoders give
      them back ([decode_encode_value], [decode_encode_packet],
      [builtin_roundtrip]); what a decoder accepts is canonical and within its
      limits ([encode_decode_packet]); a decoded message can be copied into any
      variable without an ill-typed result ([decode_safe]).
    - Delivery: no packet is processed twice and acknowledgements are exact
      ([window_accepts_once], [window_acks_exact], [server_replay_protection],
      [datagram_replayed]); reliable messages arrive once and in order
      ([ordered_stream_end_to_end] for streams that fit the outbound queue, over networks
      whose reordering stays within the receive window, [ordered_delivery],
      [unordered_delivery]); retransmission is exact and ends ([retransmit_exact],
      [reliable_gives_up]).
    - Snapshots: what is shown ([client_snapshot_exact]), to whom it is sent
      ([snapshot_recipients]), what is left out first ([snapshot_priority]), and
      that the deltas a client applies give it the server's state over any network, up to
      the values that deltas may not tell apart ([delta_views_consistent], [same_value],
      [apply_delta_current]), and how often a full snapshot comes
      ([full_snapshot_cadence]).  A turn of the snapshot loop is two critical sections,
      [prepare_snapshot] and the commit of [snapshot_round]; in the handlers nobody comes
      between them ([snapshot_client]).
    - State: the invariants of every component and their composition, for any
      interleaving of the goroutines ([interleaving_safe], [runtime_invariant],
      [inputBuffer_invariant], [reliable_queue_invariant]), and refinements of plain maps
      ([object_table_refines], [scenes_refinement]); the sample game keeps the laws
      of the interface ([sample_laws]) and its log-ins are exact ([login_exact]).
    - The game as a client sees it: whoever logs in sees its own player from then on
      ([login_sees_itself]), and in every state that the process can reach an
      authentication request starts such a session ([session_established]), and so do the
      bytes of a [ClientHello] from any address ([hello_starts_session]).
    - The process: whatever the flags and whatever arrives, what [main] starts stays
      on the runs that the other theorems are about ([main_serves]), and the debug
      report shows the objects as they are ([debug_report_exact]).
    - Security: [authentication_gate], [authenticateClient_exact].
    - Bounds and time: [Normalized_valid], [budget_bounds], [budget_refills],
      [response_fits], [removeStaleClients_exact].
    - Equivalence: the spatial hash against the linear scan it replaces
      ([hash_within_linear], [hash_exact_on_grid], [hash_misses_object]).

    Some theorems state what the code does where it does not do what it means to:
    [hash_misses_object], [missing_ordered_id_stalls],
    [replaced_authentication_handler], [wire_scene_switch_fails], [nan_input_sticks],
    [reset_overtaken].

    ** Not modelled

    Binding the sockets, starting the goroutines and the HTTP listener: [Process] has
    the loops of the transport as a sequence of whole handler calls, and [Interleaving] the
    interleavings of their critical sections.  Hooks are not interleaved with each other
    ([Runtime.hooksMu]), except where a finding says so.  The JSON text
    of what is sent and reported, and the files of the debug frontend
    ([debugFrontend/]); log output other than the lines of the start; the text of
    errors; the tests and the example clients in other languages; memory, and the
    resolution of Go's clock. *)
From Stdlib Require Export ZArith Lia Strings.Byte.
From stdpp Require Export base decidable list strings gmap sorting.
#[global] Open Scope Z_scope.

(** ** Errors

    A Go [error] is modelled by the sentinel that [errors.Is] finds in it; the
    text that [fmt.Errorf] wraps around the sentinel is not kept. *)
Inductive GoError :=
| ErrEOF                              (* io.EOF, from bytes.Reader *)
| ErrInvalidWirePacket
| ErrUnsupportedWireVersion           (* = ErrUnsupportedWireProtocolVersion *)
| ErrWirePacketTooLarge
| ErrWireMessageTooLarge
| ErrWireStringTooLarge
| ErrMalformedWirePayload
| ErrUnsupportedWireMessage
| ErrUnsupportedWireSnapshotValue
| ErrInvalidDeliveryClass
| ErrReliableMessageID
| ErrReliableQueueFull
| ErrWireMessageRegistered
| ErrWireMessageTypeOutOfRange
| ErrMissingWireMessageCodec
| ErrMissingWireMessageName
| ErrMissingWireMessageType
| ErrWireMessageValidation
| ErrMissingWireMessageRegistry
| ErrMissingClientInputID
| ErrStaleClientInput
| ErrFutureClientInput
| ErrMissingObjectType
| ErrMissingObjectID
| ErrObjectNotFound
| ErrObjectExists
| ErrMissingAuthenticationHandler
| ErrAuthenticationHandlerExists
| ErrAuthenticationHandlerUnsupported
| ErrAuthenticationRequired
| ErrAuthenticatedClientIDInUse
| ErrMissingAuthenticationID
| ErrResponsesUnsupported
| ErrUDPPacketTooLarge
| ErrMissingSceneRuntime
| ErrMissingSceneID
| ErrSceneSwitchUnsupported
| ErrOther (text : string)            (* errors.New of a one-off text *)
| ErrPanic                            (* not an error value: the call panics *)
| ErrModelFuel.                       (* never produced: see the fuel lemmas *)

#[export] Instance GoError_eq_dec : EqDecision GoError.
Proof. solve_decision. Defined.

(** A Go pair [(value, error)] of which exactly one is meaningful. *)
Inductive result (A : Type) :=
| Ok (a : A)
| Err (e : GoError).
Arguments Ok {A} a.
Arguments Err {A} e.

#[export] Instance result_eq_dec {A} `{EqDecision A} : EqDecision (result A).
Proof. solve_decision. Defined.

Definition rbind {A B} (m : result A) (k : A -> result B) : result B :=
  match m with Ok a => k a | Err e => Err e end.

Declare Scope go_scope.
Delimit Scope go_scope with go.
Notation "'let!' x ':=' m 'in' k" := (rbind m (fun x => k))
  (at level 10, x pattern, m at level 100, k at level 200) : go_scope.
#[global] Open Scope go_scope.

Definition is_ok {A} (m : result A) : bool :=
  match m with Ok _ => true | Err _ => false end.

Lemma rbind_ok_inv {A B} (m : result A) (k : A -> result B) b :
  rbind m k = Ok b -> exists a, m = Ok a /\ k a = Ok b.
Proof. destruct m; simpl; [eauto | discriminate]. Qed.

(** ** Tactics *)

(** Invert every successful bind and conditional in the hypotheses. *)
Ltac go_inv :=
  repeat match goal with
  | H : Ok _ = Ok _ |- _ => injection H as H; subst
  | H : Err _ = Err _ |- _ => injection H as H; subst
  | H : Ok _ = Err _ |- _ => discriminate H
  | H : Err _ = Ok _ |- _ => discriminate H
  | H : rbind _ _ = Ok _ |- _ =>
      let x := fresh "v" in let H1 := fresh "Hv" in
      apply rbind_ok_inv in H as (x & H1 & H)
  | H : (if ?b then _ else _) = Ok _ |- _ =>
      let E := fresh "E" in destruct b eqn:E; [try discriminate H | try discriminate H]
  end.

(** Turn boolean comparisons on [Z] and on [nat] into propositions. *)
Ltac zbool :=
  repeat match goal with
  | H : (_ <? _) = true |- _ => apply Z.ltb_lt in H
  | H : (_ <? _) = false |- _ => apply Z.ltb_ge in H
  | H : (_ <=? _) = true |- _ => apply Z.leb_le in H
  | H : (_ <=? _) = false |- _ => apply Z.leb_gt in H
  | H : (_ =? _) = true |- _ => apply Z.eqb_eq in H
  | H : (_ =? _) = false |- _ => apply Z.eqb_neq in H
  | H : (_ && _)%bool = true |- _ => apply andb_true_iff in H as [? ?]
  | H : (_ || _)%bool = false |- _ => apply orb_false_iff in H as [? ?]
  | H : negb _ = true |- _ => apply negb_true_iff in H
  | H : negb _ = false |- _ => apply negb_false_iff in H
  end.

(** ** Machine integers *)

(** Go's unsigned integer of [w] bits: results wrap modulo [2 ^ w]. *)
Definition wrap (w z : Z) : Z := z mod 2 ^ w.
Definition in_u (w z : Z) : Prop := 0 <= z < 2 ^ w.
Abbreviation in_u8 := (in_u 8).
Abbreviation in_u16 := (in_u 16).
Abbreviation in_u32 := (in_u 32).
Abbreviation in_u64 := (in_u 64).

Definition u64_add (a b : Z) : Z := wrap 64 (a + b).
Definition u64_sub (a b : Z) : Z := wrap 64 (a - b).
Definition u64_inc (a : Z) : Z := u64_add a 1.

(** Conversion [int64(x)] of a [uint64]. *)
Definition to_i64 (z : Z) : Z := if z <? 2 ^ 63 then z else z - 2 ^ 64.
Definition in_i64 (z : Z) : Prop := - 2 ^ 63 <= z < 2 ^ 63.

#[export] Instance in_u_dec w z : Decision (in_u w z).
Proof. unfold in_u. apply _. Defined.
#[export] Instance in_i64_dec z : Decision (in_i64 z).
Proof. unfold in_i64. apply _. Defined.

Lemma wrap_range w z : 0 <= w -> in_u w (wrap w z).
Proof. intros. apply Z.mod_pos_bound. lia. Qed.

Lemma wrap_small w z : in_u w z -> wrap w z = z.
Proof. apply Z.mod_small. Qed.

Lemma wrap_wrap w z : wrap w (wrap w z) = wrap w z.
Proof. unfold wrap. apply Zmod_mod. Qed.

Lemma to_i64_wrap z : in_i64 z -> to_i64 (wrap 64 z) = z.
Proof.
  unfold in_i64, to_i64, wrap. intros [H1 H2].
  destruct (Z.ltb_spec (z mod 2 ^ 64) (2 ^ 63)) as [H|H];
    destruct (Z.le_gt_cases 0 z).
  - apply Z.mod_small. lia.
  - rewrite <- (Z.mod_add z 1) in H |- * by lia. rewrite Z.mod_small in H by lia. lia.
  - rewrite Z.mod_small in H by lia. lia.
  - rewrite <- (Z.mod_add z 1) by lia. rewrite Z.mod_small by lia. lia.
Qed.

(** Testing one bit with a mask. *)
Lemma land_pow2 a k : 0 <= k -> Z.land a (2 ^ k) = if Z.testbit a k then 2 ^ k else 0.
Proof.
  intros Hk. apply Z.bits_inj'. intros n Hn. rewrite Z.land_spec, Z.pow2_bits_eqb by done.
  destruct (Z.eqb_spec k n) as [->|Hne].
  - rewrite andb_true_r. destruct (Z.testbit a n) eqn:E.
    + by rewrite Z.pow2_bits_true.
    + by rewrite Z.bits_0.
  - rewrite andb_false_r. destruct (Z.testbit a k); [by rewrite Z.pow2_bits_false | by rewrite Z.bits_0].
Qed.

(** Length of a list and of a Go string, as Go's [int]. *)
Definition zlen {A} (l : list A) : Z := Z.of_nat (length l).
Definition slen (s : string) : Z := Z.of_nat (String.length s).

Lemma zlen_app {A} (l k : list A) : zlen (l ++ k) = zlen l + zlen k.
Proof. unfold zlen. rewrite length_app. lia. Qed.
Lemma zlen_cons {A} (x : A) l : zlen (x :: l) = 1 + zlen l.
Proof. unfold zlen. simpl. lia. Qed.
Lemma zlen_nil {A} : zlen (@nil A) = 0.
Proof. reflexivity. Qed.
Lemma zlen_nonneg {A} (l : list A) : 0 <= zlen l.
Proof. unfold zlen. lia. Qed.
Lemma zlen_0 {A} (l : list A) : zlen l = 0 <-> l = [].
Proof. unfold zlen. destruct l; simpl; split; intros; try done; lia. Qed.

#[export] Hint Resolve zlen_nonneg : core.

(** ** Bytes *)
Definition bytes := list byte.

Definition byte_of_Z (z : Z) : byte :=
  default x00 (Byte.of_N (Z.to_N (z mod 256))).
Definition Z_of_byte (b : byte) : Z := Z.of_N (Byte.to_N b).

#[export] Instance byte_eq_dec : EqDecision byte := Byte.byte_eq_dec.

Lemma Z_of_byte_range b : 0 <= Z_of_byte b < 256.
Proof. unfold Z_of_byte. pose proof (Byte.to_N_bounded b). lia. Qed.

Lemma Z_of_byte_of_Z z : Z_of_byte (byte_of_Z z) = z mod 256.
Proof.
  unfold byte_of_Z, Z_of_byte.
  assert (0 <= z mod 256 < 256) by (apply Z.mod_pos_bound; lia).
  destruct (Byte.of_N (Z.to_N (z mod 256))) as [b|] eqn:E; simpl.
  - apply Byte.to_of_N in E. rewrite E. lia.
  - apply Byte.of_N_None_iff in E. lia.
Qed.

Lemma byte_of_Z_of_byte b : byte_of_Z (Z_of_byte b) = b.
Proof.
  unfold byte_of_Z, Z_of_byte. pose proof (Byte.to_N_bounded b).
  rewrite Z.mod_small by lia. rewrite N2Z.id, Byte.of_to_N. done.
Qed.

Lemma byte_of_Z_mod z : byte_of_Z (z mod 256) = byte_of_Z z.
Proof. unfold byte_of_Z. rewrite Zmod_mod. done. Qed.

(** [binary.BigEndian.PutUintN] and [binary.BigEndian.UintN] for any width. *)
Fixpoint be_bytes (n : nat) (v : Z) : bytes :=
  match n with
  | O => []
  | S m => byte_of_Z (Z.shiftr v (8 * Z.of_nat m)) :: be_bytes m v
  end.

Fixpoint be_value (bs : bytes) : Z :=
  match bs with
  | [] => 0
  | b :: r => Z_of_byte b * 2 ^ (8 * zlen r) + be_value r
  end.

Lemma length_be_bytes n v : length (be_bytes n v) = n.
Proof. induction n; simpl; congruence. Qed.

Lemma zlen_be_bytes n v : zlen (be_bytes n v) = Z.of_nat n.
Proof. unfold zlen. rewrite length_be_bytes. done. Qed.

Lemma be_value_range bs : 0 <= be_value bs < 2 ^ (8 * zlen bs).
Proof.
  induction bs as [|b r IH]; [unfold zlen; simpl; lia|]. cbn [be_value].
  rewrite zlen_cons. pose proof (Z_of_byte_range b). pose proof (zlen_nonneg r).
  replace (8 * (1 + zlen r)) with (8 + 8 * zlen r) by lia.
  rewrite Z.pow_add_r by lia. change (2 ^ 8) with 256. nia.
Qed.

Lemma be_value_be_bytes n v : be_value (be_bytes n v) = v mod 2 ^ (8 * Z.of_nat n).
Proof.
  induction n as [|n IH]; [simpl; symmetry; apply Z.mod_1_r|].
  cbn [be_bytes be_value]. rewrite IH, Z_of_byte_of_Z, zlen_be_bytes.
  rewrite Z.shiftr_div_pow2 by lia.
  replace (8 * Z.of_nat (S n)) with (8 * Z.of_nat n + 8) by lia.
  rewrite Z.pow_add_r by lia. change (2 ^ 8) with 256.
  rewrite Z.rem_mul_r by lia. lia.
Qed.

Lemma be_value_be_bytes_small n v w :
  w = 8 * Z.of_nat n -> in_u w v -> be_value (be_bytes n v) = v.
Proof. intros -> ?. rewrite be_value_be_bytes. by apply Z.mod_small. Qed.

Lemma be_bytes_mod n v : be_bytes n (v mod 2 ^ (8 * Z.of_nat n)) = be_bytes n v.
Proof.
  enough (forall k, (k <= n)%nat ->
    be_bytes k (v mod 2 ^ (8 * Z.of_nat n)) = be_bytes k v) by auto.
  induction k as [|k IH]; intros Hk; [done|]. cbn [be_bytes]. rewrite IH by lia. f_equal.
  rewrite <- byte_of_Z_mod, <- (byte_of_Z_mod (Z.shiftr v _)). f_equal.
  rewrite !Z.shiftr_div_pow2 by lia.
  replace (8 * Z.of_nat n) with (8 * Z.of_nat k + (8 + 8 * (Z.of_nat n - Z.of_nat k - 1))) by lia.
  rewrite Z.pow_add_r by lia. rewrite Z.rem_mul_r by lia.
  rewrite (Z.mul_comm (2 ^ _)), Z.div_add by lia.
  rewrite (Z.div_small (v mod _)) by (apply Z.mod_pos_bound; lia). rewrite Z.add_0_l.
  rewrite Z.pow_add_r by lia. change (2 ^ 8) with 256.
  rewrite Z.rem_mul_r by lia. rewrite (Z.mul_comm 256), Z_mod_plus_full. apply Zmod_mod.
Qed.

Lemma be_bytes_be_value bs : be_bytes (length bs) (be_value bs) = bs.
Proof.
  induction bs as [|b r IH]; [done|]. cbn [length be_bytes be_value]. unfold zlen.
  pose proof (be_value_range r) as Hr. unfold zlen in Hr. f_equal.
  - rewrite Z.shiftr_div_pow2 by lia. rewrite Z.add_comm, Z.div_add by lia.
    rewrite Z.div_small by lia. apply byte_of_Z_of_byte.
  - rewrite <- be_bytes_mod, Z.add_comm, Z_mod_plus_full, Z.mod_small by lia. done.
Qed.

(** The bytes of a Go string. *)
Abbreviation bytes_of_string := String.list_byte_of_string.
Abbreviation string_of_bytes := String.string_of_list_byte.

Lemma length_bytes_of_string s : length (bytes_of_string s) = String.length s.
Proof.
  unfold String.list_byte_of_string. rewrite length_map.
  induction s; simpl; congruence.
Qed.

Lemma zlen_bytes_of_string s : zlen (bytes_of_string s) = slen s.
Proof. unfold zlen, slen. rewrite length_bytes_of_string. done. Qed.

Lemma string_bytes_of_string s : string_of_bytes (bytes_of_string s) = s.
Proof. apply String.string_of_list_byte_of_string. Qed.

Lemma bytes_string_of_bytes bs : bytes_of_string (string_of_bytes bs) = bs.
Proof. apply String.list_byte_of_string_of_list_byte. Qed.

Lemma slen_string_of_bytes bs : slen (string_of_bytes bs) = zlen bs.
Proof. rewrite <- zlen_bytes_of_string, bytes_string_of_bytes. done. Qed.

Lemma bytes_of_string_nil s : bytes_of_string s = [] <-> s = ""%string.
Proof.
  split; [|by intros ->]. intros H. rewrite <- (string_bytes_of_string s), H. done.
Qed.

Lemma slen_nonneg s : 0 <= slen s.
Proof. unfold slen. lia. Qed.
#[export] Hint Resolve slen_nonneg : core.

Create Rewrite HintDb zlen.
#[export] Hint Rewrite @zlen_app @zlen_cons @zlen_nil zlen_be_bytes zlen_bytes_of_string
  slen_string_of_bytes : zlen.
Ltac zlen := autorewrite with zlen in *.

(** ** Sorting

    [sort.Strings], [sort.Slice] and [sort.SliceStable] are modelled by one
    stable insertion sort driven by the source's [less] function. *)
Section GoSort.
Context {A : Type} (less : A -> A -> bool).

Fixpoint sort_insert (x : A) (l : list A) : list A :=
  match l with
  | [] => [x]
  | y :: r => if less y x then y :: sort_insert x r else x :: l
  end.

Fixpoint go_sort (l : list A) : list A :=
  match l with
  | [] => []
  | x :: r => sort_insert x (go_sort r)
  end.

(** The order a sorted slice is in: no element is less than an earlier one. *)
Definition not_after (x y : A) : Prop := less y x = false.

Lemma sort_insert_perm x l : sort_insert x l ≡ₚ x :: l.
Proof.
  induction l as [|y r IH]; simpl; [done|].
  destruct (less y x); [|done]. rewrite IH. apply Permutation_swap.
Qed.

Lemma go_sort_perm l : go_sort l ≡ₚ l.
Proof. induction l as [|x r IH]; simpl; [done|]. by rewrite sort_insert_perm, IH. Qed.
End GoSort.

(** What Go's sorts require of [less]: a strict weak order. *)
Class StrictWeak {A} (less : A -> A -> bool) : Prop := {
  sw_asym x y : less x y = true -> less y x = false;
  sw_cotrans x y z : less x z = true -> less x y = true \/ less y z = true
}.

(** A strict total order: incomparable elements are equal. *)
Class StrictTotal {A} (less : A -> A -> bool) : Prop := {
  st_weak :: StrictWeak less;
  st_total x y : less x y = false -> less y x = false -> x = y
}.

Section SortFacts.
Context {A : Type} (less : A -> A -> bool) `{!StrictWeak less}.

Lemma sw_irrefl x : less x x = false.
Proof. destruct (less x x) eqn:E; [|done]. by rewrite (sw_asym x x E) in E. Qed.

Lemma not_after_trans x y z : not_after less x y -> not_after less y z -> not_after less x z.
Proof.
  unfold not_after. intros H1 H2. destruct (less z x) eqn:E; [|done].
  destruct (sw_cotrans z y x E); congruence.
Qed.

Lemma sort_insert_sorted x l :
  StronglySorted (not_after less) l -> StronglySorted (not_after less) (sort_insert less x l).
Proof.
  induction 1 as [|y r Hs IH Hf]; simpl; [repeat constructor|].
  destruct (less y x) eqn:E.
  - constructor; [done|]. rewrite sort_insert_perm. constructor; [|done].
    apply sw_asym, E.
  - constructor; [by constructor|]. constructor; [done|].
    eapply Forall_impl; [exact Hf|]. intros z Hz. by eapply not_after_trans.
Qed.

Lemma go_sort_sorted l : StronglySorted (not_after less) (go_sort less l).
Proof. induction l; simpl; [constructor|]. by apply sort_insert_sorted. Qed.

Lemma go_sort_id l : StronglySorted (not_after less) l -> go_sort less l = l.
Proof.
  induction 1 as [|x r Hs IH Hf]; simpl; [done|]. rewrite IH.
  destruct r as [|y r]; simpl; [done|]. inversion Hf as [|?? Hy]; subst.
  unfold not_after in Hy. by rewrite Hy.
Qed.

Lemma go_sort_idemp l : go_sort less (go_sort less l) = go_sort less l.
Proof. apply go_sort_id, go_sort_sorted. Qed.

(** Stability: the elements of one equivalence class keep their order. *)
Definition sort_equiv (x y : A) : Prop := less x y = false /\ less y x = false.
#[global] Instance sort_equiv_dec x y : Decision (sort_equiv x y).
Proof. unfold sort_equiv. apply _. Defined.

Lemma sort_insert_stable k x l :
  StronglySorted (not_after less) l ->
  filter (sort_equiv k) (sort_insert less x l) = filter (sort_equiv k) (x :: l).
Proof.
  induction 1 as [|y r Hs IH Hf]; simpl; [done|].
  destruct (less y x) eqn:E; [|done]. rewrite !filter_cons, IH, filter_cons.
  repeat case_decide; try done. exfalso.
  destruct H as [Hky Hyk], H0 as [Hkx Hxk].
  destruct (sw_cotrans y k x E); congruence.
Qed.

Lemma go_sort_stable k l :
  filter (sort_equiv k) (go_sort less l) = filter (sort_equiv k) l.
Proof.
  induction l as [|x r IH]; simpl; [done|].
  rewrite sort_insert_stable by apply go_sort_sorted.
  rewrite !filter_cons, IH. done.
Qed.
End SortFacts.

(** With a total order a set of elements has one sorted arrangement. *)
Lemma sorted_unique {A} (less : A -> A -> bool) `{!StrictTotal less} l k :
  StronglySorted (not_after less) l -> StronglySorted (not_after less) k -> l ≡ₚ k -> l = k.
Proof.
  intros Hl. revert k. induction Hl as [|x l Hl IH Hx]; intros k Hk Hp.
  { symmetry in Hp. by apply Permutation_nil_r in Hp. }
  destruct Hk as [|y k Hk Hy]; [by apply Permutation_nil_r in Hp|].
  assert (x = y) as ->.
  { assert (x ∈ y :: k) as Hxk by (rewrite <- Hp; left).
    assert (y ∈ x :: l) as Hyl by (rewrite Hp; left).
    apply elem_of_cons in Hxk as [->|Hxk]; [done|].
    apply elem_of_cons in Hyl as [->|Hyl]; [done|].
    rewrite Forall_forall in Hx, Hy.
    apply st_total; [by apply Hy | by apply Hx]. }
  f_equal. apply IH; [done|]. by apply Permutation.Permutation_cons_inv in Hp.
Qed.

(** Sorting commutes with a map that the comparison does not see. *)
Lemma go_sort_map_in {A B} (f : A -> B) (lessA : A -> A -> bool) (lessB : B -> B -> bool) l :
  (forall x y, x ∈ l -> y ∈ l -> lessB (f x) (f y) = lessA x y) ->
  go_sort lessB (map f l) = map f (go_sort lessA l).
Proof.
  induction l as [|x l IH]; intros Hf; simpl; [done|].
  rewrite IH by (intros a b Ha Hb; apply Hf; by right).
  assert (forall y, y ∈ go_sort lessA l -> y ∈ l) as Hin by (intros y; by rewrite go_sort_perm).
  revert Hin. generalize (go_sort lessA l) as k. induction k as [|y k IHk]; intros Hin; simpl; [done|].
  rewrite Hf by (first [left | right; apply Hin; left]). destruct (lessA y x); simpl; [|done].
  rewrite IHk; [done|]. intros z Hz. apply Hin. by right.
Qed.

Lemma go_sort_map {A B} (f : A -> B) (lessA : A -> A -> bool) (lessB : B -> B -> bool) l :
  (forall x y, lessB (f x) (f y) = lessA x y) ->
  go_sort lessB (map f l) = map f (go_sort lessA l).
Proof. intros Hf. by apply go_sort_map_in. Qed.

Lemma forallb_perm {A} (f : A -> bool) l k : l ≡ₚ k -> forallb f l = forallb f k.
Proof.
  induction 1; simpl; try congruence. by rewrite !andb_assoc, (andb_comm (f y)).
Qed.

Lemma forallb_elem {A} (f : A -> bool) l : forallb f l = true <-> Forall (fun x => f x = true) l.
Proof.
  induction l as [|x l IH]; simpl; [by split|]. rewrite andb_true_iff, Forall_cons, IH. done.
Qed.

(** Comparing by a key, and lexicographic chains
    [if f x != f y { return f x < f y }; ...]. *)
Lemma strict_weak_key {A B} (f : A -> B) (less : B -> B -> bool) :
  StrictWeak less -> StrictWeak (fun x y => less (f x) (f y)).
Proof. intros [Ha Hc]. split; [intros x y; apply Ha | intros x y z; apply Hc]. Qed.

Lemma strict_weak_lex {A B} `{EqDecision B} (f : A -> B) (less : B -> B -> bool)
    (next : A -> A -> bool) :
  StrictTotal less -> StrictWeak next ->
  StrictWeak (fun x y => if decide (f x = f y) then next x y else less (f x) (f y)).
Proof.
  intros [[Ha Hc] Ht] [Na Nc]. split.
  - intros x y. destruct (decide (f x = f y)) as [e|n].
    + rewrite decide_True by done. apply Na.
    + rewrite decide_False by done. apply Ha.
  - intros x y z. destruct (decide (f x = f z)) as [exz|nxz],
      (decide (f x = f y)) as [exy|nxy], (decide (f y = f z)) as [eyz|nyz]; try congruence.
    + apply Nc.
    + intros _. destruct (less (f x) (f y)) eqn:E; [auto|]. right.
      destruct (less (f y) (f z)) eqn:E'; [done|]. rewrite <- exz in E'.
      by destruct nxy; apply Ht.
    + rewrite <- exy. auto.
    + rewrite <- eyz. auto.
    + apply Hc.
Qed.

Lemma strict_total_lex {A B} `{EqDecision B} (f : A -> B) (less : B -> B -> bool)
    (next : A -> A -> bool) :
  StrictTotal less -> StrictWeak next ->
  (forall x y, f x = f y -> next x y = false -> next y x = false -> x = y) ->
  StrictTotal (fun x y => if decide (f x = f y) then next x y else less (f x) (f y)).
Proof.
  intros Hl Hn Ht. split; [by apply strict_weak_lex|].
  intros x y. repeat case_decide; try congruence; [eauto|].
  intros. by exfalso; apply H, st_total.
Qed.

(** The converse of an order. *)
Definition flip_less {A} (less : A -> A -> bool) (x y : A) : bool := less y x.

Lemma strict_weak_flip {A} (less : A -> A -> bool) : StrictWeak less -> StrictWeak (flip_less less).
Proof.
  intros [Ha Hc]. unfold flip_less. split; [intros x y; apply Ha|].
  intros x y z H. destruct (Hc _ y _ H); auto.
Qed.

Lemma strict_total_flip {A} (less : A -> A -> bool) : StrictTotal less -> StrictTotal (flip_less less).
Proof. intros [Hw Ht]. split; [by apply strict_weak_flip|]. intros x y H1 H2. by apply Ht. Qed.

#[export] Instance Z_ltb_total : StrictTotal Z.ltb.
Proof.
  split; [split|].
  - intros x y ?. lia.
  - intros x y z ?. destruct (Z.ltb_spec x y); [auto|]. right. lia.
  - intros x y ??. lia.
Qed.

(** [<] on Go strings compares bytes lexicographically. *)
#[export] Instance string_ltb_total : StrictTotal String.ltb.
Proof.
  assert (forall x y, String.ltb x y = negb (String.leb y x)) as Hneg.
  { intros x y. unfold String.ltb, String.leb. rewrite String.compare_antisym.
    by destruct (String.compare y x). }
  assert (forall x y, String.leb x y = true <-> String.le x y) as Hle.
  { intros x y. unfold String.le. by rewrite Is_true_true. }
  split; [split|]; intros *; rewrite !Hneg.
  - rewrite negb_true_iff, negb_false_iff. intros H.
    destruct (String.leb_total x y); congruence.
  - rewrite !negb_true_iff. intros H.
    destruct (String.leb y x) eqn:E1; [|auto]. destruct (String.leb z y) eqn:E2; [|auto].
    apply Hle in E1, E2. assert (String.le z x) as E by (by etrans).
    apply Hle in E. congruence.
  - rewrite !negb_false_iff. intros H1 H2. apply String.leb_antisym; done.
Qed.
