(* ===== verification/Float64.v ===== *)
(** * Float64: Go's [float64] arithmetic

    A finite [float64] is an integer multiple of 2^-1074, the smallest positive
    one, so [Fin neg k] is the number k * 2^-1074 with its sign (the sign of zero
    included).  An operation is the exact rational result, rounded to the nearest
    float, ties to even ([round]): IEEE 754 binary64 as the Go specification asks.
    The facts below are the ones that the programs over it need: rounding is
    monotone, and it does not change a number that is a float already. *)
From S2P Require Import Prelude.

Inductive f64 :=
| NaN
| Inf (neg : bool)
| Fin (neg : bool) (k : Z).

#[export] Instance f64_eq_dec : EqDecision f64.
Proof. solve_decision. Defined.

(** 1.0, as a multiple of 2^-1074. *)
Definition one_scaled : Z := 2 ^ 1074.

Lemma one_scaled_pos : 0 < one_scaled.
Proof. by apply Z.pow_pos_nonneg. Qed.

(** ** Rounding *)

(** The quotient of [n] by [d], to the nearest integer, ties to even. *)
Definition rnd_even (n d : Z) : Z :=
  let q := n / d in
  let r := n mod d in
  if 2 * r <? d then q
  else if d <? 2 * r then q + 1
  else if Z.even q then q else q + 1.

(** The exponent of the last place of a float near [q]: 53 significant bits. *)
Definition last_place (q : Z) : Z := Z.max 0 (Z.log2 q - 52).

Definition round_int (n d : Z) : Z :=
  let e := last_place (n / d) in
  rnd_even n (d * 2 ^ e) * 2 ^ e.

Definition max_scaled : Z := 2 ^ (1024 + 1074).

Definition round (neg : bool) (n d : Z) : f64 :=
  let k := round_int n d in
  if k <? max_scaled then Fin neg k else Inf neg.

(** ** Operations *)
Definition signed (neg : bool) (k : Z) : Z := if neg then - k else k.

Definition f_neg (x : f64) : f64 :=
  match x with
  | NaN => NaN
  | Inf s => Inf (negb s)
  | Fin s k => Fin (negb s) k
  end.

Definition f_add (x y : f64) : f64 :=
  match x, y with
  | NaN, _ | _, NaN => NaN
  | Inf s, Inf t => if Bool.eqb s t then Inf s else NaN
  | Inf s, Fin _ _ => Inf s
  | Fin _ _, Inf t => Inf t
  | Fin s k, Fin t l =>
      let z := signed s k + signed t l in
      if z =? 0 then Fin (s && t) 0 else round (z <? 0) (Z.abs z) 1
  end.

Definition f_sub (x y : f64) : f64 := f_add x (f_neg y).

Definition f_mul (x y : f64) : f64 :=
  match x, y with
  | NaN, _ | _, NaN => NaN
  | Inf s, Inf t => Inf (xorb s t)
  | Inf s, Fin t l => if l =? 0 then NaN else Inf (xorb s t)
  | Fin s k, Inf t => if k =? 0 then NaN else Inf (xorb s t)
  | Fin s k, Fin t l => round (xorb s t) (k * l) one_scaled
  end.

Definition f_div (x y : f64) : f64 :=
  match x, y with
  | NaN, _ | _, NaN => NaN
  | Inf _, Inf _ => NaN
  | Inf s, Fin t _ => Inf (xorb s t)
  | Fin s _, Inf t => Fin (xorb s t) 0
  | Fin s k, Fin t l =>
      if l =? 0 then if k =? 0 then NaN else Inf (xorb s t)
      else round (xorb s t) (k * one_scaled) l
  end.

Definition f_le (x y : f64) : bool :=
  match x, y with
  | NaN, _ | _, NaN => false
  | Inf true, _ => true
  | _, Inf false => true
  | Inf false, _ => false
  | _, Inf true => false
  | Fin s k, Fin t l => signed s k <=? signed t l
  end.

Definition f_lt (x y : f64) : bool :=
  match x, y with
  | NaN, _ | _, NaN => false
  | _, _ => negb (f_le y x)
  end.

Definition is_nan (x : f64) : bool := match x with NaN => true | _ => false end.
Definition is_inf (x : f64) : bool := match x with Inf _ => true | _ => false end.
Definition is_finite (x : f64) : bool := match x with Fin _ _ => true | _ => false end.

Definition f_zero : f64 := Fin false 0.

(** [float64(i)] of an integer. *)
Definition f_of_Z (z : Z) : f64 := round (z <? 0) (Z.abs z * one_scaled) 1.

(** [math.Floor]. *)
Definition f_floor (x : f64) : f64 :=
  match x with
  | NaN => NaN
  | Inf s => Inf s
  | Fin s k => Fin s (Z.abs (signed s k / one_scaled) * one_scaled)
  end.

(** [int(x)]: the fraction is dropped; [overflow] is the value that the
    implementation gives to what does not fit. *)
Definition f_to_int (overflow : f64 -> Z) (x : f64) : Z :=
  match x with
  | Fin s k =>
      let z := signed s (k / one_scaled) in
      if decide (in_i64 z) then z else overflow x
  | _ => overflow x
  end.

(** The number that the 64 bits of [math.Float64bits] stand for. *)
Definition f_of_bits (bits : Z) : f64 :=
  let neg := Z.testbit bits 63 in
  let exponent := Z.land (Z.shiftr bits 52) 2047 in
  let mantissa := Z.land bits (2 ^ 52 - 1) in
  if exponent =? 2047 then if mantissa =? 0 then Inf neg else NaN
  else if exponent =? 0 then Fin neg mantissa
  else Fin neg ((2 ^ 52 + mantissa) * 2 ^ (exponent - 1)).

(** [math.Float64bits]; of a NaN the canonical one, which is all that Go's arithmetic makes. *)
Definition f_bits (x : f64) : Z :=
  match x with
  | NaN => 0x7ff8000000000001
  | Inf neg => (if neg then 2 ^ 63 else 0) + 2047 * 2 ^ 52
  | Fin neg k =>
      (if neg then 2 ^ 63 else 0) +
      (if k <? 2 ^ 52 then k
       else let e := last_place k in (e + 1) * 2 ^ 52 + (k / 2 ^ e - 2 ^ 52))
  end.

(** ** Rounding is monotone *)
Lemma rnd_even_bounds n d : 0 < d -> n / d <= rnd_even n d <= n / d + 1.
Proof. intros Hd. unfold rnd_even. repeat case_match; lia. Qed.

Lemma rnd_even_mono n d n' d' :
  0 < d -> 0 < d' -> n * d' <= n' * d -> rnd_even n d <= rnd_even n' d'.
Proof.
  intros Hd Hd' Hle.
  pose proof (Z.div_mod n d ltac:(lia)) as En. pose proof (Z.div_mod n' d' ltac:(lia)) as En'.
  pose proof (Z.mod_pos_bound n d Hd) as Hr. pose proof (Z.mod_pos_bound n' d' Hd') as Hr'.
  assert (n / d <= n' / d') as Hq.
  { apply Z.div_le_lower_bound; [lia|]. nia. }
  destruct (Z.eq_dec (n / d) (n' / d')) as [Heq|Hne].
  2: { pose proof (rnd_even_bounds n d Hd). pose proof (rnd_even_bounds n' d' Hd'). lia. }
  unfold rnd_even. rewrite <- Heq in *.
  assert ((n mod d) * d' <= (n' mod d') * d) as Hrr by nia.
  destruct (Z.ltb_spec (2 * (n mod d)) d), (Z.ltb_spec (2 * (n' mod d')) d'),
    (Z.ltb_spec d (2 * (n mod d))), (Z.ltb_spec d' (2 * (n' mod d')));
    destruct (Z.even (n / d)); try lia; exfalso; nia.
Qed.

Lemma rnd_even_exact k d : 0 < d -> rnd_even (k * d) d = k.
Proof.
  intros Hd. unfold rnd_even. rewrite Z.div_mul, Z_mod_mult by lia.
  by rewrite (proj2 (Z.ltb_lt _ _)) by lia.
Qed.

Lemma last_place_mono q q' : 0 <= q <= q' -> last_place q <= last_place q'.
Proof. intros [_ H]. apply Z.log2_le_mono in H. unfold last_place. lia. Qed.

Lemma last_place_nonneg q : 0 <= last_place q.
Proof. unfold last_place. lia. Qed.
#[export] Hint Resolve last_place_nonneg : core.

Lemma last_place_upper q : 0 <= q -> q < 2 ^ (53 + last_place q).
Proof.
  intros Hq. destruct (Z.eq_dec q 0) as [->|Hne]; [by apply Z.pow_pos_nonneg|].
  pose proof (Z.log2_spec q ltac:(lia)) as [_ H]. eapply Z.lt_le_trans; [exact H|].
  apply Z.pow_le_mono_r; unfold last_place; lia.
Qed.

Lemma last_place_lower q : 0 < last_place q -> 2 ^ (52 + last_place q) <= q.
Proof.
  intros H. unfold last_place in *. rewrite Z.max_r in * by lia.
  replace (52 + (Z.log2 q - 52)) with (Z.log2 q) by lia.
  apply Z.log2_spec. destruct (Z.le_gt_cases q 1) as [Hq|]; [|lia].
  destruct (Z.le_gt_cases q 0); [rewrite Z.log2_nonpos in H by lia; lia|].
  replace q with 1 in H by lia. simpl in H. lia.
Qed.

Lemma round_int_mono n d n' d' :
  0 <= n -> 0 <= n' -> 0 < d -> 0 < d' -> n * d' <= n' * d -> round_int n d <= round_int n' d'.
Proof.
  intros Hn Hn' Hd Hd' Hle. unfold round_int.
  assert (0 <= n / d <= n' / d') as Hq.
  { split; [by apply Z.div_pos|]. apply Z.div_le_lower_bound; [lia|].
    pose proof (Z.div_mod n d ltac:(lia)). pose proof (Z.mod_pos_bound n d Hd). nia. }
  pose proof (last_place_mono _ _ Hq) as He.
  pose proof (last_place_upper (n / d) ltac:(lia)) as Hup.
  pose proof (last_place_lower (n' / d')) as Hlow.
  pose proof (last_place_nonneg (n / d)) as He0.
  set (e := last_place (n / d)) in *. set (e' := last_place (n' / d')) in *.
  assert (0 < 2 ^ e) by (apply Z.pow_pos_nonneg; lia).
  assert (0 < 2 ^ e') by (apply Z.pow_pos_nonneg; lia).
  destruct (Z.eq_dec e e') as [->|Hne].
  { apply Z.mul_le_mono_nonneg_r; [lia|]. apply rnd_even_mono; nia. }
  specialize (Hlow ltac:(lia)). rewrite Z.pow_add_r in Hup, Hlow by lia.
  assert (rnd_even n (d * 2 ^ e) <= 2 ^ 53) as H1.
  { rewrite <- (rnd_even_exact (2 ^ 53) (d * 2 ^ e)) by nia. apply rnd_even_mono; try nia.
    pose proof (Z.div_mod n d ltac:(lia)). pose proof (Z.mod_pos_bound n d Hd).
    assert (n < (2 ^ 53 * 2 ^ e) * d) by nia. nia. }
  assert (2 ^ 52 <= rnd_even n' (d' * 2 ^ e')) as H2.
  { rewrite <- (rnd_even_exact (2 ^ 52) (d' * 2 ^ e')) by nia. apply rnd_even_mono; try nia.
    pose proof (Z.div_mod n' d' ltac:(lia)). pose proof (Z.mod_pos_bound n' d' Hd').
    assert ((2 ^ 52 * 2 ^ e') * d' <= n') by nia. nia. }
  transitivity (2 ^ 53 * 2 ^ e); [nia|]. transitivity (2 ^ 52 * 2 ^ e'); [|nia].
  replace e' with (e + 1 + (e' - e - 1)) by lia. rewrite Z.pow_add_r, Z.pow_add_r by lia.
  assert (0 < 2 ^ (e' - e - 1)) by (apply Z.pow_pos_nonneg; lia). nia.
Qed.

(** ** Rounding does not change a float *)
Definition representable (k : Z) : Prop := (2 ^ last_place k | k).

Lemma round_int_exact k d : 0 < d -> representable k -> round_int (k * d) d = k.
Proof.
  intros Hd [m Hm]. unfold round_int. rewrite Z.div_mul by lia.
  assert (0 < 2 ^ last_place k) by (by apply Z.pow_pos_nonneg).
  replace (k * d) with (m * (d * 2 ^ last_place k)) by nia.
  rewrite rnd_even_exact by nia. lia.
Qed.

Lemma representable_shift m a : 0 <= m < 2 ^ 53 -> 0 <= a -> representable (m * 2 ^ a).
Proof.
  intros Hm Ha. unfold representable.
  destruct (Z.eq_dec m 0) as [->|Hm0]; [apply Z.divide_0_r|].
  apply Z.divide_mul_r. exists (2 ^ (a - last_place (m * 2 ^ a))).
  assert (last_place (m * 2 ^ a) <= a).
  { unfold last_place. rewrite Z.log2_mul_pow2 by lia.
    assert (Z.log2 m < 53) by (apply Z.log2_lt_pow2; lia). lia. }
  rewrite <- Z.pow_add_r by (try apply last_place_nonneg; lia). f_equal. lia.
Qed.

Lemma round_int_nonneg n d : 0 <= n -> 0 < d -> 0 <= round_int n d.
Proof.
  intros Hn Hd. unfold round_int. assert (0 < 2 ^ last_place (n / d)) by (by apply Z.pow_pos_nonneg).
  pose proof (rnd_even_bounds n (d * 2 ^ last_place (n / d)) ltac:(nia)).
  pose proof (Z.div_pos n (d * 2 ^ last_place (n / d)) Hn ltac:(nia)). nia.
Qed.

(** ** Floats on a binary grid

    [on_grid x g j]: [x] is the finite number j * 2^-g.  While the numerators
    stay below 2^53 the arithmetic on them is exact. *)
Definition on_grid (x : f64) (g j : Z) : Prop :=
  exists s k, x = Fin s k /\ 0 <= k /\ signed s k = j * 2 ^ (1074 - g).

Section Grid.
Context (g : Z) (Hg : 0 <= g <= 1074).

Lemma grid_unit : 0 < 2 ^ (1074 - g).
Proof using Hg. apply Z.pow_pos_nonneg; lia. Qed.

Lemma round_grid s j d :
  0 <= j < 2 ^ 53 -> 0 < d -> round s (j * 2 ^ (1074 - g) * d) d = Fin s (j * 2 ^ (1074 - g)).
Proof using Hg.
  intros Hj Hd. unfold round. rewrite round_int_exact by (lia || apply representable_shift; lia).
  rewrite (proj2 (Z.ltb_lt _ _)); [done|]. unfold max_scaled.
  rewrite Z.pow_add_r by lia. pose proof grid_unit.
  assert (2 ^ (1074 - g) <= 2 ^ 1074) by (apply Z.pow_le_mono_r; lia).
  assert (2 ^ 53 <= 2 ^ 1024) by (apply Z.pow_le_mono_r; lia). nia.
Qed.

Lemma f_neg_grid x j : on_grid x g j -> on_grid (f_neg x) g (- j).
Proof using Hg.
  intros (s & k & -> & Hk & Hv). exists (negb s), k. split_and!; [done..|].
  destruct s; simpl in *; lia.
Qed.

Lemma f_add_grid x y j l :
  on_grid x g j -> on_grid y g l -> Z.abs (j + l) < 2 ^ 53 -> on_grid (f_add x y) g (j + l).
Proof using Hg.
  intros (s & k & -> & Hk & Hv) (t & m & -> & Hm & Hw) Hb. cbn [f_add].
  rewrite Hv, Hw, <- Z.mul_add_distr_r. pose proof grid_unit.
  destruct (Z.eqb_spec ((j + l) * 2 ^ (1074 - g)) 0) as [E|E].
  { exists (s && t), 0. split_and!; [done..|]. rewrite E. by destruct (s && t). }
  rewrite Z.abs_mul, (Z.abs_eq (2 ^ _)) by lia. rewrite <- (Z.mul_1_r (Z.abs _ * _)), round_grid by lia.
  eexists _, _. split_and!; [done | nia|].
  destruct (Z.ltb_spec ((j + l) * 2 ^ (1074 - g)) 0); cbn [signed]; nia.
Qed.

Lemma f_sub_grid x y j l :
  on_grid x g j -> on_grid y g l -> Z.abs (j - l) < 2 ^ 53 -> on_grid (f_sub x y) g (j - l).
Proof using Hg. intros Hx Hy Hb. apply f_add_grid; [done | by apply f_neg_grid | done]. Qed.

Lemma f_le_grid x y j l : on_grid x g j -> on_grid y g l -> f_le x y = (j <=? l).
Proof using Hg.
  intros (s & k & -> & Hk & Hv) (t & m & -> & Hm & Hw). cbn [f_le]. rewrite Hv, Hw.
  pose proof grid_unit. apply Bool.eq_iff_eq_true. rewrite !Z.leb_le. nia.
Qed.
End Grid.

Lemma f_mul_grid g h x y j l :
  0 <= g -> 0 <= h -> g + h <= 1074 -> on_grid x g j -> on_grid y h l -> Z.abs (j * l) < 2 ^ 53 ->
  on_grid (f_mul x y) (g + h) (j * l).
Proof.
  intros Hg Hh Hgh (s & k & -> & Hk & Hv) (t & m & -> & Hm & Hw) Hb. cbn [f_mul].
  assert (k = Z.abs j * 2 ^ (1074 - g)) as ->.
  { pose proof (grid_unit g ltac:(lia)). destruct s; cbn [signed] in Hv; nia. }
  assert (m = Z.abs l * 2 ^ (1074 - h)) as ->.
  { pose proof (grid_unit h ltac:(lia)). destruct t; cbn [signed] in Hw; nia. }
  assert (2 ^ (1074 - g) * 2 ^ (1074 - h) = 2 ^ (1074 - (g + h)) * one_scaled) as E.
  { unfold one_scaled. rewrite <- !Z.pow_add_r by lia. f_equal. lia. }
  pose proof (grid_unit (g + h) ltac:(lia)) as Hu.
  assert (round (xorb s t) (Z.abs j * 2 ^ (1074 - g) * (Z.abs l * 2 ^ (1074 - h))) one_scaled =
          Fin (xorb s t) (Z.abs (j * l) * 2 ^ (1074 - (g + h)))) as ->.
  { replace (Z.abs j * 2 ^ (1074 - g) * (Z.abs l * 2 ^ (1074 - h)))
      with (Z.abs (j * l) * 2 ^ (1074 - (g + h)) * one_scaled).
    2: { rewrite Z.abs_mul, <- Z.mul_assoc, <- E. ring. }
    apply round_grid; [lia | lia | apply one_scaled_pos]. }
  eexists _, _. split_and!; [done | apply Z.mul_nonneg_nonneg; lia|].
  assert (signed (xorb s t) (Z.abs (j * l)) = j * l) as Hs.
  { pose proof (grid_unit g ltac:(lia)). pose proof (grid_unit h ltac:(lia)).
    assert (forall u, 0 < u -> forall b z, signed b (Z.abs z * u) = z * u -> signed b (Z.abs z) = z) as Hc.
    { intros u Hpos b z. destruct b; cbn [signed]; nia. }
    apply Hc in Hv; [|done]. apply Hc in Hw; [|done].
    rewrite Z.abs_mul. destruct s, t; cbn [signed xorb] in *; nia. }
  rewrite <- Hs at 2. destruct (xorb s t); cbn [signed]; ring.
Qed.

(** ** The cell of a coordinate: [int(math.Floor(x / c))] is monotone in [x] *)
Definition f_cell (overflow : f64 -> Z) (x c : f64) : Z := f_to_int overflow (f_floor (f_div x c)).

Lemma representable_one j : 0 <= j < 2 ^ 53 -> representable (j * one_scaled).
Proof. intros. apply representable_shift; lia. Qed.

Lemma f_cell_value overflow s k l :
  0 <= k <= 2 ^ 52 * l -> 0 < l ->
  f_cell overflow (Fin s k) (Fin false l) = signed s (round_int (k * one_scaled) l) / one_scaled /\
  0 <= round_int (k * one_scaled) l <= 2 ^ 52 * one_scaled.
Proof.
  intros Hk Hl. pose proof one_scaled_pos as H1. set (r := round_int (k * one_scaled) l).
  assert (0 <= r <= 2 ^ 52 * one_scaled) as Hr.
  { split; [apply round_int_nonneg; nia|].
    rewrite <- (round_int_exact (2 ^ 52 * one_scaled) l) by (lia || apply representable_one; lia).
    apply round_int_mono; nia. }
  split; [|done]. unfold f_cell, f_div. rewrite (proj2 (Z.eqb_neq l 0)) by lia.
  unfold round. fold r. rewrite xorb_false_r.
  rewrite (proj2 (Z.ltb_lt r max_scaled)).
  2: { unfold max_scaled. rewrite Z.pow_add_r by lia. change (2 ^ 1074) with one_scaled.
       assert (2 ^ 52 < 2 ^ 1024) by (apply Z.pow_lt_mono_r; lia). nia. }
  cbn [f_floor f_to_int]. rewrite Z.div_mul by lia.
  assert (signed s (Z.abs (signed s r / one_scaled)) = signed s r / one_scaled) as ->.
  { destruct s; cbn [signed].
    - pose proof (Z.div_le_upper_bound (- r) one_scaled 0 H1). lia.
    - pose proof (Z.div_pos r one_scaled). lia. }
  rewrite decide_True; [done|]. unfold in_i64.
  assert (- 2 ^ 52 <= signed s r / one_scaled <= 2 ^ 52); [|lia]. split.
  - apply Z.div_le_lower_bound; [done|]. rewrite Z.mul_comm, Z.mul_opp_l. destruct s; cbn [signed]; lia.
  - apply Z.div_le_upper_bound; [done|]. rewrite Z.mul_comm. destruct s; cbn [signed]; lia.
Qed.

Lemma quotient_mono k m l :
  0 <= k <= m -> 0 < l -> round_int (k * one_scaled) l <= round_int (m * one_scaled) l.
Proof.
  intros Hk Hl. pose proof one_scaled_pos. apply round_int_mono;
    [apply Z.mul_nonneg_nonneg; lia | apply Z.mul_nonneg_nonneg; lia | done | done |].
  apply Z.mul_le_mono_nonneg_r; [lia|]. apply Z.mul_le_mono_nonneg_r; lia.
Qed.

Lemma f_cell_mono overflow s k t m l :
  0 <= k <= 2 ^ 52 * l -> 0 <= m <= 2 ^ 52 * l -> 0 < l -> signed s k <= signed t m ->
  f_cell overflow (Fin s k) (Fin false l) <= f_cell overflow (Fin t m) (Fin false l).
Proof.
  intros Hk Hm Hl Hle. pose proof one_scaled_pos as H1.
  destruct (f_cell_value overflow s k l Hk Hl) as [-> Hr].
  destruct (f_cell_value overflow t m l Hm Hl) as [-> Hr'].
  apply Z.div_le_mono; [done|].
  destruct s, t; cbn [signed] in *.
  - apply Z.opp_le_mono. rewrite !Z.opp_involutive. apply quotient_mono; lia.
  - lia.
  - assert (k = 0) as -> by lia. assert (m = 0) as -> by lia.
    rewrite Z.mul_0_l. pose proof (round_int_exact 0 l Hl (Z.divide_0_r _)) as E. rewrite Z.mul_0_l in E. by rewrite E.
  - apply quotient_mono; lia.
Qed.

(** ** Bits *)
Lemma bits_fields s e m :
  0 <= e < 2 ^ 11 -> 0 <= m < 2 ^ 52 ->
  let b := (if s : bool then 2 ^ 63 else 0) + (e * 2 ^ 52 + m) in
  Z.testbit b 63 = s /\ Z.land (Z.shiftr b 52) 2047 = e /\ Z.land b (2 ^ 52 - 1) = m.
Proof.
  intros He Hm b. set (k := if s then 1 else 0).
  assert (b = (k * 2 ^ 11 + e) * 2 ^ 52 + m) as Hb by (unfold b, k; destruct s; lia).
  clearbody b. subst b. split_and!.
  - pose proof (Z.testbit_spec' ((k * 2 ^ 11 + e) * 2 ^ 52 + m) 63 ltac:(lia)) as H.
    replace (((k * 2 ^ 11 + e) * 2 ^ 52 + m) / 2 ^ 63) with k in H.
    + unfold k in *. destruct s; destruct (Z.testbit _ _); simpl in H; done.
    + apply Z.div_unique with (e * 2 ^ 52 + m); lia.
  - rewrite Z.shiftr_div_pow2, Z.div_add_l, (Z.div_small m) by lia.
    change 2047 with (Z.ones 11). rewrite Z.land_ones, Z.add_0_r by lia.
    rewrite Z.add_comm, Z.mod_add, Z.mod_small by lia. done.
  - change (2 ^ 52 - 1) with (Z.ones 52). rewrite Z.land_ones by lia.
    rewrite Z.add_comm, Z.mod_add, Z.mod_small by lia. done.
Qed.

Lemma f_of_bits_f_bits x :
  match x with Fin _ k => 0 <= k < max_scaled /\ representable k | _ => True end -> f_of_bits (f_bits x) = x.
Proof.
  destruct x as [|s|s k].
  - intros _. reflexivity.
  - intros _. by destruct s.
  - intros [[H0 Hmax] [q Hq]]. unfold f_bits. destruct (Z.ltb_spec k (2 ^ 52)).
    + destruct (bits_fields s 0 k) as (H1 & H2 & H3); [lia | lia |]. unfold f_of_bits.
      rewrite Z.mul_0_l, Z.add_0_l in *. by rewrite H1, H2, H3.
    + set (e := last_place k) in *.
      assert (Z.log2 k < 2098) as Hlog by (apply Z.log2_lt_pow2; [lia | exact Hmax]).
      assert (52 <= Z.log2 k) as Hlog2 by (apply Z.log2_le_pow2; lia).
      assert (e = Z.log2 k - 52) as He by (unfold e, last_place; lia).
      assert (0 < 2 ^ e) as Hp by (apply Z.pow_pos_nonneg; lia).
      assert (k / 2 ^ e = q) as Hdiv by (rewrite Hq, Z.div_mul by lia; done).
      pose proof (Z.log2_spec k ltac:(lia)) as [Hl1 Hl2].
      assert (2 ^ 52 <= q < 2 ^ 53) as Hqb.
      { assert (2 ^ Z.log2 k = 2 ^ 52 * 2 ^ e) as E1 by (rewrite <- Z.pow_add_r by lia; f_equal; lia).
        assert (2 ^ Z.succ (Z.log2 k) = 2 ^ 53 * 2 ^ e) as E2 by (rewrite <- Z.pow_add_r by lia; f_equal; lia).
        rewrite E1, Hq in Hl1. rewrite E2, Hq in Hl2.
        split; [by apply (Z.mul_le_mono_pos_r _ _ (2 ^ e)) | by apply (Z.mul_lt_mono_pos_r (2 ^ e))]. }
      rewrite Hdiv.
      destruct (bits_fields s (e + 1) (q - 2 ^ 52)) as (H1 & H2 & H3); [lia | lia |]. unfold f_of_bits.
      rewrite H1, H2, H3. rewrite (proj2 (Z.eqb_neq _ _)) by lia. rewrite (proj2 (Z.eqb_neq _ _)) by lia.
      f_equal. rewrite Hq. f_equal; [lia | f_equal; lia].
Qed.

(** ** Agreement with the bits: 0.1 + 0.2, 1 / 3, and the conversion of 2^53 + 1 *)
Example f_add_tenths :
  f_add (f_of_bits 0x3fb999999999999a) (f_of_bits 0x3fc999999999999a) = f_of_bits 0x3fd3333333333334.
Proof. vm_compute. reflexivity. Qed.
Example f_div_third : f_div (f_of_Z 1) (f_of_Z (-3)) = f_of_bits 0xbfd5555555555555.
Proof. vm_compute. reflexivity. Qed.
Example f_of_Z_even : f_of_Z (2 ^ 53 + 1) = f_of_Z (2 ^ 53).
Proof. vm_compute. reflexivity. Qed.
Example f_mul_underflow : f_mul (f_of_bits 0x0010000000000000) (f_of_bits 0x3fe0000000000000) = f_of_bits 0x0008000000000000.
Proof. vm_compute. reflexivity. Qed.
Example f_floor_negative : f_floor (f_of_bits 0xbfb999999999999a) = f_of_Z (-1).
Proof. vm_compute. reflexivity. Qed.

(** ** Durations and magnitudes *)

(** [Duration.Seconds] on nanoseconds. *)
Definition Seconds (d : Z) : f64 :=
  f_add (f_of_Z (Z.quot d 1000000000)) (f_div (f_of_Z (Z.rem d 1000000000)) (f_of_Z 1000000000)).

Lemma representable_round n d : 0 <= n -> 0 < d -> representable (round_int n d).
Proof.
  intros Hn Hd. unfold round_int. set (e := last_place (n / d)).
  assert (0 <= e) as He by apply last_place_nonneg.
  assert (0 < 2 ^ e) by (apply Z.pow_pos_nonneg; lia).
  pose proof (Z.div_pos n d Hn Hd) as Hq. pose proof (last_place_upper (n / d) Hq) as Hup. fold e in Hup.
  pose proof (rnd_even_bounds n (d * 2 ^ e) ltac:(nia)) as Hb.
  assert (n / (d * 2 ^ e) < 2 ^ 53).
  { rewrite <- Z.div_div by lia. apply Z.div_lt_upper_bound; [done|]. rewrite <- Z.pow_add_r by lia.
    by rewrite Z.add_comm. }
  assert (0 <= n / (d * 2 ^ e)) by (apply Z.div_pos; nia).
  destruct (Z.eq_dec (rnd_even n (d * 2 ^ e)) (2 ^ 53)) as [->|Hne].
  - rewrite <- Z.pow_add_r, <- (Z.mul_1_l (2 ^ _)) by lia. apply representable_shift; lia.
  - apply representable_shift; lia.
Qed.

(** [x] is a float, finite, not negative, and at most 2^[p]. *)
Definition nonneg_upto (p : Z) (x : f64) : Prop :=
  exists k, x = Fin false k /\ 0 <= k <= 2 ^ p * one_scaled /\ representable k.

Lemma round_upto n d p :
  0 <= n <= 2 ^ p * one_scaled * d -> 0 < d -> 0 <= p < 1000 -> nonneg_upto p (round false n d).
Proof.
  intros Hn Hd Hp. pose proof one_scaled_pos as H1.
  assert (0 <= round_int n d <= 2 ^ p * one_scaled) as Hr.
  { split; [apply round_int_nonneg; lia|].
    assert (representable (2 ^ p * one_scaled)) as Hrep.
    { unfold one_scaled. rewrite <- Z.pow_add_r by lia. rewrite <- (Z.mul_1_l (2 ^ _)).
      apply representable_shift; lia. }
    rewrite <- (round_int_exact (2 ^ p * one_scaled) d Hd Hrep). apply round_int_mono; [lia | lia | lia | lia |].
    apply Z.mul_le_mono_nonneg_r; lia. }
  assert (0 <= n).
  { destruct Hn as [Hn _]. done. }
  exists (round_int n d). split; [|split; [done | by apply representable_round]]. unfold round. rewrite (proj2 (Z.ltb_lt _ _)); [done|].
  unfold max_scaled. rewrite Z.pow_add_r by lia. change (2 ^ 1074) with one_scaled.
  assert (2 ^ p < 2 ^ 1024) by (apply Z.pow_lt_mono_r; lia). nia.
Qed.

Lemma f_of_Z_upto z p : 0 <= z <= 2 ^ p -> 0 <= p < 1000 -> nonneg_upto p (f_of_Z z).
Proof.
  intros Hz Hp. unfold f_of_Z. rewrite (proj2 (Z.ltb_ge z 0)), Z.abs_eq by lia.
  pose proof one_scaled_pos. apply round_upto; [|lia|done]. nia.
Qed.

Lemma f_add_upto x y p : nonneg_upto p x -> nonneg_upto p y -> 0 <= p < 999 -> nonneg_upto (p + 1) (f_add x y).
Proof.
  intros (k & -> & Hk & _) (l & -> & Hl & _) Hp. cbn [f_add signed andb]. pose proof one_scaled_pos.
  destruct (Z.eqb_spec (k + l) 0).
  - exists 0. split_and!; [done | done | | apply Z.divide_0_r].
    apply Z.mul_nonneg_nonneg; [apply Z.pow_nonneg; lia | lia].
  - rewrite (proj2 (Z.ltb_ge _ _)), Z.abs_eq by lia. apply round_upto; [|lia | lia].
    rewrite Z.pow_add_r by lia. lia.
Qed.

Lemma f_mul_upto x y p q :
  nonneg_upto p x -> nonneg_upto q y -> 0 <= p -> 0 <= q -> p + q < 1000 -> nonneg_upto (p + q) (f_mul x y).
Proof.
  intros (k & -> & Hk & _) (l & -> & Hl & _) Hp Hq Hpq. cbn [f_mul xorb]. apply round_upto; [|apply one_scaled_pos | lia].
  rewrite Z.pow_add_r by lia. split; [apply Z.mul_nonneg_nonneg; lia|].
  transitivity ((2 ^ p * one_scaled) * (2 ^ q * one_scaled)); [apply Z.mul_le_mono_nonneg; lia|].
  apply Z.eq_le_incl. ring.
Qed.

Lemma nanoseconds_upto r :
  0 <= r < 1000000000 -> nonneg_upto 64 (f_div (f_of_Z r) (f_of_Z 1000000000)).
Proof.
  intros Hr. destruct (f_of_Z_upto r 30 ltac:(lia) ltac:(lia)) as (k & -> & Hk & _).
  assert (f_of_Z 1000000000 = Fin false (1000000000 * one_scaled)) as -> by (vm_compute; reflexivity).
  cbn [f_div xorb]. pose proof one_scaled_pos.
  rewrite (proj2 (Z.eqb_neq _ 0)) by lia. apply round_upto; [|lia | lia].
  split; [apply Z.mul_nonneg_nonneg; lia|]. nia.
Qed.

Lemma Seconds_parts d :
  0 <= d < 2 ^ 63 -> 0 <= Z.quot d 1000000000 <= 2 ^ 64 /\ 0 <= Z.rem d 1000000000 < 1000000000.
Proof.
  intros Hd. split; [|apply Z.rem_bound_pos; lia]. split; [by apply Z.quot_pos; lia|].
  rewrite Z.quot_div_nonneg by lia. transitivity d; [apply Z.div_le_upper_bound; lia | lia].
Qed.

Lemma Seconds_upto d : 0 <= d < 2 ^ 63 -> nonneg_upto 65 (Seconds d).
Proof.
  intros Hd. destruct (Seconds_parts d Hd). unfold Seconds.
  apply (f_add_upto _ _ 64); [by apply f_of_Z_upto | by apply nanoseconds_upto | done].
Qed.

(** *** Lower bounds: a rounded result is at least each float that the exact one is. *)
Lemma round_lower m n d x :
  0 <= m -> representable m -> 0 < d -> m * d <= n -> round false n d = Fin false x -> m <= x.
Proof.
  intros Hm Hr Hd Hle. unfold round. destruct (_ <? _); [|done]. intros [= <-].
  rewrite <- (round_int_exact m d) by done. apply round_int_mono; nia.
Qed.

Lemma f_add_lower k l m x :
  0 <= k -> 0 <= l -> 0 <= m <= k + l -> representable m ->
  f_add (Fin false k) (Fin false l) = Fin false x -> m <= x.
Proof.
  intros Hk Hl Hle Hm. cbn [f_add signed andb]. destruct (Z.eqb_spec (k + l) 0) as [E|_].
  - intros [= <-]. lia.
  - rewrite (proj2 (Z.ltb_ge _ _)), Z.abs_eq by lia. apply round_lower; done || lia.
Qed.

Lemma one_representable : representable one_scaled.
Proof. rewrite <- (Z.mul_1_l one_scaled). by apply representable_one. Qed.

(** A duration of a second or more is at least 1. *)
Lemma Seconds_lower d k : 1000000000 <= d < 2 ^ 63 -> Seconds d = Fin false k -> one_scaled <= k.
Proof.
  intros Hd. destruct (Seconds_parts d ltac:(lia)) as [Hq Hr]. unfold Seconds.
  assert (1 <= Z.quot d 1000000000) by (apply Z.quot_le_lower_bound; lia).
  destruct (f_of_Z_upto (Z.quot d 1000000000) 64 Hq ltac:(lia)) as (q & Eq & Hq0 & _).
  destruct (nanoseconds_upto _ Hr) as (r & -> & Hr0 & _). pose proof one_scaled_pos as H1.
  assert (one_scaled <= q) as Hle.
  { unfold f_of_Z in Eq. rewrite (proj2 (Z.ltb_ge _ _)), Z.abs_eq in Eq by lia.
    refine (round_lower one_scaled _ _ q _ one_representable _ _ Eq); nia. }
  rewrite Eq. apply f_add_lower; try lia. apply one_representable.
Qed.

(** *** Exact operations *)
Lemma f_of_Z_exact z : 0 <= z < 2 ^ 53 -> f_of_Z z = Fin false (z * one_scaled).
Proof.
  intros Hz. unfold f_of_Z. rewrite (proj2 (Z.ltb_ge z 0)), Z.abs_eq by lia.
  pose proof one_scaled_pos as H1. pose proof (round_int_exact _ 1 ltac:(lia) (representable_one _ Hz)) as Hr.
  rewrite Z.mul_1_r in Hr. unfold round. rewrite Hr, (proj2 (Z.ltb_lt _ _)); [done|].
  unfold max_scaled. rewrite Z.pow_add_r by lia. change (2 ^ 1074) with one_scaled.
  apply Z.mul_lt_mono_pos_r; [done|]. etrans; [apply Hz|]. apply Z.pow_lt_mono_r; lia.
Qed.

Lemma round_exact k : 0 <= k < max_scaled -> representable k -> round false k 1 = Fin false k.
Proof.
  intros Hk Hr. unfold round. pose proof (round_int_exact k 1 ltac:(lia) Hr) as He.
  rewrite Z.mul_1_r in He. by rewrite He, (proj2 (Z.ltb_lt _ _)) by lia.
Qed.

(** Adding zero, and taking an integer from a larger float. *)
Lemma f_add_zero k : 0 <= k < max_scaled -> representable k -> f_add (Fin false k) f_zero = Fin false k.
Proof.
  intros Hk Hr. cbn [f_add f_zero signed andb]. rewrite Z.add_0_r. destruct (Z.eqb_spec k 0) as [->|]; [done|].
  rewrite (proj2 (Z.ltb_ge _ _)), Z.abs_eq by lia. by apply round_exact.
Qed.

Lemma f_sub_exact k z :
  0 <= z * one_scaled <= k -> k < 2 ^ 53 * one_scaled -> representable k ->
  f_sub (Fin false k) (Fin false (z * one_scaled)) = Fin false (k - z * one_scaled) /\
  representable (k - z * one_scaled).
Proof.
  intros Hz Hk Hr. pose proof one_scaled_pos as H1.
  assert (representable (k - z * one_scaled)) as Hr'.
  { destruct (Z.eq_dec (k - z * one_scaled) 0) as [->|Hne]; [apply Z.divide_0_r|].
    assert (last_place (k - z * one_scaled) <= last_place k) as Hle by (apply last_place_mono; lia).
    assert (last_place k <= 1074) as Hone.
    { unfold last_place. assert (Z.log2 k < 53 + 1074); [|lia].
      destruct (Z.eq_dec k 0) as [->|]; [by vm_compute|].
      apply Z.log2_lt_pow2; [lia|]. rewrite Z.pow_add_r by lia. done. }
    assert (forall a b, 0 <= a <= b -> (2 ^ a | 2 ^ b)) as Hpow.
    { intros a b Hab. exists (2 ^ (b - a)). rewrite <- Z.pow_add_r by lia. f_equal. lia. }
    pose proof (last_place_nonneg (k - z * one_scaled)) as Hn.
    unfold representable. apply Z.divide_sub_r.
    - etrans; [|exact Hr]. apply Hpow. lia.
    - apply Z.divide_mul_r. apply Hpow. lia. }
  split; [|done]. unfold f_sub. cbn [f_neg f_add signed negb andb].
  replace (k + - (z * one_scaled)) with (k - z * one_scaled) by lia.
  destruct (Z.eqb_spec (k - z * one_scaled) 0) as [->|Hne]; [done|].
  rewrite (proj2 (Z.ltb_ge _ _)), Z.abs_eq by lia. apply round_exact; [|done].
  split; [lia|]. unfold max_scaled. rewrite Z.pow_add_r by lia. change (2 ^ 1074) with one_scaled.
  assert (2 ^ 53 < 2 ^ 1024) by (apply Z.pow_lt_mono_r; lia). nia.
Qed.
