(* ===== verification/Buffer.v ===== *)
(** * Buffers: the primitive fields of the wire format

    [network/wire.go] lines 1316-1430: the [write*]/[read*] helpers over
    [bytes.Buffer] and [bytes.Reader].  A [Writer] threads the bytes already
    written; a [Parser] threads the unread suffix.  [reader_Read] is
    [bytes.Reader.Read] exactly: it fails with [io.EOF] only when nothing is
    left, even for an empty destination, and otherwise may return fewer bytes
    than asked for without an error.  *)
From S2P Require Import Prelude.

(** ** Writers *)
Definition Writer := bytes -> result bytes.

Definition w_seq (w1 w2 : Writer) : Writer := fun buf => let! buf' := w1 buf in w2 buf'.
Definition w_skip : Writer := fun buf => Ok buf.
Definition w_fail (e : GoError) : Writer := fun _ => Err e.
Infix ";;;" := w_seq (at level 62, right associativity) : go_scope.

(** [bytes.Buffer.Write], [WriteByte], [WriteString]: never fail. *)
Definition w_bytes (bs : bytes) : Writer := fun buf => Ok (buf ++ bs).
Definition WriteByte (b : Z) : Writer := w_bytes [byte_of_Z b].

Fixpoint w_all (ws : list Writer) : Writer :=
  match ws with
  | [] => w_skip
  | w :: r => w ;;; w_all r
  end.

(** The bytes of a fresh [bytes.Buffer{}] after [w]. *)
Definition w_run (w : Writer) : result bytes := w [].

(** ** Readers *)
Definition Reader := bytes.
Definition Parser (A : Type) := Reader -> result (A * Reader).

Definition p_ret {A} (a : A) : Parser A := fun r => Ok (a, r).
Definition p_fail {A} (e : GoError) : Parser A := fun _ => Err e.
Definition p_bind {A B} (p : Parser A) (k : A -> Parser B) : Parser B :=
  fun r => let! (a, r') := p r in k a r'.
Notation "'let*' x ':=' p 'in' k" := (p_bind p (fun x => k))
  (at level 10, x pattern, p at level 100, k at level 200) : go_scope.

(** [reader.Len()]. *)
Definition reader_Len : Parser Z := fun r => Ok (zlen r, r).

(** [reader.Read(make([]byte, n))]: the destination, zero where not filled. *)
Definition reader_Read (n : nat) : Parser bytes := fun r =>
  match r with
  | [] => Err ErrEOF
  | _ => Ok (take n r ++ replicate (n - length r) x00, drop n r)
  end.

Definition reader_ReadByte : Parser Z := fun r =>
  match r with
  | [] => Err ErrEOF
  | b :: r' => Ok (Z_of_byte b, r')
  end.

(** [value, err := p; if err != nil { return e }]: the error is replaced. *)
Definition p_or {A} (p : Parser A) (e : GoError) : Parser A := fun r =>
  match p r with Ok x => Ok x | Err _ => Err e end.

(** [value, _ := p]: on an error the zero value is used and, since the only
    failing read is the one at the end of the input, nothing is consumed. *)
Definition p_ignore (p : Parser Z) : Parser Z := fun r =>
  match p r with Ok x => Ok x | Err _ => Ok (0, r) end.

(** [if reader.Len() != 0 { return e }; return value]. *)
Definition p_end {A} (e : GoError) (a : A) : Parser A :=
  let* n := reader_Len in if negb (n =? 0) then p_fail e else p_ret a.

(** A whole-payload decoder: the reader is dropped at the end. *)
Definition p_run {A} (p : Parser A) (payload : bytes) : result A :=
  let! (a, _) := p payload in Ok a.

(** [for index := 0; index < n; index++ { acc = step(acc) }]. *)
Fixpoint p_loop {A} (n : nat) (step : A -> Parser A) (acc : A) : Parser A :=
  match n with
  | O => p_ret acc
  | S m => let* acc' := step acc in p_loop m step acc'
  end.

(** ** wire.go: the field helpers *)
Definition writeUint16 (value : Z) : Writer := w_bytes (be_bytes 2 value).
Definition writeUint32 (value : Z) : Writer := w_bytes (be_bytes 4 value).
Definition writeUint64 (value : Z) : Writer := w_bytes (be_bytes 8 value).

Definition readUintN (n : nat) : Parser Z :=
  let* data := p_or (reader_Read n) ErrMalformedWirePayload in p_ret (be_value data).
Definition readUint16 : Parser Z := readUintN 2.
Definition readUint32 : Parser Z := readUintN 4.
Definition readUint64 : Parser Z := readUintN 8.

(** Floats travel as their IEEE 754 bit patterns ([math.Float32bits] and
    [math.Float64bits] are the identity on the patterns the model keeps). *)
Definition writeFloat32 (bits : Z) : Writer := writeUint32 bits.
Definition readFloat32 : Parser Z := readUint32.
Definition writeFloat64 (bits : Z) : Writer := writeUint64 bits.
Definition readFloat64 : Parser Z := readUint64.

Definition writeString (value : string) (maxBytes : Z) : Writer :=
  if (maxBytes <? slen value) || (65535 <? slen value) then w_fail ErrWireStringTooLarge
  else writeUint16 (slen value) ;;; w_bytes (bytes_of_string value).

Definition readString (maxBytes : Z) : Parser string :=
  let* length := readUint16 in
  if maxBytes <? length then p_fail ErrWireStringTooLarge else
  let* remaining := reader_Len in
  if remaining <? length then p_fail ErrMalformedWirePayload else
  let* data := reader_Read (Z.to_nat length) in
  p_ret (string_of_bytes data).

Definition writeBytes (value : bytes) : Writer := writeUint32 (zlen value) ;;; w_bytes value.

Definition readBytes (maxBytes : Z) : Parser bytes :=
  let* length := readUint32 in
  if maxBytes <? length then p_fail ErrWireMessageTooLarge else
  let* remaining := reader_Len in
  if remaining <? length then p_fail ErrMalformedWirePayload else
  reader_Read (Z.to_nat length).

(** ** Reading back what was written

    The lemmas below are the interface of this file: [write_*] say what a
    writer appends, [read_*] what the matching reader does on those bytes
    followed by [rest].  Both are rewrite rules of the database [wire]. *)
Create Rewrite HintDb wire.

Lemma p_bind_ok {A B} (p : Parser A) (k : A -> Parser B) r a r' :
  p r = Ok (a, r') -> p_bind p k r = k a r'.
Proof. unfold p_bind. intros ->. done. Qed.

Lemma p_bind_err {A B} (p : Parser A) (k : A -> Parser B) r e :
  p r = Err e -> p_bind p k r = Err e.
Proof. unfold p_bind. intros ->. done. Qed.

Lemma p_bind_inv {A B} (p : Parser A) (k : A -> Parser B) r b r'' :
  p_bind p k r = Ok (b, r'') -> exists a r', p r = Ok (a, r') /\ k a r' = Ok (b, r'').
Proof. unfold p_bind. destruct (p r) as [[a r']|]; simpl; [eauto | discriminate]. Qed.

Lemma w_seq_ok w1 w2 buf buf' : w1 buf = Ok buf' -> (w1 ;;; w2) buf = w2 buf'.
Proof. unfold w_seq. intros ->. done. Qed.

Lemma w_seq_inv w1 w2 buf buf'' :
  (w1 ;;; w2) buf = Ok buf'' -> exists buf', w1 buf = Ok buf' /\ w2 buf' = Ok buf''.
Proof. apply rbind_ok_inv. Qed.

Lemma w_seq_assoc w1 w2 w3 buf : ((w1 ;;; w2) ;;; w3) buf = (w1 ;;; (w2 ;;; w3)) buf.
Proof. unfold w_seq. by destruct (w1 buf). Qed.

Lemma write_bytes_ok bs w buf : (w_bytes bs ;;; w) buf = w (buf ++ bs).
Proof. done. Qed.

(** A writer [w] that never fails and appends [bs]. *)
Definition appends (w : Writer) (bs : bytes) : Prop := forall buf, w buf = Ok (buf ++ bs).

Lemma appends_bytes bs : appends (w_bytes bs) bs.
Proof. done. Qed.

Lemma appends_skip : appends w_skip [].
Proof. intros buf. by rewrite app_nil_r. Qed.

Lemma appends_seq w1 w2 b1 b2 :
  appends w1 b1 -> appends w2 b2 -> appends (w1 ;;; w2) (b1 ++ b2).
Proof. intros H1 H2 buf. rewrite (w_seq_ok _ _ _ _ (H1 buf)), H2. by rewrite app_assoc. Qed.

Lemma appends_run w bs : appends w bs -> w_run w = Ok bs.
Proof. intros H. apply H. Qed.

Lemma appends_all ws bss :
  Forall2 appends ws bss -> appends (w_all ws) (concat bss).
Proof.
  induction 1; simpl; [apply appends_skip | by apply appends_seq].
Qed.

Lemma appends_inj w b1 b2 : appends w b1 -> appends w b2 -> b1 = b2.
Proof. intros H1 H2. specialize (H1 []). rewrite H2 in H1. by injection H1. Qed.

(** A writer that either appends the same bytes to every buffer or fails. *)
Class Appending (w : Writer) : Prop :=
  appending : forall buf bs, w buf = Ok bs -> exists c, bs = buf ++ c /\ appends w c.

Lemma appending_of w c : appends w c -> Appending w.
Proof. intros H buf bs Hb. rewrite H in Hb. exists c. split; [congruence | done]. Qed.

#[export] Instance appending_bytes bs : Appending (w_bytes bs).
Proof. eapply appending_of, appends_bytes. Qed.
#[export] Instance appending_skip : Appending w_skip.
Proof. eapply appending_of, appends_skip. Qed.
#[export] Instance appending_fail e : Appending (w_fail e).
Proof. intros ???. discriminate. Qed.
#[export] Instance appending_seq w1 w2 :
  Appending w1 -> Appending w2 -> Appending (w1 ;;; w2).
Proof.
  intros A1 A2 buf bs H. apply w_seq_inv in H as (b & H1 & H2).
  apply A1 in H1 as (c1 & -> & Hc1). apply A2 in H2 as (c2 & -> & Hc2).
  exists (c1 ++ c2). rewrite app_assoc. split; [done | by apply appends_seq].
Qed.
#[export] Instance appending_if (b : bool) w1 w2 :
  Appending w1 -> Appending w2 -> Appending (if b then w1 else w2).
Proof. by destruct b. Qed.
#[export] Instance appending_string s n : Appending (writeString s n).
Proof. unfold writeString, writeUint16. apply _. Qed.

(** [writes w ok c]: [w] appends [c] to whatever was written when [ok], and
    fails otherwise.  The rules give every encoder its exact specification. *)
Definition writes (w : Writer) (ok : bool) (c : bytes) : Prop :=
  forall buf, if ok then w buf = Ok (buf ++ c) else exists e, w buf = Err e.

Lemma writes_bytes bs : writes (w_bytes bs) true bs.
Proof. done. Qed.
Lemma writes_skip : writes w_skip true [].
Proof. exact appends_skip. Qed.
Lemma writes_fail e c : writes (w_fail e) false c.
Proof. intros buf. by exists e. Qed.

Lemma writes_seq w1 w2 b1 b2 c1 c2 :
  writes w1 b1 c1 -> writes w2 b2 c2 -> writes (w1 ;;; w2) (b1 && b2) (c1 ++ c2).
Proof.
  intros H1 H2 buf. unfold w_seq. specialize (H1 buf). destruct b1; simpl.
  - rewrite H1. simpl. specialize (H2 (buf ++ c1)). by rewrite <- app_assoc in H2.
  - destruct H1 as [e ->]. by exists e.
Qed.

Lemma writes_guard (b : bool) e w ok c :
  writes w ok c -> writes (if b then w_fail e else w) (negb b && ok) c.
Proof. by destruct b; intros H; [intros buf; exists e|]. Qed.

Lemma writes_all {A} (w : A -> Writer) (ok : A -> bool) (c : A -> bytes) l :
  (forall x, x ∈ l -> writes (w x) (ok x) (c x)) ->
  writes (w_all (map w l)) (forallb ok l) (concat (map c l)).
Proof.
  induction l as [|x l IH]; intros H; simpl; [apply writes_skip|].
  apply writes_seq; [apply H; left | apply IH; intros; apply H; by right].
Qed.

Lemma writes_weaken w ok ok' c c' : writes w ok c -> ok = ok' -> c = c' -> writes w ok' c'.
Proof. by intros H -> ->. Qed.

Lemma writes_run w ok c bs : writes w ok c -> w_run w = Ok bs -> ok = true /\ bs = c.
Proof.
  intros H. specialize (H []). unfold w_run. destruct ok.
  - rewrite H. intros [= <-]. done.
  - destruct H as [e ->]. discriminate.
Qed.

Lemma writes_run_ok w c : writes w true c -> w_run w = Ok c.
Proof. intros H. apply (H []). Qed.

(** The bytes of a string field and of a byte-slice field. *)
Definition string_field (s : string) : bytes := be_bytes 2 (slen s) ++ bytes_of_string s.
Definition bytes_field (bs : bytes) : bytes := be_bytes 4 (zlen bs) ++ bs.

Lemma writeString_inv s n buf bs :
  writeString s n buf = Ok bs -> slen s <= n /\ slen s <= 65535 /\ bs = buf ++ string_field s.
Proof.
  unfold writeString, string_field. intros H. go_inv.
  destruct ((n <? slen s) || (65535 <? slen s)) eqn:E; [discriminate|]. zbool.
  unfold w_seq, writeUint16, w_bytes in H. simpl in H. go_inv. by rewrite app_assoc.
Qed.

Lemma writeString_ok s n :
  slen s <= n -> slen s <= 65535 -> appends (writeString s n) (string_field s).
Proof.
  intros H1 H2 buf. unfold writeString.
  destruct (Z.ltb_spec n (slen s)); [lia|]. destruct (Z.ltb_spec 65535 (slen s)); [lia|].
  simpl. by apply appends_seq.
Qed.

Lemma writeString_too_large s n buf :
  n < slen s -> writeString s n buf = Err ErrWireStringTooLarge.
Proof. intros H. unfold writeString. destruct (Z.ltb_spec n (slen s)); [done | lia]. Qed.

Lemma writes_string s n :
  n <= 65535 -> writes (writeString s n) (slen s <=? n) (string_field s).
Proof.
  intros Hn buf. destruct (Z.leb_spec (slen s) n) as [H|H].
  - by apply writeString_ok; [|lia].
  - exists ErrWireStringTooLarge. by apply writeString_too_large.
Qed.

Lemma writeBytes_ok bs : appends (writeBytes bs) (bytes_field bs).
Proof. by apply appends_seq. Qed.

Lemma zlen_string_field s : zlen (string_field s) = 2 + slen s.
Proof. unfold string_field. zlen. lia. Qed.
Lemma zlen_bytes_field bs : zlen (bytes_field bs) = 4 + zlen bs.
Proof. unfold bytes_field. zlen. lia. Qed.
#[export] Hint Rewrite zlen_string_field zlen_bytes_field : zlen.

(** *** Primitive reads *)
Lemma reader_Read_app n bs rest :
  length bs = n -> bs ++ rest <> [] -> reader_Read n (bs ++ rest) = Ok (bs, rest).
Proof.
  intros <- Hne. unfold reader_Read. destruct (bs ++ rest) as [|b r] eqn:E; [done|].
  rewrite <- E, take_app_length, drop_app_length, length_app.
  replace (_ - _)%nat with 0%nat by lia. simpl. by rewrite app_nil_r.
Qed.

Lemma reader_Read_eof n : reader_Read n [] = Err ErrEOF.
Proof. done. Qed.

(** A short read: the destination is padded with zero bytes and no error is
    reported as long as one byte was left. *)
Lemma reader_Read_short n r :
  r <> [] -> (length r <= n)%nat ->
  reader_Read n r = Ok (r ++ replicate (n - length r) x00, []).
Proof.
  intros Hne Hlen. unfold reader_Read. destruct r; [done|].
  rewrite firstn_all2, drop_ge by lia. done.
Qed.

Lemma be_bytes_ne n v rest : (0 < n)%nat -> be_bytes n v ++ rest <> [].
Proof. destruct n; [lia | done]. Qed.

Lemma readUintN_be n v rest :
  (0 < n)%nat -> readUintN n (be_bytes n v ++ rest) = Ok (v mod 2 ^ (8 * Z.of_nat n), rest).
Proof.
  intros Hn. unfold readUintN.
  erewrite p_bind_ok.
  2:{ unfold p_or. rewrite reader_Read_app; [done | apply length_be_bytes | by apply be_bytes_ne]. }
  unfold p_ret. by rewrite be_value_be_bytes.
Qed.

Lemma readUint16_be v rest : in_u16 v -> readUint16 (be_bytes 2 v ++ rest) = Ok (v, rest).
Proof. intros. unfold readUint16. rewrite readUintN_be by lia. by rewrite Z.mod_small. Qed.
Lemma readUint32_be v rest : in_u32 v -> readUint32 (be_bytes 4 v ++ rest) = Ok (v, rest).
Proof. intros. unfold readUint32. rewrite readUintN_be by lia. by rewrite Z.mod_small. Qed.
Lemma readUint64_be v rest : in_u64 v -> readUint64 (be_bytes 8 v ++ rest) = Ok (v, rest).
Proof. intros. unfold readUint64. rewrite readUintN_be by lia. by rewrite Z.mod_small. Qed.

(** A read of an integer that is cut short, but not empty, succeeds: the
    missing low-order bytes are read as zero. *)
Lemma readUintN_short n r :
  r <> [] -> (length r <= n)%nat ->
  readUintN n r = Ok (be_value (r ++ replicate (n - length r) x00), []).
Proof.
  intros Hne Hlen. unfold readUintN. erewrite p_bind_ok; [done|].
  unfold p_or. by rewrite reader_Read_short.
Qed.

Lemma readUintN_eof n : readUintN n [] = Err ErrMalformedWirePayload.
Proof. done. Qed.

Lemma in_u_len n w (z : Z) : 0 <= z -> z <= n -> n < 2 ^ w -> in_u w z.
Proof. unfold in_u. lia. Qed.

(** A string field reads back, except an empty one with nothing after it:
    [bytes.Reader.Read] reports [io.EOF] there. *)
Lemma readString_field s n rest :
  slen s <= n -> slen s <= 65535 ->
  readString n (string_field s ++ rest) =
    if decide (bytes_of_string s ++ rest = []) then Err ErrEOF else Ok (s, rest).
Proof.
  intros H1 H2. pose proof (slen_nonneg s). unfold readString, string_field. rewrite <- app_assoc.
  erewrite p_bind_ok by (apply readUint16_be; unfold in_u; lia).
  destruct (Z.ltb_spec n (slen s)); [lia|]. unfold reader_Len at 1.
  erewrite p_bind_ok by done. zlen. destruct (Z.ltb_spec (slen s + zlen rest) (slen s)).
  { pose proof (zlen_nonneg rest). lia. }
  destruct (decide (bytes_of_string s ++ rest = [])) as [e|ne].
  - rewrite e. done.
  - erewrite p_bind_ok.
    2:{ apply reader_Read_app; [|done]. rewrite length_bytes_of_string. unfold slen. lia. }
    unfold p_ret. by rewrite string_bytes_of_string.
Qed.

Lemma readString_field_ok s n rest :
  slen s <= n -> slen s <= 65535 -> (s <> ""%string \/ rest <> []) ->
  readString n (string_field s ++ rest) = Ok (s, rest).
Proof.
  intros H1 H2 H3. rewrite readString_field by done. rewrite decide_False; [done|].
  intros [E1 E2]%app_nil. rewrite bytes_of_string_nil in E1. by destruct H3.
Qed.

Lemma readBytes_field bs n rest :
  zlen bs <= n -> in_u32 (zlen bs) ->
  readBytes n (bytes_field bs ++ rest) =
    if decide (bs ++ rest = []) then Err ErrEOF else Ok (bs, rest).
Proof.
  intros H1 H2. unfold readBytes, bytes_field. rewrite <- app_assoc.
  erewrite p_bind_ok by (by apply readUint32_be).
  destruct (Z.ltb_spec n (zlen bs)); [lia|]. unfold reader_Len at 1.
  erewrite p_bind_ok by done. zlen. destruct (Z.ltb_spec (zlen bs + zlen rest) (zlen bs)).
  { pose proof (zlen_nonneg rest). lia. }
  destruct (decide (bs ++ rest = [])) as [e|ne]; [by rewrite e|].
  apply reader_Read_app; [|done]. unfold zlen. lia.
Qed.

(** Decoding is deterministic in its prefix: what a parser consumes. *)
Lemma p_run_ok {A} (p : Parser A) payload a r : p payload = Ok (a, r) -> p_run p payload = Ok a.
Proof. unfold p_run. intros ->. done. Qed.

Lemma p_run_err {A} (p : Parser A) payload e : p payload = Err e -> p_run p payload = Err e.
Proof. unfold p_run. intros ->. done. Qed.

Lemma p_end_nil {A} e (a : A) : p_end e a [] = Ok (a, []).
Proof. done. Qed.

Lemma p_end_inv {A} e (a b : A) r r' : p_end e a r = Ok (b, r') -> a = b /\ r = [] /\ r' = [].
Proof.
  unfold p_end, reader_Len, p_bind. simpl. destruct (Z.eqb_spec (zlen r) 0) as [E|E]; simpl.
  - apply zlen_0 in E. subst. unfold p_ret. intros [= -> <-]. done.
  - discriminate.
Qed.

(** ** Tactics for codecs *)

(** Invert a successful run of a writer: the side conditions of each field and
    the bytes produced. *)
Ltac w_inv :=
  repeat match goal with
  | H : (_ ;;; _) _ = Ok _ |- _ =>
      let b := fresh "buf" in let H1 := fresh "Hw" in
      apply w_seq_inv in H as (b & H1 & H)
  | H : writeString _ _ _ = Ok _ |- _ =>
      let H1 := fresh "Hs" in let H2 := fresh "Hs" in
      apply writeString_inv in H as (H1 & H2 & ->)
  | H : writeBytes _ _ = Ok _ |- _ => rewrite writeBytes_ok in H
  | H : w_bytes _ _ = Ok _ |- _ => injection H as <-
  | H : writeUint16 _ _ = Ok _ |- _ => injection H as <-
  | H : writeUint32 _ _ = Ok _ |- _ => injection H as <-
  | H : writeUint64 _ _ = Ok _ |- _ => injection H as <-
  | H : writeFloat32 _ _ = Ok _ |- _ => injection H as <-
  | H : writeFloat64 _ _ = Ok _ |- _ => injection H as <-
  | H : WriteByte _ _ = Ok _ |- _ => injection H as <-
  | H : w_skip _ = Ok _ |- _ => injection H as <-
  | H : w_run _ = Ok _ |- _ => unfold w_run in H
  | H : Ok _ = Ok _ |- _ => injection H as <-
  end.

(** ** Decoding relations

    [decodes p c a e]: on the bytes [c] followed by anything, [p] consumes [c]
    and returns [a] -- except, when [e] is set, at the very end of the input,
    where it fails with [io.EOF].  [decodes_all] is the same for a decoder that
    has to consume the whole payload. *)
Definition decodes {A} (p : Parser A) (c : bytes) (a : A) (e : bool) : Prop :=
  forall rest, p (c ++ rest) =
    if e && bool_decide (rest = []) then Err ErrEOF else Ok (a, rest).

Definition decodes_all {A} (p : Parser A) (c : bytes) (a : A) (e : bool) : Prop :=
  p c = if e then Err ErrEOF else Ok (a, []).

Lemma decodes_intro {A} (p : Parser A) c a :
  (forall rest, p (c ++ rest) = Ok (a, rest)) -> decodes p c a false.
Proof. intros H rest. apply H. Qed.

Lemma decodes_ret {A} (a : A) : decodes (p_ret a) [] a false.
Proof. by apply decodes_intro. Qed.

Lemma decodes_bind {A B} (p : Parser A) (k : A -> Parser B) c1 c2 a b e1 e2 :
  decodes p c1 a e1 -> decodes (k a) c2 b e2 -> (e1 = false \/ c2 <> []) ->
  decodes (p_bind p k) (c1 ++ c2) b e2.
Proof.
  intros H1 H2 Hne rest. rewrite <- app_assoc. erewrite p_bind_ok; [apply H2|].
  rewrite H1. destruct Hne as [->|Hne]; [done|].
  rewrite bool_decide_false; [by rewrite andb_false_r|]. intros [??]%app_nil. done.
Qed.

Lemma decodes_bind_end {A B} (p : Parser A) (k : A -> Parser B) c a b e :
  decodes p c a e -> decodes (k a) [] b false -> decodes (p_bind p k) c b e.
Proof.
  intros H1 H2 rest. unfold p_bind. rewrite H1.
  destruct (e && bool_decide (rest = [])); [done|]. simpl. apply (H2 rest).
Qed.

Lemma decodes_or {A} (p : Parser A) c a err : decodes p c a false -> decodes (p_or p err) c a false.
Proof. intros H rest. unfold p_or. by rewrite H. Qed.

Lemma decodes_ignore p c a : decodes p c a false -> decodes (p_ignore p) c a false.
Proof. intros H rest. unfold p_ignore. by rewrite H. Qed.

Lemma decodes_all_of {A} (p : Parser A) c a e : decodes p c a e -> decodes_all p c a e.
Proof. intros H. unfold decodes_all. rewrite <- (app_nil_r c) at 1. rewrite H. by destruct e. Qed.

Lemma decodes_all_bind {A B} (p : Parser A) (k : A -> Parser B) c1 c2 a b e1 e2 :
  decodes p c1 a e1 -> decodes_all (k a) c2 b e2 -> (e1 = false \/ c2 <> []) ->
  decodes_all (p_bind p k) (c1 ++ c2) b e2.
Proof.
  intros H1 H2 Hne. unfold decodes_all. erewrite p_bind_ok; [apply H2|].
  rewrite H1. destruct Hne as [->|Hne]; [done|].
  by rewrite bool_decide_false, andb_false_r.
Qed.

Lemma decodes_all_last {A B} (p : Parser A) (k : A -> Parser B) c a b e :
  decodes p c a e -> decodes_all (k a) [] b false -> decodes_all (p_bind p k) c b e.
Proof.
  intros H1 H2. unfold decodes_all, p_bind. rewrite <- (app_nil_r c) at 1. rewrite H1.
  destruct e; [done | apply H2].
Qed.

Lemma decodes_all_end {A} err (a : A) : decodes_all (p_end err a) [] a false.
Proof. done. Qed.

Lemma decodes_all_run {A} (p : Parser A) c a e :
  decodes_all p c a e -> p_run p c = if e then Err ErrEOF else Ok a.
Proof. unfold decodes_all, p_run. intros ->. by destruct e. Qed.

Lemma decodes_readUint16 v : in_u16 v -> decodes readUint16 (be_bytes 2 v) v false.
Proof. intros H. apply decodes_intro. intros. by apply readUint16_be. Qed.
Lemma decodes_readUint32 v : in_u32 v -> decodes readUint32 (be_bytes 4 v) v false.
Proof. intros H. apply decodes_intro. intros. by apply readUint32_be. Qed.
Lemma decodes_readUint64 v : in_u64 v -> decodes readUint64 (be_bytes 8 v) v false.
Proof. intros H. apply decodes_intro. intros. by apply readUint64_be. Qed.

Lemma decodes_ReadByte v : in_u8 v -> decodes reader_ReadByte [byte_of_Z v] v false.
Proof.
  intros H. apply decodes_intro. intros. simpl. rewrite Z_of_byte_of_Z.
  by rewrite Z.mod_small.
Qed.

Lemma decodes_readString s n :
  slen s <= n -> slen s <= 65535 ->
  decodes (readString n) (string_field s) s (bool_decide (s = ""%string)).
Proof.
  intros H1 H2 rest. rewrite readString_field by done.
  destruct (decide (s = ""%string)) as [->|ne].
  - simpl. by destruct rest.
  - rewrite (bool_decide_false (s = _)) by done. simpl. rewrite decide_False; [done|].
    intros [E _]%app_nil. by rewrite bytes_of_string_nil in E.
Qed.

Lemma decodes_readBytes bs n :
  zlen bs <= n -> n < 2 ^ 32 ->
  decodes (readBytes n) (bytes_field bs) bs (bool_decide (bs = [])).
Proof.
  intros H1 H2 rest. rewrite readBytes_field by (try unfold in_u; try split; auto; lia).
  destruct bs as [|b bs]; simpl; [by destruct rest|]. done.
Qed.

Lemma decodes_Read bs n :
  length bs = n -> decodes (reader_Read n) bs bs (bool_decide (bs = [])).
Proof.
  intros <- rest. destruct bs as [|b bs].
  - by destruct rest.
  - rewrite reader_Read_app by done. done.
Qed.

(** Counted loops: [n] items, each at least one byte long, of which only the
    last may hit the end of the input. *)
Lemma decodes_loop {A S} (step : S -> Parser S) (f : S -> A -> S) (items : list A)
    (enc : A -> bytes) (ends : A -> bool) :
  (forall acc x, x ∈ items -> decodes (step acc) (enc x) (f acc x) (ends x)) ->
  (forall x, x ∈ items -> enc x <> []) ->
  forall acc, decodes (p_loop (length items) step acc) (concat (enc <$> items))
    (foldl f acc items) (default false (last (ends <$> items))).
Proof.
  intros Hstep Hne. induction items as [|x items IH]; intros acc; [by apply decodes_ret|].
  cbn [length p_loop fmap list_fmap concat foldl].
  assert (forall y, y ∈ items -> y ∈ x :: items) as Hin by (intros; by right).
  assert (IH' := IH (fun acc y Hy => Hstep acc y (Hin y Hy)) (fun y Hy => Hne y (Hin y Hy))).
  destruct items as [|y items].
  - simpl. rewrite app_nil_r. eapply decodes_bind_end; [apply Hstep; left | by apply decodes_ret].
  - eapply decodes_bind; [apply Hstep; left | apply IH' |]. right.
    simpl. intros [E _]%app_nil. eapply Hne; [|exact E]. right. left.
Qed.

Lemma string_field_ne s rest : string_field s ++ rest <> [].
Proof. done. Qed.
Lemma bytes_field_ne s rest : bytes_field s ++ rest <> [].
Proof. done. Qed.

(** One field of a decoder, solved by the rule of its reader. *)
Ltac decodes_field :=
  lazymatch goal with
  | |- decodes readUint16 _ _ _ => apply decodes_readUint16
  | |- decodes readUint32 _ _ _ => apply decodes_readUint32
  | |- decodes readFloat32 _ _ _ => apply decodes_readUint32
  | |- decodes readUint64 _ _ _ => apply decodes_readUint64
  | |- decodes readFloat64 _ _ _ => apply decodes_readUint64
  | |- decodes reader_ReadByte _ _ _ => apply decodes_ReadByte
  | |- decodes (readString _) _ _ _ => apply decodes_readString
  | |- decodes (readBytes _) _ _ _ => apply decodes_readBytes
  end; try assumption; try lia.

Ltac decodes_ne := first [by left | right; first [done | by apply be_bytes_ne; lia]].

(** All the fields of a straight-line decoder ending in [p_end]. *)
Ltac decodes_fields :=
  rewrite ?app_nil_l, <- ?app_assoc;
  repeat (eapply decodes_all_bind; [decodes_field | | decodes_ne]);
  eapply decodes_all_last; [decodes_field | apply decodes_all_end].

(** ** Postconditions of parsers

    [p_spec p E P]: every failure of [p] is in [E] and every result in [P]. *)
Definition p_spec {A} (p : Parser A) (E : GoError -> Prop) (P : A -> Prop) : Prop :=
  forall r, match p r with Ok (a, _) => P a | Err e => E e end.

Lemma p_spec_ret {A} E (P : A -> Prop) a : P a -> p_spec (p_ret a) E P.
Proof. by intros H r. Qed.
Lemma p_spec_fail {A} (E : GoError -> Prop) (P : A -> Prop) e : E e -> p_spec (p_fail e) E P.
Proof. by intros H r. Qed.

Lemma p_spec_bind {A B} (p : Parser A) (k : A -> Parser B) E P Q :
  p_spec p E P -> (forall a, P a -> p_spec (k a) E Q) -> p_spec (p_bind p k) E Q.
Proof.
  intros Hp Hk r. specialize (Hp r). unfold p_bind. destruct (p r) as [[a r']|e]; simpl; [|done].
  by apply Hk.
Qed.

Lemma p_spec_if {A} (b : bool) (p q : Parser A) E P :
  (b = true -> p_spec p E P) -> (b = false -> p_spec q E P) -> p_spec (if b then p else q) E P.
Proof. destruct b; auto. Qed.

Lemma p_spec_weaken {A} (p : Parser A) E P (E' : GoError -> Prop) (P' : A -> Prop) :
  p_spec p E P -> (forall e, E e -> E' e) -> (forall a, P a -> P' a) -> p_spec p E' P'.
Proof. intros H HE HP r. specialize (H r). destruct (p r) as [[??]|?]; auto. Qed.

Lemma p_spec_loop {A} (step : A -> Parser A) E (P : A -> Prop) n acc :
  P acc -> (forall a, P a -> p_spec (step a) E P) -> p_spec (p_loop n step acc) E P.
Proof.
  intros Ha Hs. revert acc Ha. induction n as [|n IH]; intros acc Ha; simpl; [by apply p_spec_ret|].
  eapply p_spec_bind; eauto.
Qed.

(** As [p_spec_loop], with the number of iterations done. *)
Lemma p_spec_loop_count {A} (step : A -> Parser A) E (P : nat -> A -> Prop) n acc :
  P 0%nat acc -> (forall i a, (i < n)%nat -> P i a -> p_spec (step a) E (P (S i))) ->
  p_spec (p_loop n step acc) E (P n).
Proof.
  intros Ha Hs.
  enough (forall k i acc, (i + k = n)%nat -> P i acc -> p_spec (p_loop k step acc) E (P n)) as H
    by by apply (H n 0%nat).
  induction k as [|k IH]; intros i a Hik Hi; simpl.
  { rewrite Nat.add_0_r in Hik. subst. by apply p_spec_ret. }
  eapply p_spec_bind; [apply (Hs i); [lia | done]|]. intros a' Ha'. apply (IH (S i)); [lia | done].
Qed.

Definition wire_error (e : GoError) : Prop :=
  e = ErrEOF \/ e = ErrMalformedWirePayload \/ e = ErrWireStringTooLarge \/
  e = ErrWireMessageTooLarge.

Lemma length_reader_Read n r bs r' : reader_Read n r = Ok (bs, r') -> length bs = n.
Proof.
  unfold reader_Read. destruct r as [|b r]; [done|]. intros [= <- _].
  rewrite length_app, length_take, length_replicate. simpl. lia.
Qed.

Lemma readUintN_spec n : p_spec (readUintN n) wire_error (in_u (8 * Z.of_nat n)).
Proof.
  intros r. unfold readUintN, p_bind, p_or.
  destruct (reader_Read n r) as [[bs r']|e] eqn:E; simpl; [|unfold wire_error; auto].
  apply length_reader_Read in E as <-. apply be_value_range.
Qed.

Lemma reader_ReadByte_spec : p_spec reader_ReadByte wire_error in_u8.
Proof. intros [|b r]; simpl; [by left | apply Z_of_byte_range]. Qed.

Lemma p_or_spec {A} (p : Parser A) e E P : p_spec p E P -> p_spec (p_or p e) (eq e) P.
Proof. intros H r. specialize (H r). unfold p_or. by destruct (p r) as [[??]|?]. Qed.

Lemma readString_spec n :
  p_spec (readString n) wire_error (fun s => slen s <= n /\ slen s <= 65535).
Proof.
  unfold readString. eapply p_spec_bind; [apply (readUintN_spec 2)|]. intros len Hlen.
  apply p_spec_if; intros Hl; zbool; [apply p_spec_fail; unfold wire_error; auto|].
  intros r. unfold reader_Len, p_bind; simpl.
  destruct (Z.ltb_spec (zlen r) len); [unfold p_fail, wire_error; auto|].
  destruct (reader_Read _ r) as [[bs r']|e] eqn:E; simpl.
  - apply length_reader_Read in E. rewrite slen_string_of_bytes. unfold zlen. rewrite E.
    destruct Hlen as [H1 H2]. change (2 ^ (8 * Z.of_nat 2)) with 65536 in H2. lia.
  - unfold reader_Read in E. destruct r; [|done]. injection E as <-. by left.
Qed.
