(* ===== verification/Values.v ===== *)
(** * Values: the self-describing snapshot values of the wire format

    [network/wire.go] lines 958-967 and 1086-1314: [encodeWireValue] walks a Go
    value by reflection, [decodeWireValue] rebuilds it from
    [nil, bool, int64, uint64, float64, string, map[string]any, []any].
    [GoValue] is what reflection sees of an [any]; [canonical] is the value that
    the decoder builds for it, and [decode_encode_value] the round trip. *)
From Stdlib Require Import Ascii.
From S2P Require Import Prelude Buffer.

Definition MaxWireStringBytes : Z := 2048.

(** ** Go values, as [reflect] sees them *)

(** [reflect.StructField]: [PkgPath] is empty exactly for exported fields. *)
Record StructField := mkStructField {
  field_Name : string;
  field_PkgPath : string;
  field_jsonTag : string            (* field.Tag.Get("json") *)
}.

Unset Elimination Schemes.
Inductive GoValue :=
| VNil                                          (* the nil interface *)
| VPtr (target : option GoValue)                (* a pointer, or an interface-typed slot *)
| VBool (b : bool)
| VInt (z : Z)                                  (* int, int8 .. int64 *)
| VUint (z : Z)                                 (* uint, uint8 .. uint64, uintptr *)
| VFloat32 (bits : Z)
| VFloat64 (bits : Z)
| VString (s : string)
| VNilMap                                       (* a nil map with string keys *)
| VMap (entries : list (string * GoValue))      (* map[string]T; the order is immaterial *)
| VMapDefinedKey (entries : list (string * GoValue)) (* the key type is a defined string type *)
| VMapOtherKey (zero : bool)                    (* a map whose key kind is not string *)
| VStruct (fields : list (StructField * GoValue))
| VNilSlice
| VSlice (items : list GoValue)
| VArray (items : list GoValue)
| VOther (zero : bool).                         (* chan, func, complex, unsafe pointer *)
Set Elimination Schemes.

(** Induction through the nested lists. *)
Section GoValueInd.
Context (P : GoValue -> Prop).
Context (HNil : P VNil) (HPtrNil : P (VPtr None)) (HPtr : forall v, P v -> P (VPtr (Some v))).
Context (HBool : forall b, P (VBool b)) (HInt : forall z, P (VInt z))
  (HUint : forall z, P (VUint z)) (HF32 : forall z, P (VFloat32 z))
  (HF64 : forall z, P (VFloat64 z)) (HString : forall s, P (VString s)).
Context (HNilMap : P VNilMap)
  (HMap : forall es, Forall (fun e => P e.2) es -> P (VMap es))
  (HMapDK : forall es, Forall (fun e => P e.2) es -> P (VMapDefinedKey es))
  (HMapOK : forall z, P (VMapOtherKey z)).
Context (HStruct : forall fs, Forall (fun f => P f.2) fs -> P (VStruct fs)).
Context (HNilSlice : P VNilSlice)
  (HSlice : forall l, Forall P l -> P (VSlice l))
  (HArray : forall l, Forall P l -> P (VArray l))
  (HOther : forall z, P (VOther z)).

Fixpoint GoValue_ind (v : GoValue) : P v :=
  let fix all_snd {K} (es : list (K * GoValue)) : Forall (fun e => P e.2) es :=
    match es with
    | [] => Forall_nil_2 _
    | e :: r => Forall_cons_2 _ e r (GoValue_ind e.2) (all_snd r)
    end in
  let fix all (l : list GoValue) : Forall P l :=
    match l with
    | [] => Forall_nil_2 _
    | x :: r => Forall_cons_2 _ x r (GoValue_ind x) (all r)
    end in
  match v with
  | VNil => HNil
  | VPtr None => HPtrNil
  | VPtr (Some t) => HPtr t (GoValue_ind t)
  | VBool b => HBool b
  | VInt z => HInt z
  | VUint z => HUint z
  | VFloat32 z => HF32 z
  | VFloat64 z => HF64 z
  | VString s => HString s
  | VNilMap => HNilMap
  | VMap es => HMap es (all_snd es)
  | VMapDefinedKey es => HMapDK es (all_snd es)
  | VMapOtherKey z => HMapOK z
  | VStruct fs => HStruct fs (all_snd fs)
  | VNilSlice => HNilSlice
  | VSlice l => HSlice l (all l)
  | VArray l => HArray l (all l)
  | VOther z => HOther z
  end.
End GoValueInd.

(** The decimal IEEE 754 zeros: [v.Float() == 0]. *)
Definition float32_is_zero (bits : Z) : bool := (bits =? 0) || (bits =? 2 ^ 31).
Definition float64_is_zero (bits : Z) : bool := (bits =? 0) || (bits =? 2 ^ 63).

(** [float64(f)] on bit patterns: exact on finite values; a NaN stays a NaN and
    is quieted. *)
Definition float64_of_float32 (bits : Z) : Z :=
  let sign := Z.shiftr bits 31 in
  let exponent := Z.land (Z.shiftr bits 23) 255 in
  let mantissa := Z.land bits (2 ^ 23 - 1) in
  let pack e m := Z.lor (Z.shiftl sign 63) (Z.lor (Z.shiftl e 52) m) in
  if exponent =? 255 then
    pack 2047 (if mantissa =? 0 then 0 else Z.lor (Z.shiftl mantissa 29) (2 ^ 51))
  else if exponent =? 0 then
    if mantissa =? 0 then pack 0 0
    else (* subnormal float32, normal float64: value = mantissa * 2^-149 *)
      let p := Z.log2 mantissa in
      pack (p - 149 + 1023) (Z.shiftl (mantissa - Z.shiftl 1 p) (52 - p))
  else pack (exponent - 127 + 1023) (Z.shiftl mantissa 29).

(** [reflect.Value.IsZero]. *)
Fixpoint IsZero (v : GoValue) : bool :=
  match v with
  | VNil => true
  | VPtr target => match target with None => true | Some _ => false end
  | VBool b => negb b
  | VInt z | VUint z => z =? 0
  | VFloat32 bits => float32_is_zero bits
  | VFloat64 bits => float64_is_zero bits
  | VString s => bool_decide (s = ""%string)
  | VNilMap | VNilSlice => true
  | VMap _ | VMapDefinedKey _ | VSlice _ => false
  | VMapOtherKey zero | VOther zero => zero
  | VStruct fields => forallb (fun f => IsZero f.2) fields
  | VArray items => forallb IsZero items
  end.

(** ** Struct fields *)

(** [strings.Split(s, ",")]. *)
Fixpoint split_comma (s : string) : string * list string :=
  match s with
  | EmptyString => (""%string, [])
  | String c r =>
      let (first, others) := split_comma r in
      if decide (c = ","%char) then (""%string, first :: others) else (String c first, others)
  end.

(** [wireJSONName]: the name, whether it is [omitempty], and [ok]. *)
Definition wireJSONName (field : StructField) : string * bool * bool :=
  let tag := field_jsonTag field in
  if decide (tag = "-"%string) then (""%string, false, false)
  else if decide (tag = ""%string) then (field_Name field, false, true)
  else
    let (part0, options) := split_comma tag in
    let name := if decide (part0 = ""%string) then field_Name field else part0 in
    let omitEmpty := existsb (fun option => bool_decide (option = "omitempty"%string)) options in
    (name, omitEmpty, true).

Definition by_name {X} (a b : string * X) : bool := String.ltb a.1 b.1.

(** [exportedWireFields].  Each field carries, besides its value, whatever the
    caller computes from the value ([X]): for the encoder, its writer. *)
Fixpoint collect_fields {X} (fields : list (StructField * (GoValue * X))) : list (string * X) :=
  match fields with
  | [] => []
  | (structField, (value, x)) :: rest =>
      if decide (field_PkgPath structField <> ""%string) then collect_fields rest
      else
        let '(name, omitEmpty, ok) := wireJSONName structField in
        if negb ok then collect_fields rest
        else if omitEmpty && IsZero value then collect_fields rest
        else (name, x) :: collect_fields rest
  end.

Definition exportedWireFields {X} (fields : list (StructField * (GoValue * X)))
    : list (string * X) :=
  go_sort by_name (collect_fields fields).

(** ** Encoding *)
Definition wireValueNull : Z := 0.
Definition wireValueBool : Z := 1.
Definition wireValueInt64 : Z := 2.
Definition wireValueUint64 : Z := 3.
Definition wireValueFloat64 : Z := 4.
Definition wireValueString : Z := 5.
Definition wireValueObject : Z := 6.
Definition wireValueList : Z := 7.

Definition write_named (f : string * Writer) : Writer :=
  writeString f.1 MaxWireStringBytes ;;; f.2.

Definition encodeWireMap (entries : list (string * Writer)) : Writer :=
  if 65535 <? zlen entries then w_fail ErrWireMessageTooLarge
  else
    let keys := go_sort by_name entries in
    WriteByte wireValueObject ;;; writeUint16 (zlen keys) ;;; w_all (map write_named keys).

Definition encodeWireStruct (value : list (StructField * (GoValue * Writer))) : Writer :=
  let fields := exportedWireFields value in
  if 65535 <? zlen fields then w_fail ErrWireMessageTooLarge
  else
    WriteByte wireValueObject ;;; writeUint16 (zlen fields) ;;; w_all (map write_named fields).

Definition encodeWireList (items : list Writer) : Writer :=
  if 65535 <? zlen items then w_fail ErrWireMessageTooLarge
  else WriteByte wireValueList ;;; writeUint16 (zlen items) ;;; w_all items.

Fixpoint encodeWireValue (value : GoValue) (depth : Z) : Writer :=
  if 16 <? depth then w_fail ErrUnsupportedWireSnapshotValue
  else
    match value with
    | VNil | VPtr None => WriteByte wireValueNull
    | VPtr (Some target) => encodeWireValue target depth
    | VBool b => WriteByte wireValueBool ;;; WriteByte (if b then 1 else 0)
    | VInt z => WriteByte wireValueInt64 ;;; writeUint64 z
    | VUint z => WriteByte wireValueUint64 ;;; writeUint64 z
    | VFloat32 bits => WriteByte wireValueFloat64 ;;; writeFloat64 (float64_of_float32 bits)
    | VFloat64 bits => WriteByte wireValueFloat64 ;;; writeFloat64 bits
    | VString s => WriteByte wireValueString ;;; writeString s MaxWireStringBytes
    | VNilMap => encodeWireMap []
    | VMap entries =>
        encodeWireMap (map (fun e => (e.1, encodeWireValue e.2 (depth + 1))) entries)
    | VMapDefinedKey [] => encodeWireMap []
    | VMapDefinedKey entries =>
        (* value.MapIndex(reflect.ValueOf(key)): a plain string is not
           assignable to the key type, and reflect panics *)
        if 65535 <? zlen entries then w_fail ErrWireMessageTooLarge else
        let keys := go_sort by_name entries in
        WriteByte wireValueObject ;;; writeUint16 (zlen keys) ;;;
        writeString (default ""%string (fst <$> head keys)) MaxWireStringBytes ;;; w_fail ErrPanic
    | VMapOtherKey _ => w_fail ErrUnsupportedWireSnapshotValue
    | VStruct fields =>
        encodeWireStruct (map (fun f => (f.1, (f.2, encodeWireValue f.2 (depth + 1)))) fields)
    | VNilSlice => encodeWireList []
    | VSlice items | VArray items =>
        encodeWireList (map (fun item => encodeWireValue item (depth + 1)) items)
    | VOther _ => w_fail ErrUnsupportedWireSnapshotValue
    end.

(** ** Decoding *)

(** [object[key] = value] on the association list, sorted by key, that stands
    for a Go [map[string]any]. *)
Fixpoint map_put {X} (k : string) (x : X) (m : list (string * X)) : list (string * X) :=
  match m with
  | [] => [(k, x)]
  | (k', x') :: r =>
      if decide (k = k') then (k, x) :: r
      else if String.ltb k k' then (k, x) :: m
      else (k', x') :: map_put k x r
  end.

Fixpoint decodeWireValue (fuel : nat) (depth : Z) : Parser GoValue :=
  match fuel with
  | O => p_fail ErrModelFuel
  | S fuel =>
      if 16 <? depth then p_fail ErrMalformedWirePayload else
      let* kind := p_or reader_ReadByte ErrMalformedWirePayload in
      if kind =? wireValueNull then p_ret VNil
      else if kind =? wireValueBool then
        let* value := p_or reader_ReadByte ErrMalformedWirePayload in
        p_ret (VBool (negb (value =? 0)))
      else if kind =? wireValueInt64 then
        let* value := readUint64 in p_ret (VInt (to_i64 value))
      else if kind =? wireValueUint64 then
        let* value := readUint64 in p_ret (VUint value)
      else if kind =? wireValueFloat64 then
        let* value := readFloat64 in p_ret (VFloat64 value)
      else if kind =? wireValueString then
        let* value := readString MaxWireStringBytes in p_ret (VString value)
      else if kind =? wireValueObject then
        let* count := readUint16 in
        let* object := p_loop (Z.to_nat count) (fun object =>
          let* key := readString MaxWireStringBytes in
          let* value := decodeWireValue fuel (depth + 1) in
          p_ret (map_put key value object)) [] in
        p_ret (VMap object)
      else if kind =? wireValueList then
        let* count := readUint16 in
        let* values := p_loop (Z.to_nat count) (fun values =>
          let* value := decodeWireValue fuel (depth + 1) in
          p_ret (values ++ [value])) [] in
        p_ret (VSlice values)
      else p_fail ErrMalformedWirePayload
  end.

(** The calls of the source start at depth 0; depth 17 is refused, so 18 levels
    of recursion are never exceeded ([decodeWireValue_fuel]). *)
Definition decodeWireValue0 : Parser GoValue := decodeWireValue 18 0.

(** ** Specification

    [wire_bytes] is the grammar of an encoded value, [encodable] says when the
    encoder accepts it, and [canonical] is the value that is read back. *)
Definition wire_fields (fields : list (StructField * GoValue)) : list (string * GoValue) :=
  exportedWireFields (map (fun f => (f.1, (f.2, f.2))) fields).

Definition named_bytes (f : string * bytes) : bytes := string_field f.1 ++ f.2.

Definition object_bytes (fields : list (string * bytes)) : bytes :=
  [byte_of_Z wireValueObject] ++ be_bytes 2 (zlen fields) ++ concat (map named_bytes fields).

Definition list_bytes (items : list bytes) : bytes :=
  [byte_of_Z wireValueList] ++ be_bytes 2 (zlen items) ++ concat items.

Fixpoint wire_bytes (v : GoValue) : bytes :=
  match v with
  | VNil | VPtr None => [byte_of_Z wireValueNull]
  | VPtr (Some t) => wire_bytes t
  | VBool b => [byte_of_Z wireValueBool; byte_of_Z (if b then 1 else 0)]
  | VInt z => byte_of_Z wireValueInt64 :: be_bytes 8 z
  | VUint z => byte_of_Z wireValueUint64 :: be_bytes 8 z
  | VFloat32 bits => byte_of_Z wireValueFloat64 :: be_bytes 8 (float64_of_float32 bits)
  | VFloat64 bits => byte_of_Z wireValueFloat64 :: be_bytes 8 bits
  | VString s => byte_of_Z wireValueString :: string_field s
  | VMap entries =>
      object_bytes (go_sort by_name (map (fun e => (e.1, wire_bytes e.2)) entries))
  | VStruct fields =>
      object_bytes (exportedWireFields (map (fun f => (f.1, (f.2, wire_bytes f.2))) fields))
  | VSlice items | VArray items => list_bytes (map wire_bytes items)
  | VNilMap | VMapDefinedKey _ => object_bytes []
  | VNilSlice => list_bytes []
  | VMapOtherKey _ | VOther _ => []
  end.

Definition encodable_fields (fields : list (string * bool)) : bool :=
  (zlen fields <=? 65535) && forallb (fun f => (slen f.1 <=? MaxWireStringBytes) && f.2) fields.

Fixpoint encodable (v : GoValue) (depth : Z) : bool :=
  (depth <=? 16) &&
  match v with
  | VPtr (Some t) => encodable t depth
  | VString s => slen s <=? MaxWireStringBytes
  | VMap entries => encodable_fields (map (fun e => (e.1, encodable e.2 (depth + 1))) entries)
  | VMapDefinedKey entries => bool_decide (entries = [])
  | VStruct fields =>
      encodable_fields
        (exportedWireFields (map (fun f => (f.1, (f.2, encodable f.2 (depth + 1)))) fields))
  | VSlice items | VArray items =>
      (zlen items <=? 65535) && forallb (fun item => encodable item (depth + 1)) items
  | VMapOtherKey _ | VOther _ => false
  | _ => true
  end.

Fixpoint canonical (v : GoValue) : GoValue :=
  match v with
  | VPtr (Some t) => canonical t
  | VBool b => VBool b
  | VInt z => VInt z
  | VUint z => VUint z
  | VFloat32 bits => VFloat64 (float64_of_float32 bits)
  | VFloat64 bits => VFloat64 bits
  | VString s => VString s
  | VMap entries => VMap (go_sort by_name (map (fun e => (e.1, canonical e.2)) entries))
  | VStruct fields =>
      VMap (exportedWireFields (map (fun f => (f.1, (f.2, canonical f.2))) fields))
  | VSlice items | VArray items => VSlice (map canonical items)
  | VNilMap | VMapDefinedKey _ => VMap []
  | VNilSlice => VSlice []
  | VNil | VPtr None | VMapOtherKey _ | VOther _ => VNil
  end.

(** The value's encoding ends in an empty string, the one field that cannot be
    read at the end of a payload. *)
Fixpoint ends_empty (v : GoValue) : bool :=
  match v with
  | VString s => bool_decide (s = ""%string)
  | VMap entries => default false (last (map (fun e => ends_empty e.2) entries))
  | VSlice items => default false (last (map ends_empty items))
  | _ => false
  end.

(** The ranges that Go's types guarantee, and distinct names within one map
    (which Go guarantees) or struct (which the json tags have to respect). *)
Definition distinct_names {X} (l : list (string * X)) : bool := bool_decide (NoDup (map fst l)).

Fixpoint GoValue_ok (v : GoValue) : bool :=
  match v with
  | VPtr (Some t) => GoValue_ok t
  | VInt z => bool_decide (in_i64 z)
  | VUint z | VFloat64 z => bool_decide (in_u64 z)
  | VFloat32 z => bool_decide (in_u32 z)
  | VMap entries => distinct_names entries && forallb (fun e => GoValue_ok e.2) entries
  | VStruct fields =>
      distinct_names (collect_fields (map (fun f => (f.1, (f.2, tt))) fields)) &&
      forallb (fun f => GoValue_ok f.2) fields
  | VSlice items | VArray items => forallb GoValue_ok items
  | _ => true
  end.

(** ** Naturality: sorting and filtering do not look at what is carried *)
Lemma sort_by_name_map {X Y} (g : X -> Y) (l : list (string * X)) :
  go_sort by_name (map (fun e => (e.1, g e.2)) l) = map (fun e => (e.1, g e.2)) (go_sort by_name l).
Proof. by apply go_sort_map. Qed.

Lemma collect_fields_map {X} (g : GoValue -> X) fields :
  collect_fields (map (fun f => (f.1, (f.2, g f.2))) fields) =
  map (fun e => (e.1, g e.2)) (collect_fields (map (fun f => (f.1, (f.2, f.2))) fields)).
Proof.
  induction fields as [|[sf v] fields IH]; simpl; [done|].
  destruct (decide _); [done|]. destruct (wireJSONName sf) as [[name omit] ok].
  destruct (negb ok); [done|]. destruct (omit && IsZero v); [done|]. simpl. by rewrite IH.
Qed.

Lemma exportedWireFields_map {X} (g : GoValue -> X) fields :
  exportedWireFields (map (fun f => (f.1, (f.2, g f.2))) fields) =
  map (fun e => (e.1, g e.2)) (wire_fields fields).
Proof. unfold wire_fields, exportedWireFields. by rewrite collect_fields_map, sort_by_name_map. Qed.

Lemma collect_fields_from fields e :
  e ∈ collect_fields (map (fun f => (f.1, (f.2, f.2))) fields) -> exists f, f ∈ fields /\ f.2 = e.2.
Proof.
  induction fields as [|[sf v] fields IH]; simpl; [by intros ?%elem_of_nil|].
  assert (forall e', e' ∈ collect_fields (map (fun f => (f.1, (f.2, f.2))) fields) -> e' = e ->
    exists f, f ∈ (sf, v) :: fields /\ f.2 = e.2) as Hrec.
  { intros ? He ->. destruct (IH He) as (f & ? & ?). exists f. split; [by right | done]. }
  destruct (decide _); [intros; by eapply Hrec|].
  destruct (wireJSONName sf) as [[name omit] ok].
  destruct (negb ok); [intros; by eapply Hrec|].
  destruct (omit && IsZero v); [intros; by eapply Hrec|].
  rewrite elem_of_cons. intros [->|He]; [|by eapply Hrec].
  exists (sf, v). split; [by left | done].
Qed.

Lemma wire_fields_from fields e :
  e ∈ wire_fields fields -> exists f, f ∈ fields /\ f.2 = e.2.
Proof. unfold wire_fields, exportedWireFields. rewrite go_sort_perm. apply collect_fields_from. Qed.

Lemma Forall_wire_fields (P : GoValue -> Prop) fields :
  Forall (fun f => P f.2) fields -> Forall (fun e => P e.2) (wire_fields fields).
Proof.
  rewrite !Forall_forall. intros H e He. apply wire_fields_from in He as (f & Hf & <-). auto.
Qed.

Lemma Forall_sorted {X} (P : string * X -> Prop) l :
  Forall P l -> Forall P (go_sort by_name l).
Proof. by rewrite go_sort_perm. Qed.

#[export] Instance by_name_weak {X} : StrictWeak (@by_name X).
Proof. apply (strict_weak_key fst String.ltb). apply _. Qed.

(** ** The encoder meets the specification *)
Lemma zlen_map {A B} (f : A -> B) l : zlen (map f l) = zlen l.
Proof. unfold zlen. by rewrite length_map. Qed.

Lemma zlen_perm {A} (l k : list A) : l ≡ₚ k -> zlen l = zlen k.
Proof. unfold zlen. by intros ->. Qed.

Lemma zlen_sort {A} (less : A -> A -> bool) l : zlen (go_sort less l) = zlen l.
Proof. apply zlen_perm, go_sort_perm. Qed.

Lemma writes_named {X} (w : X -> Writer) (ok : X -> bool) (c : X -> bytes) (l : list (string * X)) :
  Forall (fun e => writes (w e.2) (ok e.2) (c e.2)) l ->
  writes (w_all (map write_named (map (fun e => (e.1, w e.2)) l)))
    (forallb (fun f => (slen f.1 <=? MaxWireStringBytes) && f.2) (map (fun e => (e.1, ok e.2)) l))
    (concat (map named_bytes (map (fun e => (e.1, c e.2)) l))).
Proof.
  intros H. rewrite Forall_forall in H. rewrite !map_map. eapply writes_weaken.
  - apply (writes_all _ (fun e => (slen e.1 <=? MaxWireStringBytes) && ok e.2)).
    intros e He. apply writes_seq; [by apply writes_string | by apply H].
  - clear H. induction l; simpl; congruence.
  - done.
Qed.

Lemma ltb_leb_negb a b : (a <? b) = negb (b <=? a).
Proof. apply Z.ltb_antisym. Qed.

Lemma writes_object {X} (w : X -> Writer) (ok : X -> bool) (c : X -> bytes) (l : list (string * X)) :
  Forall (fun e => writes (w e.2) (ok e.2) (c e.2)) l ->
  writes
    (if 65535 <? zlen (map (fun e => (e.1, w e.2)) l) then w_fail ErrWireMessageTooLarge
     else WriteByte wireValueObject ;;; writeUint16 (zlen (map (fun e => (e.1, w e.2)) l)) ;;;
          w_all (map write_named (map (fun e => (e.1, w e.2)) l)))
    (encodable_fields (map (fun e => (e.1, ok e.2)) l))
    (object_bytes (map (fun e => (e.1, c e.2)) l)).
Proof.
  intros H. eapply writes_weaken; [apply writes_guard | |].
  - apply writes_seq; [apply writes_bytes|]. apply writes_seq; [apply writes_bytes|].
    by apply (writes_named w ok c).
  - unfold encodable_fields. by rewrite !zlen_map, ltb_leb_negb, negb_involutive.
  - unfold object_bytes. by rewrite !zlen_map.
Qed.

Lemma writes_list {A} (w : A -> Writer) (ok : A -> bool) (c : A -> bytes) l :
  Forall (fun x => writes (w x) (ok x) (c x)) l ->
  writes (encodeWireList (map w l)) ((zlen l <=? 65535) && forallb ok l) (list_bytes (map c l)).
Proof.
  rewrite Forall_forall. intros H. unfold encodeWireList, list_bytes. rewrite !zlen_map.
  rewrite ltb_leb_negb. eapply writes_weaken; [apply writes_guard | |].
  - apply writes_seq; [apply writes_bytes|]. apply writes_seq; [apply writes_bytes|].
    by apply (writes_all w ok c).
  - by rewrite negb_involutive.
  - done.
Qed.

Lemma encodable_fields_perm l k : l ≡ₚ k -> encodable_fields l = encodable_fields k.
Proof.
  intros H. unfold encodable_fields. by rewrite (zlen_perm _ _ H), (forallb_perm _ _ _ H).
Qed.

Lemma sort_by_name_zlen_map {X Y} (g : X -> Y) (l : list (string * X)) :
  zlen (map (fun e => (e.1, g e.2)) (go_sort by_name l)) = zlen (map (fun e => (e.1, g e.2)) l).
Proof. by rewrite !zlen_map, zlen_sort. Qed.

(** The encoder writes exactly [wire_bytes] on the encodable values and fails
    on all others. *)
Lemma encodeWireValue_writes v :
  forall depth, writes (encodeWireValue v depth) (encodable v depth) (wire_bytes v).
Proof.
  induction v as [| |v IH| | | | | | | |es IH|es IH| |fs IH| |l IH|l IH|] using GoValue_ind;
    intros d; cbn [encodeWireValue encodable wire_bytes];
    rewrite (ltb_leb_negb 16); (destruct (d <=? 16); cbn [negb andb]; [|apply writes_fail]);
    try solve [apply writes_bytes | apply writes_fail
      | intros buf; unfold WriteByte, writeFloat64, writeUint64, w_seq, w_bytes; cbn [rbind];
        by rewrite <- app_assoc].
  - apply IH.
  - eapply writes_weaken; [apply writes_seq; [apply writes_bytes | by apply writes_string] | done | done].
  - apply (writes_object (fun _ : unit => w_skip) (fun _ => true) (fun _ => []) []). constructor.
  - unfold encodeWireMap.
    rewrite (sort_by_name_map (fun v => encodeWireValue v (d + 1))), (sort_by_name_map wire_bytes).
    rewrite <- (sort_by_name_zlen_map (fun v => encodeWireValue v (d + 1))).
    rewrite (encodable_fields_perm _ (map (fun e => (e.1, encodable e.2 (d + 1))) (go_sort by_name es)))
      by (by rewrite go_sort_perm).
    apply (writes_object (fun v => encodeWireValue v (d + 1)) (fun v => encodable v (d + 1)) wire_bytes).
    apply Forall_sorted. eapply Forall_impl; [exact IH|]. auto.
  - destruct es as [|e es].
    + apply (writes_object (fun _ : unit => w_skip) (fun _ => true) (fun _ => []) []). constructor.
    + rewrite bool_decide_false by done. intros buf. destruct (65535 <? _); [eauto|].
      unfold w_seq, writeString, WriteByte, writeUint16, w_bytes, w_fail. simpl.
      destruct (_ || _); simpl; eauto.
  - unfold encodeWireStruct.
    rewrite (exportedWireFields_map (fun v => encodeWireValue v (d + 1))),
      (exportedWireFields_map (fun v => encodable v (d + 1))), (exportedWireFields_map wire_bytes).
    apply (writes_object (fun v => encodeWireValue v (d + 1)) (fun v => encodable v (d + 1)) wire_bytes).
    apply (Forall_wire_fields (fun v => writes (encodeWireValue v (d + 1)) (encodable v (d + 1))
      (wire_bytes v))).
    eapply Forall_impl; [exact IH|]. auto.
  - apply (writes_list (fun _ : unit => w_skip) (fun _ => true) (fun _ => []) []). constructor.
  - apply writes_list. eapply Forall_impl; [exact IH|]. auto.
  - apply writes_list. eapply Forall_impl; [exact IH|]. auto.
Qed.

(** ** The float conversion stays in range *)
Lemma lor_in_u w a b : 0 <= w -> in_u w a -> in_u w b -> in_u w (Z.lor a b).
Proof.
  unfold in_u. intros Hw [Ha Ha'] [Hb Hb']. split; [by apply Z.lor_nonneg|].
  destruct (Z.eq_dec (Z.lor a b) 0) as [->|Hne]; [lia|].
  assert (0 <= Z.lor a b) by by apply Z.lor_nonneg.
  apply Z.log2_lt_pow2; [lia|]. rewrite Z.log2_lor by done.
  destruct (Z.eq_dec w 0) as [->|]; [|].
  { assert (a = 0 /\ b = 0) as [-> ->] by (simpl in *; lia). done. }
  apply Z.max_lub_lt.
  - destruct (Z.eq_dec a 0) as [->|]; [simpl; lia | apply Z.log2_lt_pow2; lia].
  - destruct (Z.eq_dec b 0) as [->|]; [simpl; lia | apply Z.log2_lt_pow2; lia].
Qed.

Lemma shiftl_in_u w n a : 0 <= n -> in_u w a -> in_u (w + n) (Z.shiftl a n).
Proof.
  unfold in_u. intros Hn [H1 H2]. rewrite Z.shiftl_mul_pow2 by done.
  destruct (Z.le_gt_cases 0 w); [rewrite Z.pow_add_r by done; nia|].
  rewrite (Z.pow_neg_r 2 w) in H2 by done. lia.
Qed.

Lemma in_u_mono w w' a : w <= w' -> in_u w a -> in_u w' a.
Proof.
  unfold in_u. intros. pose proof (Z.pow_le_mono_r 2 w w'). lia.
Qed.

Lemma float64_of_float32_range bits : in_u32 bits -> in_u64 (float64_of_float32 bits).
Proof.
  intros [H1 H2]. unfold float64_of_float32.
  assert (in_u 1 (Z.shiftr bits 31)) as Hs.
  { unfold in_u. rewrite Z.shiftr_div_pow2 by done. split; [apply Z.div_pos; lia|].
    apply Z.div_lt_upper_bound; [lia|]. by change (2 ^ 31 * 2 ^ 1) with (2 ^ 32). }
  assert (in_u 8 (Z.land (Z.shiftr bits 23) 255)) as He.
  { change 255 with (Z.ones 8). rewrite Z.land_ones by done. apply Z.mod_pos_bound. lia. }
  assert (in_u 23 (Z.land bits (2 ^ 23 - 1))) as Hm.
  { change (2 ^ 23 - 1) with (Z.ones 23). rewrite Z.land_ones by done. apply Z.mod_pos_bound. lia. }
  set (e := Z.land (Z.shiftr bits 23) 255) in *. set (m := Z.land bits _) in *.
  assert (forall e' m', in_u 11 e' -> in_u 52 m' -> in_u64 (Z.lor (Z.shiftl (Z.shiftr bits 31) 63)
    (Z.lor (Z.shiftl e' 52) m'))) as Hpack.
  { intros e' m' He' Hm'. apply lor_in_u; [lia | by apply (shiftl_in_u 1)|].
    apply lor_in_u; [lia | |].
    - eapply in_u_mono; [|apply (shiftl_in_u 11); [lia | done]]. lia.
    - by eapply in_u_mono; [|done]. }
  destruct (Z.eqb_spec e 255); [|destruct (Z.eqb_spec e 0)].
  - apply Hpack; [unfold in_u; lia|]. destruct (m =? 0); [unfold in_u; lia|].
    apply lor_in_u; [lia | by apply (shiftl_in_u 23) | unfold in_u; lia].
  - destruct (Z.eqb_spec m 0); [by apply Hpack|].
    assert (0 <= Z.log2 m < 23) as Hl.
    { split; [apply Z.log2_nonneg|]. unfold in_u in Hm. apply Z.log2_lt_pow2; lia. }
    apply Hpack; [unfold in_u; lia|]. rewrite Z.shiftl_1_l.
    replace 52 with (Z.log2 m + (52 - Z.log2 m)) at 1 by lia. apply shiftl_in_u; [lia|].
    unfold in_u in *. pose proof (Z.log2_spec m). rewrite Z.pow_succ_r in * by lia. lia.
  - apply Hpack; [unfold in_u in *; lia|]. by apply (shiftl_in_u 23).
Qed.

(** ** Rebuilding a map from its sorted entries *)
Definition keys_below {X} (k : string) (l : list (string * X)) : Prop :=
  Forall (fun e => String.ltb e.1 k = true) l.

Lemma map_put_above {X} k (x : X) l : keys_below k l -> map_put k x l = l ++ [(k, x)].
Proof.
  induction 1 as [|[k' x'] l Hlt H IH]; simpl in *; [done|].
  destruct (decide (k = k')) as [->|]; [by rewrite (sw_irrefl String.ltb) in Hlt|].
  by rewrite (sw_asym _ _ Hlt), IH.
Qed.

(** Sorted by name with distinct names: each name is below the later ones. *)
Lemma sorted_distinct {X} (l : list (string * X)) :
  StronglySorted (not_after by_name) l -> NoDup (map fst l) ->
  StronglySorted (fun a b => String.ltb a.1 b.1 = true) l.
Proof.
  induction 1 as [|x l Hs IH Hf]; simpl; [constructor|].
  intros [Hx Hl]%NoDup_cons. constructor; [by apply IH|].
  rewrite Forall_forall in *. intros y Hy. specialize (Hf y Hy).
  unfold not_after, by_name in Hf. destruct (String.ltb x.1 y.1) eqn:E; [done|].
  destruct Hx. rewrite (st_total x.1 y.1) by done. by apply (list_elem_of_fmap_2 fst).
Qed.

Lemma foldl_map_put {X Y} (g : X -> Y) (l : list (string * X)) acc :
  StronglySorted (fun a b => String.ltb a.1 b.1 = true) l ->
  Forall (fun e => keys_below e.1 acc) l ->
  foldl (fun m e => map_put e.1 (g e.2) m) acc l = acc ++ map (fun e => (e.1, g e.2)) l.
Proof.
  intros Hs. revert acc. induction Hs as [|x l Hs IH Hx]; intros acc Hacc; simpl.
  { by rewrite app_nil_r. }
  apply Forall_cons in Hacc as [Hax Hacc]. rewrite map_put_above by done.
  rewrite IH, <- app_assoc; [done|].
  rewrite Forall_forall in *. intros y Hy. unfold keys_below. rewrite Forall_app.
  split; [by apply Hacc|]. repeat constructor. by apply Hx.
Qed.

(** ** The decoder inverts the specification *)
Lemma wire_bytes_ne v depth : encodable v depth = true -> wire_bytes v <> [].
Proof.
  revert depth. induction v using GoValue_ind; intros d; cbn [encodable wire_bytes]; try done.
  - intros [_ H]%andb_true_iff. by eapply IHv.
  - by rewrite andb_false_r.
  - by rewrite andb_false_r.
Qed.

Lemma decodes_value_kind fuel d k c v e :
  0 <= d <= 16 -> in_u8 k ->
  decodes
    (if k =? wireValueNull then p_ret VNil
     else if k =? wireValueBool then
       let* value := p_or reader_ReadByte ErrMalformedWirePayload in
       p_ret (VBool (negb (value =? 0)))
     else if k =? wireValueInt64 then
       let* value := readUint64 in p_ret (VInt (to_i64 value))
     else if k =? wireValueUint64 then let* value := readUint64 in p_ret (VUint value)
     else if k =? wireValueFloat64 then let* value := readFloat64 in p_ret (VFloat64 value)
     else if k =? wireValueString then
       let* value := readString MaxWireStringBytes in p_ret (VString value)
     else if k =? wireValueObject then
       let* count := readUint16 in
       let* object := p_loop (Z.to_nat count) (fun object =>
         let* key := readString MaxWireStringBytes in
         let* value := decodeWireValue fuel (d + 1) in
         p_ret (map_put key value object)) [] in
       p_ret (VMap object)
     else if k =? wireValueList then
       let* count := readUint16 in
       let* values := p_loop (Z.to_nat count) (fun values =>
         let* value := decodeWireValue fuel (d + 1) in p_ret (values ++ [value])) [] in
       p_ret (VSlice values)
     else p_fail ErrMalformedWirePayload) c v e ->
  decodes (decodeWireValue (S fuel) d) (byte_of_Z k :: c) v e.
Proof.
  intros Hd Hk H. cbn [decodeWireValue].
  destruct (Z.ltb_spec 16 d); [lia|]. change (byte_of_Z k :: c) with ([byte_of_Z k] ++ c).
  eapply decodes_bind; [apply decodes_or, decodes_ReadByte; exact Hk | exact H | by left].
Qed.

(** Select the branch of a known value kind. *)
Ltac kind_step :=
  lazy beta iota delta [wireValueNull wireValueBool wireValueInt64 wireValueUint64
    wireValueFloat64 wireValueString wireValueObject wireValueList Z.eqb Pos.eqb].

Lemma decodes_object fuel d (l : list (string * GoValue)) :
  0 <= d <= 16 -> zlen l <= 65535 ->
  StronglySorted (fun a b => String.ltb a.1 b.1 = true) l ->
  Forall (fun e => slen e.1 <= MaxWireStringBytes /\ wire_bytes e.2 <> [] /\
    decodes (decodeWireValue fuel (d + 1)) (wire_bytes e.2) (canonical e.2)
      (ends_empty (canonical e.2))) l ->
  decodes (decodeWireValue (S fuel) d)
    (object_bytes (map (fun e => (e.1, wire_bytes e.2)) l))
    (VMap (map (fun e => (e.1, canonical e.2)) l))
    (ends_empty (VMap (map (fun e => (e.1, canonical e.2)) l))).
Proof.
  intros Hd Hlen Hs Hl. unfold object_bytes. rewrite zlen_map, map_map.
  apply decodes_value_kind; [done | unfold in_u, wireValueObject; lia |]. kind_step.
  eapply decodes_bind; [apply decodes_readUint16 | | by left].
  { pose proof (zlen_nonneg l). unfold in_u. lia. }
  replace (Z.to_nat (zlen l)) with (length l) by (unfold zlen; lia).
  rewrite Forall_forall in Hl. eapply decodes_bind_end; cycle 1.
  - rewrite <- (app_nil_l (map _ l)), <- (foldl_map_put canonical l []); [apply decodes_ret | done |].
    apply Forall_forall. intros. constructor.
  - cbn [ends_empty]. rewrite map_map. apply (decodes_loop _ (fun m e => map_put e.1 (canonical e.2) m) l
      (fun e => string_field e.1 ++ wire_bytes e.2) (fun e => ends_empty (canonical e.2))).
    + intros acc e He. destruct (Hl e He) as (Hk & Hne & Hv).
      eapply decodes_bind; [apply decodes_readString; [done|] | | by right].
      { unfold MaxWireStringBytes in Hk. lia. }
      eapply decodes_bind_end; [exact Hv | apply decodes_ret].
    + done.
Qed.

Lemma foldl_snoc {A B} (g : A -> B) l acc :
  foldl (fun vs x => vs ++ [g x]) acc l = acc ++ map g l.
Proof.
  revert acc. induction l as [|x l IH]; intros acc; simpl; [by rewrite app_nil_r|].
  by rewrite IH, <- app_assoc.
Qed.

Lemma decodes_list fuel d l :
  0 <= d <= 16 -> zlen l <= 65535 ->
  Forall (fun x => wire_bytes x <> [] /\
    decodes (decodeWireValue fuel (d + 1)) (wire_bytes x) (canonical x)
      (ends_empty (canonical x))) l ->
  decodes (decodeWireValue (S fuel) d) (list_bytes (map wire_bytes l))
    (VSlice (map canonical l)) (ends_empty (VSlice (map canonical l))).
Proof.
  intros Hd Hlen Hl. unfold list_bytes. rewrite zlen_map.
  apply decodes_value_kind; [done | unfold in_u, wireValueList; lia |]. kind_step.
  eapply decodes_bind; [apply decodes_readUint16 | | by left].
  { pose proof (zlen_nonneg l). unfold in_u. lia. }
  replace (Z.to_nat (zlen l)) with (length l) by (unfold zlen; lia).
  rewrite Forall_forall in Hl. eapply decodes_bind_end; cycle 1.
  - rewrite <- (app_nil_l (map canonical l)), <- foldl_snoc. apply decodes_ret.
  - cbn [ends_empty]. rewrite map_map. apply (decodes_loop _ (fun vs x => vs ++ [canonical x]) l wire_bytes
      (fun x => ends_empty (canonical x))).
    + intros acc x Hx. destruct (Hl x Hx) as (_ & Hv).
      eapply decodes_bind_end; [exact Hv | apply decodes_ret].
    + intros x Hx. by apply Hl.
Qed.

Lemma collect_fields_names fields :
  map fst (collect_fields (map (fun f => (f.1, (f.2, tt))) fields)) =
  map fst (collect_fields (map (fun f => (f.1, (f.2, f.2))) fields)).
Proof. rewrite (collect_fields_map (fun _ => tt)), map_map. done. Qed.

Lemma sort_by_name_distinct {X} (l : list (string * X)) :
  distinct_names l = true -> StronglySorted (fun a b => String.ltb a.1 b.1 = true) (go_sort by_name l).
Proof.
  intros H%bool_decide_eq_true. apply sorted_distinct; [apply go_sort_sorted; apply _|].
  by rewrite (go_sort_perm by_name l).
Qed.

Lemma encodable_fields_Forall (ok : GoValue -> bool) l :
  encodable_fields (map (fun e => (e.1, ok e.2)) l) = true ->
  zlen l <= 65535 /\ Forall (fun e => slen e.1 <= MaxWireStringBytes /\ ok e.2 = true) l.
Proof.
  unfold encodable_fields. rewrite zlen_map, andb_true_iff, forallb_elem, Forall_map.
  intros [H1 H2]. split; [by apply Z.leb_le|]. eapply Forall_impl; [exact H2|].
  intros e [??]%andb_true_iff. simpl in *. by zbool.
Qed.

(** What is to be shown of the values inside a list or an object. *)
Definition decoded_at (v : GoValue) : Prop :=
  forall fuel d, encodable v d = true -> GoValue_ok v = true -> 0 <= d -> 16 < Z.of_nat fuel + d ->
  decodes (decodeWireValue fuel d) (wire_bytes v) (canonical v) (ends_empty (canonical v)).

Section Inside.
Context (fuel : nat) (d : Z) (Hd : 0 <= d <= 16) (Hf : 16 < Z.of_nat fuel + (d + 1)).

Lemma decodes_items l :
  Forall decoded_at l -> (zlen l <=? 65535) && forallb (fun v => encodable v (d + 1)) l = true ->
  forallb GoValue_ok l = true ->
  decodes (decodeWireValue (S fuel) d) (list_bytes (map wire_bytes l))
    (VSlice (map canonical l)) (ends_empty (VSlice (map canonical l))).
Proof.
  intros IH Henc Hok. apply andb_true_iff in Henc as [Hlen Henc]. apply forallb_elem in Henc, Hok. zbool.
  apply decodes_list; [done | done |]. rewrite Forall_forall in *. intros x Hx.
  split; [by eapply wire_bytes_ne, Henc|]. apply IH; auto; lia.
Qed.

Lemma decodes_entries es :
  Forall (fun e => decoded_at e.2) es ->
  encodable_fields (map (fun e => (e.1, encodable e.2 (d + 1))) es) = true ->
  distinct_names es && forallb (fun e => GoValue_ok e.2) es = true ->
  decodes (decodeWireValue (S fuel) d) (wire_bytes (VMap es)) (canonical (VMap es)) (ends_empty (canonical (VMap es))).
Proof.
  intros IH Henc Hok. apply andb_true_iff in Hok as [Hnd Hok]. apply forallb_elem in Hok.
  apply (encodable_fields_Forall (fun v => encodable v (d + 1))) in Henc as [Hlen Henc].
  cbn [wire_bytes canonical]. rewrite (sort_by_name_map wire_bytes), (sort_by_name_map canonical).
  apply decodes_object; [done | by rewrite zlen_sort | by apply sort_by_name_distinct |].
  apply Forall_sorted. rewrite Forall_forall in *. intros e He.
  destruct (Henc e He) as [Hk He']. split_and!; [done | by eapply wire_bytes_ne |].
  apply IH; [done | done | by apply Hok | lia | lia].
Qed.

Lemma decodes_fields fs :
  Forall (fun f => decoded_at f.2) fs -> encodable (VStruct fs) d = true -> GoValue_ok (VStruct fs) = true ->
  decodes (decodeWireValue (S fuel) d) (wire_bytes (VStruct fs)) (canonical (VStruct fs)) (ends_empty (canonical (VStruct fs))).
Proof.
  intros IH Henc Hok. cbn [encodable] in Henc. apply andb_true_iff in Henc as [_ Henc]. cbn [GoValue_ok] in Hok.
  apply andb_true_iff in Hok as [Hnd Hok]. apply forallb_elem in Hok.
  rewrite (exportedWireFields_map (fun v => encodable v (d + 1))) in Henc.
  apply (encodable_fields_Forall (fun v => encodable v (d + 1))) in Henc as [Hlen Henc].
  cbn [wire_bytes canonical]. rewrite (exportedWireFields_map wire_bytes), (exportedWireFields_map canonical).
  apply decodes_object; [done | done | |].
  - apply sort_by_name_distinct. unfold distinct_names in *. by rewrite collect_fields_names in Hnd.
  - apply Forall_forall. pose proof (proj1 (Forall_forall _ _) Henc) as Henc'.
    pose proof (proj1 (Forall_forall _ _) IH) as IH'. pose proof (proj1 (Forall_forall _ _) Hok) as Hok'.
    intros e He. destruct (Henc' e He) as [Hk He'].
    apply wire_fields_from in He as (f & Hf' & Hfe).
    split_and!; [done | by eapply wire_bytes_ne |]. rewrite <- Hfe in *.
    apply IH'; [done | done | by apply Hok' | lia | lia].
Qed.
End Inside.

Lemma decodes_wire_bytes v : decoded_at v.
Proof.
  unfold decoded_at.
  induction v as [| |v IH| | | | | | | |es IH|es IH| |fs IH| |l IH|l IH|] using GoValue_ind;
    intros fuel d Henc Hok Hd Hf; cbn [encodable] in Henc; apply andb_true_iff in Henc as [Hd16 Henc];
    apply Z.leb_le in Hd16; (destruct fuel as [|fuel]; [lia|]); cbn [GoValue_ok] in Hok;
    try (apply bool_decide_eq_true in Hok); cbn [wire_bytes canonical];
    lazymatch goal with
    | |- decodes _ (object_bytes _) _ _ => idtac
    | |- decodes _ (list_bytes _) _ _ => idtac
    | |- decodes _ (wire_bytes _) _ _ => idtac
    | |- _ => try (apply decodes_value_kind; [done | unfold in_u; vm_compute; intuition congruence|];
                   kind_step)
    end.
  - apply decodes_ret.
  - apply decodes_ret.
  - by apply IH.
  - eapply decodes_bind_end; [apply decodes_or, decodes_ReadByte; unfold in_u; by destruct b|].
    by destruct b; apply decodes_ret.
  - eapply decodes_bind_end.
    + apply decodes_intro. intros. by apply readUintN_be; lia.
    + change (2 ^ (8 * Z.of_nat 8)) with (2 ^ 64). fold (wrap 64 z).
      rewrite to_i64_wrap by done. apply decodes_ret.
  - eapply decodes_bind_end; [by apply decodes_readUint64 | apply decodes_ret].
  - eapply decodes_bind_end; [apply decodes_readUint64 | apply decodes_ret].
    by apply float64_of_float32_range.
  - eapply decodes_bind_end; [by apply decodes_readUint64 | apply decodes_ret].
  - eapply decodes_bind_end; [apply decodes_readString | apply decodes_ret];
      unfold MaxWireStringBytes in *; zbool; lia.
  - by apply (decodes_object fuel d []); [|vm_compute| constructor | constructor].
  - apply decodes_entries; [lia | lia | exact IH | exact Henc | exact Hok].
  - apply bool_decide_eq_true in Henc as ->.
    by apply (decodes_object fuel d []); [|vm_compute| constructor | constructor].
  - done.
  - apply decodes_fields; [lia | lia | exact IH | | exact Hok].
    cbn [encodable]. by rewrite (proj2 (Z.leb_le _ _) Hd16).
  - by apply (decodes_list fuel d []); [|vm_compute| constructor].
  - apply decodes_items; [lia | lia | exact IH | exact Henc | exact Hok].
  - apply decodes_items; [lia | lia | exact IH | exact Henc | exact Hok].
  - done.
Qed.

(** ** What the decoder can return *)

Lemma map_put_elem {X} k (x : X) m e : e ∈ map_put k x m -> e = (k, x) \/ e ∈ m.
Proof.
  induction m as [|[k' x'] m IH]; simpl; [rewrite list_elem_of_singleton; auto|].
  destruct (decide (k = k')) as [->|].
  - rewrite !elem_of_cons. tauto.
  - destruct (String.ltb k k'); rewrite !elem_of_cons; tauto.
Qed.

Lemma map_put_sorted {X} k (x : X) m :
  StronglySorted (fun a b => String.ltb a.1 b.1 = true) m ->
  StronglySorted (fun a b => String.ltb a.1 b.1 = true) (map_put k x m).
Proof.
  induction 1 as [|[k' x'] m Hs IH Hf]; simpl; [repeat constructor|].
  destruct (decide (k = k')) as [->|Hne]; [by constructor|].
  destruct (String.ltb k k') eqn:E.
  - constructor; [by constructor|]. constructor; [done|]. eapply Forall_impl; [exact Hf|].
    intros [k'' x'']. simpl. intros Hk. destruct (String.ltb k k'') eqn:E2; [done|].
    destruct (sw_cotrans k k'' k' E) as [|H2]; [congruence|]. by rewrite (sw_asym _ _ Hk) in H2.
  - constructor; [done|]. rewrite Forall_forall in *. intros e [->|He]%map_put_elem; [|by apply Hf].
    simpl. destruct (String.ltb k' k) eqn:E2; [done|]. by destruct Hne; apply st_total.
Qed.

Lemma zlen_map_put {X} k (x : X) m : zlen (map_put k x m) <= zlen m + 1.
Proof.
  induction m as [|[k' x'] m IH]; simpl; [rewrite zlen_cons; lia|].
  destruct (decide (k = k')); [rewrite !zlen_cons; lia|].
  destruct (String.ltb k k'); rewrite !zlen_cons in *; lia.
Qed.

(** A value that the decoder may build at depth [d]. *)
Definition decodable (d : Z) (v : GoValue) : Prop :=
  encodable v d = true /\ GoValue_ok v = true /\ canonical v = v.

Definition decodable_entry (d : Z) (e : string * GoValue) : Prop :=
  slen e.1 <= MaxWireStringBytes /\ decodable d e.2.

Lemma sorted_entries_id {X} (l : list (string * X)) :
  StronglySorted (fun a b => String.ltb a.1 b.1 = true) l -> go_sort by_name l = l.
Proof.
  intros H. apply go_sort_id. induction H as [|x l Hs IH Hf]; constructor; [done|].
  eapply Forall_impl; [exact Hf|]. intros y Hy. by apply sw_asym.
Qed.

Lemma sorted_entries_distinct {X} (l : list (string * X)) :
  StronglySorted (fun a b => String.ltb a.1 b.1 = true) l -> distinct_names l = true.
Proof.
  intros H. apply bool_decide_eq_true. induction H as [|x l Hs IH Hf]; simpl; constructor; [|done].
  intros (y & Hy & Hin)%list_elem_of_fmap. rewrite Forall_forall in Hf. specialize (Hf _ Hin).
  by rewrite Hy, (sw_irrefl String.ltb) in Hf.
Qed.

Lemma map_canonical_id {K} (l : list (K * GoValue)) :
  Forall (fun e => canonical e.2 = e.2) l -> map (fun e => (e.1, canonical e.2)) l = l.
Proof. induction 1 as [|[k v] l H _ IH]; simpl in *; congruence. Qed.

Lemma decodable_map d es :
  d <= 16 -> zlen es <= 65535 -> Forall (decodable_entry (d + 1)) es ->
  StronglySorted (fun a b => String.ltb a.1 b.1 = true) es -> decodable d (VMap es).
Proof.
  intros Hd Hlen Hes Hs. pose proof (proj1 (Forall_forall _ _) Hes) as He. split_and!.
  - cbn [encodable]. apply andb_true_iff. split; [by apply Z.leb_le|].
    unfold encodable_fields. rewrite zlen_map. apply andb_true_iff. split; [by apply Z.leb_le|].
    apply forallb_elem, Forall_map. eapply Forall_impl; [exact Hes|]. intros e (Hk & Hv & _).
    simpl. by rewrite Hv, andb_true_r, Z.leb_le.
  - cbn [GoValue_ok]. rewrite sorted_entries_distinct by done. apply forallb_elem.
    eapply Forall_impl; [exact Hes|]. by intros e (_ & _ & Hv & _).
  - cbn [canonical]. rewrite map_canonical_id; [by rewrite sorted_entries_id|].
    eapply Forall_impl; [exact Hes|]. by intros e (_ & _ & _ & Hv).
Qed.

Lemma decodable_slice d l :
  d <= 16 -> zlen l <= 65535 -> Forall (decodable (d + 1)) l -> decodable d (VSlice l).
Proof.
  intros Hd Hlen Hl. split_and!.
  - cbn [encodable]. rewrite !andb_true_iff, !Z.leb_le. split_and!; [done..|].
    apply forallb_elem. eapply Forall_impl; [exact Hl|]. by intros ? (? & _).
  - cbn [GoValue_ok]. apply forallb_elem. eapply Forall_impl; [exact Hl|]. by intros ? (_ & ? & _).
  - cbn [canonical]. f_equal. induction Hl as [|x l (_ & _ & Hx) _ IH]; simpl; [done|].
    rewrite Hx, IH; [done|]. rewrite zlen_cons in Hlen. lia.
Qed.

Lemma decodable_scalar d v :
  d <= 16 -> GoValue_ok v = true -> canonical v = v -> (encodable v d = (d <=? 16) && true) ->
  decodable d v.
Proof. intros Hd Hok Hc He. split_and!; try done. by rewrite He, andb_true_r, Z.leb_le. Qed.

Lemma decodeWireValue_spec fuel :
  forall d, 0 <= d <= 17 -> 17 < Z.of_nat fuel + d ->
  p_spec (decodeWireValue fuel d) wire_error (decodable d).
Proof.
  induction fuel as [|fuel IH]; intros d Hd Hf; [lia|]. cbn [decodeWireValue].
  apply p_spec_if; intros Hd16; zbool; [apply p_spec_fail; unfold wire_error; auto|].
  assert (Hrec := IH (d + 1) ltac:(lia) ltac:(lia)).
  assert (forall p, p_spec p wire_error in_u8 ->
    p_spec (p_or p ErrMalformedWirePayload) wire_error in_u8) as Hor.
  { intros p Hp. eapply p_spec_weaken; [exact (p_or_spec _ _ _ _ Hp) | | done]. intros ? <-. unfold wire_error; auto. }
  eapply p_spec_bind; [apply Hor, reader_ReadByte_spec|]. intros kind Hkind.
  repeat (apply p_spec_if; intros ?); [..|apply p_spec_fail; unfold wire_error; auto].
  - by apply p_spec_ret, decodable_scalar.
  - eapply p_spec_bind; [apply Hor, reader_ReadByte_spec|]. intros. by apply p_spec_ret, decodable_scalar.
  - eapply p_spec_bind; [apply (readUintN_spec 8)|]. intros z Hz. apply p_spec_ret, decodable_scalar;
      [done | | done | done]. apply bool_decide_eq_true. unfold in_i64, to_i64. destruct Hz as [Hz1 Hz2].
    change (2 ^ (8 * Z.of_nat 8)) with (2 ^ 64) in Hz2. destruct (Z.ltb_spec z (2 ^ 63)); lia.
  - eapply p_spec_bind; [apply (readUintN_spec 8)|]. intros z Hz. apply p_spec_ret, decodable_scalar;
      [done | | done | done]. by apply bool_decide_eq_true.
  - eapply p_spec_bind; [apply (readUintN_spec 8)|]. intros z Hz. apply p_spec_ret, decodable_scalar;
      [done | | done | done]. by apply bool_decide_eq_true.
  - eapply p_spec_bind; [apply readString_spec|]. intros s [Hs1 Hs2]. apply p_spec_ret. split_and!; [|done..].
    cbn [encodable]. apply andb_true_iff. by rewrite !Z.leb_le.
  - eapply p_spec_bind; [apply (readUintN_spec 2)|]. intros count [Hc1 Hc2].
    change (2 ^ (8 * Z.of_nat 2)) with 65536 in Hc2. eapply p_spec_bind.
    + apply (p_spec_loop_count _ _ (fun n m => zlen m <= Z.of_nat n /\
        Forall (decodable_entry (d + 1)) m /\
        StronglySorted (fun a b => String.ltb a.1 b.1 = true) m)); [split_and!; [done | constructor..]|].
      intros i m Hi (Hlen & Hm & Hs). eapply p_spec_bind; [apply readString_spec|]. intros k [Hk _].
      eapply p_spec_bind; [apply Hrec|]. intros v Hv. apply p_spec_ret. split_and!.
      * pose proof (zlen_map_put k v m). lia.
      * rewrite Forall_forall in *. by intros e [->|He]%map_put_elem; [|by apply Hm].
      * by apply map_put_sorted.
    + intros m (Hlen & Hm & Hs). apply p_spec_ret, decodable_map; [done | lia | done | done].
  - eapply p_spec_bind; [apply (readUintN_spec 2)|]. intros count [Hc1 Hc2].
    change (2 ^ (8 * Z.of_nat 2)) with 65536 in Hc2. eapply p_spec_bind.
    + apply (p_spec_loop_count _ _ (fun n l => zlen l <= Z.of_nat n /\
        Forall (decodable (d + 1)) l)); [split; [done | constructor]|].
      intros i l Hi (Hlen & Hl). eapply p_spec_bind; [apply Hrec|]. intros v Hv. apply p_spec_ret.
      split; [zlen; lia|]. apply Forall_app. split; [done | by constructor].
    + intros l (Hlen & Hl). apply p_spec_ret, decodable_slice; [done | lia | done].
Qed.

(** ** Properties *)

(** [encodeWireValue] accepts exactly the encodable values (nesting at most
    16 deep, no more than 65535 entries per map, struct or list, strings of at
    most 2048 bytes, no channels, functions or maps with other keys) and what it
    then writes is exactly [wire_bytes]; every other value is refused with an
    error, never with a partial encoding. *)
Theorem encodeWireValue_correct v bs :
  w_run (encodeWireValue v 0) = Ok bs <-> encodable v 0 = true /\ bs = wire_bytes v.
Proof.
  pose proof (encodeWireValue_writes v 0) as H. split; [by apply writes_run|].
  intros [He ->]. rewrite He in H. by apply writes_run_ok.
Qed.

(** C35: decoding what the encoder wrote of a well-formed value gives its canonical form (int64,
    uint64, float64, maps for structs, slices for arrays, pointers removed) and
    leaves the rest of the input, unless the encoding ends in an empty string and
    nothing follows, when it fails with [io.EOF]. *)
Theorem decode_encode_value v bs rest :
  GoValue_ok v = true -> w_run (encodeWireValue v 0) = Ok bs ->
  decodeWireValue0 (bs ++ rest) =
    if ends_empty (canonical v) && bool_decide (rest = []) then Err ErrEOF
    else Ok (canonical v, rest).
Proof.
  intros Hok H. apply (writes_run _ _ _ _ (encodeWireValue_writes v 0)) in H as [He ->].
  by apply decodes_wire_bytes.
Qed.

(** On every payload [decodeWireValue] terminates within its recursion bound
    and either fails with a wire error (never a panic) or returns a value that is
    well-formed, already canonical and accepted again by the encoder. *)
Theorem decodeWireValue_safe payload :
  match decodeWireValue0 payload with
  | Ok (v, _) => encodable v 0 = true /\ GoValue_ok v = true /\ canonical v = v
  | Err e => wire_error e
  end.
Proof. apply (decodeWireValue_spec 18 0); lia. Qed.

Lemma decode_encode_value_witness :
  decodeWireValue0 (wire_bytes (VSlice [VInt (-5); VString "ab"]) ++ []) =
    Ok (VSlice [VInt (-5); VString "ab"], []).
Proof.
  etransitivity; [apply (decode_encode_value (VSlice [VInt (-5); VString "ab"]));
    vm_compute; reflexivity|].
  vm_compute. reflexivity.
Defined.
