(* ===== verification/Snapshot.v ===== *)
(** * Snapshots: world snapshots on the wire, and deltas between them

    [network/wire.go] lines 969-1084 ([encodeSnapshotData] and friends) and
    [network/snapshot_delta.go], with the small snapshot helpers of
    [network/runtime.go] and [network/udp.go].  A [SnapshotData] is a map of
    maps; a Go [range] over a map is a walk of [map_to_list], and every result
    below is independent of the order of that walk. *)
From S2P Require Import Prelude Buffer Values.

(** ** Data *)
Abbreviation SnapshotObjects := (gmap string GoValue).
Abbreviation SnapshotData := (gmap string SnapshotObjects).

Record SnapshotObjectRef := mkRef { ref_ObjectType : string; ref_ObjectID : string }.

#[export] Instance SnapshotObjectRef_eq_dec : EqDecision SnapshotObjectRef.
Proof. solve_decision. Defined.

Record SnapshotDelta := mkDelta {
  Spawned : SnapshotData;
  Changed : SnapshotData;
  Despawned : list SnapshotObjectRef
}.

(** [SnapshotDelta.Empty]. *)
Definition delta_Empty (delta : SnapshotDelta) : bool :=
  bool_decide (size (Spawned delta) = 0%nat) && bool_decide (size (Changed delta) = 0%nat) &&
  bool_decide (length (Despawned delta) = 0%nat).

(** [snapshot[objectType][objectID]] with Go's [value, ok]. *)
Definition lookup_object (snapshot : SnapshotData) (objectType objectID : string)
    : option GoValue :=
  objects ← snapshot !! objectType; objects !! objectID.

(** [addSnapshotObject]. *)
Definition addSnapshotObject (snapshot : SnapshotData) (objectType objectID : string)
    (objectSnapshot : GoValue) : SnapshotData :=
  let objects := default ∅ (snapshot !! objectType) in
  <[objectType := <[objectID := objectSnapshot]> objects]> snapshot.

(** [removeSnapshotObject]. *)
Definition removeSnapshotObject (snapshot : SnapshotData) (objectType objectID : string)
    : SnapshotData :=
  match snapshot !! objectType with
  | None => snapshot
  | Some objectsByID =>
      let objectsByID' := delete objectID objectsByID in
      if decide (size objectsByID' = 0%nat) then delete objectType snapshot
      else <[objectType := objectsByID']> snapshot
  end.

(** ** wire.go: snapshots on the wire *)

(** The keys of a map in [sort.Strings] order, with their values. *)
Definition sorted_entries {X} (m : gmap string X) : list (string * X) :=
  go_sort by_name (map_to_list m).

Definition write_object (e : string * GoValue) : Writer :=
  writeString e.1 MaxWireStringBytes ;;; encodeWireValue e.2 0.

Definition write_objectType (e : string * SnapshotObjects) : Writer :=
  let objectsByID := e.2 in
  writeString e.1 MaxWireStringBytes ;;;
  if 65535 <? Z.of_nat (size objectsByID) then w_fail ErrWireMessageTooLarge
  else
    writeUint16 (Z.of_nat (size objectsByID)) ;;;
    w_all (map write_object (sorted_entries objectsByID)).

Definition encodeSnapshotData (snapshot : SnapshotData) : Writer :=
  if 65535 <? Z.of_nat (size snapshot) then w_fail ErrWireMessageTooLarge
  else
    let objectTypes := sorted_entries snapshot in
    writeUint16 (zlen objectTypes) ;;; w_all (map write_objectType objectTypes).

(** [snapshot[objectType][objectID] = value], the inner map being there. *)
Definition set_object (objectType objectID : string) (value : GoValue) (snapshot : SnapshotData)
    : SnapshotData := alter (insert objectID value) objectType snapshot.

Definition read_object (objectType : string) (snapshot : SnapshotData) : Parser SnapshotData :=
  let* objectID := readString MaxWireStringBytes in
  let* value := decodeWireValue0 in
  p_ret (set_object objectType objectID value snapshot).

Definition read_objectType (snapshot : SnapshotData) : Parser SnapshotData :=
  let* objectType := readString MaxWireStringBytes in
  let* objectCount := readUint16 in
  p_loop (Z.to_nat objectCount) (read_object objectType) (<[objectType := ∅]> snapshot).

Definition decodeSnapshotData : Parser SnapshotData :=
  let* typeCount := readUint16 in
  p_loop (Z.to_nat typeCount) read_objectType ∅.

(** [ordered[left] < ordered[right]] by type, then by id. *)
Definition ref_less (left right : SnapshotObjectRef) : bool :=
  if decide (ref_ObjectType left = ref_ObjectType right)
  then String.ltb (ref_ObjectID left) (ref_ObjectID right)
  else String.ltb (ref_ObjectType left) (ref_ObjectType right).

Definition write_ref (ref : SnapshotObjectRef) : Writer :=
  writeString (ref_ObjectType ref) MaxWireStringBytes ;;;
  writeString (ref_ObjectID ref) MaxWireStringBytes.

Definition encodeSnapshotObjectRefs (refs : list SnapshotObjectRef) : Writer :=
  if 65535 <? zlen refs then w_fail ErrWireMessageTooLarge
  else
    let ordered := go_sort ref_less refs in
    writeUint16 (zlen ordered) ;;; w_all (map write_ref ordered).

Definition read_ref (refs : list SnapshotObjectRef) : Parser (list SnapshotObjectRef) :=
  let* objectType := readString MaxWireStringBytes in
  let* objectID := readString MaxWireStringBytes in
  p_ret (refs ++ [mkRef objectType objectID]).

Definition decodeSnapshotObjectRefs : Parser (list SnapshotObjectRef) :=
  let* count := readUint16 in
  p_loop (Z.to_nat count) read_ref [].

(** ** snapshot_delta.go *)
Section Delta.
(** [json.Marshal] ([None]: it returns an error) and [reflect.DeepEqual]. *)
Context (Marshal : GoValue -> option string) (DeepEqual : GoValue -> GoValue -> bool).

Definition snapshotValuesEqual (left right : GoValue) : bool :=
  match Marshal left, Marshal right with
  | Some leftPayload, Some rightPayload => bool_decide (leftPayload = rightPayload)
  | _, _ => DeepEqual left right
  end.

(** The body of the first pair of loops, for one current object. *)
Definition delta_object (previousObjects : SnapshotObjects) (objectType : string)
    (delta : SnapshotData * SnapshotData) (e : string * GoValue) : SnapshotData * SnapshotData :=
  let (spawned, changed) := delta in
  let (objectID, currentSnapshot) := e in
  match previousObjects !! objectID with
  | None => (addSnapshotObject spawned objectType objectID currentSnapshot, changed)
  | Some previousSnapshot =>
      if negb (snapshotValuesEqual previousSnapshot currentSnapshot)
      then (spawned, addSnapshotObject changed objectType objectID currentSnapshot)
      else (spawned, changed)
  end.

Definition delta_objectType (previous : SnapshotData) (delta : SnapshotData * SnapshotData)
    (e : string * SnapshotObjects) : SnapshotData * SnapshotData :=
  let previousObjects := default ∅ (previous !! e.1) in
  foldl (delta_object previousObjects e.1) delta (map_to_list e.2).

(** The body of the second pair of loops. *)
Definition despawned_objectType (current : SnapshotData) (refs : list SnapshotObjectRef)
    (e : string * SnapshotObjects) : list SnapshotObjectRef :=
  let currentObjects := default ∅ (current !! e.1) in
  foldl (fun refs (o : string * GoValue) =>
    match currentObjects !! o.1 with
    | Some _ => refs
    | None => refs ++ [mkRef e.1 o.1]
    end) refs (map_to_list e.2).

Definition BuildSnapshotDelta (previous current : SnapshotData) : SnapshotDelta :=
  let (spawned, changed) :=
    foldl (delta_objectType previous) (∅, ∅) (map_to_list current) in
  let despawned := foldl (despawned_objectType current) [] (map_to_list previous) in
  mkDelta spawned changed (go_sort ref_less despawned).
End Delta.

(** [CloneSnapshotData]: [roundtrip] is [json.Unmarshal] of [json.Marshal], and
    [None] when either fails or the result is nil. *)
Definition CloneSnapshotData (roundtrip : SnapshotData -> option SnapshotData)
    (snapshot : option SnapshotData) : SnapshotData :=
  match snapshot with
  | None => ∅
  | Some snapshot =>
      match roundtrip snapshot with
      | Some cloned => cloned
      | None =>
          foldl (fun cloned (e : string * SnapshotObjects) =>
            foldl (fun cloned (o : string * GoValue) => set_object e.1 o.1 o.2 cloned)
              (<[e.1 := ∅]> cloned) (map_to_list e.2))
            ∅ (map_to_list snapshot)
      end
  end.

(** ** Specification of the codec *)
Definition canonical_snapshot (snapshot : SnapshotData) : SnapshotData :=
  (fun objects : SnapshotObjects => canonical <$> objects) <$> snapshot.

Definition snapshot_forall (P : GoValue -> Prop) (snapshot : SnapshotData) : Prop :=
  map_Forall (fun _ objects => map_Forall (fun _ v => P v) objects) snapshot.

Definition encodable_object (e : string * GoValue) : bool :=
  (slen e.1 <=? MaxWireStringBytes) && encodable e.2 0.

Definition encodable_objectType (e : string * SnapshotObjects) : bool :=
  (slen e.1 <=? MaxWireStringBytes) &&
  ((Z.of_nat (size e.2) <=? 65535) && forallb encodable_object (sorted_entries e.2)).

Definition encodable_snapshot (snapshot : SnapshotData) : bool :=
  (Z.of_nat (size snapshot) <=? 65535) &&
  forallb encodable_objectType (sorted_entries snapshot).

Definition object_entry_bytes (e : string * GoValue) : bytes := string_field e.1 ++ wire_bytes e.2.
Definition objectType_bytes (e : string * SnapshotObjects) : bytes :=
  string_field e.1 ++ be_bytes 2 (Z.of_nat (size e.2)) ++
  concat (map object_entry_bytes (sorted_entries e.2)).
Definition snapshot_bytes (snapshot : SnapshotData) : bytes :=
  be_bytes 2 (Z.of_nat (size snapshot)) ++ concat (map objectType_bytes (sorted_entries snapshot)).

Definition objects_end_empty (objects : SnapshotObjects) : bool :=
  default false (last (map (fun e => ends_empty (canonical e.2)) (sorted_entries objects))).
Definition snapshot_ends_empty (snapshot : SnapshotData) : bool :=
  default false (last (map (fun e => objects_end_empty e.2) (sorted_entries snapshot))).

Definition encodable_refs (refs : list SnapshotObjectRef) : bool :=
  (zlen refs <=? 65535) &&
  forallb (fun ref => (slen (ref_ObjectType ref) <=? MaxWireStringBytes) &&
                      (slen (ref_ObjectID ref) <=? MaxWireStringBytes)) refs.
Definition refs_bytes (refs : list SnapshotObjectRef) : bytes :=
  be_bytes 2 (zlen refs) ++
  concat (map (fun ref => string_field (ref_ObjectType ref) ++ string_field (ref_ObjectID ref))
            (go_sort ref_less refs)).
Definition refs_end_empty (refs : list SnapshotObjectRef) : bool :=
  default false (last (map (fun ref => bool_decide (ref_ObjectID ref = ""%string))
                         (go_sort ref_less refs))).

(** ** Sorted entries *)
Lemma sorted_entries_perm {X} (m : gmap string X) : sorted_entries m ≡ₚ map_to_list m.
Proof. apply go_sort_perm. Qed.

Lemma sorted_entries_strict {X} (m : gmap string X) :
  StronglySorted (fun a b => String.ltb a.1 b.1 = true) (sorted_entries m).
Proof.
  apply sort_by_name_distinct, bool_decide_eq_true. apply NoDup_fst_map_to_list.
Qed.

Lemma sorted_entries_NoDup {X} (m : gmap string X) : NoDup (sorted_entries m).*1.
Proof. rewrite sorted_entries_perm. apply NoDup_fst_map_to_list. Qed.

Lemma elem_of_sorted_entries {X} (m : gmap string X) k x :
  (k, x) ∈ sorted_entries m <-> m !! k = Some x.
Proof. rewrite sorted_entries_perm. apply elem_of_map_to_list. Qed.

Lemma length_sorted_entries {X} (m : gmap string X) : length (sorted_entries m) = size m.
Proof. rewrite sorted_entries_perm. apply length_map_to_list. Qed.

Lemma zlen_sorted_entries {X} (m : gmap string X) : zlen (sorted_entries m) = Z.of_nat (size m).
Proof. unfold zlen. by rewrite length_sorted_entries. Qed.

(** Inserting the entries of a map, in any order, into [acc]. *)
Definition insert_all {X Y} (g : X -> Y) (acc : gmap string Y) (l : list (string * X))
    : gmap string Y := foldl (fun m e => <[e.1 := g e.2]> m) acc l.

Lemma insert_all_lookup {X Y} (g : X -> Y) l acc k :
  NoDup l.*1 ->
  insert_all g acc l !! k =
    match list_to_map (M := gmap string X) l !! k with Some x => Some (g x) | None => acc !! k end.
Proof.
  unfold insert_all. revert acc. induction l as [|[k' x] l IH]; intros acc Hnd; [done|].
  apply NoDup_cons in Hnd as [Hk Hnd]. cbn [foldl fst snd list_to_map foldr uncurry].
  rewrite IH by done. destruct (decide (k = k')) as [->|Hne].
  - rewrite lookup_insert_eq. rewrite not_elem_of_list_to_map_1 by done.
    by rewrite lookup_insert_eq.
  - by rewrite !lookup_insert_ne.
Qed.

Lemma insert_all_sorted_entries {X Y} (g : X -> Y) (m : gmap string X) :
  insert_all g ∅ (sorted_entries m) = g <$> m.
Proof.
  apply map_eq. intros k. rewrite insert_all_lookup by apply sorted_entries_NoDup.
  rewrite (list_to_map_proper _ (map_to_list m)), list_to_map_to_list, lookup_fmap, lookup_empty.
  - by destruct (m !! k).
  - apply sorted_entries_NoDup.
  - apply sorted_entries_perm.
Qed.

(** ** The encoder meets the specification *)
Lemma writes_objectType e :
  writes (write_objectType e) (encodable_objectType e) (objectType_bytes e).
Proof.
  unfold write_objectType, encodable_objectType, objectType_bytes. rewrite ltb_leb_negb.
  apply writes_seq; [by apply writes_string|].
  eapply writes_weaken; [apply writes_guard | by rewrite negb_involutive | done].
  apply (writes_seq _ _ true); [apply writes_bytes|]. apply writes_all. intros o _.
  apply writes_seq; [by apply writes_string | apply encodeWireValue_writes].
Qed.

Lemma encodeSnapshotData_writes snapshot :
  writes (encodeSnapshotData snapshot) (encodable_snapshot snapshot) (snapshot_bytes snapshot).
Proof.
  unfold encodeSnapshotData, encodable_snapshot, snapshot_bytes. rewrite ltb_leb_negb.
  rewrite zlen_sorted_entries.
  eapply writes_weaken; [apply writes_guard | by rewrite negb_involutive | done].
  apply (writes_seq _ _ true); [apply writes_bytes|]. apply writes_all. intros e _.
  apply writes_objectType.
Qed.

Lemma encodeSnapshotObjectRefs_writes refs :
  writes (encodeSnapshotObjectRefs refs) (encodable_refs refs) (refs_bytes refs).
Proof.
  unfold encodeSnapshotObjectRefs, encodable_refs, refs_bytes. rewrite ltb_leb_negb, zlen_sort.
  rewrite <- (forallb_perm _ _ _ (go_sort_perm ref_less refs)).
  eapply writes_weaken; [apply writes_guard | by rewrite negb_involutive | done].
  apply (writes_seq _ _ true); [apply writes_bytes|].
  apply (writes_all write_ref (fun ref => (slen (ref_ObjectType ref) <=? MaxWireStringBytes) &&
                      (slen (ref_ObjectID ref) <=? MaxWireStringBytes))).
  intros r _. by apply writes_seq; apply writes_string.
Qed.

(** ** The decoder inverts the specification *)
Lemma snapshot_forall_lookup P snapshot t objects :
  snapshot_forall P snapshot -> snapshot !! t = Some objects -> map_Forall (fun _ v => P v) objects.
Proof. intros H Ht. by apply (H t). Qed.

Lemma set_object_insert t k v objects (snapshot : SnapshotData) :
  set_object t k v (<[t := objects]> snapshot) = <[t := <[k := v]> objects]> snapshot.
Proof. unfold set_object. apply (alter_insert_eq (M := gmap string)). Qed.

Lemma foldl_set_object {X} (g : X -> GoValue) t l objects (snapshot : SnapshotData) :
  foldl (fun s e => set_object t e.1 (g e.2) s) (<[t := objects]> snapshot) l =
  <[t := insert_all g objects l]> snapshot.
Proof.
  revert objects. induction l as [|e l IH]; intros objects; [done|].
  cbn [foldl]. by rewrite set_object_insert, IH.
Qed.

Lemma decodes_read_object t snapshot e :
  encodable_object e = true -> GoValue_ok e.2 = true ->
  decodes (read_object t snapshot) (object_entry_bytes e)
    (set_object t e.1 (canonical e.2) snapshot) (ends_empty (canonical e.2)).
Proof.
  intros [Hk Hv]%andb_true_iff Hok. zbool. unfold MaxWireStringBytes in Hk.
  eapply decodes_bind; [apply decodes_readString; unfold MaxWireStringBytes; lia | |].
  - eapply decodes_bind_end; [by apply decodes_wire_bytes | apply decodes_ret].
  - right. by eapply wire_bytes_ne.
Qed.

Lemma decodes_read_objectType snapshot e :
  encodable_objectType e = true -> map_Forall (fun _ v => GoValue_ok v = true) e.2 ->
  decodes (read_objectType snapshot) (objectType_bytes e)
    (<[e.1 := canonical <$> e.2]> snapshot) (objects_end_empty e.2).
Proof.
  intros (Hk & [Hsize Hes]%andb_true_iff)%andb_true_iff Hok. zbool.
  unfold MaxWireStringBytes in Hk. apply forallb_elem in Hes.
  eapply decodes_bind; [apply decodes_readString; unfold MaxWireStringBytes; lia | |].
  2:{ right. by apply be_bytes_ne; lia. }
  eapply decodes_bind; [apply decodes_readUint16; unfold in_u; lia | | by left].
  rewrite Nat2Z.id, <- length_sorted_entries. rewrite <- insert_all_sorted_entries.
  rewrite <- foldl_set_object. apply (decodes_loop _ _ _ object_entry_bytes).
  - intros acc [k v] He. rewrite Forall_forall in Hes. apply decodes_read_object; [by apply Hes|].
    apply elem_of_sorted_entries in He. by apply (Hok k).
  - intros o Ho. unfold object_entry_bytes. apply string_field_ne.
Qed.

Lemma foldl_snapshot (l : list (string * SnapshotObjects)) (acc : SnapshotData) :
  foldl (fun s e => <[e.1 := canonical <$> e.2]> s) acc l =
  insert_all (fun objects : SnapshotObjects => canonical <$> objects) acc l.
Proof. done. Qed.

Lemma decodes_snapshot snapshot :
  encodable_snapshot snapshot = true -> snapshot_forall (fun v => GoValue_ok v = true) snapshot ->
  decodes decodeSnapshotData (snapshot_bytes snapshot) (canonical_snapshot snapshot)
    (snapshot_ends_empty snapshot).
Proof.
  intros [Hsize Hes]%andb_true_iff Hok. zbool. apply forallb_elem in Hes.
  eapply decodes_bind; [apply decodes_readUint16; unfold in_u; lia | | by left].
  rewrite Nat2Z.id, <- length_sorted_entries. unfold canonical_snapshot.
  rewrite <- insert_all_sorted_entries, <- foldl_snapshot.
  apply (decodes_loop _ _ _ objectType_bytes).
  - intros acc [t objects] He. rewrite Forall_forall in Hes.
    apply decodes_read_objectType; [by apply Hes|]. apply elem_of_sorted_entries in He.
    by eapply snapshot_forall_lookup.
  - intros o Ho. unfold objectType_bytes. apply string_field_ne.
Qed.

Lemma foldl_refs {A B} (f : A -> B) l acc : foldl (fun refs x => refs ++ [f x]) acc l = acc ++ map f l.
Proof. apply foldl_snoc. Qed.

Lemma decodes_refs refs :
  encodable_refs refs = true ->
  decodes decodeSnapshotObjectRefs (refs_bytes refs) (go_sort ref_less refs) (refs_end_empty refs).
Proof.
  intros [Hlen Hrefs]%andb_true_iff. zbool.
  rewrite <- (forallb_perm _ _ _ (go_sort_perm ref_less refs)) in Hrefs. apply forallb_elem in Hrefs.
  unfold refs_bytes. rewrite <- (zlen_sort ref_less refs). rewrite <- (zlen_sort ref_less refs) in Hlen.
  unfold refs_end_empty. set (l := go_sort ref_less refs) in *. clearbody l. clear refs.
  eapply decodes_bind; [apply decodes_readUint16; pose proof (zlen_nonneg l); unfold in_u; lia | | by left].
  replace (Z.to_nat (zlen l)) with (length l) by (unfold zlen; lia).
  assert (l = foldl (fun refs x => refs ++ [x]) [] l) as Hl.
  { rewrite (foldl_refs (fun x => x)), map_id. done. }
  rewrite Hl at 3.
  apply (decodes_loop _ _ l (fun ref => string_field (ref_ObjectType ref) ++ string_field (ref_ObjectID ref))
    (fun ref => bool_decide (ref_ObjectID ref = ""%string))); [|by intros].
  intros acc [t o] He. rewrite Forall_forall in Hrefs. apply Hrefs in He.
  apply andb_true_iff in He as [H1 H2]. zbool. cbn [ref_ObjectType ref_ObjectID] in *.
  unfold MaxWireStringBytes in H1, H2. unfold read_ref.
  eapply decodes_bind; [apply decodes_readString; unfold MaxWireStringBytes; lia | |].
  - eapply decodes_bind_end; [apply decodes_readString; unfold MaxWireStringBytes; lia | apply decodes_ret].
  - right. apply be_bytes_ne. lia.
Qed.

(** ** Snapshots up to empty object maps

    [SnapshotData] distinguishes a type without objects from an absent type;
    readers of a snapshot do not. *)
Definition same_objects (s1 s2 : SnapshotData) : Prop :=
  forall t i, lookup_object s1 t i = lookup_object s2 t i.

#[export] Instance same_objects_equiv : Equivalence same_objects.
Proof.
  split; [done | intros s1 s2 H t i; by rewrite H | intros s1 s2 s3 H1 H2 t i; by rewrite H1].
Qed.

#[export] Instance lookup_object_proper :
  Proper (same_objects ==> eq ==> eq ==> eq) lookup_object.
Proof. intros s1 s2 H t _ <- i _ <-. apply H. Qed.

(** No type is left without objects: what [removeSnapshotObject] maintains. *)
Definition no_empty_types (s : SnapshotData) : Prop := map_Forall (fun _ objects => objects <> ∅) s.

Lemma no_empty_types_empty : no_empty_types ∅.
Proof. apply map_Forall_empty. Qed.

Lemma lookup_object_empty t i : lookup_object ∅ t i = None.
Proof. unfold lookup_object. by rewrite lookup_empty. Qed.

(** Two keys that the context tells apart. *)
Ltac key_ne := first [congruence | intros [? ?]; congruence | intros ?; subst; intuition congruence].

Lemma lookup_addSnapshotObject s t i v t' i' :
  lookup_object (addSnapshotObject s t i v) t' i' =
    if decide (t' = t /\ i' = i) then Some v else lookup_object s t' i'.
Proof.
  unfold lookup_object, addSnapshotObject. destruct (decide (t' = t)) as [->|Ht].
  - rewrite lookup_insert_eq. simpl. destruct (decide (i' = i)) as [->|Hi].
    + by rewrite lookup_insert_eq, decide_True.
    + rewrite lookup_insert_ne, decide_False by key_ne.
      destruct (s !! t); simpl; [done | apply lookup_empty].
  - by rewrite lookup_insert_ne, decide_False by key_ne.
Qed.

Lemma lookup_removeSnapshotObject s t i t' i' :
  lookup_object (removeSnapshotObject s t i) t' i' =
    if decide (t' = t /\ i' = i) then None else lookup_object s t' i'.
Proof.
  unfold lookup_object, removeSnapshotObject. destruct (s !! t) as [objects|] eqn:E.
  2:{ case_decide as H; [|done]. destruct H as [-> ->]. by rewrite E. }
  case_decide as Hsize.
  - apply map_size_empty_iff in Hsize. destruct (decide (t' = t)) as [->|Ht].
    + rewrite lookup_delete_eq, E. simpl. case_decide; [done|].
      rewrite <- (lookup_delete_ne objects i i') by key_ne. by rewrite Hsize, lookup_empty.
    + by rewrite lookup_delete_ne, decide_False by key_ne.
  - destruct (decide (t' = t)) as [->|Ht].
    + rewrite lookup_insert_eq, E. simpl. destruct (decide (i' = i)) as [->|Hi].
      * by rewrite lookup_delete_eq, decide_True.
      * by rewrite lookup_delete_ne, decide_False by key_ne.
    + by rewrite lookup_insert_ne, decide_False by key_ne.
Qed.

#[export] Instance addSnapshotObject_proper :
  Proper (same_objects ==> eq ==> eq ==> eq ==> same_objects) addSnapshotObject.
Proof.
  intros s1 s2 H t _ <- i _ <- v _ <- t' i'. by rewrite !lookup_addSnapshotObject, H.
Qed.

#[export] Instance removeSnapshotObject_proper :
  Proper (same_objects ==> eq ==> eq ==> same_objects) removeSnapshotObject.
Proof. intros s1 s2 H t _ <- i _ <- t' i'. by rewrite !lookup_removeSnapshotObject, H. Qed.

Lemma addSnapshotObject_no_empty s t i v :
  no_empty_types s -> no_empty_types (addSnapshotObject s t i v).
Proof. intros H. apply map_Forall_insert_2; [apply insert_non_empty | done]. Qed.

Lemma removeSnapshotObject_no_empty s t i :
  no_empty_types s -> no_empty_types (removeSnapshotObject s t i).
Proof.
  intros H. unfold removeSnapshotObject. destruct (s !! t); [|done].
  case_decide as Hs; [by apply map_Forall_delete|].
  apply map_Forall_insert_2; [|done]. intros E. by rewrite E in Hs.
Qed.

Lemma same_objects_eq s1 s2 :
  no_empty_types s1 -> no_empty_types s2 -> same_objects s1 s2 -> s1 = s2.
Proof.
  intros H1 H2 Heq. apply map_eq. intros t.
  assert (forall s s' objects, no_empty_types s -> same_objects s s' -> s !! t = Some objects ->
    exists objects', s' !! t = Some objects') as Hdom.
  { intros s s' objects Hs Hss Ht. destruct (map_choose objects (Hs t objects Ht)) as (i & v & Hi).
    specialize (Hss t i). unfold lookup_object in Hss. rewrite Ht in Hss. simpl in Hss.
    destruct (s' !! t) as [o|]; [eauto | simpl in Hss; congruence]. }
  destruct (s1 !! t) as [o1|] eqn:E1, (s2 !! t) as [o2|] eqn:E2; [| | |done].
  - f_equal. apply map_eq. intros i. specialize (Heq t i). unfold lookup_object in Heq.
    by rewrite E1, E2 in Heq.
  - destruct (Hdom s1 s2 o1) as [o Ho]; [done..|congruence].
  - destruct (Hdom s2 s1 o2) as [o Ho]; [done | by symmetry | done | congruence].
Qed.

Lemma no_empty_lookup s : no_empty_types s -> (forall t i, lookup_object s t i = None) -> s = ∅.
Proof.
  intros Hs H. apply same_objects_eq; [done | apply no_empty_types_empty |].
  intros t i. by rewrite H, lookup_object_empty.
Qed.

(** ** The objects of a snapshot, flattened *)
Abbreviation object_entry := (string * string * GoValue)%type.

Definition snapshot_entries (s : SnapshotData) : list object_entry :=
  concat (map (fun e => map (fun o => (e.1, o.1, o.2)) (map_to_list e.2)) (map_to_list s)).

Lemma elem_of_snapshot_entries s t i v :
  (t, i, v) ∈ snapshot_entries s <-> lookup_object s t i = Some v.
Proof.
  unfold snapshot_entries, lookup_object. rewrite list_elem_of_In, in_concat. split.
  - intros (l & (e & <- & He)%in_map_iff & ([i' v'] & [= <- <- <-] & Hi)%in_map_iff).
    rewrite <- list_elem_of_In in He. rewrite <- list_elem_of_In in Hi. destruct e as [t' objects].
    apply elem_of_map_to_list in He. apply elem_of_map_to_list in Hi. simpl in *. by rewrite He.
  - intros H. apply bind_Some in H as (objects & Ht & Hi).
    exists (map (fun o => (t, o.1, o.2)) (map_to_list objects)). split.
    + apply in_map_iff. exists (t, objects). split; [done|]. rewrite <- list_elem_of_In.
      by apply elem_of_map_to_list.
    + apply in_map_iff. exists (i, v). split; [done|]. rewrite <- list_elem_of_In.
      by apply elem_of_map_to_list.
Qed.

(** The nested loops over a snapshot are one loop over its entries. *)
Lemma foldl_entries {A} (f : A -> object_entry -> A) s acc :
  foldl (fun a (e : string * SnapshotObjects) => foldl (fun a o => f a (e.1, o.1, o.2)) a (map_to_list e.2))
    acc (map_to_list s) = foldl f acc (snapshot_entries s).
Proof.
  unfold snapshot_entries. generalize (map_to_list s) as l. intros l. revert acc.
  induction l as [|e l IH]; intros acc; simpl; [done|].
  rewrite foldl_app, IH. f_equal. generalize (map_to_list e.2) as k. clear.
  intros k. revert acc. induction k as [|o k IH]; intros acc; simpl; [done | apply IH].
Qed.

Lemma foldl_ext_eq {A B} (f g : A -> B -> A) l acc :
  (forall a b, f a b = g a b) -> foldl f acc l = foldl g acc l.
Proof. intros H. revert acc. induction l as [|b l IH]; intros acc; simpl; [done|]. by rewrite H, IH. Qed.

Definition add_if (keep : object_entry -> bool) (s : SnapshotData) (x : object_entry) : SnapshotData :=
  if keep x then addSnapshotObject s x.1.1 x.1.2 x.2 else s.

Definition kept_at (keep : object_entry -> bool) (t i : string) (x : object_entry) : bool :=
  bool_decide (x.1 = (t, i)) && keep x.

Lemma foldl_add_if_lookup keep s l acc t i :
  Forall (fun x => lookup_object s x.1.1 x.1.2 = Some x.2) l ->
  lookup_object (foldl (add_if keep) acc l) t i =
    if existsb (kept_at keep t i) l then lookup_object s t i else lookup_object acc t i.
Proof.
  intros Hl. revert acc. induction Hl as [|[[t' i'] v'] l Hx Hl IH]; intros acc; [done|].
  cbn [foldl existsb]. rewrite IH. destruct (existsb (kept_at keep t i) l); [by rewrite orb_true_r|].
  rewrite orb_false_r. unfold add_if, kept_at. simpl in *.
  destruct (keep _); [|by rewrite andb_false_r]. rewrite lookup_addSnapshotObject, andb_true_r.
  case_decide as H; case_bool_decide as H'; try done; [|by destruct H as [-> ->]|].
  - by destruct H as [-> ->].
  - destruct H. by simplify_eq.
Qed.

Lemma foldl_add_if_entries keep s t i :
  lookup_object (foldl (add_if keep) ∅ (snapshot_entries s)) t i =
    match lookup_object s t i with
    | Some v => if keep (t, i, v) then Some v else None
    | None => None
    end.
Proof.
  rewrite (foldl_add_if_lookup _ s).
  2:{ apply Forall_forall. by intros [[??]?] ?%elem_of_snapshot_entries. }
  rewrite lookup_object_empty.
  destruct (existsb _ _) eqn:E.
  - apply existsb_exists in E as ([[t' i'] v] & Hin & [H%bool_decide_eq_true Hk]%andb_true_iff).
    apply list_elem_of_In, elem_of_snapshot_entries in Hin. simpl in H. injection H as -> ->.
    by rewrite Hin, Hk.
  - destruct (lookup_object s t i) as [v|] eqn:Ev; [|done].
    destruct (keep (t, i, v)) eqn:Ek; [|done]. apply elem_of_snapshot_entries, list_elem_of_In in Ev.
    assert (existsb (kept_at keep t i) (snapshot_entries s) = true) as E'; [|congruence].
    apply existsb_exists. exists (t, i, v). split; [done|]. unfold kept_at.
    by rewrite bool_decide_true.
Qed.

Lemma foldl_add_if_no_empty keep l acc :
  no_empty_types acc -> no_empty_types (foldl (add_if keep) acc l).
Proof.
  revert acc. induction l as [|x l IH]; intros acc H; simpl; [done|]. apply IH.
  unfold add_if. destruct (keep x); [by apply addSnapshotObject_no_empty | done].
Qed.

#[export] Instance ref_less_total : StrictTotal ref_less.
Proof.
  apply (strict_total_lex ref_ObjectType String.ltb
    (fun l r => String.ltb (ref_ObjectID l) (ref_ObjectID r))); [apply _ | |].
  - apply (strict_weak_key ref_ObjectID String.ltb). apply _.
  - intros [] [] ? ? ?. simpl in *. f_equal; [done | by apply st_total].
Qed.

(** ** The delta between two snapshots *)
Section DeltaFacts.
Context (Marshal : GoValue -> option string) (DeepEqual : GoValue -> GoValue -> bool).

Definition is_spawned (previous : SnapshotData) (x : object_entry) : bool :=
  bool_decide (lookup_object previous x.1.1 x.1.2 = None).
Definition is_changed (previous : SnapshotData) (x : object_entry) : bool :=
  match lookup_object previous x.1.1 x.1.2 with
  | Some p => negb (snapshotValuesEqual Marshal DeepEqual p x.2)
  | None => false
  end.
Definition is_despawned (current : SnapshotData) (x : object_entry) : bool :=
  bool_decide (lookup_object current x.1.1 x.1.2 = None).

Lemma default_lookup (s : SnapshotData) t i :
  default ∅ (s !! t) !! i = lookup_object s t i.
Proof. unfold lookup_object. by destruct (s !! t); simpl; [|rewrite lookup_empty]. Qed.

Lemma delta_object_spec previous t d o :
  delta_object Marshal DeepEqual (default ∅ (previous !! t)) t d o =
    (add_if (is_spawned previous) d.1 (t, o.1, o.2), add_if (is_changed previous) d.2 (t, o.1, o.2)).
Proof.
  destruct d as [sp ch], o as [i v]. unfold delta_object, add_if, is_spawned, is_changed. simpl.
  rewrite default_lookup. destruct (lookup_object previous t i) as [p|]; simpl; [|done].
  by destruct (negb _).
Qed.

Lemma foldl_pair {A B C} (f : A -> C -> A) (g : B -> C -> B) l a b :
  foldl (fun d x => (f d.1 x, g d.2 x)) (a, b) l = (foldl f a l, foldl g b l).
Proof. revert a b. induction l as [|x l IH]; intros a b; simpl; [done | apply IH]. Qed.

Lemma foldl_filter {A B} (keep : A -> bool) (f : A -> B) l acc :
  foldl (fun refs x => if keep x then refs ++ [f x] else refs) acc l =
  acc ++ map f (List.filter keep l).
Proof.
  revert acc. induction l as [|x l IH]; intros acc; simpl; [by rewrite app_nil_r|].
  rewrite IH. destruct (keep x); simpl; [by rewrite <- app_assoc | done].
Qed.

(** The delta, without its loops. *)
Lemma BuildSnapshotDelta_eq previous current :
  BuildSnapshotDelta Marshal DeepEqual previous current =
  mkDelta (foldl (add_if (is_spawned previous)) ∅ (snapshot_entries current))
    (foldl (add_if (is_changed previous)) ∅ (snapshot_entries current))
    (go_sort ref_less (map (fun x => mkRef x.1.1 x.1.2)
       (List.filter (is_despawned current) (snapshot_entries previous)))).
Proof.
  unfold BuildSnapshotDelta.
  assert (foldl (delta_objectType Marshal DeepEqual previous) (∅, ∅) (map_to_list current) =
    (foldl (add_if (is_spawned previous)) ∅ (snapshot_entries current),
     foldl (add_if (is_changed previous)) ∅ (snapshot_entries current))) as ->.
  { rewrite <- (foldl_pair (add_if (is_spawned previous)) (add_if (is_changed previous))).
    rewrite <- foldl_entries. apply foldl_ext_eq. intros d e. apply foldl_ext_eq.
    intros. apply delta_object_spec. }
  assert (foldl (despawned_objectType current) [] (map_to_list previous) =
    map (fun x => mkRef x.1.1 x.1.2)
       (List.filter (is_despawned current) (snapshot_entries previous))) as ->; [|done].
  rewrite <- (app_nil_l (map _ _)), <- foldl_filter, <- foldl_entries.
  apply foldl_ext_eq. intros refs e. apply foldl_ext_eq. intros refs' o.
  unfold is_despawned. simpl. rewrite default_lookup.
  by destruct (lookup_object current e.1 o.1).
Qed.

Definition delta_of := BuildSnapshotDelta Marshal DeepEqual.

Lemma lookup_Spawned previous current t i :
  lookup_object (Spawned (delta_of previous current)) t i =
    match lookup_object previous t i with
    | None => lookup_object current t i
    | Some _ => None
    end.
Proof.
  unfold delta_of. rewrite BuildSnapshotDelta_eq. simpl. rewrite foldl_add_if_entries.
  unfold is_spawned. simpl.
  by destruct (lookup_object current t i), (lookup_object previous t i).
Qed.

Lemma lookup_Changed previous current t i :
  lookup_object (Changed (delta_of previous current)) t i =
    match lookup_object previous t i, lookup_object current t i with
    | Some p, Some v => if snapshotValuesEqual Marshal DeepEqual p v then None else Some v
    | _, _ => None
    end.
Proof.
  unfold delta_of. rewrite BuildSnapshotDelta_eq. simpl. rewrite foldl_add_if_entries.
  unfold is_changed. simpl.
  destruct (lookup_object current t i), (lookup_object previous t i); try done.
  by destruct (snapshotValuesEqual _ _ _ _).
Qed.

Lemma elem_of_Despawned previous current t i :
  mkRef t i ∈ Despawned (delta_of previous current) <->
  lookup_object current t i = None /\ is_Some (lookup_object previous t i).
Proof.
  unfold delta_of. rewrite BuildSnapshotDelta_eq. simpl. rewrite go_sort_perm, list_elem_of_fmap.
  split.
  - intros ([[t' i'] v] & [= -> ->] & H). apply list_elem_of_In, filter_In in H as [H Hd].
    apply list_elem_of_In, elem_of_snapshot_entries in H. unfold is_despawned in Hd.
    apply bool_decide_eq_true in Hd. simpl in *. by rewrite H.
  - intros [Hc [v Hv]]. exists (t, i, v). split; [done|]. apply list_elem_of_In, filter_In.
    unfold is_despawned. rewrite bool_decide_true by done. split; [|done].
    by apply list_elem_of_In, elem_of_snapshot_entries.
Qed.

Lemma delta_no_empty previous current :
  no_empty_types (Spawned (delta_of previous current)) /\
  no_empty_types (Changed (delta_of previous current)).
Proof.
  unfold delta_of. rewrite BuildSnapshotDelta_eq. simpl.
  split; apply foldl_add_if_no_empty, no_empty_types_empty.
Qed.

(** What a receiver of the delta does with the snapshot it has. *)
Definition apply_delta (s : SnapshotData) (d : SnapshotDelta) : SnapshotData :=
  let s := foldl (fun s ref => removeSnapshotObject s (ref_ObjectType ref) (ref_ObjectID ref))
             s (Despawned d) in
  let s := foldl (add_if (fun _ => true)) s (snapshot_entries (Spawned d)) in
  foldl (add_if (fun _ => true)) s (snapshot_entries (Changed d)).

Definition agree (R : GoValue -> GoValue -> Prop) (s1 s2 : SnapshotData) : Prop :=
  forall t i, option_Forall2 R (lookup_object s1 t i) (lookup_object s2 t i).

Lemma lookup_foldl_remove refs s t i :
  lookup_object (foldl (fun s ref => removeSnapshotObject s (ref_ObjectType ref) (ref_ObjectID ref))
             s refs) t i = if decide (mkRef t i ∈ refs) then None else lookup_object s t i.
Proof.
  revert s. induction refs as [|[t' i'] refs IH]; intros s; cbn [foldl].
  { rewrite decide_False; [done | by intros ?%elem_of_nil]. }
  rewrite IH, lookup_removeSnapshotObject. simpl.
  destruct (decide (mkRef t i ∈ refs)) as [H|H].
  { rewrite decide_True; [done | by right]. }
  destruct (decide (t = t' /\ i = i')) as [[-> ->]|H'].
  { rewrite decide_True; [done | left]. }
  rewrite decide_False; [done|]. rewrite elem_of_cons. intros [[=]|]; [|done]. by destruct H'.
Qed.

Lemma lookup_foldl_add s' s t i :
  lookup_object (foldl (add_if (fun _ => true)) s (snapshot_entries s')) t i =
    match lookup_object s' t i with Some v => Some v | None => lookup_object s t i end.
Proof.
  rewrite (foldl_add_if_lookup _ s').
  2:{ apply Forall_forall. by intros [[??]?] ?%elem_of_snapshot_entries. }
  destruct (existsb _ _) eqn:E.
  - apply existsb_exists in E as ([[t' i'] v] & Hin & [H%bool_decide_eq_true _]%andb_true_iff).
    apply list_elem_of_In, elem_of_snapshot_entries in Hin. simpl in H. injection H as -> ->.
    by rewrite Hin.
  - destruct (lookup_object s' t i) as [v|] eqn:Ev; [|done].
    apply elem_of_snapshot_entries, list_elem_of_In in Ev. exfalso.
    assert (existsb (kept_at (fun _ => true) t i) (snapshot_entries s') = true) as E'; [|congruence].
    apply existsb_exists. exists (t, i, v). split; [done|]. unfold kept_at.
    by rewrite bool_decide_true.
Qed.

Lemma lookup_apply_delta s d t i :
  lookup_object (apply_delta s d) t i =
    match lookup_object (Changed d) t i with
    | Some v => Some v
    | None => match lookup_object (Spawned d) t i with
              | Some v => Some v
              | None => if decide (mkRef t i ∈ Despawned d) then None else lookup_object s t i
              end
    end.
Proof. unfold apply_delta. by rewrite !lookup_foldl_add, lookup_foldl_remove. Qed.
End DeltaFacts.

(** Sorted by a total order and without duplicates: strictly sorted. *)
Lemma sorted_strict {A} (less : A -> A -> bool) `{!StrictTotal less} l :
  StronglySorted (not_after less) l -> NoDup l -> StronglySorted (fun a b => less a b = true) l.
Proof.
  induction 1 as [|x l Hs IH Hf]; [constructor|]. intros [Hx Hl]%NoDup_cons.
  constructor; [by apply IH|]. rewrite Forall_forall in *. intros y Hy. specialize (Hf y Hy).
  destruct (less x y) eqn:E; [done|]. destruct Hx. by rewrite (st_total x y).
Qed.

(** A walk of a map in any order that rebuilds each value rebuilds the map. *)
Lemma insert_all_walk {X} (g : X -> X) (m : gmap string X) :
  (forall x, g x = x) -> insert_all g ∅ (map_to_list m) = m.
Proof.
  intros Hg. apply map_eq. intros k. rewrite insert_all_lookup by apply NoDup_fst_map_to_list.
  rewrite list_to_map_to_list, lookup_empty. destruct (m !! k); simpl; congruence.
Qed.

Lemma snapshot_entries_keys s : NoDup (snapshot_entries s).*1.
Proof.
  unfold snapshot_entries. pose proof (NoDup_fst_map_to_list s) as Hs.
  induction (map_to_list s) as [|[t objects] l IH]; [constructor|].
  apply NoDup_cons in Hs as [Ht Hl]. cbn [map concat fst snd]. rewrite fmap_app.
  apply NoDup_app. split_and!; [| |by apply IH].
  - rewrite <- list_fmap_compose. apply (NoDup_fmap_1 snd). rewrite <- list_fmap_compose.
    apply NoDup_fst_map_to_list.
  - intros k (x & -> & (o & -> & _)%list_elem_of_fmap)%list_elem_of_fmap H'. destruct Ht.
    apply list_elem_of_fmap in H' as (y & Hy & (ys & Hin & Hys)%list_elem_of_In%in_concat).
    apply in_map_iff in Hin as (e & <- & He). apply in_map_iff in Hys as (o' & <- & _).
    simpl in Hy. injection Hy as -> _. apply (list_elem_of_fmap_2 fst _ e). by apply list_elem_of_In.
Qed.

Lemma NoDup_map_filter {A B} (f : A -> B) keep l : NoDup (map f l) -> NoDup (map f (List.filter keep l)).
Proof.
  induction l as [|x l IH]; simpl; [done|]. intros [Hx Hl]%NoDup_cons.
  destruct (keep x); [|by apply IH]. simpl. apply NoDup_cons. split; [|by apply IH].
  intros (y & Hy & H)%list_elem_of_fmap. destruct Hx. rewrite Hy. apply (list_elem_of_fmap_2 f).
  apply list_elem_of_In, filter_In in H as [H _]. by apply list_elem_of_In.
Qed.

Lemma NoDup_despawned keep s :
  NoDup (map (fun x : object_entry => mkRef x.1.1 x.1.2) (List.filter keep (snapshot_entries s))).
Proof.
  apply NoDup_map_filter. rewrite <- (map_map (B := string * string) fst (fun k => mkRef k.1 k.2) (snapshot_entries s)).
  assert (Inj eq eq (fun k : string * string => mkRef k.1 k.2)) by by intros [] [] [= -> ->].
  apply (NoDup_fmap_2 (fun k : string * string => mkRef k.1 k.2)), snapshot_entries_keys.
Qed.

(** ** Properties *)

(** What [decodeSnapshotData] reads back from the bytes that
    [encodeSnapshotData] wrote, followed by anything: the same objects under the
    same types and ids, each value in its canonical form, and the rest of the
    input untouched.  The exception is a snapshot whose encoding ends in an empty
    string with nothing after it, which fails with [io.EOF]. *)
Theorem decode_encode_snapshot snapshot bs rest :
  snapshot_forall (fun v => GoValue_ok v = true) snapshot ->
  w_run (encodeSnapshotData snapshot) = Ok bs ->
  decodeSnapshotData (bs ++ rest) =
    if snapshot_ends_empty snapshot && bool_decide (rest = []) then Err ErrEOF
    else Ok (canonical_snapshot snapshot, rest).
Proof.
  intros Hok H. apply (writes_run _ _ _ _ (encodeSnapshotData_writes snapshot)) in H as [He ->].
  by apply decodes_snapshot.
Qed.

Lemma decode_encode_snapshot_witness :
  decodeSnapshotData (snapshot_bytes {["player" := {["p1" := VInt 3]}]} ++ []) =
    Ok ({["player" := {["p1" := VInt 3]}]}, []).
Proof.
  etransitivity.
  - apply (decode_encode_snapshot {["player" := {["p1" := VInt 3]}]}); [|vm_compute; reflexivity].
    apply map_Forall_singleton, map_Forall_singleton. reflexivity.
  - vm_compute. reflexivity.
Defined.

(** Despawn references come back sorted by type and then id, whatever order
    they were encoded in; only a list whose last reference has an empty id fails
    at the end of the input. *)
Theorem decode_encode_refs refs bs rest :
  w_run (encodeSnapshotObjectRefs refs) = Ok bs ->
  decodeSnapshotObjectRefs (bs ++ rest) =
    if refs_end_empty refs && bool_decide (rest = []) then Err ErrEOF
    else Ok (go_sort ref_less refs, rest).
Proof.
  intros H. apply (writes_run _ _ _ _ (encodeSnapshotObjectRefs_writes refs)) in H as [He ->].
  by apply decodes_refs.
Qed.

Lemma decode_encode_refs_witness :
  decodeSnapshotObjectRefs (refs_bytes [mkRef "b" "1"; mkRef "a" "2"] ++ []) =
    Ok ([mkRef "a" "2"; mkRef "b" "1"], []).
Proof.
  etransitivity; [apply (decode_encode_refs [mkRef "b" "1"; mkRef "a" "2"]); vm_compute; reflexivity|].
  vm_compute. reflexivity.
Defined.

(** The delta is exact.  An object is spawned when only the current snapshot
    has it, changed when both have it with values that [snapshotValuesEqual]
    tells apart, despawned when only the previous one has it; spawned and
    changed objects carry their current value, the despawned list is strictly
    sorted (so it has no duplicates), and no type without objects is emitted. *)
Theorem BuildSnapshotDelta_exact Marshal DeepEqual previous current :
  let d := BuildSnapshotDelta Marshal DeepEqual previous current in
  (forall t i,
    let p := lookup_object previous t i in
    let c := lookup_object current t i in
    lookup_object (Spawned d) t i = (if p is Some _ then None else c) /\
    lookup_object (Changed d) t i =
      match p, c with
      | Some pv, Some cv => if snapshotValuesEqual Marshal DeepEqual pv cv then None else Some cv
      | _, _ => None
      end /\
    (mkRef t i ∈ Despawned d <-> c = None /\ is_Some p)) /\
  no_empty_types (Spawned d) /\ no_empty_types (Changed d) /\
  StronglySorted (fun a b => ref_less a b = true) (Despawned d).
Proof.
  split_and!; try apply delta_no_empty.
  - intros t i p c. split_and!; [|apply lookup_Changed|apply elem_of_Despawned].
    unfold p, c. pose proof (lookup_Spawned Marshal DeepEqual previous current t i) as H.
    unfold delta_of in H. rewrite H. by destruct (lookup_object previous t i).
  - rewrite BuildSnapshotDelta_eq. apply sorted_strict; [apply _ | apply go_sort_sorted, _ |].
    simpl. rewrite go_sort_perm. apply NoDup_despawned.
Qed.

(** C30: applying the delta to the previous snapshot (drop the despawned objects,
    store the spawned and the changed ones) gives the current snapshot: the same
    objects, each with its current value or with a previous value that
    [snapshotValuesEqual] could not tell from it. *)
Theorem apply_delta_current Marshal DeepEqual previous current :
  agree (fun a c => a = c \/ snapshotValuesEqual Marshal DeepEqual a c = true)
    (apply_delta previous (BuildSnapshotDelta Marshal DeepEqual previous current)) current.
Proof.
  intros t i. fold (delta_of Marshal DeepEqual previous current).
  rewrite lookup_apply_delta, lookup_Changed, lookup_Spawned.
  pose proof (elem_of_Despawned Marshal DeepEqual previous current t i) as Hd.
  destruct (lookup_object previous t i) as [p|], (lookup_object current t i) as [c|].
  - destruct (snapshotValuesEqual Marshal DeepEqual p c) eqn:E; [|constructor; by left].
    rewrite decide_False; [constructor; by right|]. rewrite Hd. by intros [? _].
  - rewrite decide_True; [constructor|]. apply Hd. eauto.
  - constructor. by left.
  - by case_decide; constructor.
Qed.

(** An empty delta, which the server does not send, means that the previous
    and the current snapshot have the same objects with equal values, and a
    non-empty delta that they do not. *)
Theorem delta_Empty_iff Marshal DeepEqual previous current :
  delta_Empty (BuildSnapshotDelta Marshal DeepEqual previous current) = true <->
  agree (fun p c => snapshotValuesEqual Marshal DeepEqual p c = true) previous current.
Proof.
  set (d := BuildSnapshotDelta Marshal DeepEqual previous current).
  pose proof (delta_no_empty Marshal DeepEqual previous current) as [Hs Hc].
  assert (delta_Empty d = true <-> Spawned d = ∅ /\ Changed d = ∅ /\ Despawned d = []) as ->.
  { unfold delta_Empty. rewrite !andb_true_iff, !bool_decide_eq_true, !map_size_empty_iff.
    rewrite length_zero_iff_nil. tauto. }
  pose proof (lookup_Spawned Marshal DeepEqual previous current) as Ls.
  pose proof (lookup_Changed Marshal DeepEqual previous current) as Lc.
  pose proof (elem_of_Despawned Marshal DeepEqual previous current) as Ld.
  unfold delta_of in *. fold d in Ls, Lc, Ld, Hs, Hc. split.
  - intros (Es & Ech & Ed) t i. specialize (Ls t i). specialize (Lc t i). specialize (Ld t i).
    rewrite Es, lookup_object_empty in Ls. rewrite Ech, lookup_object_empty in Lc. rewrite Ed in Ld.
    destruct (lookup_object previous t i) as [p|], (lookup_object current t i) as [c|];
      try constructor; try done.
    + by destruct (snapshotValuesEqual Marshal DeepEqual p c).
    + assert (mkRef t i ∈ ([] : list SnapshotObjectRef)) as H by (apply Ld; eauto).
      by apply elem_of_nil in H.
  - intros Ha. split_and!.
    + apply no_empty_lookup; [done|]. intros t i. rewrite Ls. by destruct (Ha t i).
    + apply no_empty_lookup; [done|]. intros t i. rewrite Lc.
      destruct (Ha t i) as [p c Hpc|]; [by rewrite Hpc | done].
    + destruct (Despawned d) as [|[t i] l]; [done|].
      assert (mkRef t i ∈ mkRef t i :: l) as [H1 H2]%Ld by left.
      destruct (Ha t i); [done | by destruct H2].
Qed.

(** A snapshot that JSON cannot carry is cloned by the fallback loops into
    an equal map of maps, type entries without objects included; a nil snapshot
    is cloned into an empty one. *)
Theorem CloneSnapshotData_fallback roundtrip snapshot :
  CloneSnapshotData roundtrip None = ∅ /\
  (roundtrip snapshot = None -> CloneSnapshotData roundtrip (Some snapshot) = snapshot).
Proof.
  split; [done|]. intros H. unfold CloneSnapshotData. rewrite H.
  rewrite (foldl_ext_eq _ (fun s e => <[e.1 := insert_all (fun v => v) ∅ (map_to_list e.2)]> s)).
  - apply (insert_all_walk (fun objects => insert_all (fun v => v) ∅ (map_to_list objects))).
    intros objects. by apply (insert_all_walk (fun v => v)).
  - intros s e. apply (foldl_set_object (fun v => v)).
Qed.

Lemma CloneSnapshotData_fallback_witness :
  CloneSnapshotData (fun _ => None) (Some {["t" := {["a" := VFloat64 1]}]}) =
    {["t" := {["a" := VFloat64 1]}]}.
Proof. apply (CloneSnapshotData_fallback (fun _ => None)). reflexivity. Defined.

(** ** Detached copies

    A baseline is a copy that went through JSON, from which an integer comes back as a
    float64 and a struct as a map.  [parse] is [json.Unmarshal] of a text into an empty
    interface. *)
Section Detached.
Context (Marshal : GoValue -> option string) (DeepEqual : GoValue -> GoValue -> bool).
Context (parse : string -> option GoValue) (roundtrip : SnapshotData -> option SnapshotData).

(** The value that comes back. *)
Definition json_value (v : GoValue) : option GoValue := text ← Marshal v; parse text.

Definition same_names (s1 s2 : SnapshotData) : Prop :=
  forall t i, is_Some (lookup_object s1 t i) <-> is_Some (lookup_object s2 t i).

(** JSON keeps the names of the objects (those that are valid UTF-8). *)
Definition keeps_names (snapshot : SnapshotData) : Prop :=
  forall copy, roundtrip snapshot = Some copy -> same_names copy snapshot.

(** What is documented of [encoding/json] and [reflect.DeepEqual]: a value made by
    [Unmarshal] survives another round trip, a map of maps is encoded object by object,
    and deep equality is a symmetric and transitive relation of values that marshal
    alike; it is not reflexive, because of NaN. *)
Class JSONLaws : Prop := {
  json_again v j : json_value v = Some j -> json_value j = Some j;
  json_objects snapshot copy t i v :
    roundtrip snapshot = Some copy -> same_names copy snapshot ->
    lookup_object snapshot t i = Some v -> lookup_object copy t i = json_value v;
  deep_symmetric a c : DeepEqual a c = true -> DeepEqual c a = true;
  deep_transitive a b c : DeepEqual a b = true -> DeepEqual b c = true -> DeepEqual a c = true;
  deep_marshal a c : DeepEqual a c = true -> Marshal a = None <-> Marshal c = None
}.

(** The values that deltas may not tell apart: those with the same JSON text, those that
    come back from JSON as the same value (integers with the same float64, a struct and
    the map of its fields), and among the values without JSON the deeply equal ones. *)
Inductive same_value (a c : GoValue) : Prop :=
| same_eq : a = c -> same_value a c
| same_text text : Marshal a = Some text -> Marshal c = Some text -> same_value a c
| same_json j : json_value a = Some j -> json_value c = Some j -> same_value a c
| same_deep : Marshal a = None -> Marshal c = None -> DeepEqual a c = true -> same_value a c.

Context {laws : JSONLaws}.

Lemma json_value_text a c text : Marshal a = Some text -> Marshal c = Some text -> json_value a = json_value c.
Proof. unfold json_value. by intros -> ->. Qed.

Lemma json_value_marshals v j : json_value v = Some j -> Marshal v <> None.
Proof. unfold json_value. by destruct (Marshal v). Qed.

#[export] Instance same_value_equivalence : Equivalence same_value.
Proof.
  split.
  - intros v. by apply same_eq.
  - intros a c [->|text Ha Hc|j Ha Hc|Ha Hc Hd]; [by apply same_eq | by eapply same_text | by eapply same_json |].
    apply same_deep; [done.. | by apply deep_symmetric].
  - intros a b c [->|text Ha Hb|j Ha Hb|Ha Hb Hd] Hbc; [done|..];
      destruct Hbc as [<-|text' Hb' Hc|j' Hb' Hc|Hb' Hc Hd'].
    + by apply (same_text _ _ text).
    + apply (same_text _ _ text); congruence.
    + apply (same_json _ _ j'); [|done]. by rewrite (json_value_text a b text).
    + congruence.
    + by apply (same_json _ _ j).
    + apply (same_json _ _ j); [done|]. by rewrite <- (json_value_text b c text').
    + apply (same_json _ _ j); congruence.
    + by destruct (json_value_marshals _ _ Hb).
    + by apply same_deep.
    + congruence.
    + by destruct (json_value_marshals _ _ Hb').
    + apply same_deep; [done..|]. by eapply deep_transitive.
Qed.

Lemma same_value_equal a c : snapshotValuesEqual Marshal DeepEqual a c = true -> same_value a c.
Proof.
  unfold snapshotValuesEqual. intros H. destruct (Marshal a) as [ta|] eqn:Ea, (Marshal c) as [tc|] eqn:Ec.
  - apply bool_decide_eq_true in H as ->. by eapply same_text.
  - destruct (deep_marshal a c H) as [_ Hm]. rewrite Ea, Ec in Hm. by specialize (Hm eq_refl).
  - destruct (deep_marshal a c H) as [Hm _]. rewrite Ea, Ec in Hm. by specialize (Hm eq_refl).
  - by apply same_deep.
Qed.

(** A copy agrees with its original. *)
Lemma CloneSnapshotData_agrees snapshot :
  keeps_names snapshot -> agree same_value (CloneSnapshotData roundtrip (Some snapshot)) snapshot.
Proof.
  intros Hkeep t i. destruct (roundtrip snapshot) as [copy|] eqn:E.
  - specialize (Hkeep copy E). unfold CloneSnapshotData. rewrite E.
    destruct (lookup_object snapshot t i) as [v|] eqn:Ev.
    + pose proof (json_objects snapshot copy t i v E Hkeep Ev) as Hj.
      destruct (proj2 (Hkeep t i) ltac:(by rewrite Ev)) as [j Hj']. rewrite Hj'. constructor.
      rewrite Hj in Hj'. apply (same_json _ _ j); [by eapply json_again | done].
    + destruct (lookup_object copy t i) eqn:Ej; [|constructor].
      destruct (proj1 (Hkeep t i) ltac:(by rewrite Ej)). congruence.
  - rewrite (proj2 (CloneSnapshotData_fallback roundtrip snapshot) E).
    destruct (lookup_object snapshot t i); constructor. by apply same_eq.
Qed.

(** A delta brings any view that agrees with its baseline to the current objects. *)
Lemma apply_delta_agree view baseline current :
  agree same_value view baseline ->
  agree same_value (apply_delta view (BuildSnapshotDelta Marshal DeepEqual baseline current)) current.
Proof.
  intros Hview t i. specialize (Hview t i). rewrite lookup_apply_delta.
  destruct (BuildSnapshotDelta_exact Marshal DeepEqual baseline current) as (Hexact & _).
  destruct (Hexact t i) as (-> & -> & Hgone).
  destruct (lookup_object baseline t i) as [p|], (lookup_object current t i) as [c|].
  - destruct (snapshotValuesEqual Marshal DeepEqual p c) eqn:E; [|by constructor].
    rewrite decide_False by (rewrite Hgone; by intros [? _]).
    inversion Hview as [v ? Hvp E1|]; subst. constructor. etrans; [exact Hvp | by apply same_value_equal].
  - rewrite decide_True by (apply Hgone; split; [done | by exists p]). constructor.
  - by constructor.
  - inversion Hview as [|E1]; subst. case_decide; constructor.
Qed.
End Detached.

Lemma CloneSnapshotData_names roundtrip snapshot :
  keeps_names roundtrip snapshot -> same_names (CloneSnapshotData roundtrip (Some snapshot)) snapshot.
Proof.
  intros Hkeep. destruct (roundtrip snapshot) as [copy|] eqn:E.
  - unfold CloneSnapshotData. rewrite E. by apply Hkeep.
  - by rewrite (proj2 (CloneSnapshotData_fallback roundtrip snapshot) E).
Qed.

(** *** Agreement *)
#[export] Instance agree_equivalence (R : GoValue -> GoValue -> Prop) {HR : Equivalence R} : Equivalence (agree R).
Proof.
  split.
  - intros o t i. destruct (lookup_object o t i); constructor. reflexivity.
  - intros o1 o2 H t i. destruct (H t i); constructor. by symmetry.
  - intros o1 o2 o3 H12 H23 t i. specialize (H12 t i). specialize (H23 t i).
    destruct H12 as [x y Hxy|]; inversion H23; subst; constructor. by etrans.
Qed.
