(* ===== verification/Messages.v ===== *)
(** * Messages: the payloads of the built-in wire messages

    [network/wire.go] lines 130-262 and 394-956: a record per message type and
    the [Encode*]/[Decode*] pair of each.  [WireCodec] is the interface between
    a message type and the registry; each pair is an instance, and the laws say
    exactly when it encodes, to which bytes, and what those bytes decode to. *)
From S2P Require Import Prelude Buffer Values Snapshot.

Definition MaxWireMessagePayloadSize : Z := 48 * 1024.
Definition MaxWireChatBytes : Z := 512.

(** ** Capabilities: a bitset of negotiated features *)
Definition WireCapabilities := Z.
Definition WireCapabilityDeltaSnapshots : WireCapabilities := 1.
Definition WireCapabilityReliableOrdered : WireCapabilities := 2.
Definition WireCapabilityReliableUnordered : WireCapabilities := 4.

Definition DefaultWireCapabilities : WireCapabilities :=
  Z.lor (Z.lor WireCapabilityDeltaSnapshots WireCapabilityReliableOrdered)
    WireCapabilityReliableUnordered.

Definition capabilities_Has (capabilities feature : WireCapabilities) : bool :=
  negb (Z.land capabilities feature =? 0).

(** ** Message types *)
Record ClientHello := mkClientHello {
  hello_ClientName : string;
  hello_Token : string;
  hello_ProtocolVersion : Z;
  hello_Capabilities : WireCapabilities;
  hello_MaxPacketSize : Z
}.

Record ObjectRequest := mkObjectRequest {
  req_ObjectType : string;
  req_ObjectID : string;
  req_Action : string;
  req_Data : bytes
}.

Record PlayerInput := mkPlayerInput {
  pin_Sequence : Z;
  pin_Tick : Z;
  pin_ObjectID : string;
  pin_X : Z;                        (* float32 bit patterns *)
  pin_Y : Z;
  pin_Z : Z
}.

Record GenericClientInput := mkGenericClientInput {
  gci_Sequence : Z;
  gci_Tick : Z;
  gci_ObjectType : string;
  gci_ObjectID : string;
  gci_TargetID : string;
  gci_Payload : bytes
}.

Record Ping := mkPing { ping_Nonce : Z }.
Record Pong := mkPong { pong_Nonce : Z }.
Record ChatMessage := mkChatMessage { chat_Text : string }.

Record Welcome := mkWelcome {
  welcome_ClientID : string;
  welcome_AuthenticatedID : string;
  welcome_ProtocolVersion : Z;
  welcome_Capabilities : WireCapabilities;
  welcome_MaxPacketSize : Z
}.

Record WorldSnapshot := mkWorldSnapshot {
  ws_ClientID : string;
  ws_Tick : Z;
  ws_LastSequence : Z;
  ws_Objects : SnapshotData
}.

Record WorldDeltaSnapshot := mkWorldDeltaSnapshot {
  wd_ClientID : string;
  wd_Tick : Z;
  wd_LastSequence : Z;
  wd_BaselineTick : Z;
  wd_Spawned : SnapshotData;
  wd_Changed : SnapshotData;
  wd_Despawned : list SnapshotObjectRef
}.

Record EntitySpawn := mkEntitySpawn {
  spawn_ObjectType : string; spawn_ObjectID : string; spawn_Snapshot : GoValue }.
Record EntityDespawn := mkEntityDespawn {
  despawn_ObjectType : string; despawn_ObjectID : string }.
Record EntityUpdate := mkEntityUpdate {
  update_ObjectType : string; update_ObjectID : string; update_Snapshot : GoValue }.

Record ErrorMessage := mkErrorMessage { err_Code : Z; err_Message : string }.
Record DisconnectMessage := mkDisconnectMessage { disc_Code : Z; disc_Message : string }.

(** ** Encoders and decoders *)

(** The optional negotiation block of [ClientHello] and [Welcome]. *)
Definition write_negotiation (version capabilities maxPacketSize : Z) : Writer :=
  if negb (version =? 0) || negb (capabilities =? 0) || negb (maxPacketSize =? 0)
  then WriteByte version ;;; writeUint64 capabilities ;;; writeUint32 maxPacketSize
  else w_skip.

Definition EncodeClientHello (message : ClientHello) : result bytes :=
  w_run (writeString (hello_ClientName message) MaxWireStringBytes ;;;
         writeString (hello_Token message) MaxWireStringBytes ;;;
         write_negotiation (hello_ProtocolVersion message) (hello_Capabilities message)
           (hello_MaxPacketSize message)).

Definition DecodeClientHello (payload : bytes) : result ClientHello :=
  p_run (
    let* clientName := readString MaxWireStringBytes in
    let* token := readString MaxWireStringBytes in
    let* remaining := reader_Len in
    if remaining =? 0 then p_ret (mkClientHello clientName token 0 0 0)
    else
      let* remaining := reader_Len in
      if remaining <? 13 then p_fail ErrMalformedWirePayload
      else
        let* protocolVersion := reader_ReadByte in
        let* capabilities := readUint64 in
        let* maxPacketSize := readUint32 in
        p_end ErrMalformedWirePayload
          (mkClientHello clientName token protocolVersion capabilities maxPacketSize)) payload.

Definition EncodeObjectRequest (message : ObjectRequest) : result bytes :=
  if MaxWireMessagePayloadSize <? zlen (req_Data message) then Err ErrWireMessageTooLarge
  else
    w_run (writeString (req_ObjectType message) MaxWireStringBytes ;;;
           writeString (req_ObjectID message) MaxWireStringBytes ;;;
           writeString (req_Action message) MaxWireStringBytes ;;;
           writeBytes (req_Data message)).

Definition DecodeObjectRequest (payload : bytes) : result ObjectRequest :=
  p_run (
    let* objectType := readString MaxWireStringBytes in
    let* objectID := readString MaxWireStringBytes in
    let* action := readString MaxWireStringBytes in
    let* data := readBytes MaxWireMessagePayloadSize in
    p_end ErrMalformedWirePayload (mkObjectRequest objectType objectID action data)) payload.

Definition EncodePlayerInput (message : PlayerInput) : result bytes :=
  w_run (writeString (pin_ObjectID message) MaxWireStringBytes ;;;
         writeUint64 (pin_Sequence message) ;;;
         writeUint64 (pin_Tick message) ;;;
         writeFloat32 (pin_X message) ;;;
         writeFloat32 (pin_Y message) ;;;
         writeFloat32 (pin_Z message)).

(** A remainder of exactly 12 bytes is the older form without sequence and tick. *)
Definition DecodePlayerInput (payload : bytes) : result PlayerInput :=
  p_run (
    let* objectID := readString MaxWireStringBytes in
    let* remaining := reader_Len in
    if remaining =? 12 then
      let* x := readFloat32 in
      let* y := readFloat32 in
      let* z := readFloat32 in
      p_ret (mkPlayerInput 0 0 objectID x y z)
    else
      let* sequence := readUint64 in
      let* tick := readUint64 in
      let* x := readFloat32 in
      let* y := readFloat32 in
      let* z := readFloat32 in
      p_end ErrMalformedWirePayload (mkPlayerInput sequence tick objectID x y z)) payload.

Definition EncodeGenericClientInput (message : GenericClientInput) : result bytes :=
  if MaxWireMessagePayloadSize <? zlen (gci_Payload message) then Err ErrWireMessageTooLarge
  else
    w_run (writeUint64 (gci_Sequence message) ;;;
           writeUint64 (gci_Tick message) ;;;
           writeString (gci_ObjectType message) MaxWireStringBytes ;;;
           writeString (gci_ObjectID message) MaxWireStringBytes ;;;
           writeString (gci_TargetID message) MaxWireStringBytes ;;;
           writeBytes (gci_Payload message)).

Definition DecodeGenericClientInput (payload : bytes) : result GenericClientInput :=
  p_run (
    let* sequence := readUint64 in
    let* tick := readUint64 in
    let* objectType := readString MaxWireStringBytes in
    let* objectID := readString MaxWireStringBytes in
    let* targetID := readString MaxWireStringBytes in
    let* data := readBytes MaxWireMessagePayloadSize in
    p_end ErrMalformedWirePayload
      (mkGenericClientInput sequence tick objectType objectID targetID data)) payload.

Definition EncodePing (message : Ping) : result bytes := w_run (writeUint64 (ping_Nonce message)).
Definition DecodePing (payload : bytes) : result Ping :=
  p_run (let* nonce := readUint64 in p_end ErrMalformedWirePayload (mkPing nonce)) payload.

Definition EncodePong (message : Pong) : result bytes := w_run (writeUint64 (pong_Nonce message)).
Definition DecodePong (payload : bytes) : result Pong :=
  p_run (let* nonce := readUint64 in p_end ErrMalformedWirePayload (mkPong nonce)) payload.

Definition EncodeChatMessage (message : ChatMessage) : result bytes :=
  w_run (writeString (chat_Text message) MaxWireChatBytes).
Definition DecodeChatMessage (payload : bytes) : result ChatMessage :=
  p_run (let* text := readString MaxWireChatBytes in
         p_end ErrMalformedWirePayload (mkChatMessage text)) payload.

Definition EncodeWelcome (message : Welcome) : result bytes :=
  w_run (writeString (welcome_ClientID message) MaxWireStringBytes ;;;
         writeString (welcome_AuthenticatedID message) MaxWireStringBytes ;;;
         write_negotiation (welcome_ProtocolVersion message) (welcome_Capabilities message)
           (welcome_MaxPacketSize message)).

Definition DecodeWelcome (payload : bytes) : result Welcome :=
  p_run (
    let* clientID := readString MaxWireStringBytes in
    let* authenticatedID := readString MaxWireStringBytes in
    let* remaining := reader_Len in
    if remaining =? 0 then p_ret (mkWelcome clientID authenticatedID 0 0 0)
    else
      let* remaining := reader_Len in
      if remaining <? 13 then p_fail ErrMalformedWirePayload
      else
        let* protocolVersion := reader_ReadByte in
        let* capabilities := readUint64 in
        let* maxPacketSize := readUint32 in
        p_end ErrMalformedWirePayload
          (mkWelcome clientID authenticatedID protocolVersion capabilities maxPacketSize)) payload.

(** [if writer.Len() > MaxWireMessagePayloadSize { return nil, ... }]. *)
Definition check_payload_size (encoded : result bytes) : result bytes :=
  let! payload := encoded in
  if MaxWireMessagePayloadSize <? zlen payload then Err ErrWireMessageTooLarge else Ok payload.

Definition EncodeWorldSnapshot (message : WorldSnapshot) : result bytes :=
  check_payload_size (
    w_run (writeString (ws_ClientID message) MaxWireStringBytes ;;;
           writeUint64 (ws_Tick message) ;;;
           writeUint64 (ws_LastSequence message) ;;;
           encodeSnapshotData (ws_Objects message))).

Definition DecodeWorldSnapshot (payload : bytes) : result WorldSnapshot :=
  p_run (
    let* clientID := readString MaxWireStringBytes in
    let* tick := readUint64 in
    let* lastSequence := readUint64 in
    let* objects := decodeSnapshotData in
    p_end ErrMalformedWirePayload (mkWorldSnapshot clientID tick lastSequence objects)) payload.

Definition EncodeWorldDeltaSnapshot (message : WorldDeltaSnapshot) : result bytes :=
  check_payload_size (
    w_run (writeString (wd_ClientID message) MaxWireStringBytes ;;;
           writeUint64 (wd_Tick message) ;;;
           writeUint64 (wd_LastSequence message) ;;;
           writeUint64 (wd_BaselineTick message) ;;;
           encodeSnapshotData (wd_Spawned message) ;;;
           encodeSnapshotData (wd_Changed message) ;;;
           encodeSnapshotObjectRefs (wd_Despawned message))).

Definition DecodeWorldDeltaSnapshot (payload : bytes) : result WorldDeltaSnapshot :=
  p_run (
    let* clientID := readString MaxWireStringBytes in
    let* tick := readUint64 in
    let* lastSequence := readUint64 in
    let* baselineTick := readUint64 in
    let* spawned := decodeSnapshotData in
    let* changed := decodeSnapshotData in
    let* despawned := decodeSnapshotObjectRefs in
    p_end ErrMalformedWirePayload
      (mkWorldDeltaSnapshot clientID tick lastSequence baselineTick spawned changed despawned))
    payload.

Definition encodeEntityPayload (objectType objectID : string) (snapshot : GoValue) : result bytes :=
  w_run (writeString objectType MaxWireStringBytes ;;;
         writeString objectID MaxWireStringBytes ;;;
         encodeWireValue snapshot 0).

Definition decodeEntityPayload (payload : bytes) : result (string * string * GoValue) :=
  p_run (
    let* objectType := readString MaxWireStringBytes in
    let* objectID := readString MaxWireStringBytes in
    let* snapshot := decodeWireValue0 in
    p_end ErrMalformedWirePayload (objectType, objectID, snapshot)) payload.

Definition EncodeEntitySpawn (message : EntitySpawn) : result bytes :=
  encodeEntityPayload (spawn_ObjectType message) (spawn_ObjectID message) (spawn_Snapshot message).
Definition DecodeEntitySpawn (payload : bytes) : result EntitySpawn :=
  let! (objectType, objectID, snapshot) := decodeEntityPayload payload in
  Ok (mkEntitySpawn objectType objectID snapshot).

Definition EncodeEntityUpdate (message : EntityUpdate) : result bytes :=
  encodeEntityPayload (update_ObjectType message) (update_ObjectID message)
    (update_Snapshot message).
Definition DecodeEntityUpdate (payload : bytes) : result EntityUpdate :=
  let! (objectType, objectID, snapshot) := decodeEntityPayload payload in
  Ok (mkEntityUpdate objectType objectID snapshot).

Definition EncodeEntityDespawn (message : EntityDespawn) : result bytes :=
  w_run (writeString (despawn_ObjectType message) MaxWireStringBytes ;;;
         writeString (despawn_ObjectID message) MaxWireStringBytes).
Definition DecodeEntityDespawn (payload : bytes) : result EntityDespawn :=
  p_run (
    let* objectType := readString MaxWireStringBytes in
    let* objectID := readString MaxWireStringBytes in
    p_end ErrMalformedWirePayload (mkEntityDespawn objectType objectID)) payload.

Definition encodeCodeMessage (code : Z) (message : string) : result bytes :=
  w_run (writeUint16 code ;;; writeString message MaxWireStringBytes).
Definition decodeCodeMessage (payload : bytes) : result (Z * string) :=
  p_run (
    let* code := readUint16 in
    let* message := readString MaxWireStringBytes in
    p_end ErrMalformedWirePayload (code, message)) payload.

Definition EncodeErrorMessage (message : ErrorMessage) : result bytes :=
  encodeCodeMessage (err_Code message) (err_Message message).
Definition DecodeErrorMessage (payload : bytes) : result ErrorMessage :=
  let! (code, message) := decodeCodeMessage payload in Ok (mkErrorMessage code message).

Definition EncodeDisconnectMessage (message : DisconnectMessage) : result bytes :=
  encodeCodeMessage (disc_Code message) (disc_Message message).
Definition DecodeDisconnectMessage (payload : bytes) : result DisconnectMessage :=
  let! (code, message) := decodeCodeMessage payload in Ok (mkDisconnectMessage code message).

(** ** The codec interface *)

(** What the registry needs to know of a message type: its two functions, and
    what they promise to each other. *)
Class WireCodec (A : Type) := mkWireCodec {
  wc_encode : A -> result bytes;
  wc_decode : bytes -> result A;
  wc_accepts : A -> bool;           (* the encoder accepts the value *)
  wc_bytes : A -> bytes;            (* and writes this *)
  wc_typed : A -> Prop;             (* the ranges of the Go field types *)
  wc_canon : A -> A;                (* what is read back *)
  wc_ends_empty : A -> bool         (* unless the encoding ends in an empty field *)
}.

Class WireCodecLaws (A : Type) `{WireCodec A} : Prop := {
  wc_encode_spec (m : A) :
    if wc_accepts m then wc_encode m = Ok (wc_bytes m) else exists e, wc_encode m = Err e;
  wc_decode_spec (m : A) :
    wc_typed m -> wc_accepts m = true ->
    wc_decode (wc_bytes m) = if wc_ends_empty m then Err ErrEOF else Ok (wc_canon m)
}.

Lemma wc_encode_inv `{WireCodecLaws A} (m : A) bs :
  wc_encode m = Ok bs -> wc_accepts m = true /\ bs = wc_bytes m.
Proof.
  intros E. pose proof (wc_encode_spec m) as Hs. destruct (wc_accepts m).
  - rewrite Hs in E. by injection E.
  - destruct Hs as [e He]. congruence.
Qed.

Lemma wc_encode_ok `{WireCodecLaws A} (m : A) :
  wc_accepts m = true -> wc_encode m = Ok (wc_bytes m).
Proof. intros E. pose proof (wc_encode_spec m) as Hs. by rewrite E in Hs. Qed.

Lemma wc_roundtrip `{WireCodecLaws A} (m : A) bs :
  wc_typed m -> wc_encode m = Ok bs ->
  wc_decode bs = if wc_ends_empty m then Err ErrEOF else Ok (wc_canon m).
Proof. intros Hm [Ha ->]%wc_encode_inv. by apply wc_decode_spec. Qed.

(** Expose what the instance [c] says. *)
Tactic Notation "codec_simpl" reference(c) :=
  unfold c in *;
  cbn [wc_accepts wc_bytes wc_typed wc_canon wc_ends_empty wc_decode wc_encode] in *.

(** *** Specification pieces *)
Definition fits (s : string) : bool := slen s <=? MaxWireStringBytes.
Definition empty_string (s : string) : bool := bool_decide (s = ""%string).

Lemma fits_le s : fits s = true -> slen s <= MaxWireStringBytes /\ slen s <= 65535.
Proof. unfold fits, MaxWireStringBytes. intros ?%Z.leb_le. lia. Qed.

Lemma encode_spec_of_writes w ok c :
  writes w ok c -> if ok then w_run w = Ok c else exists e, w_run w = Err e.
Proof. intros H. apply (H []). Qed.

Lemma encode_spec_guard (b : bool) w ok c :
  writes w ok c ->
  if negb b && ok then (if b then Err ErrWireMessageTooLarge else w_run w) = Ok c
  else exists e, (if b then Err ErrWireMessageTooLarge else w_run w) = Err e.
Proof. intros H. destruct b; simpl; [eauto | by apply encode_spec_of_writes]. Qed.

Lemma encode_spec_check w ok c :
  writes w ok c ->
  if ok && (zlen c <=? MaxWireMessagePayloadSize)
  then check_payload_size (w_run w) = Ok c
  else exists e, check_payload_size (w_run w) = Err e.
Proof.
  intros H%encode_spec_of_writes. unfold check_payload_size. destruct ok; simpl.
  - rewrite H. simpl. rewrite ltb_leb_negb. destruct (zlen c <=? _); simpl; eauto.
  - destruct H as [e ->]. simpl. eauto.
Qed.

(** The writer of each field. *)
Ltac writes_fields :=
  repeat lazymatch goal with
  | |- writes (_ ;;; _) _ _ => apply writes_seq
  | |- writes (writeString _ _) _ _ => by apply writes_string
  | |- writes (encodeSnapshotData _) _ _ => apply encodeSnapshotData_writes
  | |- writes (encodeSnapshotObjectRefs _) _ _ => apply encodeSnapshotObjectRefs_writes
  | |- writes (encodeWireValue _ _) _ _ => apply encodeWireValue_writes
  | |- writes (writeBytes _) _ _ => apply writeBytes_ok
  | |- writes _ _ _ => apply writes_bytes
  end.

(** The reader of each field. *)
Ltac msg_field :=
  lazymatch goal with
  | |- decodes decodeSnapshotData _ _ _ => apply decodes_snapshot; assumption
  | |- decodes decodeSnapshotObjectRefs _ _ _ => apply decodes_refs; assumption
  | |- decodes decodeWireValue0 _ _ _ => apply decodes_wire_bytes; try assumption; lia
  | |- decodes (readString _) _ _ _ => apply decodes_readString; by apply fits_le
  | |- decodes (readBytes _) _ _ _ => apply decodes_readBytes; [assumption | done]
  | |- _ => decodes_field
  end.
Ltac msg_ne := first [by left | right; first [done | by apply be_bytes_ne; lia]].
Ltac msg_fields :=
  rewrite <- ?app_assoc;
  repeat (eapply decodes_all_bind; [msg_field | | msg_ne]);
  eapply decodes_all_last; [msg_field | apply decodes_all_end].

Ltac split_accepts :=
  repeat match goal with
  | H : (_ && _)%bool = true |- _ => apply andb_true_iff in H as [? ?]
  end.

(** *** The negotiation block *)
Definition negotiated (version capabilities maxPacketSize : Z) : bool :=
  negb (version =? 0) || negb (capabilities =? 0) || negb (maxPacketSize =? 0).

Definition negotiation_bytes (version capabilities maxPacketSize : Z) : bytes :=
  if negotiated version capabilities maxPacketSize
  then [byte_of_Z version] ++ be_bytes 8 capabilities ++ be_bytes 4 maxPacketSize else [].

Lemma writes_negotiation v c m : writes (write_negotiation v c m) true (negotiation_bytes v c m).
Proof.
  unfold write_negotiation, negotiation_bytes, negotiated. destruct (_ || _); [|apply writes_skip].
  eapply writes_weaken; [writes_fields | done | done].
Qed.

Lemma not_negotiated v c m : negotiated v c m = false -> v = 0 /\ c = 0 /\ m = 0.
Proof. unfold negotiated. intros H. zbool. lia. Qed.

Lemma decodes_all_len {B} (k : Z -> Parser B) c b e :
  decodes_all (k (zlen c)) c b e -> decodes_all (p_bind reader_Len k) c b e.
Proof. done. Qed.

(** The end of [DecodeClientHello] and [DecodeWelcome]. *)
Lemma decodes_negotiation {A} (mk : Z -> Z -> Z -> A) v c m :
  in_u8 v -> in_u64 c -> in_u32 m ->
  decodes_all
    (let* remaining := reader_Len in
     if remaining =? 0 then p_ret (mk 0 0 0)
     else
       let* remaining := reader_Len in
       if remaining <? 13 then p_fail ErrMalformedWirePayload
       else
         let* protocolVersion := reader_ReadByte in
         let* capabilities := readUint64 in
         let* maxPacketSize := readUint32 in
         p_end ErrMalformedWirePayload (mk protocolVersion capabilities maxPacketSize))
    (negotiation_bytes v c m) (mk v c m) false.
Proof.
  intros Hv Hc Hm. unfold negotiation_bytes. destruct (negotiated v c m) eqn:E.
  - apply decodes_all_len. zlen. cbn [Z.eqb].
    apply decodes_all_len. zlen. msg_fields.
  - apply not_negotiated in E as (-> & -> & ->). done.
Qed.

Definition hello_typed (version capabilities maxPacketSize : Z) : Prop :=
  in_u8 version /\ in_u64 capabilities /\ in_u32 maxPacketSize.

(** Two strings and the block: the payload of a hello and of a welcome. *)
Definition hello_ends (s : string) (v c m : Z) : bool := empty_string s && negb (negotiated v c m).

Lemma decodes_hello {A} (p : string -> string -> Parser A) (a : A) s1 s2 v c m :
  fits s1 = true -> fits s2 = true ->
  decodes_all (p s1 s2) (negotiation_bytes v c m) a false ->
  decodes_all
    (let* x := readString MaxWireStringBytes in
     let* y := readString MaxWireStringBytes in p x y)
    (string_field s1 ++ string_field s2 ++ negotiation_bytes v c m) a (hello_ends s2 v c m).
Proof.
  intros H1 H2 Hp. eapply decodes_all_bind; [msg_field | | msg_ne].
  unfold hello_ends, empty_string. destruct (negotiated v c m) eqn:E.
  - rewrite andb_false_r. eapply decodes_all_bind; [msg_field | exact Hp |].
    right. unfold negotiation_bytes. by rewrite E.
  - rewrite andb_true_r. unfold negotiation_bytes in *. rewrite E in *. rewrite app_nil_r.
    eapply decodes_all_last; [msg_field | exact Hp].
Qed.

(** *** The instances *)
#[export] Instance ClientHello_codec : WireCodec ClientHello := {
  wc_encode := EncodeClientHello;
  wc_decode := DecodeClientHello;
  wc_accepts m := fits (hello_ClientName m) && (fits (hello_Token m) && true);
  wc_bytes m := string_field (hello_ClientName m) ++ string_field (hello_Token m) ++
    negotiation_bytes (hello_ProtocolVersion m) (hello_Capabilities m) (hello_MaxPacketSize m);
  wc_typed m := hello_typed (hello_ProtocolVersion m) (hello_Capabilities m) (hello_MaxPacketSize m);
  wc_canon m := m;
  wc_ends_empty m := hello_ends (hello_Token m) (hello_ProtocolVersion m) (hello_Capabilities m)
    (hello_MaxPacketSize m)
}.

#[export] Instance ClientHello_laws : WireCodecLaws ClientHello.
Proof.
  split.
  - intros m. apply encode_spec_of_writes. repeat apply writes_seq;
      [by apply writes_string .. | apply writes_negotiation].
  - intros [n t v c m] (Hv & Hc & Hm) H. codec_simpl ClientHello_codec. split_accepts. apply decodes_all_run.
    apply (decodes_hello (fun x y => _)); [done..|].
    by apply (decodes_negotiation (mkClientHello n t)).
Qed.

#[export] Instance Welcome_codec : WireCodec Welcome := {
  wc_encode := EncodeWelcome;
  wc_decode := DecodeWelcome;
  wc_accepts m := fits (welcome_ClientID m) && (fits (welcome_AuthenticatedID m) && true);
  wc_bytes m := string_field (welcome_ClientID m) ++ string_field (welcome_AuthenticatedID m) ++
    negotiation_bytes (welcome_ProtocolVersion m) (welcome_Capabilities m) (welcome_MaxPacketSize m);
  wc_typed m :=
    hello_typed (welcome_ProtocolVersion m) (welcome_Capabilities m) (welcome_MaxPacketSize m);
  wc_canon m := m;
  wc_ends_empty m := hello_ends (welcome_AuthenticatedID m) (welcome_ProtocolVersion m)
    (welcome_Capabilities m) (welcome_MaxPacketSize m)
}.

#[export] Instance Welcome_laws : WireCodecLaws Welcome.
Proof.
  split.
  - intros m. apply encode_spec_of_writes. repeat apply writes_seq;
      [by apply writes_string .. | apply writes_negotiation].
  - intros [n t v c m] (Hv & Hc & Hm) H. codec_simpl Welcome_codec. split_accepts. apply decodes_all_run.
    apply (decodes_hello (fun x y => _)); [done..|].
    by apply (decodes_negotiation (mkWelcome n t)).
Qed.

#[export] Instance ObjectRequest_codec : WireCodec ObjectRequest := {
  wc_encode := EncodeObjectRequest;
  wc_decode := DecodeObjectRequest;
  wc_accepts m := negb (MaxWireMessagePayloadSize <? zlen (req_Data m)) &&
    (fits (req_ObjectType m) && (fits (req_ObjectID m) && (fits (req_Action m) && true)));
  wc_bytes m := string_field (req_ObjectType m) ++ string_field (req_ObjectID m) ++
    string_field (req_Action m) ++ bytes_field (req_Data m);
  wc_typed _ := True;
  wc_canon m := m;
  wc_ends_empty m := bool_decide (req_Data m = [])
}.

Lemma payload_limit (l : bytes) :
  negb (MaxWireMessagePayloadSize <? zlen l) = true -> zlen l <= MaxWireMessagePayloadSize.
Proof. intros ?. by zbool. Qed.
Ltac payload_limits :=
  repeat match goal with H : negb (_ <? _) = true |- _ => apply payload_limit in H end.

#[export] Instance ObjectRequest_laws : WireCodecLaws ObjectRequest.
Proof.
  split.
  - intros m. apply encode_spec_guard. writes_fields.
  - intros [t i a d] _ H. codec_simpl ObjectRequest_codec. split_accepts.
    payload_limits. apply decodes_all_run. msg_fields.
Qed.

#[export] Instance PlayerInput_codec : WireCodec PlayerInput := {
  wc_encode := EncodePlayerInput;
  wc_decode := DecodePlayerInput;
  wc_accepts m := fits (pin_ObjectID m) && true;
  wc_bytes m := string_field (pin_ObjectID m) ++ be_bytes 8 (pin_Sequence m) ++
    be_bytes 8 (pin_Tick m) ++ be_bytes 4 (pin_X m) ++ be_bytes 4 (pin_Y m) ++ be_bytes 4 (pin_Z m);
  wc_typed m := in_u64 (pin_Sequence m) /\ in_u64 (pin_Tick m) /\ in_u32 (pin_X m) /\
    in_u32 (pin_Y m) /\ in_u32 (pin_Z m);
  wc_canon m := m;
  wc_ends_empty m := false
}.

#[export] Instance PlayerInput_laws : WireCodecLaws PlayerInput.
Proof.
  split.
  - intros m. apply encode_spec_of_writes. eapply writes_weaken; [writes_fields | done | done].
  - intros [s t i x y z] (? & ? & ? & ? & ?) Ha. codec_simpl PlayerInput_codec. split_accepts. apply (decodes_all_run _ _ _ false).
    eapply decodes_all_bind; [msg_field | | msg_ne]. apply decodes_all_len. zlen.
    cbn [Z.eqb]. msg_fields.
Qed.

#[export] Instance GenericClientInput_codec : WireCodec GenericClientInput := {
  wc_encode := EncodeGenericClientInput;
  wc_decode := DecodeGenericClientInput;
  wc_accepts m := negb (MaxWireMessagePayloadSize <? zlen (gci_Payload m)) &&
    (true && (true && (fits (gci_ObjectType m) && (fits (gci_ObjectID m) &&
      (fits (gci_TargetID m) && true)))));
  wc_bytes m := be_bytes 8 (gci_Sequence m) ++ be_bytes 8 (gci_Tick m) ++
    string_field (gci_ObjectType m) ++ string_field (gci_ObjectID m) ++
    string_field (gci_TargetID m) ++ bytes_field (gci_Payload m);
  wc_typed m := in_u64 (gci_Sequence m) /\ in_u64 (gci_Tick m);
  wc_canon m := m;
  wc_ends_empty m := bool_decide (gci_Payload m = [])
}.

#[export] Instance GenericClientInput_laws : WireCodecLaws GenericClientInput.
Proof.
  split.
  - intros m. apply encode_spec_guard. writes_fields.
  - intros [s t ty i g d] [? ?] Ha. codec_simpl GenericClientInput_codec. split_accepts.
    payload_limits. apply decodes_all_run. msg_fields.
Qed.

#[export] Instance Ping_codec : WireCodec Ping := {
  wc_encode := EncodePing;
  wc_decode := DecodePing;
  wc_accepts _ := true;
  wc_bytes m := be_bytes 8 (ping_Nonce m);
  wc_typed m := in_u64 (ping_Nonce m);
  wc_canon m := m;
  wc_ends_empty _ := false
}.

#[export] Instance Ping_laws : WireCodecLaws Ping.
Proof.
  split; [done|]. intros [n] Hn _. codec_simpl Ping_codec.
  apply (decodes_all_run _ _ _ false). msg_fields.
Qed.

#[export] Instance Pong_codec : WireCodec Pong := {
  wc_encode := EncodePong;
  wc_decode := DecodePong;
  wc_accepts _ := true;
  wc_bytes m := be_bytes 8 (pong_Nonce m);
  wc_typed m := in_u64 (pong_Nonce m);
  wc_canon m := m;
  wc_ends_empty _ := false
}.

#[export] Instance Pong_laws : WireCodecLaws Pong.
Proof.
  split; [done|]. intros [n] Hn _. codec_simpl Pong_codec.
  apply (decodes_all_run _ _ _ false). msg_fields.
Qed.

#[export] Instance ChatMessage_codec : WireCodec ChatMessage := {
  wc_encode := EncodeChatMessage;
  wc_decode := DecodeChatMessage;
  wc_accepts m := slen (chat_Text m) <=? MaxWireChatBytes;
  wc_bytes m := string_field (chat_Text m);
  wc_typed _ := True;
  wc_canon m := m;
  wc_ends_empty m := empty_string (chat_Text m)
}.

#[export] Instance ChatMessage_laws : WireCodecLaws ChatMessage.
Proof.
  split.
  - intros m. by apply encode_spec_of_writes, writes_string.
  - intros [s] _ Ha. codec_simpl ChatMessage_codec. apply decodes_all_run.
    eapply decodes_all_last; [|apply decodes_all_end].
    zbool. simpl in *. unfold MaxWireChatBytes in *. apply decodes_readString; lia.
Qed.

#[export] Instance WorldSnapshot_codec : WireCodec WorldSnapshot := {
  wc_encode := EncodeWorldSnapshot;
  wc_decode := DecodeWorldSnapshot;
  wc_bytes m := string_field (ws_ClientID m) ++ be_bytes 8 (ws_Tick m) ++
    be_bytes 8 (ws_LastSequence m) ++ snapshot_bytes (ws_Objects m);
  wc_accepts m :=
    (fits (ws_ClientID m) && (true && (true && encodable_snapshot (ws_Objects m)))) &&
    (zlen (string_field (ws_ClientID m) ++ be_bytes 8 (ws_Tick m) ++
       be_bytes 8 (ws_LastSequence m) ++ snapshot_bytes (ws_Objects m))
     <=? MaxWireMessagePayloadSize);
  wc_typed m := in_u64 (ws_Tick m) /\ in_u64 (ws_LastSequence m) /\
    snapshot_forall (fun v => GoValue_ok v = true) (ws_Objects m);
  wc_canon m := mkWorldSnapshot (ws_ClientID m) (ws_Tick m) (ws_LastSequence m)
    (canonical_snapshot (ws_Objects m));
  wc_ends_empty m := snapshot_ends_empty (ws_Objects m)
}.

Lemma snapshot_bytes_ne s rest : snapshot_bytes s ++ rest <> [].
Proof. unfold snapshot_bytes. done. Qed.

#[export] Instance WorldSnapshot_laws : WireCodecLaws WorldSnapshot.
Proof.
  split.
  - intros m. apply encode_spec_check. writes_fields.
  - intros m (? & ? & ?) Ha. codec_simpl WorldSnapshot_codec. split_accepts.
    apply decodes_all_run.
    repeat (eapply decodes_all_bind; [msg_field | | msg_ne]).
    eapply decodes_all_last; [msg_field | apply decodes_all_end].
Qed.

#[export] Instance WorldDeltaSnapshot_codec : WireCodec WorldDeltaSnapshot := {
  wc_encode := EncodeWorldDeltaSnapshot;
  wc_decode := DecodeWorldDeltaSnapshot;
  wc_bytes m := string_field (wd_ClientID m) ++ be_bytes 8 (wd_Tick m) ++
    be_bytes 8 (wd_LastSequence m) ++ be_bytes 8 (wd_BaselineTick m) ++
    snapshot_bytes (wd_Spawned m) ++ snapshot_bytes (wd_Changed m) ++ refs_bytes (wd_Despawned m);
  wc_accepts m :=
    (fits (wd_ClientID m) && (true && (true && (true && (encodable_snapshot (wd_Spawned m) &&
       (encodable_snapshot (wd_Changed m) && encodable_refs (wd_Despawned m))))))) &&
    (zlen (string_field (wd_ClientID m) ++ be_bytes 8 (wd_Tick m) ++
       be_bytes 8 (wd_LastSequence m) ++ be_bytes 8 (wd_BaselineTick m) ++
       snapshot_bytes (wd_Spawned m) ++ snapshot_bytes (wd_Changed m) ++
       refs_bytes (wd_Despawned m))
     <=? MaxWireMessagePayloadSize);
  wc_typed m := in_u64 (wd_Tick m) /\ in_u64 (wd_LastSequence m) /\ in_u64 (wd_BaselineTick m) /\
    snapshot_forall (fun v => GoValue_ok v = true) (wd_Spawned m) /\
    snapshot_forall (fun v => GoValue_ok v = true) (wd_Changed m);
  wc_canon m := mkWorldDeltaSnapshot (wd_ClientID m) (wd_Tick m) (wd_LastSequence m)
    (wd_BaselineTick m) (canonical_snapshot (wd_Spawned m)) (canonical_snapshot (wd_Changed m))
    (go_sort ref_less (wd_Despawned m));
  wc_ends_empty m := refs_end_empty (wd_Despawned m)
}.

#[export] Instance WorldDeltaSnapshot_laws : WireCodecLaws WorldDeltaSnapshot.
Proof.
  split.
  - intros m. apply encode_spec_check. writes_fields.
  - intros m (? & ? & ? & ? & ?) Ha. codec_simpl WorldDeltaSnapshot_codec. split_accepts.
    apply decodes_all_run.
    repeat (eapply decodes_all_bind; [msg_field | | msg_ne]).
    eapply decodes_all_last; [msg_field | apply decodes_all_end].
Qed.

(** The payload of a spawn and of an update. *)
Definition entity_accepts (t i : string) (v : GoValue) : bool :=
  fits t && (fits i && encodable v 0).
Definition entity_bytes (t i : string) (v : GoValue) : bytes :=
  string_field t ++ string_field i ++ wire_bytes v.

Lemma encodeEntityPayload_spec t i v :
  if entity_accepts t i v then encodeEntityPayload t i v = Ok (entity_bytes t i v)
  else exists e, encodeEntityPayload t i v = Err e.
Proof. apply encode_spec_of_writes. writes_fields. Qed.

Lemma decodeEntityPayload_spec t i v :
  GoValue_ok v = true -> entity_accepts t i v = true ->
  decodeEntityPayload (entity_bytes t i v) =
    if ends_empty (canonical v) then Err ErrEOF else Ok (t, i, canonical v).
Proof.
  intros Hok Ha. unfold entity_accepts in Ha. split_accepts. apply decodes_all_run.
  unfold entity_bytes. eapply decodes_all_bind; [msg_field | | msg_ne].
  eapply decodes_all_bind; [msg_field | | right; by eapply wire_bytes_ne].
  eapply decodes_all_last; [msg_field | apply decodes_all_end].
Qed.

#[export] Instance EntitySpawn_codec : WireCodec EntitySpawn := {
  wc_encode := EncodeEntitySpawn;
  wc_decode := DecodeEntitySpawn;
  wc_accepts m := entity_accepts (spawn_ObjectType m) (spawn_ObjectID m) (spawn_Snapshot m);
  wc_bytes m := entity_bytes (spawn_ObjectType m) (spawn_ObjectID m) (spawn_Snapshot m);
  wc_typed m := GoValue_ok (spawn_Snapshot m) = true;
  wc_canon m := mkEntitySpawn (spawn_ObjectType m) (spawn_ObjectID m) (canonical (spawn_Snapshot m));
  wc_ends_empty m := ends_empty (canonical (spawn_Snapshot m))
}.

#[export] Instance EntitySpawn_laws : WireCodecLaws EntitySpawn.
Proof.
  split; [intros m; apply encodeEntityPayload_spec|]. intros m Hm Ha.
  codec_simpl EntitySpawn_codec. unfold DecodeEntitySpawn.
  rewrite decodeEntityPayload_spec by done. by destruct (ends_empty _).
Qed.

#[export] Instance EntityUpdate_codec : WireCodec EntityUpdate := {
  wc_encode := EncodeEntityUpdate;
  wc_decode := DecodeEntityUpdate;
  wc_accepts m := entity_accepts (update_ObjectType m) (update_ObjectID m) (update_Snapshot m);
  wc_bytes m := entity_bytes (update_ObjectType m) (update_ObjectID m) (update_Snapshot m);
  wc_typed m := GoValue_ok (update_Snapshot m) = true;
  wc_canon m :=
    mkEntityUpdate (update_ObjectType m) (update_ObjectID m) (canonical (update_Snapshot m));
  wc_ends_empty m := ends_empty (canonical (update_Snapshot m))
}.

#[export] Instance EntityUpdate_laws : WireCodecLaws EntityUpdate.
Proof.
  split; [intros m; apply encodeEntityPayload_spec|]. intros m Hm Ha.
  codec_simpl EntityUpdate_codec. unfold DecodeEntityUpdate.
  rewrite decodeEntityPayload_spec by done. by destruct (ends_empty _).
Qed.

#[export] Instance EntityDespawn_codec : WireCodec EntityDespawn := {
  wc_encode := EncodeEntityDespawn;
  wc_decode := DecodeEntityDespawn;
  wc_accepts m := fits (despawn_ObjectType m) && fits (despawn_ObjectID m);
  wc_bytes m := string_field (despawn_ObjectType m) ++ string_field (despawn_ObjectID m);
  wc_typed _ := True;
  wc_canon m := m;
  wc_ends_empty m := empty_string (despawn_ObjectID m)
}.

#[export] Instance EntityDespawn_laws : WireCodecLaws EntityDespawn.
Proof.
  split.
  - intros m. apply encode_spec_of_writes. writes_fields.
  - intros [t i] _ Ha. codec_simpl EntityDespawn_codec. split_accepts. apply decodes_all_run.
    unfold empty_string. msg_fields.
Qed.

(** The payload of an error and of a disconnect. *)
Definition code_bytes (code : Z) (message : string) : bytes := be_bytes 2 code ++ string_field message.

Lemma encodeCodeMessage_spec c s :
  if true && fits s then encodeCodeMessage c s = Ok (code_bytes c s)
  else exists e, encodeCodeMessage c s = Err e.
Proof. apply encode_spec_of_writes. writes_fields. Qed.

Lemma decodeCodeMessage_spec c s :
  in_u16 c -> fits s = true ->
  decodeCodeMessage (code_bytes c s) = if empty_string s then Err ErrEOF else Ok (c, s).
Proof.
  intros Hc Hs. unfold code_bytes, empty_string, decodeCodeMessage. apply decodes_all_run.
  eapply decodes_all_bind; [msg_field | | msg_ne].
  eapply decodes_all_last; [msg_field | apply decodes_all_end].
Qed.

#[export] Instance ErrorMessage_codec : WireCodec ErrorMessage := {
  wc_encode := EncodeErrorMessage;
  wc_decode := DecodeErrorMessage;
  wc_accepts m := true && fits (err_Message m);
  wc_bytes m := code_bytes (err_Code m) (err_Message m);
  wc_typed m := in_u16 (err_Code m);
  wc_canon m := m;
  wc_ends_empty m := empty_string (err_Message m)
}.

#[export] Instance ErrorMessage_laws : WireCodecLaws ErrorMessage.
Proof.
  split; [intros m; exact (encodeCodeMessage_spec (err_Code m) (err_Message m))|]. intros [c s] Hm Ha.
  codec_simpl ErrorMessage_codec. unfold DecodeErrorMessage.
  rewrite decodeCodeMessage_spec by assumption. cbn [err_Code err_Message disc_Code disc_Message].
  by destruct (empty_string s).
Qed.

#[export] Instance DisconnectMessage_codec : WireCodec DisconnectMessage := {
  wc_encode := EncodeDisconnectMessage;
  wc_decode := DecodeDisconnectMessage;
  wc_accepts m := true && fits (disc_Message m);
  wc_bytes m := code_bytes (disc_Code m) (disc_Message m);
  wc_typed m := in_u16 (disc_Code m);
  wc_canon m := m;
  wc_ends_empty m := empty_string (disc_Message m)
}.

#[export] Instance DisconnectMessage_laws : WireCodecLaws DisconnectMessage.
Proof.
  split; [intros m; exact (encodeCodeMessage_spec (disc_Code m) (disc_Message m))|]. intros [c s] Hm Ha.
  codec_simpl DisconnectMessage_codec. unfold DecodeDisconnectMessage.
  rewrite decodeCodeMessage_spec by assumption. cbn [err_Code err_Message disc_Code disc_Message].
  by destruct (empty_string s).
Qed.

(** ** Decoding arbitrary payloads *)

Lemma p_spec_run {A} (p : Parser A) E P payload :
  p_spec p E P -> match p_run p payload with Ok a => P a | Err e => E e end.
Proof. intros H. specialize (H payload). unfold p_run. by destruct (p payload) as [[??]|?]. Qed.

Lemma p_end_spec {A} (a : A) (P : A -> Prop) :
  P a -> p_spec (p_end ErrMalformedWirePayload a) wire_error P.
Proof.
  intros Ha r. unfold p_end, reader_Len, p_bind. simpl.
  destruct (negb _); [unfold p_fail, wire_error; auto | done].
Qed.

Lemma reader_Len_spec : p_spec reader_Len wire_error (fun _ => True).
Proof. by intros r. Qed.

Lemma readBytes_spec n : p_spec (readBytes n) wire_error (fun bs => zlen bs <= n).
Proof.
  unfold readBytes. eapply p_spec_bind; [apply (readUintN_spec 4)|]. intros len Hlen.
  apply p_spec_if; intros Hl; zbool; [apply p_spec_fail; unfold wire_error; auto|].
  intros r. unfold reader_Len, p_bind; simpl.
  destruct (Z.ltb_spec (zlen r) len); [unfold p_fail, wire_error; auto|].
  destruct (reader_Read _ r) as [[bs r']|e] eqn:E.
  - apply length_reader_Read in E. unfold zlen, in_u in *. rewrite E. lia.
  - unfold reader_Read in E. destruct r; [|done]. injection E as <-. by left.
Qed.

Lemma decodeWireValue0_spec : p_spec decodeWireValue0 wire_error (decodable 0).
Proof. apply decodeWireValue_spec; lia. Qed.

Lemma decodeSnapshotData_spec :
  p_spec decodeSnapshotData wire_error (snapshot_forall (decodable 0)).
Proof.
  unfold decodeSnapshotData. eapply p_spec_bind; [apply (readUintN_spec 2)|]. intros count _.
  apply p_spec_loop; [apply map_Forall_empty|]. intros s Hs. unfold read_objectType.
  eapply p_spec_bind; [apply readString_spec|]. intros t _.
  eapply p_spec_bind; [apply (readUintN_spec 2)|]. intros n _.
  apply p_spec_loop; [apply map_Forall_insert_2; [apply map_Forall_empty | done]|].
  intros s' Hs'. unfold read_object.
  eapply p_spec_bind; [apply readString_spec|]. intros i _.
  eapply p_spec_bind; [apply decodeWireValue0_spec|]. intros v Hv. apply p_spec_ret.
  intros t' objects'. unfold set_object. rewrite lookup_alter.
  destruct (decide (t = t')) as [->|]; [|apply Hs'].
  intros (o & Ho & ->)%fmap_Some. apply map_Forall_insert_2; [done|]. by apply (Hs' _ _ Ho).
Qed.

Lemma decodeSnapshotObjectRefs_spec : p_spec decodeSnapshotObjectRefs wire_error (fun _ => True).
Proof.
  unfold decodeSnapshotObjectRefs. eapply p_spec_bind; [apply (readUintN_spec 2)|]. intros n _.
  apply p_spec_loop; [done|]. intros l _. unfold read_ref.
  eapply p_spec_bind; [apply readString_spec|]. intros. 
  eapply p_spec_bind; [apply readString_spec|]. intros. by apply p_spec_ret.
Qed.

Lemma snapshot_forall_impl (P Q : GoValue -> Prop) s :
  (forall v, P v -> Q v) -> snapshot_forall P s -> snapshot_forall Q s.
Proof. intros H Hs t o Ho i v Hi. eapply H, Hs; eauto. Qed.

Ltac p_spec_field :=
  lazymatch goal with
  | |- p_spec readUint16 _ _ => apply (readUintN_spec 2)
  | |- p_spec readUint32 _ _ => apply (readUintN_spec 4)
  | |- p_spec readFloat32 _ _ => apply (readUintN_spec 4)
  | |- p_spec readUint64 _ _ => apply (readUintN_spec 8)
  | |- p_spec reader_Len _ _ => exact reader_Len_spec
  | |- p_spec reader_ReadByte _ _ => exact reader_ReadByte_spec
  | |- p_spec (readString _) _ _ => apply readString_spec
  | |- p_spec (readBytes _) _ _ => apply readBytes_spec
  | |- p_spec decodeWireValue0 _ _ => exact decodeWireValue0_spec
  | |- p_spec decodeSnapshotData _ _ => exact decodeSnapshotData_spec
  | |- p_spec decodeSnapshotObjectRefs _ _ => exact decodeSnapshotObjectRefs_spec
  end.

(** Walk through a straight-line decoder; the postcondition of its result is
    left. *)
Ltac p_specs :=
  repeat lazymatch goal with
  | |- p_spec (p_end _ _) _ _ => apply p_end_spec
  | |- p_spec (p_ret _) _ _ => apply p_spec_ret
  | |- p_spec (p_fail _) _ _ => apply p_spec_fail; unfold wire_error; by auto
  | |- p_spec (if _ then _ else _) _ _ => apply p_spec_if; intros ?
  | |- p_spec (p_bind _ _) _ _ => eapply p_spec_bind; [p_spec_field | intros ? ?]
  end.

(** Any payload: a decoder fails with a wire error or returns a value within
    the ranges of its Go type. *)
Class WireCodecSafe (A : Type) `{WireCodec A} : Prop :=
  wc_decode_safe (payload : bytes) :
    match wc_decode payload with Ok m => wc_typed m | Err e => wire_error e end.

Ltac in_range := first [exact I | assumption | unfold in_u; lia].
Ltac safe_straight :=
  intros payload; apply p_spec_run; p_specs; simpl; unfold hello_typed;
  split_and?; try in_range.

#[export] Instance ClientHello_safe : WireCodecSafe ClientHello.
Proof. safe_straight. Qed.
#[export] Instance Welcome_safe : WireCodecSafe Welcome.
Proof. safe_straight. Qed.
#[export] Instance ObjectRequest_safe : WireCodecSafe ObjectRequest.
Proof. safe_straight. Qed.
#[export] Instance PlayerInput_safe : WireCodecSafe PlayerInput.
Proof. safe_straight. Qed.
#[export] Instance GenericClientInput_safe : WireCodecSafe GenericClientInput.
Proof. safe_straight. Qed.
#[export] Instance Ping_safe : WireCodecSafe Ping.
Proof. safe_straight. Qed.
#[export] Instance Pong_safe : WireCodecSafe Pong.
Proof. safe_straight. Qed.
#[export] Instance ChatMessage_safe : WireCodecSafe ChatMessage.
Proof. safe_straight. Qed.
#[export] Instance WorldSnapshot_safe : WireCodecSafe WorldSnapshot.
Proof.
  safe_straight. eapply snapshot_forall_impl; [|eassumption]. by intros v (_ & ? & _).
Qed.
#[export] Instance WorldDeltaSnapshot_safe : WireCodecSafe WorldDeltaSnapshot.
Proof.
  safe_straight; (eapply snapshot_forall_impl; [|eassumption]); by intros v (_ & ? & _).
Qed.

Lemma decodeEntityPayload_safe payload :
  match decodeEntityPayload payload with
  | Ok (_, _, v) => decodable 0 v
  | Err e => wire_error e
  end.
Proof.
  assert (p_spec (let* objectType := readString MaxWireStringBytes in
    let* objectID := readString MaxWireStringBytes in
    let* snapshot := decodeWireValue0 in
    p_end ErrMalformedWirePayload (objectType, objectID, snapshot)) wire_error
    (fun x => decodable 0 x.2)) as H by by p_specs.
  apply (p_spec_run _ _ _ payload) in H. unfold decodeEntityPayload.
  by destruct (p_run _ payload) as [[[??]?]|?].
Qed.

#[export] Instance EntitySpawn_safe : WireCodecSafe EntitySpawn.
Proof.
  intros payload. simpl. unfold DecodeEntitySpawn. pose proof (decodeEntityPayload_safe payload) as H.
  destruct (decodeEntityPayload payload) as [[[??]?]|?]; simpl; [by destruct H as (_ & ? & _) | done].
Qed.
#[export] Instance EntityUpdate_safe : WireCodecSafe EntityUpdate.
Proof.
  intros payload. simpl. unfold DecodeEntityUpdate. pose proof (decodeEntityPayload_safe payload) as H.
  destruct (decodeEntityPayload payload) as [[[??]?]|?]; simpl; [by destruct H as (_ & ? & _) | done].
Qed.
#[export] Instance EntityDespawn_safe : WireCodecSafe EntityDespawn.
Proof. safe_straight. Qed.

Lemma decodeCodeMessage_safe payload :
  match decodeCodeMessage payload with Ok (c, _) => in_u16 c | Err e => wire_error e end.
Proof.
  assert (p_spec (let* code := readUint16 in
    let* message := readString MaxWireStringBytes in
    p_end ErrMalformedWirePayload (code, message)) wire_error (fun x => in_u16 x.1)) as H by by p_specs.
  apply (p_spec_run _ _ _ payload) in H. unfold decodeCodeMessage.
  by destruct (p_run _ payload) as [[??]|?].
Qed.

#[export] Instance ErrorMessage_safe : WireCodecSafe ErrorMessage.
Proof.
  intros payload. simpl. unfold DecodeErrorMessage. pose proof (decodeCodeMessage_safe payload) as H.
  by destruct (decodeCodeMessage payload) as [[??]|?].
Qed.
#[export] Instance DisconnectMessage_safe : WireCodecSafe DisconnectMessage.
Proof.
  intros payload. simpl. unfold DecodeDisconnectMessage.
  pose proof (decodeCodeMessage_safe payload) as H. by destruct (decodeCodeMessage payload) as [[??]|?].
Qed.

(** ** Properties *)

(** A ping payload of one to seven bytes is not rejected: the missing
    low-order bytes of the nonce are read as zero, because [readUint64] takes a
    partial read for a full one; only an empty payload is malformed.  A payload
    longer than eight bytes is rejected. *)
Theorem DecodePing_exact payload :
  DecodePing payload =
    if bool_decide (payload = []) || (8 <? zlen payload) then Err ErrMalformedWirePayload
    else Ok (mkPing (be_value (payload ++ replicate (8 - length payload) x00))).
Proof.
  destruct (decide (payload = [])) as [->|Hne]; [done|]. rewrite bool_decide_false by done.
  simpl. destruct (Z.ltb_spec 8 (zlen payload)) as [H|H].
  - assert (exists b b', payload = b ++ b' /\ length b = 8%nat /\ b' <> []) as (b & b' & -> & Hb & Hb').
    { exists (take 8 payload), (drop 8 payload). rewrite take_drop. unfold zlen in H.
      split_and!; [done | rewrite length_take; lia |]. intros E. apply (f_equal length) in E.
      rewrite length_drop in E. simpl in E. lia. }
    assert (readUint64 (b ++ b') = Ok (be_value b, b')) as Hr.
    { rewrite <- (be_bytes_be_value b) at 1. rewrite Hb. apply readUint64_be.
      pose proof (be_value_range b) as Hv. unfold zlen in Hv. by rewrite Hb in Hv. }
    unfold DecodePing, p_run. rewrite (p_bind_ok _ _ _ _ _ Hr).
    unfold p_end, reader_Len, p_bind. simpl. destruct (Z.eqb_spec (zlen b') 0) as [E|E]; [|done].
    by apply zlen_0 in E.
  - unfold DecodePing, p_run, readUint64. erewrite p_bind_ok; [|apply readUintN_short; [done|]].
    + done.
    + unfold zlen in H. lia.
Qed.

(** The older player input form, an object id and three float32 values
    without sequence and tick, is decoded with sequence and tick zero. *)
Theorem DecodePlayerInput_legacy objectID x y z :
  fits objectID = true -> in_u32 x -> in_u32 y -> in_u32 z ->
  DecodePlayerInput (string_field objectID ++ be_bytes 4 x ++ be_bytes 4 y ++ be_bytes 4 z) =
    Ok (mkPlayerInput 0 0 objectID x y z).
Proof.
  intros. apply (decodes_all_run _ _ _ false).
  eapply decodes_all_bind; [msg_field | | msg_ne]. apply decodes_all_len. zlen. cbn [Z.eqb].
  repeat (eapply decodes_all_bind; [msg_field | | msg_ne]).
  by eapply decodes_all_last; [msg_field|].
Qed.

Lemma DecodePlayerInput_legacy_witness :
  DecodePlayerInput (string_field "p1" ++ be_bytes 4 1 ++ be_bytes 4 2 ++ be_bytes 4 3) =
    Ok (mkPlayerInput 0 0 "p1" 1 2 3).
Proof. apply (DecodePlayerInput_legacy "p1" 1 2 3); (reflexivity || (unfold in_u; lia)). Defined.
