(* ===== verification/Packet.v ===== *)
(** * Packets: framing, reliable envelopes and acknowledgements

    [network/wire.go] lines 15-31 and 62-372 ([EncodePacketWithAcks],
    [DecodePacket]), [network/reliability.go] ([DeliveryClass], the reliable
    envelope, [packetSequenceAcked]) and [isWirePacket] of [network/udp.go]. *)
From S2P Require Import Prelude Buffer Values Messages.

(** ** Constants of the wire format *)
Definition WireProtocolMagic : Z := 0x4553.
Definition WireProtocolVersion : Z := 1.
Definition wirePacketHeaderSize : Z := 36.
Definition wireMessageHeaderSize : Z := 6.
Definition MaxWirePayloadSize : Z := 60 * 1024.
Definition MaxWireMessagesPerPacket : Z := 32.

Definition WireMessageType := Z.
Definition WireMessageReliable : WireMessageType := 0x0007.

(** ** Delivery classes: a uint8 *)
Definition DeliveryClass := Z.
Definition DeliveryUnreliable : DeliveryClass := 0.
Definition DeliveryReliableOrdered : DeliveryClass := 1.
Definition DeliveryReliableUnordered : DeliveryClass := 2.

Definition delivery_reliable (class : DeliveryClass) : bool :=
  (class =? DeliveryReliableOrdered) || (class =? DeliveryReliableUnordered).

Definition validateDeliveryClass (class : DeliveryClass) : result unit :=
  if (class =? DeliveryUnreliable) || (class =? DeliveryReliableOrdered) ||
     (class =? DeliveryReliableUnordered)
  then Ok tt else Err ErrInvalidDeliveryClass.

(** ** Data *)
Record WireMessage := mkWireMessage {
  msg_Type : WireMessageType;
  msg_Payload : bytes;
  msg_Delivery : DeliveryClass;
  msg_DeliveryID : Z
}.

Record WirePacket := mkWirePacket {
  pkt_Version : Z;
  pkt_Sequence : Z;
  pkt_Ack : Z;
  pkt_AckBits : Z;
  pkt_Messages : list WireMessage
}.

#[export] Instance WireMessage_eq_dec : EqDecision WireMessage.
Proof. solve_decision. Defined.
#[export] Instance WirePacket_eq_dec : EqDecision WirePacket.
Proof. solve_decision. Defined.

(** ** reliability.go: the reliable envelope *)
Definition encodeReliableEnvelope (message : WireMessage) : result bytes :=
  let! _ := validateDeliveryClass (msg_Delivery message) in
  if negb (delivery_reliable (msg_Delivery message)) then Err ErrInvalidDeliveryClass
  else if msg_DeliveryID message =? 0 then Err ErrReliableMessageID
  else if MaxWireMessagePayloadSize <? zlen (msg_Payload message) then Err ErrWireMessageTooLarge
  else
    let! payload := w_run (
      WriteByte (msg_Delivery message) ;;;
      writeUint64 (msg_DeliveryID message) ;;;
      writeUint16 (msg_Type message) ;;;
      writeUint32 (zlen (msg_Payload message)) ;;;
      w_bytes (msg_Payload message)) in
    if MaxWireMessagePayloadSize <? zlen payload then Err ErrWireMessageTooLarge else Ok payload.

Definition decodeReliableEnvelope (payload : bytes) : result WireMessage :=
  p_run (
    let* delivery := p_or reader_ReadByte ErrMalformedWirePayload in
    let* _ := (fun r => let! u := validateDeliveryClass delivery in Ok (u, r)) in
    if negb (delivery_reliable delivery) then p_fail ErrInvalidDeliveryClass else
    let* deliveryID := readUint64 in
    if deliveryID =? 0 then p_fail ErrReliableMessageID else
    let* messageType := readUint16 in
    let* messageLength := readUint32 in
    if MaxWireMessagePayloadSize <? messageLength then p_fail ErrWireMessageTooLarge else
    let* remaining := reader_Len in
    if remaining <? messageLength then p_fail ErrMalformedWirePayload else
    let* messagePayload := reader_Read (Z.to_nat messageLength) in
    p_end ErrMalformedWirePayload (mkWireMessage messageType messagePayload delivery deliveryID))
    payload.

(** ** wire.go: packets *)

(** One turn of the loop of [EncodePacketWithAcks]. *)
Definition write_message (message : WireMessage) : Writer := fun buf =>
  let! (wireType, wirePayload) :=
    if delivery_reliable (msg_Delivery message) then
      let! encoded := encodeReliableEnvelope message in Ok (WireMessageReliable, encoded)
    else
      let! _ := validateDeliveryClass (msg_Delivery message) in
      Ok (msg_Type message, msg_Payload message) in
  if MaxWireMessagePayloadSize <? zlen wirePayload then Err ErrWireMessageTooLarge
  else (writeUint16 wireType ;;; writeUint32 (zlen wirePayload) ;;; w_bytes wirePayload) buf.

Definition EncodePacketWithAcks (sequence ack ackBits : Z) (messages : list WireMessage)
    : result bytes :=
  if (zlen messages =? 0) || (MaxWireMessagesPerPacket <? zlen messages)
  then Err ErrInvalidWirePacket
  else
    let! payload := w_run (w_all (map write_message messages)) in
    if MaxWirePayloadSize <? zlen payload then Err ErrWirePacketTooLarge
    else
      w_run (writeUint16 WireProtocolMagic ;;;
             WriteByte WireProtocolVersion ;;;
             WriteByte (zlen messages) ;;;
             writeUint32 0 ;;;
             writeUint64 sequence ;;;
             writeUint64 ack ;;;
             writeUint64 ackBits ;;;
             writeUint32 (zlen payload) ;;;
             w_bytes payload).

Definition EncodePacket (sequence : Z) (messages : list WireMessage) : result bytes :=
  EncodePacketWithAcks sequence 0 0 messages.

(** One turn of the loop of [DecodePacket]. *)
Definition read_message (messages : list WireMessage) : Parser (list WireMessage) :=
  let* remaining := reader_Len in
  if remaining <? wireMessageHeaderSize then p_fail ErrInvalidWirePacket else
  let* messageType := p_ignore readUint16 in
  let* messageLength := p_ignore readUint32 in
  if MaxWireMessagePayloadSize <? messageLength then p_fail ErrWireMessageTooLarge else
  let* remaining := reader_Len in
  if remaining <? messageLength then p_fail ErrInvalidWirePacket else
  let* payload := reader_Read (Z.to_nat messageLength) in
  let message := mkWireMessage messageType payload DeliveryUnreliable 0 in
  let* message :=
    (fun r => if msg_Type message =? WireMessageReliable
              then let! decoded := decodeReliableEnvelope payload in Ok (decoded, r)
              else Ok (message, r)) in
  p_ret (messages ++ [message]).

Definition DecodePacket (data : bytes) : result WirePacket :=
  if zlen data <? wirePacketHeaderSize then Err ErrInvalidWirePacket
  else if MaxWirePayloadSize <? zlen data - wirePacketHeaderSize then Err ErrWirePacketTooLarge
  else
    p_run (
      let* magic := p_ignore readUint16 in
      if negb (magic =? WireProtocolMagic) then p_fail ErrInvalidWirePacket else
      let* version := p_ignore reader_ReadByte in
      if negb (version =? WireProtocolVersion) then p_fail ErrUnsupportedWireVersion else
      let* messageCount := p_ignore reader_ReadByte in
      if (messageCount =? 0) || (MaxWireMessagesPerPacket <? messageCount)
      then p_fail ErrInvalidWirePacket else
      let* _ := readUint32 in
      let* sequence := p_ignore readUint64 in
      let* ack := p_ignore readUint64 in
      let* ackBits := p_ignore readUint64 in
      let* payloadLength := p_ignore readUint32 in
      if negb (payloadLength =? zlen data - wirePacketHeaderSize) then p_fail ErrInvalidWirePacket
      else
        let* messages := p_loop (Z.to_nat messageCount) read_message [] in
        p_end ErrInvalidWirePacket (mkWirePacket version sequence ack ackBits messages)) data.

(** ** Acknowledgements *)
Definition packetSequenceAcked (ack ackBits sequence : Z) : bool :=
  if (sequence =? 0) || (ack =? 0) then false
  else if sequence =? ack then true
  else if ack <? sequence then false
  else
    let distance := u64_sub ack sequence in
    if (distance =? 0) || (64 <? distance) then false
    else negb (Z.land ackBits (wrap 64 (Z.shiftl 1 (u64_sub distance 1))) =? 0).

(** udp.go: [isWirePacket]. *)
Definition isWirePacket (data : bytes) : bool :=
  match data with
  | b0 :: b1 :: _ =>
      (Z_of_byte b0 =? Z.shiftr WireProtocolMagic 8) && (Z_of_byte b1 =? Z.land WireProtocolMagic 0xff)
  | _ => false
  end.

(** ** Specification of the framing *)
Definition envelope_bytes (m : WireMessage) : bytes :=
  [byte_of_Z (msg_Delivery m)] ++ be_bytes 8 (msg_DeliveryID m) ++ be_bytes 2 (msg_Type m) ++
  be_bytes 4 (zlen (msg_Payload m)) ++ msg_Payload m.

(** The frame that carries [m]: its type and its payload. *)
Definition frame_type (m : WireMessage) : WireMessageType :=
  if delivery_reliable (msg_Delivery m) then WireMessageReliable else msg_Type m.
Definition frame_payload (m : WireMessage) : bytes :=
  if delivery_reliable (msg_Delivery m) then envelope_bytes m else msg_Payload m.
Definition message_bytes (m : WireMessage) : bytes :=
  be_bytes 2 (frame_type m) ++ be_bytes 4 (zlen (frame_payload m)) ++ frame_payload m.

(** An envelope adds 15 bytes to its payload. *)
Definition message_encodable (m : WireMessage) : bool :=
  if delivery_reliable (msg_Delivery m)
  then negb (msg_DeliveryID m =? 0) && (zlen (msg_Payload m) + 15 <=? MaxWireMessagePayloadSize)
  else (msg_Delivery m =? DeliveryUnreliable) && (zlen (msg_Payload m) <=? MaxWireMessagePayloadSize).

Definition payload_bytes (messages : list WireMessage) : bytes :=
  concat (map message_bytes messages).

Definition packet_encodable (messages : list WireMessage) : bool :=
  (0 <? zlen messages) && (zlen messages <=? MaxWireMessagesPerPacket) &&
  forallb message_encodable messages && (zlen (payload_bytes messages) <=? MaxWirePayloadSize).

(** A packet with any value in the reserved header field. *)
Definition packet_bytes_with (reserved sequence ack ackBits : Z) (messages : list WireMessage) : bytes :=
  be_bytes 2 WireProtocolMagic ++ [byte_of_Z WireProtocolVersion] ++ [byte_of_Z (zlen messages)] ++
  be_bytes 4 reserved ++ be_bytes 8 sequence ++ be_bytes 8 ack ++ be_bytes 8 ackBits ++
  be_bytes 4 (zlen (payload_bytes messages)) ++ payload_bytes messages.
Definition packet_bytes := packet_bytes_with 0.

(** The ranges of the Go field types, and the one type an unreliable message
    cannot use: it would be taken for an envelope. *)
Definition message_ok (m : WireMessage) : Prop :=
  in_u16 (msg_Type m) /\ in_u8 (msg_Delivery m) /\ in_u64 (msg_DeliveryID m) /\
  (delivery_reliable (msg_Delivery m) = false -> msg_Type m <> WireMessageReliable).

(** What is received: an unreliable message has no delivery id on the wire. *)
Definition received (m : WireMessage) : WireMessage :=
  if delivery_reliable (msg_Delivery m) then m
  else mkWireMessage (msg_Type m) (msg_Payload m) DeliveryUnreliable 0.

(** The messages that [DecodePacket] cannot read: a reliable message with an
    empty payload, and a last message with an empty payload. *)
Definition empty_reliable (m : WireMessage) : bool :=
  delivery_reliable (msg_Delivery m) && bool_decide (msg_Payload m = []).
Definition ends_in_empty (messages : list WireMessage) : bool :=
  existsb empty_reliable messages ||
  default false (last (map (fun m => bool_decide (frame_payload m = [])) messages)).

(** ** Encoding *)
Lemma reliable_valid class :
  validateDeliveryClass class =
    if delivery_reliable class || (class =? DeliveryUnreliable) then Ok tt else Err ErrInvalidDeliveryClass.
Proof.
  unfold validateDeliveryClass, delivery_reliable.
  by destruct (class =? DeliveryUnreliable), (class =? DeliveryReliableOrdered),
    (class =? DeliveryReliableUnordered).
Qed.

Lemma delivery_cases class :
  delivery_reliable class = true -> class = DeliveryReliableOrdered \/ class = DeliveryReliableUnordered.
Proof.
  unfold delivery_reliable. destruct (Z.eqb_spec class DeliveryReliableOrdered); [auto|].
  destruct (Z.eqb_spec class DeliveryReliableUnordered); [auto | discriminate].
Qed.

Lemma zlen_envelope m : zlen (envelope_bytes m) = 15 + zlen (msg_Payload m).
Proof. unfold envelope_bytes. zlen. lia. Qed.

Lemma encodeReliableEnvelope_spec m :
  delivery_reliable (msg_Delivery m) = true ->
  if negb (msg_DeliveryID m =? 0) && (zlen (msg_Payload m) + 15 <=? MaxWireMessagePayloadSize)
  then encodeReliableEnvelope m = Ok (envelope_bytes m)
  else exists e, encodeReliableEnvelope m = Err e.
Proof.
  intros Hr. unfold encodeReliableEnvelope. rewrite reliable_valid, Hr. cbn [orb rbind negb].
  destruct (Z.eqb_spec (msg_DeliveryID m) 0); cbn [negb andb]; [by eexists|].
  rewrite ltb_leb_negb. pose proof (zlen_nonneg (msg_Payload m)).
  destruct (Z.leb_spec (zlen (msg_Payload m)) MaxWireMessagePayloadSize); cbn [negb];
    [|destruct (Z.leb_spec (zlen (msg_Payload m) + 15) MaxWireMessagePayloadSize); [lia | eauto]].
  change (w_run _) with (Ok (envelope_bytes m)). cbn [rbind].
  rewrite ltb_leb_negb, zlen_envelope, (Z.add_comm 15).
  destruct (zlen (msg_Payload m) + 15 <=? MaxWireMessagePayloadSize); cbn [negb];
    [done | by eexists].
Qed.

Lemma writes_message m : writes (write_message m) (message_encodable m) (message_bytes m).
Proof.
  intros buf. unfold write_message, message_encodable, message_bytes, frame_type, frame_payload.
  destruct (delivery_reliable (msg_Delivery m)) eqn:Hr.
  - pose proof (encodeReliableEnvelope_spec m Hr) as Hs.
    destruct (negb _ && _) eqn:E.
    + rewrite Hs. simpl. zbool. rewrite ltb_leb_negb, zlen_envelope.
      rewrite (proj2 (Z.leb_le _ _)) by lia. simpl. unfold writeUint16, writeUint32, w_seq, w_bytes.
      simpl rbind. by rewrite <- !app_assoc.
    + destruct Hs as [e ->]. by exists e.
  - rewrite reliable_valid, Hr. simpl. destruct (msg_Delivery m =? DeliveryUnreliable); simpl; [|eauto].
    rewrite ltb_leb_negb. destruct (_ <=? _); simpl; [|eauto].
    unfold writeUint16, writeUint32, w_seq, w_bytes. simpl rbind. by rewrite <- !app_assoc.
Qed.

Lemma EncodePacketWithAcks_spec sequence ack ackBits messages :
  if packet_encodable messages
  then EncodePacketWithAcks sequence ack ackBits messages =
         Ok (packet_bytes sequence ack ackBits messages)
  else exists e, EncodePacketWithAcks sequence ack ackBits messages = Err e.
Proof.
  unfold EncodePacketWithAcks, packet_encodable.
  pose proof (zlen_nonneg messages). destruct (Z.eqb_spec (zlen messages) 0) as [E0|E0].
  { rewrite (proj2 (Z.ltb_ge 0 (zlen messages))) by lia. simpl. eauto. }
  rewrite (proj2 (Z.ltb_lt 0 (zlen messages))) by lia. rewrite ltb_leb_negb.
  cbn [orb andb]. destruct (zlen messages <=? MaxWireMessagesPerPacket); cbn [negb andb]; [|eauto].
  pose proof (encode_spec_of_writes _ _ _
    (writes_all write_message message_encodable message_bytes messages
       (fun m _ => writes_message m))) as Hw.
  destruct (forallb message_encodable messages); cbn [andb].
  - rewrite Hw. cbn [rbind]. fold (payload_bytes messages). rewrite ltb_leb_negb.
    destruct (zlen (payload_bytes messages) <=? MaxWirePayloadSize); cbn [negb]; [done | eauto].
  - destruct Hw as [e ->]. simpl. eauto.
Qed.

Lemma EncodePacketWithAcks_inv sequence ack ackBits messages bs :
  EncodePacketWithAcks sequence ack ackBits messages = Ok bs ->
  packet_encodable messages = true /\ bs = packet_bytes sequence ack ackBits messages.
Proof.
  intros H. pose proof (EncodePacketWithAcks_spec sequence ack ackBits messages) as Hs.
  destruct (packet_encodable messages).
  - rewrite Hs in H. by injection H.
  - destruct Hs as [e He]. congruence.
Qed.

(** ** Decoding *)
Lemma decodes_all_check {A B} (c : result A) (k : A -> Parser B) cs a b e :
  c = Ok a -> decodes_all (k a) cs b e ->
  decodes_all (p_bind (fun r => let! u := c in Ok (u, r)) k) cs b e.
Proof. intros -> H. exact H. Qed.

(** A counted loop of which some items, wherever they are, cannot be read. *)
Lemma loop_outcome {A S} (step : S -> Parser S) (f : S -> A -> S) (items : list A)
    (enc : A -> bytes) (ends bad : A -> bool) :
  (forall acc x, x ∈ items -> bad x = false -> decodes (step acc) (enc x) (f acc x) (ends x)) ->
  (forall acc x rest, x ∈ items -> bad x = true -> step acc (enc x ++ rest) = Err ErrEOF) ->
  (forall x, x ∈ items -> enc x <> []) ->
  forall acc rest, p_loop (length items) step acc (concat (map enc items) ++ rest) =
    if existsb bad items || (default false (last (map ends items)) && bool_decide (rest = []))
    then Err ErrEOF else Ok (foldl f acc items, rest).
Proof.
  intros Hgood Hbad Hne. induction items as [|x items IH]; intros acc rest; [done|].
  assert (forall y, y ∈ items -> y ∈ x :: items) as Hin by (intros; by right).
  cbn [length p_loop map concat foldl existsb]. rewrite <- app_assoc. unfold p_bind at 1.
  destruct (bad x) eqn:Hx; [by rewrite Hbad by (done || left)|].
  rewrite (Hgood acc x) by (done || left). rewrite orb_false_l.
  destruct items as [|y items].
  - simpl. by destruct (ends x && bool_decide (rest = [])).
  - rewrite bool_decide_false, andb_false_r.
    + cbn [rbind]. rewrite IH by auto. done.
    + simpl. intros [[E _]%app_nil _]%app_nil. eapply Hne; [|exact E]. right. left.
Qed.

Lemma decode_envelope m :
  delivery_reliable (msg_Delivery m) = true -> message_ok m -> message_encodable m = true ->
  decodeReliableEnvelope (envelope_bytes m) =
    if bool_decide (msg_Payload m = []) then Err ErrEOF else Ok m.
Proof.
  intros Hr (Ht & Hd & Hi & _) He. unfold message_encodable in He. rewrite Hr in He. zbool.
  apply decodes_all_run. unfold envelope_bytes.
  eapply decodes_all_bind; [by apply decodes_or, decodes_ReadByte | | by left].
  apply (decodes_all_check _ _ _ tt); [by rewrite reliable_valid, Hr|]. rewrite Hr. cbn [negb].
  eapply decodes_all_bind; [by apply decodes_readUint64 | | by left].
  rewrite (proj2 (Z.eqb_neq _ _)) by done.
  eapply decodes_all_bind; [by apply decodes_readUint16 | | by left].
  pose proof (zlen_nonneg (msg_Payload m)).
  eapply decodes_all_bind; [apply decodes_readUint32 | | by left].
  { unfold in_u, MaxWireMessagePayloadSize in *. lia. }
  rewrite (proj2 (Z.ltb_ge MaxWireMessagePayloadSize (zlen (msg_Payload m)))) by lia.
  apply decodes_all_len. rewrite Z.ltb_irrefl.
  eapply decodes_all_last; [apply decodes_Read; unfold zlen; lia|]. by destruct m.
Qed.

(** The frame that carries a good message fits its fields. *)
Lemma frame_sizes m :
  message_encodable m = true -> message_ok m ->
  in_u16 (frame_type m) /\ 0 <= zlen (frame_payload m) <= MaxWireMessagePayloadSize.
Proof.
  unfold message_encodable, frame_type, frame_payload. intros He (Ht & _).
  pose proof (zlen_nonneg (msg_Payload m)).
  destruct (delivery_reliable (msg_Delivery m)); zbool; rewrite ?zlen_envelope;
    (split; [unfold in_u, WireMessageReliable in *; lia | lia]).
Qed.

Lemma p_bind_ok_eq {A B} (p : Parser A) (k : A -> Parser B) r a r' o :
  p r = Ok (a, r') -> k a r' = o -> p_bind p k r = o.
Proof. unfold p_bind. by intros -> <-. Qed.

Lemma bool_decide_and_false (P Q : Prop) `{Decision P, Decision Q} :
  ~ (P /\ Q) -> bool_decide P && bool_decide Q = false.
Proof. intros Hn. repeat case_bool_decide; auto. by destruct Hn. Qed.

(** One step of the loop, up to the body of the message. *)
Lemma read_message_frame m acc rest :
  message_encodable m = true -> message_ok m ->
  read_message acc (message_bytes m ++ rest) =
    if bool_decide (frame_payload m = []) && bool_decide (rest = []) then Err ErrEOF
    else
      let! message :=
        if frame_type m =? WireMessageReliable then decodeReliableEnvelope (frame_payload m)
        else Ok (mkWireMessage (frame_type m) (frame_payload m) DeliveryUnreliable 0) in
      Ok (acc ++ [message], rest).
Proof.
  intros He Hm. destruct (frame_sizes m He Hm) as [Ht Hp]. unfold message_bytes.
  generalize dependent (frame_payload m). intros payload Hp. rewrite <- !app_assoc.
  unfold read_message. eapply p_bind_ok_eq; [done|]. zlen. pose proof (zlen_nonneg rest).
  rewrite (proj2 (Z.ltb_ge _ _)) by (unfold wireMessageHeaderSize; lia).
  eapply p_bind_ok_eq; [unfold p_ignore; by rewrite readUint16_be|].
  eapply p_bind_ok_eq.
  { unfold p_ignore. rewrite readUint32_be; [done|]. unfold in_u, MaxWireMessagePayloadSize in *. lia. }
  rewrite (proj2 (Z.ltb_ge MaxWireMessagePayloadSize _)) by lia.
  eapply p_bind_ok_eq; [done|]. zlen. rewrite (proj2 (Z.ltb_ge _ _)) by lia.
  assert (length payload = Z.to_nat (zlen payload)) as Hlen by (unfold zlen; lia).
  unfold p_bind at 1. rewrite (decodes_Read payload _ Hlen rest).
  destruct (decide (payload = [] /\ rest = [])) as [[-> ->]|Hne]; [done|].
  rewrite !bool_decide_and_false by done. cbn [rbind msg_Type].
  destruct (frame_type m =? WireMessageReliable); [|done].
  unfold p_bind. by destruct (decodeReliableEnvelope payload).
Qed.

Lemma decodes_read_message m acc :
  message_encodable m = true -> message_ok m -> empty_reliable m = false ->
  decodes (read_message acc) (message_bytes m) (acc ++ [received m])
    (bool_decide (frame_payload m = [])).
Proof.
  intros He Hm Hb rest. rewrite read_message_frame by done.
  destruct (bool_decide (frame_payload m = []) && _); [done|].
  unfold frame_type, frame_payload, received, empty_reliable in *.
  destruct (delivery_reliable (msg_Delivery m)) eqn:Hr.
  - rewrite Z.eqb_refl, decode_envelope by done. simpl in Hb. by rewrite Hb.
  - destruct Hm as (_ & _ & _ & Hn). rewrite (proj2 (Z.eqb_neq _ _)) by auto. done.
Qed.

Lemma read_message_empty m acc rest :
  message_encodable m = true -> message_ok m -> empty_reliable m = true ->
  read_message acc (message_bytes m ++ rest) = Err ErrEOF.
Proof.
  intros He Hm Hb. rewrite read_message_frame by done. unfold empty_reliable in Hb.
  apply andb_true_iff in Hb as [Hr Hb]. unfold frame_type, frame_payload. rewrite Hr.
  rewrite Z.eqb_refl, decode_envelope, Hb by done. by destruct (_ && _).
Qed.

Lemma zlen_packet_bytes r s a b messages :
  zlen (packet_bytes_with r s a b messages) = wirePacketHeaderSize + zlen (payload_bytes messages).
Proof. unfold packet_bytes_with. zlen. unfold wirePacketHeaderSize. lia. Qed.

Lemma message_bytes_ne m : message_bytes m <> [].
Proof. unfold message_bytes. apply be_bytes_ne. lia. Qed.

Lemma foldl_received messages acc :
  foldl (fun acc m => acc ++ [received m]) acc messages = acc ++ map received messages.
Proof. apply foldl_snoc. Qed.

Lemma decode_packet_bytes r s a b messages :
  in_u32 r -> in_u64 s -> in_u64 a -> in_u64 b ->
  packet_encodable messages = true -> Forall message_ok messages ->
  DecodePacket (packet_bytes_with r s a b messages) =
    if ends_in_empty messages then Err ErrEOF
    else Ok (mkWirePacket WireProtocolVersion s a b (map received messages)).
Proof.
  intros Hr Hs Ha Hb Henc Hok. unfold packet_encodable in Henc. zbool.
  match goal with H : forallb _ _ = true |- _ => apply forallb_elem in H; rename H into Hall end.
  unfold DecodePacket. rewrite zlen_packet_bytes.
  pose proof (zlen_nonneg (payload_bytes messages)) as Hp.
  rewrite (proj2 (Z.ltb_ge _ wirePacketHeaderSize)) by (unfold wirePacketHeaderSize; lia).
  rewrite Z.add_simpl_l. rewrite (proj2 (Z.ltb_ge MaxWirePayloadSize _)) by lia.
  apply decodes_all_run. unfold packet_bytes_with, MaxWirePayloadSize, MaxWireMessagesPerPacket in *.
  eapply decodes_all_bind; [by apply decodes_ignore, decodes_readUint16 | | by left].
  rewrite Z.eqb_refl. cbn [negb].
  eapply decodes_all_bind; [by apply decodes_ignore, decodes_ReadByte | | by left].
  rewrite Z.eqb_refl. cbn [negb].
  eapply decodes_all_bind; [apply decodes_ignore, decodes_ReadByte; unfold in_u; lia | | by left].
  rewrite (proj2 (Z.eqb_neq _ _)), (proj2 (Z.ltb_ge _ _)) by lia. cbn [orb].
  eapply decodes_all_bind; [by apply decodes_readUint32 | | by left].
  eapply decodes_all_bind; [by apply decodes_ignore, decodes_readUint64 | | by left].
  eapply decodes_all_bind; [by apply decodes_ignore, decodes_readUint64 | | by left].
  eapply decodes_all_bind; [by apply decodes_ignore, decodes_readUint64 | | by left].
  eapply decodes_all_bind; [apply decodes_ignore, decodes_readUint32; unfold in_u; lia | | by left].
  rewrite Z.eqb_refl. cbn [negb].
  replace (Z.to_nat (zlen messages)) with (length messages) by (unfold zlen; lia).
  rewrite Forall_forall in Hall, Hok. unfold decodes_all, p_bind at 1.
  rewrite <- (app_nil_r (payload_bytes messages)). unfold payload_bytes.
  rewrite (loop_outcome _ (fun acc m => acc ++ [received m]) messages message_bytes
    (fun m => bool_decide (frame_payload m = [])) empty_reliable).
  - rewrite foldl_received, bool_decide_true, andb_true_r by done. fold (ends_in_empty messages).
    by destruct (ends_in_empty messages).
  - intros. by apply decodes_read_message; auto.
  - intros. by apply read_message_empty; auto.
  - intros. apply message_bytes_ne.
Qed.

(** ** What [DecodePacket] accepts

    Decoding inverted: the fields that were read are the bytes that were there.
    A read that was cut short leaves nothing, and nothing can follow it. *)
Lemma reader_Read_inv n r bs r' :
  reader_Read n r = Ok (bs, r') ->
  (r = bs ++ r' /\ length bs = n) \/ (r' = [] /\ (length r < n)%nat).
Proof.
  unfold reader_Read. destruct r as [|b r0]; [discriminate|]. remember (b :: r0) as r.
  intros [= <- <-]. destruct (le_lt_dec n (length r)) as [H|H].
  - left. replace (n - length r)%nat with 0%nat by lia. rewrite app_nil_r, take_drop.
    split; [done|]. rewrite length_take. lia.
  - right. split; [|done]. apply drop_ge. lia.
Qed.

Lemma readUintN_inv n w r v r' :
  w = 8 * Z.of_nat n -> readUintN n r = Ok (v, r') ->
  (r = be_bytes n v ++ r' /\ in_u w v) \/ (r' = [] /\ (length r < n)%nat).
Proof.
  intros -> H. unfold readUintN in H. apply p_bind_inv in H as (bs & r1 & H & Hr).
  injection Hr as <- <-. unfold p_or in H.
  destruct (reader_Read n r) as [[bs1 r2]|] eqn:E; [|discriminate]. injection H as <- <-.
  apply reader_Read_inv in E as [[-> <-]|[-> ?]]; [left | by right].
  rewrite be_bytes_be_value. split; [done | apply be_value_range].
Qed.

Lemma ReadByte_inv r v r' :
  reader_ReadByte r = Ok (v, r') -> r = [byte_of_Z v] ++ r' /\ in_u8 v.
Proof.
  destruct r as [|b r]; [discriminate|]. intros [= <- <-]. rewrite byte_of_Z_of_byte.
  split; [done | apply Z_of_byte_range].
Qed.

(** What a received message is. *)
Definition message_valid (m : WireMessage) : Prop :=
  message_ok m /\ message_encodable m = true /\ received m = m.

Lemma decodeReliableEnvelope_inv payload m :
  zlen payload <= MaxWireMessagePayloadSize -> decodeReliableEnvelope payload = Ok m ->
  payload = envelope_bytes m /\ delivery_reliable (msg_Delivery m) = true /\ message_valid m.
Proof.
  intros Hlen H. unfold decodeReliableEnvelope, p_run in H. go_inv.
  destruct v as [m' rest]. injection H as <-. rename Hv into H.
  apply p_bind_inv in H as (delivery & r0 & H0 & H). unfold p_or in H0.
  destruct (reader_ReadByte payload) as [[d r0']|] eqn:E0; [|discriminate]. injection H0 as -> ->.
  apply ReadByte_inv in E0 as [-> Hd].
  apply p_bind_inv in H as (u & r1 & H1 & H). destruct (validateDeliveryClass delivery); [|discriminate].
  injection H1 as _ <-.
  destruct (delivery_reliable delivery) eqn:Hr; [|discriminate]. cbn [negb] in H.
  apply p_bind_inv in H as (id & r2 & H2 & H).
  apply (readUintN_inv 8 64) in H2 as [[-> Hid]|[-> _]]; [| |done].
  2:{ by destruct (id =? 0). }
  destruct (Z.eqb_spec id 0) as [|Hid0]; [discriminate|].
  apply p_bind_inv in H as (ty & r3 & H3 & H).
  apply (readUintN_inv 2 16) in H3 as [[-> Hty]|[-> _]]; [|discriminate|done].
  apply p_bind_inv in H as (len & r4 & H4 & H).
  apply (readUintN_inv 4 32) in H4 as [[-> Hl]|[-> _]]; [| |done].
  2:{ destruct (_ <? len) in H; [discriminate|]. unfold p_bind at 1, reader_Len in H. cbn [rbind] in H.
      by destruct (_ <? len) in H. }
  destruct (MaxWireMessagePayloadSize <? len) eqn:Hmax; [discriminate|].
  unfold p_bind at 1, reader_Len in H. cbn [rbind] in H.
  destruct (zlen r4 <? len) eqn:Hrem; [discriminate|].
  apply p_bind_inv in H as (mp & r5 & H5 & H). apply p_end_inv in H as (<- & -> & ->). zbool.
  apply reader_Read_inv in H5 as [[-> Hmp]|[_ Hlt]].
  2:{ unfold zlen, in_u in *. lia. }
  rewrite app_nil_r in *. assert (len = zlen mp) as -> by (unfold zlen, in_u in *; lia).
  split; [done|]. split; [done|]. split_and!; [split_and!; cbn; [done..|congruence] | |].
  - unfold message_encodable. cbn [msg_Delivery msg_DeliveryID msg_Payload]. rewrite Hr.
    rewrite (proj2 (Z.eqb_neq _ _)) by done. zlen. apply Z.leb_le. lia.
  - unfold received. cbn [msg_Delivery]. by rewrite Hr.
Qed.

Lemma p_bind_len_inv {B} (k : Z -> Parser B) r o :
  p_bind reader_Len k r = o -> k (zlen r) r = o.
Proof. done. Qed.

Lemma p_ignore_inv n w r v r' :
  w = 8 * Z.of_nat n -> (0 < n <= length r)%nat -> p_ignore (readUintN n) r = Ok (v, r') ->
  r = be_bytes n v ++ r' /\ in_u w v.
Proof.
  intros Hw Hn H. unfold p_ignore in H.
  destruct (readUintN n r) as [[v1 r1]|e] eqn:E.
  - injection H as -> ->. apply (readUintN_inv n w) in E as [?|[_ ?]]; [done | lia | done].
  - unfold readUintN, p_bind, p_or, reader_Read in E. destruct r; [simpl in Hn; lia | discriminate].
Qed.

Lemma read_message_inv acc r acc' r' :
  read_message acc r = Ok (acc', r') ->
  exists m, acc' = acc ++ [m] /\ r = message_bytes m ++ r' /\ message_valid m.
Proof.
  intros H. unfold read_message in H. apply p_bind_len_inv in H.
  destruct (zlen r <? wireMessageHeaderSize) eqn:E6; [discriminate|].
  zbool. unfold wireMessageHeaderSize, zlen in E6.
  apply p_bind_inv in H as (ty & r1 & H1 & H).
  apply (p_ignore_inv 2 16) in H1 as [-> Hty]; [|done|lia].
  rewrite length_app, length_be_bytes in E6.
  apply p_bind_inv in H as (len & r2 & H2 & H).
  apply (p_ignore_inv 4 32) in H2 as [-> Hlen]; [|done|lia].
  destruct (MaxWireMessagePayloadSize <? len) eqn:Hmax; [discriminate|].
  apply p_bind_len_inv in H. destruct (zlen r2 <? len) eqn:Hrem; [discriminate|]. zbool.
  apply p_bind_inv in H as (payload & r3 & H3 & H).
  apply reader_Read_inv in H3 as [[-> Hp]|[_ Hlt]].
  2:{ unfold zlen, in_u in *. lia. }
  assert (len = zlen payload) as -> by (unfold zlen, in_u in *; lia).
  apply p_bind_inv in H as (m & r4 & H4 & H). injection H as <- <-. cbn [msg_Type] in H4.
  exists m. split; [done|]. destruct (Z.eqb_spec ty WireMessageReliable) as [->|Hne].
  - destruct (decodeReliableEnvelope payload) as [d|] eqn:E; [|discriminate]. injection H4 as <- <-.
    apply decodeReliableEnvelope_inv in E as (-> & Hr & Hv); [|done]. split; [|done].
    unfold message_bytes, frame_type, frame_payload. rewrite Hr. by rewrite <- !app_assoc.
  - injection H4 as <- <-. unfold message_valid, message_bytes, frame_type, frame_payload,
      message_encodable, message_ok, received. cbn [msg_Delivery msg_Type msg_Payload msg_DeliveryID].
    change (delivery_reliable DeliveryUnreliable) with false. cbv iota.
    split; [by rewrite <- !app_assoc|]. split_and!; try done. by apply Z.leb_le.
Qed.

Lemma loop_read_message_inv n acc r acc' r' :
  p_loop n read_message acc r = Ok (acc', r') ->
  exists ms, acc' = acc ++ ms /\ length ms = n /\ r = payload_bytes ms ++ r' /\ Forall message_valid ms.
Proof.
  revert acc r. induction n as [|n IH]; intros acc r H; cbn [p_loop] in H.
  - injection H as <- <-. exists []. by rewrite app_nil_r.
  - apply p_bind_inv in H as (acc1 & r1 & H1 & H).
    apply read_message_inv in H1 as (m & -> & -> & Hm). apply IH in H as (ms & -> & Hl & -> & Hms).
    exists (m :: ms). rewrite <- app_assoc. split_and!; [done | simpl; lia | | by constructor].
    unfold payload_bytes. cbn [map concat]. by rewrite <- app_assoc.
Qed.

Lemma DecodePacket_inv data p :
  DecodePacket data = Ok p ->
  exists reserved, in_u32 reserved /\ in_u64 (pkt_Sequence p) /\ in_u64 (pkt_Ack p) /\
    in_u64 (pkt_AckBits p) /\ pkt_Version p = WireProtocolVersion /\
    Forall message_valid (pkt_Messages p) /\ packet_encodable (pkt_Messages p) = true /\
    data = packet_bytes_with reserved (pkt_Sequence p) (pkt_Ack p) (pkt_AckBits p) (pkt_Messages p).
Proof.
  intros H. unfold DecodePacket in H.
  destruct (zlen data <? wirePacketHeaderSize) eqn:E36; [discriminate|].
  destruct (MaxWirePayloadSize <? _) eqn:Emax; [discriminate|]. zbool.
  unfold p_run in H. go_inv. destruct v as [p' rest]. injection H as <-. rename Hv into H.
  set (total := zlen data) in *. assert (total = zlen data) as Htotal by done. clearbody total.
  unfold zlen in Htotal. unfold wirePacketHeaderSize in *.
  apply p_bind_inv in H as (magic & r1 & H1 & H).
  apply (p_ignore_inv 2 16) in H1 as [-> _]; [|done|lia].
  destruct (Z.eqb_spec magic WireProtocolMagic) as [->|]; [|discriminate]. cbn [negb] in H.
  rewrite length_app, length_be_bytes in Htotal.
  apply p_bind_inv in H as (version & r2 & H2 & H). unfold p_ignore in H2.
  destruct r1 as [|b1 r1]; [simpl in Htotal; lia|]. injection H2 as <- <-.
  destruct (Z.eqb_spec (Z_of_byte b1) WireProtocolVersion) as [Hb1|]; [|discriminate]. cbn [negb] in H.
  apply p_bind_inv in H as (count & r3 & H3 & H). unfold p_ignore in H3.
  destruct r1 as [|b2 r1]; [simpl in Htotal; lia|]. injection H3 as <- <-. cbn [length] in Htotal.
  destruct (_ || _) eqn:Ecount in H; [discriminate|]. zbool.
  apply p_bind_inv in H as (reserved & r4 & H4 & H).
  apply (readUintN_inv 4 32) in H4 as [[-> Hres]|[_ ?]]; [|lia|done].
  rewrite length_app, length_be_bytes in Htotal.
  apply p_bind_inv in H as (seq & r5 & H5 & H).
  apply (p_ignore_inv 8 64) in H5 as [-> Hseq]; [|done|lia]. rewrite length_app, length_be_bytes in Htotal.
  apply p_bind_inv in H as (ack & r6 & H6 & H).
  apply (p_ignore_inv 8 64) in H6 as [-> Hack]; [|done|lia]. rewrite length_app, length_be_bytes in Htotal.
  apply p_bind_inv in H as (bits & r7 & H7 & H).
  apply (p_ignore_inv 8 64) in H7 as [-> Hbits]; [|done|lia]. rewrite length_app, length_be_bytes in Htotal.
  apply p_bind_inv in H as (plen & r8 & H8 & H).
  apply (p_ignore_inv 4 32) in H8 as [-> Hplen]; [|done|lia]. rewrite length_app, length_be_bytes in Htotal.
  destruct (Z.eqb_spec plen (total - 36)) as [Eplen|]; [|discriminate]. cbn [negb] in H.
  apply p_bind_inv in H as (ms & r9 & H9 & H). apply p_end_inv in H as (<- & -> & _).
  apply loop_read_message_inv in H9 as (ms' & -> & Hcount & -> & Hms).
  rewrite app_nil_r in *. simpl in *.
  assert (Z_of_byte b2 = zlen ms') as Hb2 by (unfold zlen; pose proof (Z_of_byte_range b2); lia).
  exists reserved. split_and!; try done.
  - unfold packet_encodable. rewrite !andb_true_iff, Z.ltb_lt, !Z.leb_le, forallb_elem.
    pose proof (Z_of_byte_range b2). unfold zlen at 3.
    split_and!; [lia | lia | eapply Forall_impl; [exact Hms|]; by intros ? (_ & ? & _) | lia].
  - unfold packet_bytes_with. rewrite <- Hb1, <- Hb2, !byte_of_Z_of_byte.
    replace (zlen (payload_bytes ms')) with plen by (unfold zlen; lia). done.
Qed.

(** ** Reading acknowledgements *)
Lemma packetSequenceAcked_spec ack ackBits sequence :
  in_u64 ack -> in_u64 sequence ->
  packetSequenceAcked ack ackBits sequence = true <->
  sequence <> 0 /\ ack <> 0 /\
  (sequence = ack \/
   (1 <= ack - sequence <= 64 /\ Z.testbit ackBits (ack - sequence - 1) = true)).
Proof.
  intros Ha Hs. unfold packetSequenceAcked.
  destruct (Z.eqb_spec sequence 0); [simpl; split; [discriminate | lia]|].
  destruct (Z.eqb_spec ack 0); [simpl; split; [discriminate | lia]|]. cbn [orb].
  destruct (Z.eqb_spec sequence ack) as [|Hne]; [split; auto|].
  destruct (Z.ltb_spec ack sequence); [split; [discriminate | lia]|].
  unfold u64_sub at 1 2. rewrite !(wrap_small 64 (ack - sequence)) by (unfold in_u in *; lia).
  rewrite (proj2 (Z.eqb_neq (ack - sequence) 0)) by lia. cbn [orb].
  destruct (Z.ltb_spec 64 (ack - sequence)) as [Hlt|Hle]; [split; [discriminate | lia]|].
  unfold u64_sub. rewrite (wrap_small 64 (ack - sequence)) by (unfold in_u in *; lia).
  rewrite (wrap_small 64 (ack - sequence - 1)) by (unfold in_u in *; lia).
  set (k := ack - sequence - 1). assert (0 <= k < 64) as Hk by lia.
  rewrite Z.shiftl_1_l, wrap_small by (split; [lia | apply Z.pow_lt_mono_r; lia]).
  rewrite negb_true_iff, Z.eqb_neq.
  assert (Z.land ackBits (2 ^ k) <> 0 <-> Z.testbit ackBits k = true) as ->.
  { rewrite land_pow2 by lia. destruct (Z.testbit ackBits k); split; try done.
    intros _. apply Z.pow_nonzero; lia. }
  split; [intros; split_and!; auto; right; split; [lia | done] | intros (_ & _ & [|[_ ?]]); done].
Qed.

(** ** Properties *)

(** [EncodePacketWithAcks] succeeds exactly on one to 32 messages that each
    fit a frame (48 KiB, the 15 bytes of a reliable envelope included, a valid
    delivery class, a non-zero id when reliable) and together fit the 60 KiB
    payload; the packet it builds is then exactly the documented layout, and its
    size never exceeds what one UDP datagram can carry. *)
Theorem EncodePacketWithAcks_exact sequence ack ackBits messages bs :
  EncodePacketWithAcks sequence ack ackBits messages = Ok bs <->
  packet_encodable messages = true /\ bs = packet_bytes sequence ack ackBits messages /\
  wirePacketHeaderSize <= zlen bs <= wirePacketHeaderSize + MaxWirePayloadSize /\
  zlen bs <= 65507.
Proof.
  split.
  - intros [He ->]%EncodePacketWithAcks_inv. split; [done|]. split; [done|].
    unfold packet_bytes. rewrite zlen_packet_bytes. unfold packet_encodable in He. zbool.
    pose proof (zlen_nonneg (payload_bytes messages)).
    unfold wirePacketHeaderSize, MaxWirePayloadSize in *. lia.
  - intros (He & -> & _). pose proof (EncodePacketWithAcks_spec sequence ack ackBits messages) as Hs.
    by rewrite He in Hs.
Qed.

Definition packet_example : list WireMessage :=
  [mkWireMessage 3 (be_bytes 8 7) DeliveryUnreliable 0;
   mkWireMessage 0x1000 [x01; x02] DeliveryReliableOrdered 9].

(** C20: decoding an encoded packet gives back the sequence, the acknowledgement
    state and every message in order, with its type, payload, delivery class and
    (when reliable) id.  The exceptions are the empty payloads that a read at the
    end of the input cannot produce: a reliable message with an empty payload
    anywhere, or an unreliable one in the last place, fails with [io.EOF]. *)
Theorem decode_encode_packet sequence ack ackBits messages bs :
  in_u64 sequence -> in_u64 ack -> in_u64 ackBits -> Forall message_ok messages ->
  EncodePacketWithAcks sequence ack ackBits messages = Ok bs ->
  DecodePacket bs =
    if ends_in_empty messages then Err ErrEOF
    else Ok (mkWirePacket WireProtocolVersion sequence ack ackBits (map received messages)).
Proof.
  intros Hs Ha Hb Hm [He ->]%EncodePacketWithAcks_inv.
  apply decode_packet_bytes; try done.
Qed.

Lemma decode_encode_packet_witness :
  EncodePacketWithAcks 5 4 3 packet_example = Ok (packet_bytes 5 4 3 packet_example) /\
  DecodePacket (packet_bytes 5 4 3 packet_example) = Ok (mkWirePacket 1 5 4 3 packet_example).
Proof.
  split; [vm_compute; reflexivity|]. etransitivity.
  - apply (decode_encode_packet 5 4 3 packet_example); try (unfold in_u; lia).
    + repeat constructor; cbn; try (unfold in_u; lia); discriminate.
    + vm_compute. reflexivity.
  - vm_compute. reflexivity.
Defined.

(** C21: a packet is accepted in one form only.  Whatever [DecodePacket] accepts
    is what [EncodePacketWithAcks] builds from the decoded packet, apart from the
    four reserved bytes that the decoder skips; in particular no accepted packet
    is truncated, over-long or carries trailing bytes. *)
Theorem encode_decode_packet data p :
  DecodePacket data = Ok p ->
  exists reserved, in_u32 reserved /\
    data = packet_bytes_with reserved (pkt_Sequence p) (pkt_Ack p) (pkt_AckBits p) (pkt_Messages p) /\
    EncodePacketWithAcks (pkt_Sequence p) (pkt_Ack p) (pkt_AckBits p) (pkt_Messages p) =
      Ok (packet_bytes (pkt_Sequence p) (pkt_Ack p) (pkt_AckBits p) (pkt_Messages p)).
Proof.
  intros (reserved & Hr & _ & _ & _ & _ & _ & He & ->)%DecodePacket_inv. exists reserved.
  split_and!; [done..|].
  pose proof (EncodePacketWithAcks_spec (pkt_Sequence p) (pkt_Ack p) (pkt_AckBits p)
    (pkt_Messages p)) as Hs. by rewrite He in Hs.
Qed.

Lemma encode_decode_packet_witness :
  exists reserved, in_u32 reserved /\
    packet_bytes_with 77 5 4 3 packet_example = packet_bytes_with reserved 5 4 3 packet_example /\
    EncodePacketWithAcks 5 4 3 packet_example = Ok (packet_bytes 5 4 3 packet_example).
Proof.
  apply (encode_decode_packet (packet_bytes_with 77 5 4 3 packet_example)
    (mkWirePacket 1 5 4 3 packet_example)).
  vm_compute. reflexivity.
Defined.

(** The messages of an accepted packet are well-formed: between one and 32
    of them, no reserved delivery class, a reliable one has a non-zero 64-bit id
    and an unreliable one has id zero and is not of the envelope's type, and no
    payload exceeds the 48 KiB limit. *)
Theorem DecodePacket_messages data p :
  DecodePacket data = Ok p ->
  1 <= zlen (pkt_Messages p) <= MaxWireMessagesPerPacket /\
  Forall (fun m =>
    in_u16 (msg_Type m) /\ in_u64 (msg_DeliveryID m) /\
    zlen (msg_Payload m) <= MaxWireMessagePayloadSize /\
    if delivery_reliable (msg_Delivery m) then msg_DeliveryID m <> 0
    else msg_Delivery m = DeliveryUnreliable /\ msg_DeliveryID m = 0 /\
         msg_Type m <> WireMessageReliable) (pkt_Messages p).
Proof.
  intros (reserved & _ & _ & _ & _ & _ & Hms & He & _)%DecodePacket_inv.
  unfold packet_encodable in He. zbool. split; [lia|]. eapply Forall_impl; [exact Hms|].
  intros m ((Ht & _ & Hi & Hn) & He & Hc). unfold message_encodable, received in *.
  destruct (delivery_reliable (msg_Delivery m)) eqn:Hr; zbool; split_and!; try done; try lia.
  by rewrite <- Hc.
Qed.

Lemma DecodePacket_messages_witness :
  1 <= zlen packet_example <= MaxWireMessagesPerPacket.
Proof.
  refine (proj1 (DecodePacket_messages (packet_bytes 5 4 3 packet_example)
    (mkWirePacket 1 5 4 3 packet_example) _)).
  vm_compute. reflexivity.
Defined.

(** Acknowledgement bits mean what the protocol says: sequence [s] is
    acknowledged by [(ack, ackBits)] exactly when both are non-zero and [s] is
    [ack] itself, or one of the 64 sequences before it with bit [ack - s - 1]
    set. *)
Theorem packetSequenceAcked_exact ack ackBits sequence :
  in_u64 ack -> in_u64 sequence ->
  packetSequenceAcked ack ackBits sequence = true <->
  sequence <> 0 /\ ack <> 0 /\
  (sequence = ack \/
   (1 <= ack - sequence <= 64 /\ Z.testbit ackBits (ack - sequence - 1) = true)).
Proof. apply packetSequenceAcked_spec. Qed.

Lemma packetSequenceAcked_exact_witness :
  packetSequenceAcked 10 5 7 = true /\ packetSequenceAcked 10 5 8 = false.
Proof.
  split; [|vm_compute; reflexivity].
  apply packetSequenceAcked_exact; [unfold in_u; lia.. |].
  split_and!; [lia | lia | right; split; [lia | reflexivity]].
Defined.

(** A legacy JSON datagram is never taken for a wire packet and a wire packet
    always is one: [isWirePacket] is the test for the two magic bytes that every
    packet accepted by [DecodePacket] starts with. *)
Theorem isWirePacket_exact data :
  (isWirePacket data = true <-> exists rest, data = be_bytes 2 WireProtocolMagic ++ rest) /\
  (is_ok (DecodePacket data) = true -> isWirePacket data = true).
Proof.
  assert (isWirePacket data = true <-> exists rest, data = be_bytes 2 WireProtocolMagic ++ rest) as H.
  { change (be_bytes 2 WireProtocolMagic) with [x45; x53]. split.
    - destruct data as [|b0 [|b1 data]]; try discriminate. simpl. intros [H0 H1]%andb_true_iff.
      zbool. exists data. f_equal; [|f_equal]; rewrite <- byte_of_Z_of_byte at 1;
        [by rewrite H0 | by rewrite H1].
    - by intros [rest ->]. }
  split; [done|]. destruct (DecodePacket data) as [p|] eqn:E; [|discriminate]. intros _.
  apply H. apply DecodePacket_inv in E as (r & _ & _ & _ & _ & _ & _ & _ & ->). by eexists.
Qed.

Lemma isWirePacket_exact_witness : isWirePacket (packet_bytes 5 4 3 packet_example) = true.
Proof.
  apply (isWirePacket_exact (packet_bytes 5 4 3 packet_example)). vm_compute. reflexivity.
Defined.
