(* ===== verification/Config.v ===== *)
(** * Configuration and handshake negotiation

    [network/protocol.go] lines 9-184: [Config], its defaults and
    [Normalized], the rates derived from it and [NegotiateClientHello].
    Durations are nanoseconds; Go's [int] is 64 bits wide. *)
From S2P Require Import Prelude Buffer Values Messages Packet.

(** ** Constants *)
Definition Second : Z := 1000000000.
Definition Millisecond : Z := 1000000.

Definition defaultTickRate : Z := 128.
Definition defaultSnapshotRate : Z := 20.
Definition defaultClientTimeout : Z := 5 * Second.
Definition defaultDebugAddress : string := ":9100".
Definition defaultMaxUDPPacketSize : Z := 1200.
Definition defaultFullSnapshotInterval : Z := 64.
Definition defaultMaxInputFutureTicks : Z := 8.
Definition defaultMaxInputPastTicks : Z := 2.
Definition defaultInputBufferLimit : Z := 256.
Definition maxUDPPacketSize : Z := 65507.

(** reliability.go *)
Definition defaultReliableRetryInterval : Z := 100 * Millisecond.
Definition defaultReliableMaxAttempts : Z := 5.
Definition defaultReliableQueueLimit : Z := 64.

Definition OutboundPriority := Z.
Definition OutboundPriorityLow : OutboundPriority := -100.
Definition OutboundPriorityNormal : OutboundPriority := 0.
Definition OutboundPriorityHigh : OutboundPriority := 100.
Definition OutboundPriorityEssential : OutboundPriority := 1000.

Record Config := mkConfig {
  UDPAddress : string;
  TickRate : Z;
  SnapshotRate : Z;
  EnableDeltaSnapshots : bool;
  SupportedWireCapabilities : Z;
  FullSnapshotInterval : Z;
  ClientTimeout : Z;
  MaxClients : Z;
  MaxUDPPacketSize : Z;
  EnableBandwidthBudget : bool;
  ClientBytesPerSecond : Z;
  DefaultSnapshotPriority : OutboundPriority;
  ReliableRetryInterval : Z;
  ReliableMaxAttempts : Z;
  ReliableQueueLimit : Z;
  MaxInputFutureTicks : Z;
  MaxInputPastTicks : Z;
  InputBufferLimit : Z;
  DebugEnabled : bool;
  DebugAddress : string
}.

Definition DefaultConfig : Config := {|
  UDPAddress := ":9000";
  TickRate := defaultTickRate;
  SnapshotRate := defaultSnapshotRate;
  EnableDeltaSnapshots := false;
  SupportedWireCapabilities := 0;
  FullSnapshotInterval := defaultFullSnapshotInterval;
  ClientTimeout := defaultClientTimeout;
  MaxClients := 0;
  MaxUDPPacketSize := defaultMaxUDPPacketSize;
  EnableBandwidthBudget := false;
  ClientBytesPerSecond := 0;
  DefaultSnapshotPriority := OutboundPriorityNormal;
  ReliableRetryInterval := defaultReliableRetryInterval;
  ReliableMaxAttempts := defaultReliableMaxAttempts;
  ReliableQueueLimit := defaultReliableQueueLimit;
  MaxInputFutureTicks := defaultMaxInputFutureTicks;
  MaxInputPastTicks := defaultMaxInputPastTicks;
  InputBufferLimit := defaultInputBufferLimit;
  DebugEnabled := false;
  DebugAddress := defaultDebugAddress
|}.

(** [if value <= 0 { value = fallback }]. *)
Definition or_default (value fallback : Z) : Z := if value <=? 0 then fallback else value.
Definition or_default_string (value fallback : string) : string :=
  if decide (value = ""%string) then fallback else value.

(** [Config.Normalized]. *)
Definition Normalized (config : Config) : Config :=
  let defaults := DefaultConfig in
  let tickRate := or_default (TickRate config) (TickRate defaults) in
  let snapshotRate := or_default (SnapshotRate config) (SnapshotRate defaults) in
  let snapshotRate := if tickRate <? snapshotRate then tickRate else snapshotRate in
  let capabilities :=
    if SupportedWireCapabilities config =? 0 then DefaultWireCapabilities
    else SupportedWireCapabilities config in
  let capabilities :=
    if negb (EnableDeltaSnapshots config)
    then Z.ldiff capabilities WireCapabilityDeltaSnapshots else capabilities in
  let packetSize := or_default (MaxUDPPacketSize config) (MaxUDPPacketSize defaults) in
  let packetSize := if maxUDPPacketSize <? packetSize then maxUDPPacketSize else packetSize in
  let bandwidthBudget :=
    if EnableBandwidthBudget config && (ClientBytesPerSecond config <=? 0) then false
    else EnableBandwidthBudget config in
  {|
    UDPAddress := or_default_string (UDPAddress config) (UDPAddress defaults);
    TickRate := tickRate;
    SnapshotRate := snapshotRate;
    EnableDeltaSnapshots := EnableDeltaSnapshots config;
    SupportedWireCapabilities := capabilities;
    FullSnapshotInterval :=
      or_default (FullSnapshotInterval config) (FullSnapshotInterval defaults);
    ClientTimeout := or_default (ClientTimeout config) (ClientTimeout defaults);
    MaxClients := MaxClients config;
    MaxUDPPacketSize := packetSize;
    EnableBandwidthBudget := bandwidthBudget;
    ClientBytesPerSecond := ClientBytesPerSecond config;
    DefaultSnapshotPriority := DefaultSnapshotPriority config;
    ReliableRetryInterval :=
      or_default (ReliableRetryInterval config) (ReliableRetryInterval defaults);
    ReliableMaxAttempts := or_default (ReliableMaxAttempts config) (ReliableMaxAttempts defaults);
    ReliableQueueLimit := or_default (ReliableQueueLimit config) (ReliableQueueLimit defaults);
    MaxInputFutureTicks :=
      if MaxInputFutureTicks config =? 0 then MaxInputFutureTicks defaults
      else MaxInputFutureTicks config;
    MaxInputPastTicks :=
      if MaxInputPastTicks config =? 0 then MaxInputPastTicks defaults
      else MaxInputPastTicks config;
    InputBufferLimit := or_default (InputBufferLimit config) (InputBufferLimit defaults);
    DebugEnabled := DebugEnabled config;
    DebugAddress := or_default_string (DebugAddress config) (DebugAddress defaults)
  |}.

Definition empty_welcome : Welcome := mkWelcome "" "" 0 0 0.

(** [NegotiateClientHello]. *)
Definition NegotiateClientHello (config : Config) (hello : ClientHello) : result Welcome :=
  let config := Normalized config in
  let protocolVersion :=
    if hello_ProtocolVersion hello =? 0 then WireProtocolVersion else hello_ProtocolVersion hello in
  if negb (protocolVersion =? WireProtocolVersion) then Err ErrUnsupportedWireVersion
  else
    let requestedNegotiation :=
      negb (hello_ProtocolVersion hello =? 0) || negb (hello_Capabilities hello =? 0) ||
      negb (hello_MaxPacketSize hello =? 0) in
    if negb requestedNegotiation then Ok empty_welcome
    else
      let maxPacketSize :=
        if (0 <? hello_MaxPacketSize hello) && (hello_MaxPacketSize hello <? MaxUDPPacketSize config)
        then hello_MaxPacketSize hello else wrap 32 (MaxUDPPacketSize config) in
      Ok (mkWelcome "" "" protocolVersion
            (Z.land (hello_Capabilities hello) (SupportedWireCapabilities config)) maxPacketSize).

(** [Config.TickInterval], [Config.SnapshotEvery], [Config.FullSnapshotEvery]. *)
Definition TickInterval (config : Config) : Z := Z.quot Second (TickRate (Normalized config)).

Definition SnapshotEvery (config : Config) : Z :=
  let config := Normalized config in
  let every := Z.quot (TickRate config) (SnapshotRate config) in
  if every <=? 0 then 1 else wrap 64 every.

Definition FullSnapshotEvery (config : Config) : Z :=
  wrap 64 (FullSnapshotInterval (Normalized config)).

(** ** What a normalized configuration guarantees *)
Record config_valid (c : Config) : Prop := {
  cv_tick : 0 < TickRate c;
  cv_snapshot : 0 < SnapshotRate c <= TickRate c;
  cv_full : 0 < FullSnapshotInterval c;
  cv_delta : EnableDeltaSnapshots c = false -> Z.testbit (SupportedWireCapabilities c) 0 = false;
  cv_timeout : 0 < ClientTimeout c;
  cv_packet : 0 < MaxUDPPacketSize c <= maxUDPPacketSize;
  cv_budget : EnableBandwidthBudget c = true -> 0 < ClientBytesPerSecond c;
  cv_retry : 0 < ReliableRetryInterval c;
  cv_attempts : 0 < ReliableMaxAttempts c;
  cv_queue : 0 < ReliableQueueLimit c;
  cv_future : MaxInputFutureTicks c <> 0;
  cv_past : MaxInputPastTicks c <> 0;
  cv_inputs : 0 < InputBufferLimit c;
  cv_addresses : UDPAddress c <> ""%string /\ DebugAddress c <> ""%string
}.

Lemma or_default_pos v d : 0 < d -> 0 < or_default v d.
Proof. unfold or_default. destruct (Z.leb_spec v 0); lia. Qed.

Lemma or_default_id v d : 0 < v -> or_default v d = v.
Proof. unfold or_default. destruct (Z.leb_spec v 0); lia. Qed.

Lemma or_default_string_ne v d : d <> ""%string -> or_default_string v d <> ""%string.
Proof. unfold or_default_string. by destruct (decide (v = ""%string)). Qed.

Lemma or_default_string_id v d : v <> ""%string -> or_default_string v d = v.
Proof. intros. unfold or_default_string. by rewrite decide_False. Qed.

Lemma Normalized_config_valid c : config_valid (Normalized c).
Proof.
  pose proof (or_default_pos (TickRate c) (TickRate DefaultConfig) eq_refl) as Ht.
  pose proof (or_default_pos (SnapshotRate c) (SnapshotRate DefaultConfig) eq_refl) as Hs.
  pose proof (or_default_pos (MaxUDPPacketSize c) (MaxUDPPacketSize DefaultConfig) eq_refl) as Hp.
  split; cbn [Normalized TickRate SnapshotRate FullSnapshotInterval EnableDeltaSnapshots
    SupportedWireCapabilities ClientTimeout MaxUDPPacketSize EnableBandwidthBudget
    ClientBytesPerSecond ReliableRetryInterval ReliableMaxAttempts ReliableQueueLimit
    MaxInputFutureTicks MaxInputPastTicks InputBufferLimit UDPAddress DebugAddress];
    try (by apply or_default_pos).
  - destruct (Z.ltb_spec (or_default (TickRate c) (TickRate DefaultConfig))
      (or_default (SnapshotRate c) (SnapshotRate DefaultConfig))); lia.
  - intros ->. simpl negb. cbv iota. rewrite Z.ldiff_spec. simpl. apply andb_false_r.
  - destruct (Z.ltb_spec maxUDPPacketSize
      (or_default (MaxUDPPacketSize c) (MaxUDPPacketSize DefaultConfig))); [done | lia].
  - destruct (EnableBandwidthBudget c); simpl; [|discriminate].
    destruct (Z.leb_spec (ClientBytesPerSecond c) 0); simpl; [discriminate | done].
  - destruct (Z.eqb_spec (MaxInputFutureTicks c) 0); [vm_compute; discriminate | done].
  - destruct (Z.eqb_spec (MaxInputPastTicks c) 0); [vm_compute; discriminate | done].
  - split; by apply or_default_string_ne.
Qed.

(** A valid configuration is left alone, but for capabilities of zero. *)
Lemma Normalized_id c :
  config_valid c -> SupportedWireCapabilities c <> 0 -> Normalized c = c.
Proof.
  intros [] Hcap. unfold Normalized.
  rewrite !or_default_id, !or_default_string_id by (lia || tauto).
  rewrite (proj2 (Z.ltb_ge (TickRate c) (SnapshotRate c))) by lia.
  rewrite (proj2 (Z.ltb_ge maxUDPPacketSize (MaxUDPPacketSize c))) by lia.
  rewrite (proj2 (Z.eqb_neq (SupportedWireCapabilities c) 0)) by done.
  rewrite (proj2 (Z.eqb_neq (MaxInputFutureTicks c) 0)) by done.
  rewrite (proj2 (Z.eqb_neq (MaxInputPastTicks c) 0)) by done.
  assert ((if EnableBandwidthBudget c && (ClientBytesPerSecond c <=? 0) then false
           else EnableBandwidthBudget c) = EnableBandwidthBudget c) as ->.
  { destruct (EnableBandwidthBudget c); [|done]. simpl. rewrite (proj2 (Z.leb_gt _ _)); auto. }
  assert ((if negb (EnableDeltaSnapshots c)
           then Z.ldiff (SupportedWireCapabilities c) WireCapabilityDeltaSnapshots
           else SupportedWireCapabilities c) = SupportedWireCapabilities c) as ->.
  { destruct (EnableDeltaSnapshots c) eqn:E; simpl; [done|].
    apply Z.bits_inj'. intros n Hn. rewrite Z.ldiff_spec.
    destruct (Z.eq_dec n 0) as [->|]; [by rewrite cv_delta0|].
    change WireCapabilityDeltaSnapshots with 1.
    rewrite (Z.bits_above_log2 1 n) by (simpl; lia). by rewrite andb_true_r. }
  by destruct c.
Qed.

(** ** Properties *)

(** Whatever the configuration, [Normalized] returns one with positive rates,
    limits and timeouts, a snapshot rate no higher than the tick rate, a packet
    size within one IPv4 UDP datagram, delta snapshots not advertised unless
    enabled, a bandwidth budget only with a positive rate, and non-empty
    addresses. *)
Theorem Normalized_valid config : config_valid (Normalized config).
Proof. apply Normalized_config_valid. Qed.

(** Normalizing twice is normalizing once, except when the capabilities that
    remain after dropping delta snapshots are none: a second [Normalized] takes
    the zero for "not configured" and turns on the reliable capabilities that
    the operator had left out.  The server does normalize twice: in [NewServer]
    and [NewRuntime], and again in [NegotiateClientHello]. *)
Theorem Normalized_idempotent_iff config :
  Normalized (Normalized config) = Normalized config <->
  SupportedWireCapabilities (Normalized config) <> 0.
Proof.
  split.
  - intros H E. apply (f_equal SupportedWireCapabilities) in H. rewrite E in H.
    unfold Normalized at 1 in H. cbn [SupportedWireCapabilities EnableDeltaSnapshots] in H.
    rewrite E in H. simpl Z.eqb in H. cbv iota in H.
    by destruct (negb (EnableDeltaSnapshots (Normalized config))).
  - intros H. apply Normalized_id; [apply Normalized_config_valid | done].
Qed.

(** The operator asks for delta snapshots only and leaves them disabled. *)
Definition delta_only_config : Config :=
  mkConfig "" 0 0 false WireCapabilityDeltaSnapshots 0 0 0 0 false 0 0 0 0 0 0 0 0 false "".

Example Normalized_not_idempotent :
  SupportedWireCapabilities (Normalized delta_only_config) = 0 /\
  SupportedWireCapabilities (Normalized (Normalized delta_only_config)) = 6.
Proof. split; reflexivity. Qed.

(** The outcome of a handshake.  Any protocol version other than ours (or
    zero, for a client that does not say) is refused; a hello without a
    negotiation block gets the empty welcome; otherwise the welcome carries our
    version, exactly the capabilities that both sides have, and a packet size
    that is positive, within our limit, and within the client's when it named
    one. *)
Theorem NegotiateClientHello_exact config hello :
  hello_typed (hello_ProtocolVersion hello) (hello_Capabilities hello) (hello_MaxPacketSize hello) ->
  let v := hello_ProtocolVersion hello in
  match NegotiateClientHello config hello with
  | Err e => e = ErrUnsupportedWireVersion /\ v <> 0 /\ v <> WireProtocolVersion
  | Ok w =>
      (v = 0 \/ v = WireProtocolVersion) /\
      if negotiated v (hello_Capabilities hello) (hello_MaxPacketSize hello) then
        welcome_ProtocolVersion w = WireProtocolVersion /\
        (forall bit, Z.testbit (welcome_Capabilities w) bit =
           Z.testbit (hello_Capabilities hello) bit &&
           Z.testbit (SupportedWireCapabilities (Normalized config)) bit) /\
        0 < welcome_MaxPacketSize w <= MaxUDPPacketSize (Normalized config) /\
        (0 < hello_MaxPacketSize hello -> welcome_MaxPacketSize w <= hello_MaxPacketSize hello)
      else w = empty_welcome
  end.
Proof.
  intros (Hv & Hc & Hm) v. subst v. unfold NegotiateClientHello.
  destruct (Normalized_config_valid config) as [_ _ _ _ _ Hp _ _ _ _ _ _ _ _].
  unfold maxUDPPacketSize in Hp.
  set (limit := MaxUDPPacketSize (Normalized config)) in *.
  fold (negotiated (hello_ProtocolVersion hello) (hello_Capabilities hello) (hello_MaxPacketSize hello)).
  assert (forall v', v' = hello_ProtocolVersion hello ->
    ((if v' =? 0 then WireProtocolVersion else v') =? WireProtocolVersion) = true <->
    v' = 0 \/ v' = WireProtocolVersion) as Hver.
  { intros v' _. destruct (Z.eqb_spec v' 0) as [->|].
    - rewrite Z.eqb_refl. tauto.
    - rewrite Z.eqb_eq. tauto. }
  specialize (Hver _ eq_refl).
  destruct (_ =? WireProtocolVersion) eqn:E; cbn [negb].
  2:{ split; [done|]. destruct Hver as [_ Hver].
      split; intros ?; (assert (false = true) by (apply Hver; tauto)); done. }
  apply Z.eqb_eq in E. rewrite E. destruct (negotiated _ _ _); cbn [negb]; (split; [by apply Hver|]); [|done].
  split; [done|]. split; [intros bit; apply Z.land_spec|]. cbn [welcome_MaxPacketSize].
  rewrite wrap_small by (unfold in_u; lia).
  destruct (Z.ltb_spec 0 (hello_MaxPacketSize hello)), (Z.ltb_spec (hello_MaxPacketSize hello) limit);
    cbn [andb]; lia.
Qed.

Lemma NegotiateClientHello_exact_witness :
  NegotiateClientHello DefaultConfig (mkClientHello "" "" 1 7 600) = Ok (mkWelcome "" "" 1 6 600) /\
  0 < 600 <= MaxUDPPacketSize (Normalized DefaultConfig).
Proof.
  assert (NegotiateClientHello DefaultConfig (mkClientHello "" "" 1 7 600) =
    Ok (mkWelcome "" "" 1 6 600)) as E by reflexivity.
  split; [exact E|].
  pose proof (NegotiateClientHello_exact DefaultConfig (mkClientHello "" "" 1 7 600)) as H.
  cbv zeta in H. rewrite E in H. apply H. split_and!; (split; [discriminate | reflexivity]).
Defined.

(** The number of ticks between snapshots is positive and is the largest for
    which snapshots are at least as frequent as configured. *)
Theorem SnapshotEvery_bounds config :
  in_i64 (TickRate config) ->
  1 <= SnapshotEvery config /\
  SnapshotEvery config * SnapshotRate (Normalized config) <= TickRate (Normalized config) <
    (SnapshotEvery config + 1) * SnapshotRate (Normalized config).
Proof.
  intros Hr. destruct (Normalized_config_valid config) as [Ht [Hs Hst] _ _ _ _ _ _ _ _ _ _ _ _].
  assert (TickRate (Normalized config) < 2 ^ 63) as Hmax.
  { cbn [Normalized TickRate]. change (TickRate DefaultConfig) with 128.
    unfold or_default, in_i64 in *. destruct (_ <=? 0); lia. }
  unfold SnapshotEvery. set (t := TickRate (Normalized config)) in *.
  set (s := SnapshotRate (Normalized config)) in *. rewrite Z.quot_div_nonneg by lia.
  pose proof (Z.div_mod t s ltac:(lia)). pose proof (Z.mod_pos_bound t s ltac:(lia)).
  assert (1 <= t / s) by (apply Z.div_le_lower_bound; lia).
  assert (t / s <= t) by (apply Z.div_le_upper_bound; nia).
  rewrite (proj2 (Z.leb_gt _ _)) by lia. rewrite wrap_small by (unfold in_u; lia). nia.
Qed.

Lemma SnapshotEvery_bounds_witness : SnapshotEvery DefaultConfig = 6 /\ 1 <= SnapshotEvery DefaultConfig.
Proof.
  split; [vm_compute; reflexivity|]. apply (SnapshotEvery_bounds DefaultConfig).
  unfold in_i64. split; [discriminate | reflexivity].
Defined.

Lemma FullSnapshotEvery_bounds config :
  in_i64 (FullSnapshotInterval config) -> 1 <= FullSnapshotEvery config < 2 ^ 63.
Proof.
  unfold FullSnapshotEvery, in_i64. cbn [Normalized FullSnapshotInterval].
  change (FullSnapshotInterval DefaultConfig) with 64. unfold or_default. intros H.
  destruct (Z.leb_spec (FullSnapshotInterval config) 0);
    (rewrite wrap_small; [lia | unfold in_u; lia]).
Qed.

(** A normalized tick rate is unbounded above, and the tick interval is the
    integer quotient: it is a positive duration exactly for tick rates up to a
    thousand million per second.  Above that the interval is zero, and
    [time.NewTicker] panics on it. *)
Theorem TickInterval_positive_iff config :
  0 < TickInterval config <-> TickRate (Normalized config) <= Second.
Proof.
  destruct (Normalized_config_valid config) as [Ht _ _ _ _ _ _ _ _ _ _ _ _ _].
  unfold TickInterval. rewrite Z.quot_div_nonneg by (unfold Second; lia).
  split; intros H.
  - destruct (Z.le_gt_cases (TickRate (Normalized config)) Second) as [|Hgt]; [done|].
    rewrite Z.div_small in H by (unfold Second in *; lia). lia.
  - apply Z.lt_le_trans with 1; [lia|]. apply Z.div_le_lower_bound; lia.
Qed.
