(* ===== verification/Keys.v ===== *)
(** * Keys: identifiers normalized by trimming

    [normalizeObjectKey] of [network/runtime.go] is [strings.TrimSpace]: the
    Unicode white space around an identifier is dropped.  [trim_left] and
    [trim_right] work on the UTF-8 bytes; white space outside ASCII is two or
    three bytes long, and the encodings are listed by [space2] and [space3]. *)
From S2P Require Import Prelude.

(** U+0009 .. U+000D and U+0020. *)
Definition space1 (b : byte) : bool :=
  match b with x09 | x0a | x0b | x0c | x0d | x20 => true | _ => false end.

(** U+0085 and U+00A0. *)
Definition space2 (b0 b1 : byte) : bool :=
  match b0, b1 with xc2, x85 | xc2, xa0 => true | _, _ => false end.

(** U+1680, U+2000 .. U+200A, U+2028, U+2029, U+202F, U+205F and U+3000. *)
Definition space3 (b0 b1 b2 : byte) : bool :=
  match b0, b1, b2 with
  | xe1, x9a, x80 => true
  | xe2, x80, (x80 | x81 | x82 | x83 | x84 | x85 | x86 | x87 | x88 | x89 | x8a) => true
  | xe2, x80, (xa8 | xa9 | xaf) => true
  | xe2, x81, x9f => true
  | xe3, x80, x80 => true
  | _, _, _ => false
  end.

Section Trim.
Context (s1 : byte -> bool) (s2 : byte -> byte -> bool) (s3 : byte -> byte -> byte -> bool).

(** Drop the white space at the front of a list of bytes. *)
Fixpoint trim_front (bs : bytes) : bytes :=
  match bs with
  | [] => []
  | b0 :: r0 =>
      if s1 b0 then trim_front r0
      else
        match r0 with
        | [] => bs
        | b1 :: r1 =>
            if s2 b0 b1 then trim_front r1
            else
              match r1 with
              | [] => bs
              | b2 :: r2 => if s3 b0 b1 b2 then trim_front r2 else bs
              end
        end
  end.

(** Nothing to drop. *)
Definition no_space_front (bs : bytes) : bool :=
  match bs with
  | [] => true
  | b0 :: r0 =>
      negb (s1 b0) &&
      match r0 with
      | [] => true
      | b1 :: r1 => negb (s2 b0 b1) && match r1 with [] => true | b2 :: _ => negb (s3 b0 b1 b2) end
      end
  end.

Lemma trim_front_id bs : no_space_front bs = true -> trim_front bs = bs.
Proof.
  destruct bs as [|b0 [|b1 [|b2 r]]]; simpl; intros H; zbool;
    repeat match goal with H : _ = false |- _ => rewrite H end; done.
Qed.

Lemma trim_front_no_space bs : no_space_front (trim_front bs) = true.
Proof.
  remember (length bs) as n eqn:Hn. assert (length bs <= n)%nat as Hle by lia. clear Hn.
  revert bs Hle. induction n as [|n IH]; intros [|b0 r0] Hle; simpl in *; try done; [lia|].
  destruct (s1 b0) eqn:E1; [apply IH; lia|].
  destruct r0 as [|b1 r1]; [simpl; by rewrite E1|]. simpl in Hle.
  destruct (s2 b0 b1) eqn:E2; [apply IH; lia|].
  destruct r1 as [|b2 r2]; [simpl; by rewrite E1, E2|]. simpl in Hle.
  destruct (s3 b0 b1 b2) eqn:E3; [apply IH; lia|]. simpl. by rewrite E1, E2, E3.
Qed.

Lemma trim_front_suffix bs : exists spaces, bs = spaces ++ trim_front bs.
Proof.
  remember (length bs) as n eqn:Hn. assert (length bs <= n)%nat as Hle by lia. clear Hn.
  revert bs Hle. induction n as [|n IH]; intros [|b0 r0] Hle; simpl in *; try lia; try (by exists []).
  destruct (s1 b0); [destruct (IH r0) as [sp E]; [lia | exists (b0 :: sp); simpl; by rewrite <- E] | ].
  destruct r0 as [|b1 r1]; [by exists []|]. simpl in Hle.
  destruct (s2 b0 b1); [destruct (IH r1) as [sp E]; [lia | exists (b0 :: b1 :: sp); simpl; by rewrite <- E] | ].
  destruct r1 as [|b2 r2]; [by exists []|]. simpl in Hle.
  destruct (s3 b0 b1 b2); [destruct (IH r2) as [sp E]; [lia | exists (b0 :: b1 :: b2 :: sp); simpl; by rewrite <- E] | by exists []].
Qed.

(** A prefix of a list that does not start with white space does not either. *)
Lemma no_space_front_prefix bs cs : no_space_front (bs ++ cs) = true -> no_space_front bs = true.
Proof.
  destruct bs as [|b0 [|b1 [|b2 r]]]; simpl; try done.
  - by intros [-> _]%andb_true_iff.
  - intros [-> H]%andb_true_iff. destruct cs; simpl in *; [done|]. by apply andb_true_iff in H as [-> _].
Qed.
End Trim.

Definition trim_left (bs : bytes) : bytes := trim_front space1 space2 space3 bs.

(** The same from the other end, on the reversed list. *)
Definition trim_right (bs : bytes) : bytes :=
  rev (trim_front space1 (fun b1 b0 => space2 b0 b1) (fun b2 b1 b0 => space3 b0 b1 b2) (rev bs)).

(** [strings.TrimSpace]. *)
Definition TrimSpace (s : string) : string :=
  string_of_bytes (trim_right (trim_left (bytes_of_string s))).

(** runtime.go: [normalizeObjectKey]. *)
Definition normalizeObjectKey (value : string) : string := TrimSpace value.

Lemma trim_right_prefix bs : exists spaces, bs = trim_right bs ++ spaces.
Proof.
  unfold trim_right. destruct (trim_front_suffix space1 (fun b1 b0 => space2 b0 b1)
    (fun b2 b1 b0 => space3 b0 b1 b2) (rev bs)) as [sp E].
  exists (rev sp). rewrite <- rev_app_distr, <- E. by rewrite rev_involutive.
Qed.

Lemma normalizeObjectKey_idemp s : normalizeObjectKey (normalizeObjectKey s) = normalizeObjectKey s.
Proof.
  unfold normalizeObjectKey, TrimSpace. rewrite bytes_string_of_bytes. f_equal.
  set (l := trim_left (bytes_of_string s)).
  assert (trim_left (trim_right l) = trim_right l) as ->.
  { apply trim_front_id. destruct (trim_right_prefix l) as [sp E].
    eapply no_space_front_prefix. rewrite <- E. apply trim_front_no_space. }
  unfold trim_right at 1 2. rewrite rev_involutive.
  by rewrite (trim_front_id _ _ _ (trim_front _ _ _ _)) by apply trim_front_no_space.
Qed.

(** An identifier that is already normalized. *)
Definition key_normal (s : string) : Prop := normalizeObjectKey s = s.

Lemma normalize_key_normal s : key_normal (normalizeObjectKey s).
Proof. apply normalizeObjectKey_idemp. Qed.
#[export] Hint Resolve normalize_key_normal : core.

(** An identifier of ASCII characters without white space is normal. *)
Definition plain_byte (b : byte) : bool := negb (space1 b) && (Z_of_byte b <? 0x80).

Lemma plain_no_space b b1 b2 :
  plain_byte b = true -> space1 b = false /\ space2 b b1 = false /\ space3 b b1 b2 = false.
Proof. destruct b; done. Qed.

Lemma plain_trim (s2 : byte -> byte -> bool) (s3 : byte -> byte -> byte -> bool) bs :
  (forall b0 b1, plain_byte b0 = true -> plain_byte b1 = true -> s2 b0 b1 = false) ->
  (forall b0 b1 b2, plain_byte b0 = true -> plain_byte b1 = true -> plain_byte b2 = true -> s3 b0 b1 b2 = false) ->
  Forall (fun b => plain_byte b = true) bs -> trim_front space1 s2 s3 bs = bs.
Proof.
  intros H2 H3 Hall. apply trim_front_id. destruct Hall as [|b0 ? Hb0 [|b1 ? Hb1 [|b2 ? Hb2 _]]]; [done|..]; simpl;
    rewrite (proj1 (plain_no_space b0 b0 b0 Hb0)); [done | by rewrite H2 | by rewrite H2, H3].
Qed.

Lemma key_normal_plain s : Forall (fun b => plain_byte b = true) (bytes_of_string s) -> key_normal s.
Proof.
  intros H. unfold key_normal, normalizeObjectKey, TrimSpace.
  assert (trim_left (bytes_of_string s) = bytes_of_string s) as ->.
  { apply plain_trim; [| |done]; intros; by apply plain_no_space. }
  unfold trim_right. rewrite plain_trim, rev_involutive; [apply string_bytes_of_string | | |].
  - intros b0 b1 _ Hb. by apply (plain_no_space b1 b0 b0).
  - intros b0 b1 b2 _ _ Hb. by apply (plain_no_space b2 b1 b0).
  - by apply Forall_rev.
Qed.

Example normalizeObjectKey_example :
  normalizeObjectKey (string_of_bytes (xc2 :: xa0 :: x20 :: bytes_of_string "a b" ++ [xe2; x80; xa8; x0a])) =
    "a b"%string.
Proof. reflexivity. Qed.

(** ** Case *)

(** [strings.ToLower] as far as a comparison with an ASCII literal can tell: the
    letters A to Z, and the two letters outside ASCII whose lower case is ASCII,
    U+0130 and U+212A. *)
Definition lower_byte (b : byte) : byte :=
  if decide (0x41 <= Z_of_byte b <= 0x5a) then byte_of_Z (Z_of_byte b + 32) else b.

Fixpoint lower_bytes (bs : bytes) : bytes :=
  match bs with
  | [] => []
  | b0 :: r0 =>
      match b0, r0 with
      | xc4, xb0 :: r => x69 :: lower_bytes r
      | xe2, x84 :: r1 =>
          match r1 with
          | xaa :: r => x6b :: lower_bytes r
          | _ => lower_byte b0 :: lower_bytes r0
          end
      | _, _ => lower_byte b0 :: lower_bytes r0
      end
  end.

Definition ToLower (s : string) : string := string_of_bytes (lower_bytes (bytes_of_string s)).
