(* ===== verification/InputBuffer.v ===== *)
(** * The client input buffer

    [network/input_buffer.go]: per client a list of tick-aligned inputs, kept
    sorted and bounded, added by the transport and consumed by the simulation.
    The mutex makes every method one atomic step, so each is a function of the
    buffer's state.  [Payload] is the Go [any] that the buffer never looks into;
    [EqualFold] is [strings.EqualFold]. *)
From S2P Require Import Prelude Keys Config.

Section InputBuffer.
Context {Payload : Type} (EqualFold : string -> string -> bool).

(** A time is a count of nanoseconds, and the zero [time.Time] is 0. *)
Record ClientInput := mkInput {
  in_ClientID : string;
  in_Sequence : Z;
  in_Tick : Z;
  in_ObjectType : string;
  in_ObjectID : string;
  in_TargetID : string;
  in_Payload : Payload;
  in_ReceivedAt : Z
}.

Record InputBufferMetrics := mkInputMetrics {
  Buffered : Z;
  Consumed : Z;
  StaleRejected : Z;
  FutureRejected : Z;
  Dropped : Z
}.

Record inputBuffer := mkInputBuffer {
  byClient : gmap string (list ClientInput);
  metrics : InputBufferMetrics
}.

Definition newInputBuffer : inputBuffer := mkInputBuffer ∅ (mkInputMetrics 0 0 0 0 0).

(** ** Sorting *)

(** The comparison of [sortClientInputs]. *)
Definition input_less (left right : ClientInput) : bool :=
  if decide (in_Tick left = in_Tick right) then
    if decide (in_Sequence left = in_Sequence right) then
      if decide (in_ObjectType left = in_ObjectType right) then
        if decide (in_ObjectID left = in_ObjectID right)
        then String.ltb (in_TargetID left) (in_TargetID right)
        else String.ltb (in_ObjectID left) (in_ObjectID right)
      else String.ltb (in_ObjectType left) (in_ObjectType right)
    else in_Sequence left <? in_Sequence right
  else in_Tick left <? in_Tick right.

Definition sortClientInputs (inputs : list ClientInput) : list ClientInput :=
  go_sort input_less inputs.

(** ** Operations *)

(** The preamble of [add]: defaults and normalized identifiers. *)
Definition normalize_input (input : ClientInput) (currentTick now : Z) : ClientInput :=
  mkInput (normalizeObjectKey (in_ClientID input)) (in_Sequence input)
    (if in_Tick input =? 0 then currentTick else in_Tick input)
    (normalizeObjectKey (in_ObjectType input)) (normalizeObjectKey (in_ObjectID input))
    (normalizeObjectKey (in_TargetID input)) (in_Payload input)
    (if in_ReceivedAt input =? 0 then now else in_ReceivedAt input).

(** [for len(inputs) > limit { inputs = inputs[1:]; dropped++ }]. *)
Fixpoint drop_over_limit (limit : Z) (inputs : list ClientInput) (dropped : Z)
    : list ClientInput * Z :=
  match inputs with
  | [] => ([], dropped)
  | _ :: rest =>
      if limit <? zlen inputs then drop_over_limit limit rest (u64_inc dropped)
      else (inputs, dropped)
  end.

(** [inputBuffer.add]. *)
Definition add (buffer : inputBuffer) (input : ClientInput) (currentTick : Z) (config : Config)
    (now : Z) : inputBuffer * result unit :=
  let m := metrics buffer in
  let input := normalize_input input currentTick now in
  if decide (in_ClientID input = ""%string) then (buffer, Err ErrMissingClientInputID)
  else if (in_Tick input <? currentTick) &&
          (MaxInputPastTicks config <? u64_sub currentTick (in_Tick input)) then
    (mkInputBuffer (byClient buffer)
       (mkInputMetrics (Buffered m) (Consumed m) (u64_inc (StaleRejected m)) (FutureRejected m)
          (Dropped m)),
     Err ErrStaleClientInput)
  else if u64_add currentTick (MaxInputFutureTicks config) <? in_Tick input then
    (mkInputBuffer (byClient buffer)
       (mkInputMetrics (Buffered m) (Consumed m) (StaleRejected m) (u64_inc (FutureRejected m))
          (Dropped m)),
     Err ErrFutureClientInput)
  else
    let inputs := default [] (byClient buffer !! in_ClientID input) ++ [input] in
    let inputs := sortClientInputs inputs in
    let (inputs, dropped) := drop_over_limit (InputBufferLimit config) inputs (Dropped m) in
    (mkInputBuffer (<[in_ClientID input := inputs]> (byClient buffer))
       (mkInputMetrics (u64_inc (Buffered m)) (Consumed m) (StaleRejected m) (FutureRejected m)
          dropped),
     Ok tt).

(** The shared end of [consume] and [consumeForObject]: split off the inputs
    that [take] selects, and forget a client that has none left. *)
Definition consume_with (buffer : inputBuffer) (clientID : string) (selected : ClientInput -> bool)
    : inputBuffer * list ClientInput :=
  let m := metrics buffer in
  let inputs := default [] (byClient buffer !! clientID) in
  if zlen inputs =? 0 then (buffer, [])
  else
    let consumed := List.filter selected inputs in
    let remaining := List.filter (fun input => negb (selected input)) inputs in
    let clients :=
      if zlen remaining =? 0 then delete clientID (byClient buffer)
      else <[clientID := remaining]> (byClient buffer) in
    (mkInputBuffer clients
       (mkInputMetrics (Buffered m) (u64_add (Consumed m) (wrap 64 (zlen consumed)))
          (StaleRejected m) (FutureRejected m) (Dropped m)),
     consumed).

(** [inputBuffer.consume]. *)
Definition consume (buffer : inputBuffer) (clientID : string) (tick : Z)
    : inputBuffer * list ClientInput :=
  let clientID := normalizeObjectKey clientID in
  if decide (clientID = ""%string) then (buffer, [])
  else consume_with buffer clientID (fun input => in_Tick input =? tick).

(** [targetTick && targetObject] of [consumeForObject]. *)
Definition for_object (tick : Z) (objectType objectID : string) (input : ClientInput) : bool :=
  let targetTick := in_Tick input =? tick in
  let targetObject :=
    (bool_decide (objectType = ""%string) || EqualFold (in_ObjectType input) objectType) &&
    (bool_decide (objectID = ""%string) || bool_decide (in_ObjectID input = objectID) ||
     bool_decide (in_TargetID input = objectID)) in
  targetTick && targetObject.

(** [inputBuffer.consumeForObject]. *)
Definition consumeForObject (buffer : inputBuffer) (clientID : string) (tick : Z)
    (objectType objectID : string) : inputBuffer * list ClientInput :=
  let clientID := normalizeObjectKey clientID in
  let objectType := normalizeObjectKey objectType in
  let objectID := normalizeObjectKey objectID in
  if decide (clientID = ""%string) then (buffer, [])
  else consume_with buffer clientID (for_object tick objectType objectID).

(** ** Invariant *)

(** What is pending for a client: sorted, non-empty, at most [limit] long, and
    all of it the client's own with a normalized id. *)
Record inputs_ok (limit : Z) (clientID : string) (inputs : list ClientInput) : Prop := {
  io_sorted : StronglySorted (not_after input_less) inputs;
  io_nonempty : inputs <> [];
  io_bounded : zlen inputs <= limit;
  io_owner : Forall (fun input => in_ClientID input = clientID) inputs;
  io_key : key_normal clientID /\ clientID <> ""%string
}.

(** The number of inputs that wait, of all clients. *)
Definition pending (buffer : inputBuffer) : Z :=
  map_fold (fun _ inputs n => zlen inputs + n) 0 (byClient buffer).

(** Every input accepted was consumed, dropped for the limit, or still waits. *)
Definition conserved (buffer : inputBuffer) : Prop :=
  let m := metrics buffer in
  Buffered m = wrap 64 (Consumed m + Dropped m + pending buffer).

Record buffer_ok (limit : Z) (buffer : inputBuffer) : Prop := {
  bo_clients : map_Forall (inputs_ok limit) (byClient buffer);
  bo_conserved : conserved buffer
}.

#[local] Instance input_less_weak : StrictWeak input_less.
Proof.
  unfold input_less.
  repeat (apply strict_weak_lex; [apply _|]). apply (strict_weak_key in_TargetID String.ltb). apply _.
Qed.

Lemma sortClientInputs_sorted inputs :
  StronglySorted (not_after input_less) (sortClientInputs inputs).
Proof. apply go_sort_sorted, _. Qed.

(** *** The limit *)
Lemma drop_over_limit_spec limit inputs dropped :
  0 <= limit ->
  drop_over_limit limit inputs dropped =
    (drop (length inputs - Z.to_nat limit) inputs,
     if zlen inputs <=? limit then dropped else wrap 64 (dropped + (zlen inputs - limit))).
Proof.
  intros Hl. revert dropped. induction inputs as [|x l IH]; intros dropped; simpl.
  { rewrite (proj2 (Z.leb_le _ _)) by (rewrite zlen_nil; lia). done. }
  rewrite Z.ltb_antisym, zlen_cons. destruct (Z.leb_spec (1 + zlen l) limit) as [H|H]; cbn [negb].
  - replace (_ - _)%nat with 0%nat by (unfold zlen in H; lia). done.
  - rewrite IH. replace (S (length l) - Z.to_nat limit)%nat with (S (length l - Z.to_nat limit))
      by (unfold zlen in H; lia). simpl. f_equal. unfold u64_inc, u64_add.
    destruct (Z.leb_spec (zlen l) limit).
    + f_equal. lia.
    + unfold wrap. rewrite Z.add_mod_idemp_l by lia. f_equal. lia.
Qed.

Lemma sorted_suffix {A} (R : A -> A -> Prop) n l : StronglySorted R l -> StronglySorted R (drop n l).
Proof.
  intros H. revert n. induction H as [|x l Hs IH Hf]; intros n; destruct n; simpl; try constructor; auto.
Qed.

Lemma Forall_suffix {A} (P : A -> Prop) n l : Forall P l -> Forall P (drop n l).
Proof. intros H. rewrite <- (take_drop n l) in H. by apply Forall_app in H as [_ ?]. Qed.

Lemma zlen_drop {A} n (l : list A) : zlen (drop n l) = Z.max 0 (zlen l - Z.of_nat n).
Proof. unfold zlen. rewrite length_drop. lia. Qed.

(** *** Counting what waits *)
Lemma pending_insert (m : gmap string (list ClientInput)) c l :
  map_fold (fun _ inputs n => zlen inputs + n) 0 (<[c := l]> m) =
  map_fold (fun _ inputs n => zlen inputs + n) 0 m - zlen (default [] (m !! c)) + zlen l.
Proof.
  assert (forall m' : gmap string (list ClientInput), m' !! c = None ->
    map_fold (fun _ inputs n => zlen inputs + n) 0 (<[c := l]> m') =
    zlen l + map_fold (fun _ inputs n => zlen inputs + n) 0 m') as Hnew.
  { intros m' Hc. apply (map_fold_insert_L (fun _ inputs n => zlen inputs + n)); [|done]. intros; lia. }
  destruct (m !! c) as [l0|] eqn:E; simpl.
  - rewrite <- (insert_delete_eq m), Hnew by apply lookup_delete_eq.
    rewrite (map_fold_delete_L (fun (_ : string) (inputs : list ClientInput) n => zlen inputs + n) 0 c l0 m);
      [cbn beta; lia | intros; lia | done].
  - rewrite Hnew by done. change (@zlen ClientInput []) with 0. lia.
Qed.

Lemma pending_delete (m : gmap string (list ClientInput)) c :
  map_fold (fun _ inputs n => zlen inputs + n) 0 (delete c m) =
  map_fold (fun _ inputs n => zlen inputs + n) 0 m - zlen (default [] (m !! c)).
Proof.
  destruct (m !! c) as [l0|] eqn:E; simpl.
  - rewrite (map_fold_delete_L (fun (_ : string) (inputs : list ClientInput) n => zlen inputs + n) 0 c l0 m);
      [cbn beta; lia | intros; lia | done].
  - rewrite delete_id by done. change (@zlen ClientInput []) with 0. lia.
Qed.

(** *** Each operation keeps the invariant *)
Lemma accepted_inputs_ok buffer input currentTick config now inputs dropped :
  buffer_ok (InputBufferLimit config) buffer -> 0 < InputBufferLimit config ->
  let input := normalize_input input currentTick now in
  in_ClientID input <> ""%string ->
  drop_over_limit (InputBufferLimit config)
    (sortClientInputs (default [] (byClient buffer !! in_ClientID input) ++ [input]))
    (Dropped (metrics buffer)) = (inputs, dropped) ->
  inputs_ok (InputBufferLimit config) (in_ClientID input) inputs /\
  wrap 64 (dropped + zlen inputs) =
    wrap 64 (Dropped (metrics buffer) + zlen (default [] (byClient buffer !! in_ClientID input)) + 1).
Proof.
  intros [Hok _] Hlim input' Hid. set (old := default [] (byClient buffer !! in_ClientID input')).
  set (all := sortClientInputs (old ++ [input'])).
  assert (zlen all = zlen old + 1) as Hall.
  { unfold all, sortClientInputs. transitivity (zlen (old ++ [input'])); [|zlen; lia]. unfold zlen.
    by rewrite (Permutation_length (go_sort_perm input_less (old ++ [input']))). }
  rewrite drop_over_limit_spec by lia. intros [= <- <-].
  assert (Forall (fun i => in_ClientID i = in_ClientID input') all) as Hown.
  { unfold all, sortClientInputs. rewrite (go_sort_perm input_less). apply Forall_app. split; [|by constructor].
    unfold old. destruct (byClient buffer !! _) as [l|] eqn:E; simpl; [|done].
    by apply (Hok _ _ E). }
  assert (zlen (drop (length all - Z.to_nat (InputBufferLimit config)) all) =
    Z.min (zlen all) (InputBufferLimit config)) as Hlen.
  { rewrite zlen_drop. pose proof (zlen_nonneg all). unfold zlen in *. lia. }
  pose proof (zlen_nonneg old). split; [split|].
  - apply sorted_suffix, sortClientInputs_sorted.
  - intros E. rewrite E in Hlen. change (zlen []) with 0 in Hlen. lia.
  - lia.
  - by apply Forall_suffix.
  - split; [apply normalize_key_normal | done].
  - rewrite Hlen. destruct (Z.leb_spec (zlen all) (InputBufferLimit config)).
    + f_equal. lia.
    + unfold wrap. rewrite Z.add_mod_idemp_l by lia. f_equal. lia.
Qed.

Lemma add_buffer_ok buffer input currentTick config now :
  0 < InputBufferLimit config -> buffer_ok (InputBufferLimit config) buffer ->
  buffer_ok (InputBufferLimit config) (add buffer input currentTick config now).1.
Proof.
  intros Hlim Hok. unfold add. set (input' := normalize_input input currentTick now).
  destruct (decide _) as [|Hid]; [done|].
  destruct (_ && _); [by destruct Hok|]. destruct (_ <? _); [by destruct Hok|].
  destruct (drop_over_limit _ _ _) as [inputs dropped] eqn:E.
  destruct (accepted_inputs_ok _ _ _ _ _ _ _ Hok Hlim Hid E) as [Hin Hcount].
  destruct Hok as [Hc Hcons]. split; [by apply map_Forall_insert_2|].
  unfold conserved, pending in *. cbn [fst byClient metrics Buffered Consumed Dropped] in *.
  rewrite pending_insert, Hcons. fold input' in Hcount.
  set (old := zlen (default [] (byClient buffer !! in_ClientID input'))) in *.
  set (P := map_fold _ 0 (byClient buffer)). set (C := Consumed (metrics buffer)).
  unfold u64_inc, u64_add, wrap in *. rewrite Z.add_mod_idemp_l by lia.
  replace (C + dropped + (P - old + zlen inputs)) with ((dropped + zlen inputs) + (C + P - old)) by lia.
  rewrite <- (Z.add_mod_idemp_l (dropped + zlen inputs)) by lia.
  rewrite Hcount, Z.add_mod_idemp_l by lia. f_equal. lia.
Qed.

Lemma filter_split_length {A} (f : A -> bool) l :
  zlen (List.filter f l) + zlen (List.filter (fun x => negb (f x)) l) = zlen l.
Proof.
  induction l as [|x l IH]; [done|]. simpl. destruct (f x); simpl; rewrite !zlen_cons; lia.
Qed.

Lemma StronglySorted_filter {A} (R : A -> A -> Prop) (f : A -> bool) l :
  StronglySorted R l -> StronglySorted R (List.filter f l).
Proof.
  induction 1 as [|x l Hs IH Hf]; simpl; [constructor|]. destruct (f x); [|done].
  constructor; [done|]. rewrite Forall_forall in *. intros y Hy. apply Hf.
  by apply list_elem_of_In, filter_In in Hy as [?%list_elem_of_In _].
Qed.

Lemma Forall_filter_bool {A} (P : A -> Prop) (f : A -> bool) l :
  Forall P l -> Forall P (List.filter f l).
Proof. induction 1 as [|x l]; simpl; [constructor|]. destruct (f x); [by constructor | done]. Qed.

Lemma consume_with_ok limit buffer clientID selected :
  buffer_ok limit buffer -> buffer_ok limit (consume_with buffer clientID selected).1.
Proof.
  intros [Hc Hcons]. unfold consume_with.
  set (inputs := default [] (byClient buffer !! clientID)).
  destruct (Z.eqb_spec (zlen inputs) 0) as [E0|E0]; [done|].
  assert (byClient buffer !! clientID = Some inputs) as Hl.
  { unfold inputs in *. by destruct (byClient buffer !! clientID). }
  destruct (Hc _ _ Hl) as [Hs Hne Hb Ho Hk].
  pose proof (filter_split_length selected inputs) as Hsplit.
  set (remaining := List.filter (fun input => negb (selected input)) inputs) in *.
  pose proof (zlen_nonneg (List.filter selected inputs)).
  split; cbn [fst byClient metrics].
  - destruct (Z.eqb_spec (zlen remaining) 0) as [Er|Er]; [by apply map_Forall_delete|].
    apply map_Forall_insert_2; [|done]. split; [by apply StronglySorted_filter | | lia
      | by apply Forall_filter_bool | done].
    intros E. by rewrite E in Er.
  - unfold conserved, pending in *. cbn [metrics byClient Buffered Consumed Dropped].
    assert (map_fold (fun _ inputs n => zlen inputs + n) 0
      (if zlen remaining =? 0 then delete clientID (byClient buffer)
       else <[clientID := remaining]> (byClient buffer)) =
      map_fold (fun _ inputs n => zlen inputs + n) 0 (byClient buffer) - zlen inputs + zlen remaining) as ->.
    { destruct (Z.eqb_spec (zlen remaining) 0) as [Er|Er].
      - rewrite pending_delete, Hl. change (default [] (Some inputs)) with inputs. lia.
      - by rewrite pending_insert, Hl. }
    rewrite Hcons. set (P := map_fold _ 0 (byClient buffer)). unfold u64_add, wrap.
    set (k := zlen (List.filter selected inputs)) in *.
    replace (((Consumed (metrics buffer) + k mod 2 ^ 64) mod 2 ^ 64 + Dropped (metrics buffer) +
      (P - zlen inputs + zlen remaining))) with
      ((Consumed (metrics buffer) + k mod 2 ^ 64) mod 2 ^ 64 + (Dropped (metrics buffer) + P - k)) by lia.
    rewrite Z.add_mod_idemp_l by lia.
    replace (Consumed (metrics buffer) + k mod 2 ^ 64 + (Dropped (metrics buffer) + P - k)) with
      (k mod 2 ^ 64 + (Consumed (metrics buffer) + Dropped (metrics buffer) + P - k)) by lia.
    rewrite Z.add_mod_idemp_l by lia. f_equal. lia.
Qed.

Lemma consume_with_exact buffer id selected :
  let inputs := default [] (byClient buffer !! id) in
  let (buffer', consumed) := consume_with buffer id selected in
  consumed = List.filter selected inputs /\
  default [] (byClient buffer' !! id) = List.filter (fun i => negb (selected i)) inputs /\
  (forall other, other <> id -> byClient buffer' !! other = byClient buffer !! other) /\
  wrap 64 (Consumed (metrics buffer')) = wrap 64 (Consumed (metrics buffer) + zlen consumed).
Proof.
  intros inputs. unfold consume_with. fold inputs.
  destruct (Z.eqb_spec (zlen inputs) 0) as [E0|E0].
  { apply zlen_0 in E0. rewrite E0. split_and!; [done | done | done | by rewrite Z.add_0_r]. }
  set (remaining := List.filter (fun input => negb (selected input)) inputs).
  cbn [byClient metrics Consumed]. split_and!; [done | | |].
  - destruct (Z.eqb_spec (zlen remaining) 0) as [Er|Er].
    + apply zlen_0 in Er. by rewrite lookup_delete_eq, Er.
    + by rewrite lookup_insert_eq.
  - intros other Hne. destruct (zlen remaining =? 0);
      [by rewrite lookup_delete_ne | by rewrite lookup_insert_ne].
  - unfold u64_add. rewrite wrap_wrap. unfold wrap. by rewrite Z.add_mod_idemp_r by lia.
Qed.

Lemma bool_filter {A} (P : A -> Prop) `{!forall x, Decision (P x)} l :
  filter P l = List.filter (fun x => bool_decide (P x)) l.
Proof.
  induction l as [|x l IH]; [done|]. rewrite filter_cons. simpl. rewrite IH.
  destruct (decide (P x)); [by rewrite bool_decide_true | by rewrite bool_decide_false].
Qed.

(** ** Steps and reachable buffers *)
Inductive buffer_op :=
| OpAdd (input : ClientInput) (currentTick now : Z)
| OpConsume (clientID : string) (tick : Z)
| OpConsumeForObject (clientID : string) (tick : Z) (objectType objectID : string).

Definition buffer_step (config : Config) (buffer : inputBuffer) (op : buffer_op) : inputBuffer :=
  match op with
  | OpAdd input currentTick now => (add buffer input currentTick config now).1
  | OpConsume clientID tick => (consume buffer clientID tick).1
  | OpConsumeForObject clientID tick objectType objectID =>
      (consumeForObject buffer clientID tick objectType objectID).1
  end.

Lemma newInputBuffer_ok limit : buffer_ok limit newInputBuffer.
Proof. split; [apply map_Forall_empty | done]. Qed.

Lemma buffer_step_ok config buffer op :
  0 < InputBufferLimit config -> buffer_ok (InputBufferLimit config) buffer ->
  buffer_ok (InputBufferLimit config) (buffer_step config buffer op).
Proof.
  intros Hl Hok. destruct op; simpl; [by apply add_buffer_ok | |];
    unfold consume, consumeForObject; destruct (decide _); try done; by apply consume_with_ok.
Qed.

(** ** Properties *)

(** C31: under a normalized configuration every reachable buffer is well-formed:
    each client's pending list is sorted by tick, then sequence, then target,
    holds only that client's inputs under its trimmed, non-empty id, is non-empty
    (a drained client is forgotten) and never longer than the limit; and the
    counters balance: every input ever accepted was consumed, dropped for the
    limit, or is still pending. *)
Theorem inputBuffer_invariant config ops :
  buffer_ok (InputBufferLimit (Normalized config))
    (foldl (buffer_step (Normalized config)) newInputBuffer ops).
Proof.
  pose proof (cv_inputs _ (Normalized_config_valid config)) as Hl.
  pose proof (newInputBuffer_ok (InputBufferLimit (Normalized config))) as Hok.
  revert Hok. generalize newInputBuffer. induction ops as [|op ops IH]; intros b Hok; simpl; [done|].
  by apply IH, buffer_step_ok.
Qed.

(** The acceptance window.  An input with a client id is accepted exactly
    when its tick (the current one if it names none) is at most
    [MaxInputPastTicks] behind and [MaxInputFutureTicks] ahead of the current
    tick; otherwise the error says on which side it fell and nothing but that
    counter changes. *)
Theorem add_window buffer input currentTick config now :
  in_u64 currentTick -> in_u64 (in_Tick input) -> in_u64 (MaxInputPastTicks config) ->
  0 <= MaxInputFutureTicks config -> in_u64 (currentTick + MaxInputFutureTicks config) ->
  let id := normalizeObjectKey (in_ClientID input) in
  let tick := if in_Tick input =? 0 then currentTick else in_Tick input in
  let (buffer', outcome) := add buffer input currentTick config now in
  outcome =
    (if decide (id = ""%string) then Err ErrMissingClientInputID
     else if tick <? currentTick - MaxInputPastTicks config then Err ErrStaleClientInput
     else if currentTick + MaxInputFutureTicks config <? tick then Err ErrFutureClientInput
     else Ok tt) /\
  (outcome <> Ok tt -> byClient buffer' = byClient buffer /\
     Buffered (metrics buffer') = Buffered (metrics buffer) /\
     Consumed (metrics buffer') = Consumed (metrics buffer) /\
     Dropped (metrics buffer') = Dropped (metrics buffer)).
Proof.
  intros Hcur Htick Hpast Hf0 Hfut id tick. unfold add.
  cbn [in_ClientID in_Tick normalize_input]. fold id. fold tick.
  assert (in_u64 tick) as Ht by (unfold tick; destruct (in_Tick input =? 0); done).
  destruct (decide (id = ""%string)) as [E|Hid]; [done|].
  unfold u64_add. rewrite (wrap_small 64 (currentTick + _)) by done.
  assert ((tick <? currentTick) && (MaxInputPastTicks config <? u64_sub currentTick tick) =
    (tick <? currentTick - MaxInputPastTicks config)) as ->.
  { unfold u64_sub, in_u in *. destruct (Z.ltb_spec tick currentTick); cbn [andb].
    - rewrite wrap_small by (unfold in_u; lia).
      destruct (Z.ltb_spec (MaxInputPastTicks config) (currentTick - tick)),
        (Z.ltb_spec tick (currentTick - MaxInputPastTicks config)); lia || done.
    - destruct (Z.ltb_spec tick (currentTick - MaxInputPastTicks config)); [lia | done]. }
  destruct (tick <? _); [done|]. destruct (_ <? tick); [done|].
  destruct (drop_over_limit _ _ _) as [inputs dropped]. by split.
Qed.

(** An accepted input joins its client's pending inputs, which are then the
    [InputBufferLimit] last of the sorted list: what is dropped for the limit are
    the inputs with the lowest ticks and sequences.  No other client's inputs
    are touched, and inputs with equal keys keep their order of arrival. *)
Theorem add_accepts buffer input currentTick config now buffer' :
  0 < InputBufferLimit config ->
  add buffer input currentTick config now = (buffer', Ok tt) ->
  let input' := normalize_input input currentTick now in
  let id := in_ClientID input' in
  let all := default [] (byClient buffer !! id) ++ [input'] in
  exists dropped kept, dropped ++ kept = sortClientInputs all /\
    byClient buffer' = <[id := kept]> (byClient buffer) /\
    zlen kept = Z.min (zlen all) (InputBufferLimit config) /\
    StronglySorted (not_after input_less) (dropped ++ kept) /\
    forall k, List.filter (fun i => bool_decide (sort_equiv input_less k i)) (dropped ++ kept) =
              List.filter (fun i => bool_decide (sort_equiv input_less k i)) all.
Proof.
  intros Hlim H input' id all. unfold add in H. fold input' in H. fold id in H. fold all in H.
  destruct (decide (id = ""%string)); [done|]. destruct (_ && _); [done|]. destruct (_ <? _); [done|].
  rewrite drop_over_limit_spec in H by lia. injection H as <-.
  set (skip := (length (sortClientInputs all) - Z.to_nat (InputBufferLimit config))%nat).
  exists (take skip (sortClientInputs all)), (drop skip (sortClientInputs all)). rewrite take_drop.
  assert (zlen (sortClientInputs all) = zlen all) as Hall.
  { unfold sortClientInputs, zlen. by rewrite (Permutation_length (go_sort_perm input_less all)). }
  split_and!; [done | done | | apply sortClientInputs_sorted | ].
  - rewrite zlen_drop. unfold skip. unfold zlen in *. lia.
  - intros k. rewrite <- !bool_filter. apply go_sort_stable, _.
Qed.

(** Consuming is exact.  The inputs returned are the client's pending ones
    for that tick, in order; exactly the others stay pending for the client, so
    no input is ever returned twice; other clients are not touched and the
    counter grows by the number returned. *)
Theorem consume_exact buffer clientID tick :
  let id := normalizeObjectKey clientID in
  let inputs := if decide (id = ""%string) then [] else default [] (byClient buffer !! id) in
  let (buffer', consumed) := consume buffer clientID tick in
  consumed = List.filter (fun i => in_Tick i =? tick) inputs /\
  default [] (byClient buffer' !! id) =
    (if decide (id = ""%string) then default [] (byClient buffer !! id)
     else List.filter (fun i => negb (in_Tick i =? tick)) inputs) /\
  (forall other, other <> id -> byClient buffer' !! other = byClient buffer !! other) /\
  wrap 64 (Consumed (metrics buffer')) = wrap 64 (Consumed (metrics buffer) + zlen consumed).
Proof.
  intros id inputs. unfold consume. fold id. subst inputs.
  destruct (decide (id = ""%string)) as [E|Hid].
  - split_and!; try done. by rewrite Z.add_0_r.
  - apply consume_with_exact.
Qed.

(** Consuming for an object is exact in the same way: what is returned are
    the client's pending inputs of that tick whose target matches (an empty type
    or id matches all; the type compares without case, the id against both the
    object and the target id), and exactly the others stay. *)
Theorem consumeForObject_exact buffer clientID tick objectType objectID :
  let id := normalizeObjectKey clientID in
  let matches := for_object tick (normalizeObjectKey objectType) (normalizeObjectKey objectID) in
  id <> ""%string ->
  let inputs := default [] (byClient buffer !! id) in
  let (buffer', consumed) := consumeForObject buffer clientID tick objectType objectID in
  consumed = List.filter matches inputs /\
  default [] (byClient buffer' !! id) = List.filter (fun i => negb (matches i)) inputs /\
  (forall other, other <> id -> byClient buffer' !! other = byClient buffer !! other) /\
  wrap 64 (Consumed (metrics buffer')) = wrap 64 (Consumed (metrics buffer) + zlen consumed).
Proof.
  intros id matches Hid inputs. unfold consumeForObject. fold id. fold matches.
  rewrite decide_False by done. apply consume_with_exact.
Qed.

End InputBuffer.

(** ** Witnesses *)
Definition example_input (client : string) (sequence tick : Z) : ClientInput (Payload := unit) :=
  mkInput client sequence tick "player" "p1" "" tt 1.
Definition example_buffer : inputBuffer (Payload := unit) :=
  (add newInputBuffer (example_input "c" 1 10) 10 DefaultConfig 1).1.

Lemma add_window_witness :
  (add example_buffer (example_input " c " 2 7) 10 DefaultConfig 1).2 = Err ErrStaleClientInput.
Proof.
  pose proof (add_window example_buffer (example_input " c " 2 7) 10 DefaultConfig 1) as H.
  cbv zeta in H. destruct (add _ _ _ _ _) as [b o]. destruct H as [H _];
    [vm_compute; intuition discriminate .. |].
  cbn [snd]. rewrite H. vm_compute. reflexivity.
Defined.

Lemma add_accepts_witness :
  exists dropped kept, dropped ++ kept =
    sortClientInputs [example_input "c" 1 10; example_input "c" 2 9].
Proof.
  destruct (add_accepts example_buffer (example_input "c" 2 9) 10 DefaultConfig 1
    (add example_buffer (example_input "c" 2 9) 10 DefaultConfig 1).1) as (d & k & H & _).
  - reflexivity.
  - vm_compute. reflexivity.
  - exists d, k. rewrite H. vm_compute. reflexivity.
Defined.

Lemma consumeForObject_exact_witness :
  (consumeForObject (fun a b => bool_decide (a = b)) example_buffer "c" 10 "player" "p1").2 =
    [example_input "c" 1 10].
Proof.
  pose proof (consumeForObject_exact (fun a b => bool_decide (a = b)) example_buffer "c" 10
    "player" "p1") as H.
  cbv zeta in H. destruct (consumeForObject _ _ _ _ _ _) as [b o].
  destruct H as [H _]; [discriminate|]. cbn [snd]. rewrite H. vm_compute. reflexivity.
Defined.
