(* ===== verification/Registry.v ===== *)
(** * The wire message registry

    [network/wire_registry.go].  A Go [any] that holds a message is a [GoAny]: the
    value itself, a pointer to it, a nil pointer of its type, or nil.  A handler
    acts on a [World] that stands for everything a handler can reach (the runtime,
    the transport); it is a parameter. *)
From S2P Require Import Prelude Buffer Values Snapshot Messages Packet.

(** ** Message ids and ranges *)
Definition WireMessageUnknown : WireMessageType := 0.
Definition WireMessageClientHello : WireMessageType := 0x0001.
Definition WireMessageWelcome : WireMessageType := 0x0002.
Definition WireMessagePing : WireMessageType := 0x0003.
Definition WireMessagePong : WireMessageType := 0x0004.
Definition WireMessageError : WireMessageType := 0x0005.
Definition WireMessageDisconnect : WireMessageType := 0x0006.
Definition WireMessageObjectRequest : WireMessageType := 0x0100.
Definition WireMessagePlayerInput : WireMessageType := 0x0101.
Definition WireMessageWorldSnapshot : WireMessageType := 0x0102.
Definition WireMessageEntitySpawn : WireMessageType := 0x0103.
Definition WireMessageEntityDespawn : WireMessageType := 0x0104.
Definition WireMessageEntityUpdate : WireMessageType := 0x0105.
Definition WireMessageDeltaSnapshot : WireMessageType := 0x0106.
Definition WireMessageClientInput : WireMessageType := 0x0107.

Definition WireMessageSystemMin : WireMessageType := 0x0000.
Definition WireMessageSystemMax : WireMessageType := 0x00ff.
Definition WireMessageEngineMin : WireMessageType := 0x0100.
Definition WireMessageEngineMax : WireMessageType := 0x0fff.
Definition WireMessageGameMin : WireMessageType := 0x1000.
Definition WireMessageGameMax : WireMessageType := 0xffff.

Definition wireMessageIDInKnownRange (id : WireMessageType) : bool :=
  ((WireMessageSystemMin <=? id) && (id <=? WireMessageSystemMax)) ||
  ((WireMessageEngineMin <=? id) && (id <=? WireMessageEngineMax)) ||
  ((WireMessageGameMin <=? id) && (id <=? WireMessageGameMax)).

(** ** Messages as Go values *)
Record UnknownWireMessage := mkUnknownWire { unknown_Type : WireMessageType; unknown_Payload : bytes }.

Record AuthenticationResponse := mkAuthResponse {
  authr_Type : string;
  authr_Sequence : Z;
  authr_OK : bool;
  authr_ClientID : string;
  authr_AuthenticatedID : string
}.

Record ResponseMessage := mkResponse {
  resp_Type : string;
  resp_Sequence : Z;
  resp_OK : bool;
  resp_Error : string;
  resp_Data : GoValue
}.

(** The struct types that travel as [any].  [MOther] is any other named type, by
    its name and its value. *)
Inductive GoMessage :=
| MClientHello (m : ClientHello)
| MWelcome (m : Welcome)
| MPing (m : Ping)
| MPong (m : Pong)
| MErrorMessage (m : ErrorMessage)
| MDisconnectMessage (m : DisconnectMessage)
| MObjectRequest (m : ObjectRequest)
| MPlayerInput (m : PlayerInput)
| MGenericClientInput (m : GenericClientInput)
| MWorldSnapshot (m : WorldSnapshot)
| MWorldDeltaSnapshot (m : WorldDeltaSnapshot)
| MEntitySpawn (m : EntitySpawn)
| MEntityDespawn (m : EntityDespawn)
| MEntityUpdate (m : EntityUpdate)
| MChatMessage (m : ChatMessage)
| MUnknownWireMessage (m : UnknownWireMessage)
| MAuthenticationResponse (m : AuthenticationResponse)
| MResponseMessage (m : ResponseMessage)
| MWireDelivery (message : GoAny) (class : DeliveryClass)
| MWirePriority (message : GoAny) (priority : Z)
| MOther (name : string) (value : GoValue)
with GoAny :=
| AnyNil
| AnyValue (m : GoMessage)
| AnyPointer (m : GoMessage)
| AnyNilPointer (name : string).

(** A [reflect.Type] is the name of a type under some number of pointers. *)
Definition GoType : Type := string * nat.

Definition type_name (m : GoMessage) : string :=
  match m with
  | MClientHello _ => "network.ClientHello"
  | MWelcome _ => "network.Welcome"
  | MPing _ => "network.Ping"
  | MPong _ => "network.Pong"
  | MErrorMessage _ => "network.ErrorMessage"
  | MDisconnectMessage _ => "network.DisconnectMessage"
  | MObjectRequest _ => "network.ObjectRequest"
  | MPlayerInput _ => "network.PlayerInput"
  | MGenericClientInput _ => "network.GenericClientInput"
  | MWorldSnapshot _ => "network.WorldSnapshot"
  | MWorldDeltaSnapshot _ => "network.WorldDeltaSnapshot"
  | MEntitySpawn _ => "network.EntitySpawn"
  | MEntityDespawn _ => "network.EntityDespawn"
  | MEntityUpdate _ => "network.EntityUpdate"
  | MChatMessage _ => "network.ChatMessage"
  | MUnknownWireMessage _ => "network.UnknownWireMessage"
  | MAuthenticationResponse _ => "network.AuthenticationResponse"
  | MResponseMessage _ => "network.ResponseMessage"
  | MWireDelivery _ _ => "network.WireDelivery"
  | MWirePriority _ _ => "network.WirePriority"
  | MOther name _ => name
  end.

(** [reflect.TypeOf]. *)
Definition TypeOf (message : GoAny) : option GoType :=
  match message with
  | AnyNil => None
  | AnyValue m => Some (type_name m, 0%nat)
  | AnyPointer m => Some (type_name m, 1%nat)
  | AnyNilPointer name => Some (name, 1%nat)
  end.

(** [if t.Kind() == reflect.Pointer { t = t.Elem() }]. *)
Definition elem_if_pointer (t : GoType) : GoType := (t.1, pred t.2).

(** A message struct type among the Go values. *)
Class GoStruct (A : Type) := mkGoStruct {
  gs_name : string;
  gs_in : A -> GoMessage;
  gs_out : GoMessage -> option A
}.

Class GoStructLaws (A : Type) `{GoStruct A} : Prop := {
  gs_out_in (a : A) : gs_out (gs_in a) = Some a;
  gs_in_name (a : A) : type_name (gs_in a) = gs_name
}.

#[export] Instance ClientHello_struct : GoStruct ClientHello :=
  mkGoStruct _ "network.ClientHello" MClientHello (fun m => match m with MClientHello a => Some a | _ => None end).
#[export] Instance Welcome_struct : GoStruct Welcome :=
  mkGoStruct _ "network.Welcome" MWelcome (fun m => match m with MWelcome a => Some a | _ => None end).
#[export] Instance Ping_struct : GoStruct Ping :=
  mkGoStruct _ "network.Ping" MPing (fun m => match m with MPing a => Some a | _ => None end).
#[export] Instance Pong_struct : GoStruct Pong :=
  mkGoStruct _ "network.Pong" MPong (fun m => match m with MPong a => Some a | _ => None end).
#[export] Instance ErrorMessage_struct : GoStruct ErrorMessage :=
  mkGoStruct _ "network.ErrorMessage" MErrorMessage (fun m => match m with MErrorMessage a => Some a | _ => None end).
#[export] Instance DisconnectMessage_struct : GoStruct DisconnectMessage :=
  mkGoStruct _ "network.DisconnectMessage" MDisconnectMessage (fun m => match m with MDisconnectMessage a => Some a | _ => None end).
#[export] Instance ObjectRequest_struct : GoStruct ObjectRequest :=
  mkGoStruct _ "network.ObjectRequest" MObjectRequest (fun m => match m with MObjectRequest a => Some a | _ => None end).
#[export] Instance PlayerInput_struct : GoStruct PlayerInput :=
  mkGoStruct _ "network.PlayerInput" MPlayerInput (fun m => match m with MPlayerInput a => Some a | _ => None end).
#[export] Instance GenericClientInput_struct : GoStruct GenericClientInput :=
  mkGoStruct _ "network.GenericClientInput" MGenericClientInput (fun m => match m with MGenericClientInput a => Some a | _ => None end).
#[export] Instance WorldSnapshot_struct : GoStruct WorldSnapshot :=
  mkGoStruct _ "network.WorldSnapshot" MWorldSnapshot (fun m => match m with MWorldSnapshot a => Some a | _ => None end).
#[export] Instance WorldDeltaSnapshot_struct : GoStruct WorldDeltaSnapshot :=
  mkGoStruct _ "network.WorldDeltaSnapshot" MWorldDeltaSnapshot (fun m => match m with MWorldDeltaSnapshot a => Some a | _ => None end).
#[export] Instance EntitySpawn_struct : GoStruct EntitySpawn :=
  mkGoStruct _ "network.EntitySpawn" MEntitySpawn (fun m => match m with MEntitySpawn a => Some a | _ => None end).
#[export] Instance EntityDespawn_struct : GoStruct EntityDespawn :=
  mkGoStruct _ "network.EntityDespawn" MEntityDespawn (fun m => match m with MEntityDespawn a => Some a | _ => None end).
#[export] Instance EntityUpdate_struct : GoStruct EntityUpdate :=
  mkGoStruct _ "network.EntityUpdate" MEntityUpdate (fun m => match m with MEntityUpdate a => Some a | _ => None end).

#[export] Instance ClientHello_struct_laws : GoStructLaws ClientHello. Proof. by split. Qed.
#[export] Instance Welcome_struct_laws : GoStructLaws Welcome. Proof. by split. Qed.
#[export] Instance Ping_struct_laws : GoStructLaws Ping. Proof. by split. Qed.
#[export] Instance Pong_struct_laws : GoStructLaws Pong. Proof. by split. Qed.
#[export] Instance ErrorMessage_struct_laws : GoStructLaws ErrorMessage. Proof. by split. Qed.
#[export] Instance DisconnectMessage_struct_laws : GoStructLaws DisconnectMessage. Proof. by split. Qed.
#[export] Instance ObjectRequest_struct_laws : GoStructLaws ObjectRequest. Proof. by split. Qed.
#[export] Instance PlayerInput_struct_laws : GoStructLaws PlayerInput. Proof. by split. Qed.
#[export] Instance GenericClientInput_struct_laws : GoStructLaws GenericClientInput. Proof. by split. Qed.
#[export] Instance WorldSnapshot_struct_laws : GoStructLaws WorldSnapshot. Proof. by split. Qed.
#[export] Instance WorldDeltaSnapshot_struct_laws : GoStructLaws WorldDeltaSnapshot. Proof. by split. Qed.
#[export] Instance EntitySpawn_struct_laws : GoStructLaws EntitySpawn. Proof. by split. Qed.
#[export] Instance EntityDespawn_struct_laws : GoStructLaws EntityDespawn. Proof. by split. Qed.
#[export] Instance EntityUpdate_struct_laws : GoStructLaws EntityUpdate. Proof. by split. Qed.

(** ** Typed access *)

(** [v, ok := message.(T); if !ok { pointer, ok := message.( *T); v = *pointer }]:
    the value, if the message is a [T] or a pointer to one. *)
Definition as_struct {A} `{GoStruct A} (message : GoAny) : result (option A) :=
  match message with
  | AnyValue m | AnyPointer m => Ok (gs_out m)
  | AnyNilPointer name => if decide (name = gs_name) then Err ErrPanic else Ok None
  | AnyNil => Ok None
  end.

(** The bodies of the [encode...Any] and [decode...Any] adapters. *)
Definition encode_any {A} `{GoStruct A} (encode : A -> result bytes) (message : GoAny) : result bytes :=
  let! value := as_struct message in
  match value with Some a => encode a | None => Err ErrPanic end.

Definition decode_any {A} `{GoStruct A} (decode : bytes -> result A) (payload : bytes) : result GoAny :=
  let! a := decode payload in Ok (AnyValue (gs_in a)).

Definition encodeClientHelloAny := encode_any EncodeClientHello.
Definition decodeClientHelloAny := decode_any DecodeClientHello.
Definition encodeObjectRequestAny := encode_any EncodeObjectRequest.
Definition decodeObjectRequestAny := decode_any DecodeObjectRequest.
Definition encodePlayerInputAny := encode_any EncodePlayerInput.
Definition decodePlayerInputAny := decode_any DecodePlayerInput.
Definition encodeGenericClientInputAny := encode_any EncodeGenericClientInput.
Definition decodeGenericClientInputAny := decode_any DecodeGenericClientInput.
Definition encodePingAny := encode_any EncodePing.
Definition decodePingAny := decode_any DecodePing.
Definition encodePongAny := encode_any EncodePong.
Definition decodePongAny := decode_any DecodePong.
Definition encodeWelcomeAny := encode_any EncodeWelcome.
Definition decodeWelcomeAny := decode_any DecodeWelcome.
Definition encodeWorldSnapshotAny := encode_any EncodeWorldSnapshot.
Definition decodeWorldSnapshotAny := decode_any DecodeWorldSnapshot.
Definition encodeWorldDeltaSnapshotAny := encode_any EncodeWorldDeltaSnapshot.
Definition decodeWorldDeltaSnapshotAny := decode_any DecodeWorldDeltaSnapshot.
Definition encodeEntitySpawnAny := encode_any EncodeEntitySpawn.
Definition decodeEntitySpawnAny := decode_any DecodeEntitySpawn.
Definition encodeEntityDespawnAny := encode_any EncodeEntityDespawn.
Definition decodeEntityDespawnAny := decode_any DecodeEntityDespawn.
Definition encodeEntityUpdateAny := encode_any EncodeEntityUpdate.
Definition decodeEntityUpdateAny := decode_any DecodeEntityUpdate.
Definition encodeErrorMessageAny := encode_any EncodeErrorMessage.
Definition decodeErrorMessageAny := decode_any DecodeErrorMessage.
Definition encodeDisconnectMessageAny := encode_any EncodeDisconnectMessage.
Definition decodeDisconnectMessageAny := decode_any DecodeDisconnectMessage.

(** ** Validators *)
Definition validateClientHello (message : GoAny) : result unit :=
  let! value := as_struct message in
  match value with
  | None => Err (ErrOther "expected ClientHello")
  | Some hello =>
      if (MaxWireStringBytes <? slen (hello_ClientName hello)) ||
         (MaxWireStringBytes <? slen (hello_Token hello))
      then Err ErrWireStringTooLarge else Ok tt
  end.

Definition validateObjectRequest (message : GoAny) : result unit :=
  let! value := as_struct message in
  match value with
  | None => Err (ErrOther "expected ObjectRequest")
  | Some request =>
      if decide (req_ObjectType request = ""%string) then Err ErrMissingObjectType
      else if decide (req_ObjectID request = ""%string) then Err ErrMissingObjectID
      else if MaxWireMessagePayloadSize <? zlen (req_Data request) then Err ErrWireMessageTooLarge
      else Ok tt
  end.

Definition validatePlayerInput (message : GoAny) : result unit :=
  let! value := as_struct message in
  match value with
  | None => Err (ErrOther "expected PlayerInput")
  | Some input =>
      if decide (pin_ObjectID input = ""%string) then Err ErrMissingObjectID else Ok tt
  end.

Definition validateGenericClientInput (message : GoAny) : result unit :=
  let! value := as_struct message in
  match value with
  | None => Err (ErrOther "expected GenericClientInput")
  | Some input =>
      if MaxWireMessagePayloadSize <? zlen (gci_Payload input) then Err ErrWireMessageTooLarge
      else Ok tt
  end.

(** Only values are looked at, not pointers. *)
Definition validateCodeMessage (message : GoAny) : result unit :=
  match message with
  | AnyValue (MErrorMessage value) =>
      if MaxWireStringBytes <? slen (err_Message value) then Err ErrWireStringTooLarge else Ok tt
  | AnyValue (MDisconnectMessage value) =>
      if MaxWireStringBytes <? slen (disc_Message value) then Err ErrWireStringTooLarge else Ok tt
  | _ => Ok tt
  end.

(** ** The registry *)
Definition WireMessageDirection := Z.
Definition WireDirectionBoth : WireMessageDirection := 0.
Definition WireDirectionClientToServer : WireMessageDirection := 1.
Definition WireDirectionServerToClient : WireMessageDirection := 2.

Section Registry.
Context {World : Type}.

(** [ResponseWriter]: [None] is the nil writer. *)
Definition ResponseWriter : Type := option (GoAny -> World -> World * result unit).

Definition Respond (writer : ResponseWriter) (message : GoAny) (world : World) : World * result unit :=
  match writer with
  | None => (world, Err ErrResponsesUnsupported)
  | Some respond => respond message world
  end.

(** The field [Runtime] is part of the world. *)
Record WireMessageContext := mkContext {
  ctx_Transport : string;
  ctx_ClientID : string;
  ctx_Sequence : Z;
  ctx_Ack : Z;
  ctx_AckBits : Z;
  ctx_ReceivedAt : Z;
  ctx_MessageID : WireMessageType;
  ctx_Message : GoAny;
  ctx_Response : ResponseWriter
}.

Definition WireMessageHandler : Type := WireMessageContext -> World -> World * result unit.

Record WireMessageDefinition := mkDefinition {
  def_ID : WireMessageType;
  def_Name : string;
  def_Direction : WireMessageDirection;
  def_Delivery : DeliveryClass;
  def_MessageType : option GoType;
  def_Encode : option (GoAny -> result bytes);
  def_Decode : option (bytes -> result GoAny);
  def_Validate : option (GoAny -> result unit);
  def_Handler : option WireMessageHandler
}.

Record WireMessageRegistry := mkRegistry {
  byID : gmap WireMessageType WireMessageDefinition;
  byType : gmap GoType WireMessageDefinition
}.

Definition NewWireMessageRegistry : WireMessageRegistry := mkRegistry ∅ ∅.

Definition set_MessageType (d : WireMessageDefinition) (t : GoType) : WireMessageDefinition :=
  mkDefinition (def_ID d) (def_Name d) (def_Direction d) (def_Delivery d) (Some t) (def_Encode d)
    (def_Decode d) (def_Validate d) (def_Handler d).

(** [Register] on a registry that is not nil. *)
Definition Register (registry : WireMessageRegistry) (definition : WireMessageDefinition)
    : WireMessageRegistry * result unit :=
  if decide (def_Name definition = ""%string) then (registry, Err ErrMissingWireMessageName)
  else match def_MessageType definition with
  | None => (registry, Err ErrMissingWireMessageType)
  | Some t =>
      let messageType := elem_if_pointer t in
      let definition := set_MessageType definition messageType in
      match def_Encode definition, def_Decode definition with
      | Some _, Some _ =>
          match validateDeliveryClass (def_Delivery definition) with
          | Err e => (registry, Err e)
          | Ok _ =>
              if negb (wireMessageIDInKnownRange (def_ID definition)) then
                (registry, Err ErrWireMessageTypeOutOfRange)
              else if decide (is_Some (byID registry !! def_ID definition)) then
                (registry, Err ErrWireMessageRegistered)
              else if decide (is_Some (byType registry !! messageType)) then
                (registry, Err ErrWireMessageRegistered)
              else
                (mkRegistry (<[def_ID definition := definition]> (byID registry))
                            (<[messageType := definition]> (byType registry)), Ok tt)
          end
      | _, _ => (registry, Err ErrMissingWireMessageCodec)
      end
  end.

(** [Definition]; [None] is the nil registry. *)
Definition Definition_ (registry : option WireMessageRegistry) (id : WireMessageType)
    : option WireMessageDefinition :=
  match registry with None => None | Some r => byID r !! id end.

(** The sentinel of the validator's own error is not wrapped; a panic goes through. *)
Definition validateWireMessage (definition : WireMessageDefinition) (message : GoAny) : result unit :=
  match def_Validate definition with
  | None => Ok tt
  | Some validate =>
      match validate message with
      | Ok _ => Ok tt
      | Err ErrPanic => Err ErrPanic
      | Err _ => Err ErrWireMessageValidation
      end
  end.

Definition EncodeMessage (registry : option WireMessageRegistry) (message : GoAny)
    : result WireMessage :=
  match registry with
  | None => Err ErrMissingWireMessageRegistry
  | Some r =>
      match TypeOf message with
      | None => Err ErrUnsupportedWireMessage
      | Some messageType =>
          match byType r !! elem_if_pointer messageType with
          | None => Err ErrUnsupportedWireMessage
          | Some definition =>
              let! _ := validateWireMessage definition message in
              let! payload :=
                match def_Encode definition with
                | Some encode => encode message
                | None => Err ErrPanic
                end in
              Ok (mkWireMessage (def_ID definition) payload (def_Delivery definition) 0)
          end
      end
  end.

Definition DecodeMessage (registry : option WireMessageRegistry) (message : WireMessage)
    : result GoAny :=
  match registry with
  | None => Err ErrMissingWireMessageRegistry
  | Some _ =>
      match Definition_ registry (msg_Type message) with
      | None => Ok (AnyValue (MUnknownWireMessage (mkUnknownWire (msg_Type message) (msg_Payload message))))
      | Some definition =>
          let! decoded :=
            match def_Decode definition with
            | Some decode => decode (msg_Payload message)
            | None => Err ErrPanic
            end in
          let! _ := validateWireMessage definition decoded in
          Ok decoded
      end
  end.

Definition Dispatch (registry : option WireMessageRegistry) (ctx : WireMessageContext) (world : World)
    : World * bool * result unit :=
  match registry with
  | None => (world, false, Err ErrMissingWireMessageRegistry)
  | Some _ =>
      match Definition_ registry (ctx_MessageID ctx) with
      | None => (world, false, Ok tt)
      | Some definition =>
          match def_Handler definition with
          | None => (world, false, Ok tt)
          | Some handler => let (world, e) := handler ctx world in (world, true, e)
          end
      end
  end.

Definition handleWirePing (ctx : WireMessageContext) (world : World) : World * result unit :=
  match ctx_Message ctx, ctx_Response ctx with
  | AnyValue (MPing ping), Some respond => respond (AnyValue (MPong (mkPong (ping_Nonce ping)))) world
  | _, _ => (world, Ok tt)
  end.

Definition mustRegisterWireMessage (registry : WireMessageRegistry) (definition : WireMessageDefinition)
    : result WireMessageRegistry :=
  match Register registry definition with
  | (registry, Ok _) => Ok registry
  | (_, Err _) => Err ErrPanic
  end.

(** [reflect.TypeOf(T{})]. *)
Definition struct_type (A : Type) `{GoStruct A} : option GoType := Some (gs_name, 0%nat).

Definition default_definitions : list WireMessageDefinition := [
  mkDefinition WireMessageClientHello "protocol.hello" WireDirectionClientToServer DeliveryUnreliable
    (struct_type ClientHello) (Some encodeClientHelloAny) (Some decodeClientHelloAny)
    (Some validateClientHello) None;
  mkDefinition WireMessageWelcome "protocol.welcome" WireDirectionServerToClient DeliveryUnreliable
    (struct_type Welcome) (Some encodeWelcomeAny) (Some decodeWelcomeAny) None None;
  mkDefinition WireMessagePing "protocol.ping" WireDirectionClientToServer DeliveryUnreliable
    (struct_type Ping) (Some encodePingAny) (Some decodePingAny) None (Some handleWirePing);
  mkDefinition WireMessagePong "protocol.pong" WireDirectionServerToClient DeliveryUnreliable
    (struct_type Pong) (Some encodePongAny) (Some decodePongAny) None None;
  mkDefinition WireMessageError "protocol.error" WireDirectionServerToClient DeliveryUnreliable
    (struct_type ErrorMessage) (Some encodeErrorMessageAny) (Some decodeErrorMessageAny)
    (Some validateCodeMessage) None;
  mkDefinition WireMessageDisconnect "protocol.disconnect" WireDirectionServerToClient DeliveryUnreliable
    (struct_type DisconnectMessage) (Some encodeDisconnectMessageAny) (Some decodeDisconnectMessageAny)
    (Some validateCodeMessage) None;
  mkDefinition WireMessageObjectRequest "engine.object_request" WireDirectionClientToServer
    DeliveryUnreliable (struct_type ObjectRequest) (Some encodeObjectRequestAny)
    (Some decodeObjectRequestAny) (Some validateObjectRequest) None;
  mkDefinition WireMessagePlayerInput "engine.player_input" WireDirectionClientToServer
    DeliveryUnreliable (struct_type PlayerInput) (Some encodePlayerInputAny)
    (Some decodePlayerInputAny) (Some validatePlayerInput) None;
  mkDefinition WireMessageClientInput "engine.client_input" WireDirectionClientToServer
    DeliveryUnreliable (struct_type GenericClientInput) (Some encodeGenericClientInputAny)
    (Some decodeGenericClientInputAny) (Some validateGenericClientInput) None;
  mkDefinition WireMessageWorldSnapshot "engine.world_snapshot" WireDirectionServerToClient
    DeliveryUnreliable (struct_type WorldSnapshot) (Some encodeWorldSnapshotAny)
    (Some decodeWorldSnapshotAny) None None;
  mkDefinition WireMessageDeltaSnapshot "engine.delta_snapshot" WireDirectionServerToClient
    DeliveryUnreliable (struct_type WorldDeltaSnapshot) (Some encodeWorldDeltaSnapshotAny)
    (Some decodeWorldDeltaSnapshotAny) None None;
  mkDefinition WireMessageEntitySpawn "engine.entity_spawn" WireDirectionServerToClient
    DeliveryUnreliable (struct_type EntitySpawn) (Some encodeEntitySpawnAny)
    (Some decodeEntitySpawnAny) None None;
  mkDefinition WireMessageEntityDespawn "engine.entity_despawn" WireDirectionServerToClient
    DeliveryUnreliable (struct_type EntityDespawn) (Some encodeEntityDespawnAny)
    (Some decodeEntityDespawnAny) None None;
  mkDefinition WireMessageEntityUpdate "engine.entity_update" WireDirectionServerToClient
    DeliveryUnreliable (struct_type EntityUpdate) (Some encodeEntityUpdateAny)
    (Some decodeEntityUpdateAny) None None
].

Fixpoint register_all (registry : WireMessageRegistry) (definitions : list WireMessageDefinition)
    : result WireMessageRegistry :=
  match definitions with
  | [] => Ok registry
  | definition :: definitions =>
      let! registry := mustRegisterWireMessage registry definition in
      register_all registry definitions
  end.

Definition NewDefaultWireMessageRegistry : result WireMessageRegistry :=
  register_all NewWireMessageRegistry default_definitions.

(** The process-wide registry: building it panics if it cannot be built. *)
Definition DefaultWireMessages : option WireMessageRegistry :=
  match NewDefaultWireMessageRegistry with Ok r => Some r | Err _ => None end.

Definition EncodeClientMessage (message : GoAny) : result WireMessage := EncodeMessage DefaultWireMessages message.
Definition DecodeClientMessage (message : WireMessage) : result GoAny := DecodeMessage DefaultWireMessages message.
Definition EncodeServerMessage (message : GoAny) : result WireMessage := EncodeMessage DefaultWireMessages message.
Definition DecodeServerMessage (message : WireMessage) : result GoAny := DecodeMessage DefaultWireMessages message.

(** ** Invariant *)
Record definition_ok (d : WireMessageDefinition) : Prop := {
  do_name : def_Name d <> ""%string;
  do_codec : is_Some (def_Encode d) /\ is_Some (def_Decode d);
  do_delivery : validateDeliveryClass (def_Delivery d) = Ok tt;
  do_range : wireMessageIDInKnownRange (def_ID d) = true
}.

(** Both maps hold the same well-formed definitions, each under its own key. *)
Record registry_ok (r : WireMessageRegistry) : Prop := {
  ro_byID id d : byID r !! id = Some d ->
    definition_ok d /\ def_ID d = id /\
    exists t, def_MessageType d = Some t /\ byType r !! t = Some d;
  ro_byType t d : byType r !! t = Some d ->
    def_MessageType d = Some t /\ byID r !! def_ID d = Some d
}.

Lemma NewWireMessageRegistry_ok : registry_ok NewWireMessageRegistry.
Proof. split; intros ? ?; simpl; by rewrite lookup_empty. Qed.

(** What [Register] does, by cases. *)
Inductive registered (r : WireMessageRegistry) (d : WireMessageDefinition)
    : WireMessageRegistry -> result unit -> Prop :=
| registered_ok t :
    def_MessageType d = Some t -> definition_ok d ->
    byID r !! def_ID d = None -> byType r !! elem_if_pointer t = None ->
    registered r d
      (let d' := set_MessageType d (elem_if_pointer t) in
       mkRegistry (<[def_ID d := d']> (byID r)) (<[elem_if_pointer t := d']> (byType r))) (Ok tt)
| registered_bad e :
    (e = ErrMissingWireMessageName /\ def_Name d = ""%string \/
     e = ErrMissingWireMessageType /\ def_MessageType d = None \/
     e = ErrMissingWireMessageCodec /\ (def_Encode d = None \/ def_Decode d = None) \/
     validateDeliveryClass (def_Delivery d) = Err e \/
     e = ErrWireMessageTypeOutOfRange /\ wireMessageIDInKnownRange (def_ID d) = false \/
     e = ErrWireMessageRegistered /\
       (is_Some (byID r !! def_ID d) \/
        exists t, def_MessageType d = Some t /\ is_Some (byType r !! elem_if_pointer t))) ->
    registered r d r (Err e).

Lemma Register_spec r d : registered r d (Register r d).1 (Register r d).2.
Proof.
  unfold Register. destruct (decide (def_Name d = ""%string)) as [Hn|Hn];
    [apply registered_bad; tauto|].
  destruct (def_MessageType d) as [t|] eqn:Ht; [|apply registered_bad; tauto].
  cbn [def_Encode def_Decode def_Delivery def_ID set_MessageType].
  destruct (def_Encode d) eqn:He; [|apply registered_bad; tauto].
  destruct (def_Decode d) eqn:Hd; [|apply registered_bad; tauto].
  destruct (validateDeliveryClass (def_Delivery d)) as [[]|e] eqn:Hv; [|apply registered_bad; tauto].
  destruct (wireMessageIDInKnownRange (def_ID d)) eqn:Hr; cbn [negb]; [|apply registered_bad; tauto].
  destruct (decide (is_Some (byID r !! def_ID d))) as [Hi|Hi]; [apply registered_bad; tauto|].
  destruct (decide (is_Some (byType r !! elem_if_pointer t))) as [Hy|Hy];
    [apply registered_bad; do 5 right; split; [done | right; eauto]|].
  apply (registered_ok r d t); [done | | by apply eq_None_not_Some | by apply eq_None_not_Some].
  split; [done | by rewrite He, Hd | done | done].
Qed.

Lemma Register_ok r d : registry_ok r -> registry_ok (Register r d).1.
Proof.
  intros Hok. destruct (Register_spec r d) as [t Ht Hd Hi Hy|]; [|done].
  cbn zeta. set (t' := elem_if_pointer t) in *. set (d' := set_MessageType d t').
  split; cbn [byID byType].
  - intros id x [[<- <-]|[Hne Hx]]%lookup_insert_Some.
    + split_and!; [by destruct Hd; split | done |]. exists t'. split; [done | by rewrite lookup_insert_eq].
    + destruct (ro_byID r Hok _ _ Hx) as (? & ? & tx & Htx & Hbt). split_and!; [done..|].
      exists tx. split; [done|]. rewrite lookup_insert_ne; [done|]. intros <-. by rewrite Hy in Hbt.
  - intros tx x [[<- <-]|[Hne Hx]]%lookup_insert_Some.
    + split; [done|]. cbn [def_ID set_MessageType d']. by rewrite lookup_insert_eq.
    + destruct (ro_byType r Hok _ _ Hx) as [? Hbi]. split; [done|].
      rewrite lookup_insert_ne; [done|]. intros E. rewrite <- E in Hbi. by rewrite Hi in Hbi.
Qed.

Lemma Register_keeps r d id x :
  byID r !! id = Some x -> byID (Register r d).1 !! id = Some x.
Proof.
  intros Hx. destruct (Register_spec r d) as [t Ht Hd Hi Hy|]; [|done]. cbn [byID].
  rewrite lookup_insert_ne; [done|]. intros E. rewrite <- E in Hx. by rewrite Hi in Hx.
Qed.

Lemma Register_keeps_type r d t x :
  byType r !! t = Some x -> byType (Register r d).1 !! t = Some x.
Proof.
  intros Hx. destruct (Register_spec r d) as [t' Ht Hd Hi Hy|]; [|done]. cbn [byType].
  rewrite lookup_insert_ne; [done|]. intros E. rewrite <- E in Hx. by rewrite Hy in Hx.
Qed.

(** *** Registering several *)
Lemma mustRegister_inv r d r' :
  mustRegisterWireMessage r d = Ok r' -> r' = (Register r d).1 /\ (Register r d).2 = Ok tt.
Proof.
  unfold mustRegisterWireMessage. destruct (Register r d) as [r1 [[]|e]]; [|done].
  by intros [= <-].
Qed.

Lemma register_all_ok ds : forall r r', register_all r ds = Ok r' -> registry_ok r -> registry_ok r'.
Proof.
  induction ds as [|d ds IH]; intros r r' H Hok; cbn [register_all] in H; [by injection H as <-|].
  destruct (mustRegisterWireMessage r d) as [r1|] eqn:E; [|done]. cbn [rbind] in H.
  apply mustRegister_inv in E as [-> _]. by eapply IH, Register_ok.
Qed.

Lemma register_all_keeps ds : forall r r' id x,
  register_all r ds = Ok r' -> byID r !! id = Some x -> byID r' !! id = Some x.
Proof.
  induction ds as [|d ds IH]; intros r r' id x H Hx; cbn [register_all] in H; [by injection H as <-|].
  destruct (mustRegisterWireMessage r d) as [r1|] eqn:E; [|done]. cbn [rbind] in H.
  apply mustRegister_inv in E as [-> _]. by eapply IH, Register_keeps.
Qed.

(** Every definition of the list is found under its id. *)
Lemma register_all_lookup ds : forall r r' d t,
  register_all r ds = Ok r' -> d ∈ ds -> def_MessageType d = Some t -> elem_if_pointer t = t ->
  byID r' !! def_ID d = Some d.
Proof.
  induction ds as [|d0 ds IH]; intros r r' d t H Hd Ht He; cbn [register_all] in H;
    [by apply elem_of_nil in Hd|].
  destruct (mustRegisterWireMessage r d0) as [r1|] eqn:E; [|done]. cbn [rbind] in H.
  apply elem_of_cons in Hd as [->|Hd]; [|by eapply IH].
  apply mustRegister_inv in E as [-> Hreg]. eapply register_all_keeps; [exact H|].
  destruct (Register_spec r d0) as [t' Ht' _ _ _|]; [|done]. cbn [byID].
  rewrite lookup_insert_eq. f_equal. rewrite Ht in Ht'. injection Ht' as <-. rewrite He.
  destruct d0; cbn in *. by rewrite Ht.
Qed.

Lemma NewDefault_ok : is_ok NewDefaultWireMessageRegistry = true.
Proof. vm_compute. reflexivity. Qed.

(** ** Messages through the registry *)

(** The definition carries the codec of [A]. *)
Record carries (d : WireMessageDefinition) (A : Type) `{GoStruct A, WireCodec A} : Prop := {
  ca_type : def_MessageType d = struct_type A;
  ca_encode : def_Encode d = Some (encode_any wc_encode);
  ca_decode : def_Decode d = Some (decode_any wc_decode);
  ca_delivery : def_Delivery d = DeliveryUnreliable
}.

Section Carried.
Context {A : Type} `{GoStruct A, !GoStructLaws A, WireCodec A, !WireCodecLaws A}.
Implicit Types (r : WireMessageRegistry) (d : WireMessageDefinition).

Lemma EncodeMessage_carried r d (a : A) :
  registry_ok r -> byID r !! def_ID d = Some d -> carries d A ->
  EncodeMessage (Some r) (AnyValue (gs_in a)) =
    (let! _ := validateWireMessage d (AnyValue (gs_in a)) in
     let! payload := wc_encode a in
     Ok (mkWireMessage (def_ID d) payload DeliveryUnreliable 0)).
Proof.
  intros Hok Hd [Ht He _ Hdel]. unfold EncodeMessage, TypeOf. rewrite gs_in_name. cbn [elem_if_pointer fst snd pred].
  destruct (ro_byID _ Hok _ _ Hd) as (_ & _ & t & Ht' & Hbt). rewrite Ht in Ht'. injection Ht' as <-.
  change (elem_if_pointer (gs_name, 0%nat)) with (@gs_name A _, 0%nat). rewrite Hbt, He.
  unfold encode_any, as_struct. rewrite gs_out_in, Hdel. done.
Qed.

Lemma DecodeMessage_carried r d w :
  byID r !! def_ID d = Some d -> carries d A -> msg_Type w = def_ID d ->
  DecodeMessage (Some r) w =
    (let! a := wc_decode (msg_Payload w) in
     let! _ := validateWireMessage d (AnyValue (gs_in a)) in
     Ok (AnyValue (gs_in a))).
Proof.
  intros Hd [_ _ Hdec _] Hty. unfold DecodeMessage, Definition_. rewrite Hty, Hd, Hdec.
  unfold decode_any. by destruct (wc_decode (msg_Payload w)).
Qed.

Lemma carried_roundtrip r d (a : A) w :
  registry_ok r -> byID r !! def_ID d = Some d -> carries d A -> wc_typed a ->
  (validateWireMessage d (AnyValue (gs_in a)) = Ok tt ->
   validateWireMessage d (AnyValue (gs_in (wc_canon a))) = Ok tt) ->
  EncodeMessage (Some r) (AnyValue (gs_in a)) = Ok w ->
  DecodeMessage (Some r) w =
    if wc_ends_empty a then Err ErrEOF else Ok (AnyValue (gs_in (wc_canon a))).
Proof.
  intros Hok Hd Hc Ht Hv Henc. rewrite (EncodeMessage_carried r d a Hok Hd Hc) in Henc.
  destruct (validateWireMessage d (AnyValue (gs_in a))) as [[]|] eqn:Ev; [|done]. cbn [rbind] in Henc.
  destruct (wc_encode a) as [payload|] eqn:Ee; [|done]. injection Henc as <-.
  rewrite (DecodeMessage_carried r d _ Hd Hc) by done. cbn [msg_Payload].
  rewrite (wc_roundtrip a payload Ht Ee). destruct (wc_ends_empty a); [done|].
  cbn [rbind]. by rewrite Hv.
Qed.

Lemma carried_safe `{!WireCodecSafe A} r d w :
  byID r !! def_ID d = Some d -> carries d A -> msg_Type w = def_ID d ->
  (forall a, validateWireMessage d (AnyValue (gs_in a)) <> Err ErrPanic) ->
  match DecodeMessage (Some r) w with
  | Ok v => exists a, v = AnyValue (gs_in a) /\ wc_typed a
  | Err e => wire_error e \/ e = ErrWireMessageValidation
  end.
Proof.
  intros Hd Hc Hty Hv. rewrite (DecodeMessage_carried r d w Hd Hc Hty).
  pose proof (wc_decode_safe (msg_Payload w)) as Hs.
  destruct (wc_decode (msg_Payload w)) as [a|e]; cbn [rbind]; [|by left].
  specialize (Hv a). unfold validateWireMessage in *. destruct (def_Validate d) as [validate|]; cbn [rbind]; [|eauto].
  destruct (validate _) as [[]|e]; cbn [rbind]; [eauto|].
  destruct e; try congruence; right; reflexivity.
Qed.
End Carried.

(** ** The registry of a runtime: the default one and what a game adds to it *)
Definition runtime_registry (custom : list WireMessageDefinition) : result WireMessageRegistry :=
  let! r := NewDefaultWireMessageRegistry in
  Ok (foldl (fun r d => (Register r d).1) r custom).

Lemma foldl_Register_ok custom : forall r,
  registry_ok r -> registry_ok (foldl (fun r d => (Register r d).1) r custom).
Proof. induction custom as [|d l IH]; intros r Hr; [done|]. by apply IH, Register_ok. Qed.

Lemma foldl_Register_keeps custom : forall r id x,
  byID r !! id = Some x -> byID (foldl (fun r d => (Register r d).1) r custom) !! id = Some x.
Proof. induction custom as [|d l IH]; intros r id x Hx; [done|]. by apply IH, Register_keeps. Qed.

Lemma default_types d :
  d ∈ default_definitions -> exists t, def_MessageType d = Some t /\ elem_if_pointer t = t.
Proof.
  intros Hd. unfold default_definitions in Hd.
  repeat (apply elem_of_cons in Hd as [->|Hd]; [eexists; split; reflexivity|]).
  by apply elem_of_nil in Hd.
Qed.

Lemma runtime_registry_inv custom r :
  runtime_registry custom = Ok r ->
  registry_ok r /\ forall d, d ∈ default_definitions -> byID r !! def_ID d = Some d.
Proof.
  unfold runtime_registry. destruct NewDefaultWireMessageRegistry as [r0|] eqn:E; [|done].
  intros [= <-]. unfold NewDefaultWireMessageRegistry in E. split.
  - apply foldl_Register_ok. eapply register_all_ok; [exact E | apply NewWireMessageRegistry_ok].
  - intros d Hd. apply foldl_Register_keeps.
    destruct (default_types d Hd) as (t & Ht & He).
    exact (register_all_lookup _ _ _ d t E Hd Ht He).
Qed.

(** The definitions of the default registry, and no others, are in it. *)
Lemma register_all_from ds : forall r r' id d,
  register_all r ds = Ok r' -> byID r' !! id = Some d ->
  byID r !! id = Some d \/
  exists d0 t, d0 ∈ ds /\ def_MessageType d0 = Some t /\ d = set_MessageType d0 (elem_if_pointer t).
Proof.
  induction ds as [|d0 ds IH]; intros r r' id d H Hd; cbn [register_all] in H; [injection H as <-; by left|].
  destruct (mustRegisterWireMessage r d0) as [r1|] eqn:E; [|done]. cbn [rbind] in H.
  destruct (IH _ _ _ _ H Hd) as [Hr1|(d1 & t & Hin & ? & ?)];
    [|right; exists d1, t; split_and!; [by right | done | done]].
  apply mustRegister_inv in E as [-> _].
  destruct (Register_spec r d0) as [t Ht _ _ _|]; [|by left]. cbn [byID] in Hr1.
  apply lookup_insert_Some in Hr1 as [[_ <-]|[_ Hr1]]; [|by left].
  right. exists d0, t. split_and!; [by left | done | done].
Qed.

Lemma default_registry_from r id d :
  NewDefaultWireMessageRegistry = Ok r -> byID r !! id = Some d -> d ∈ default_definitions.
Proof.
  intros E Hd. destruct (register_all_from _ _ _ _ _ E Hd) as [H|(d0 & t & Hin & Ht & ->)].
  { simpl in H. by rewrite lookup_empty in H. }
  assert (set_MessageType d0 (elem_if_pointer t) = d0) as ->; [|exact Hin].
  destruct (default_types d0 Hin) as (t' & Ht' & He). rewrite Ht in Ht'. injection Ht' as <-.
  rewrite He. destruct d0. unfold set_MessageType. cbn in *. by rewrite Ht.
Qed.

Lemma default_handler r id d handler :
  NewDefaultWireMessageRegistry = Ok r -> byID r !! id = Some d -> def_Handler d = Some handler ->
  handler = handleWirePing.
Proof.
  intros E Hd Hh. apply (default_registry_from _ _ _ E) in Hd.
  assert (Forall (fun d => from_option (fun h => h = handleWirePing) True (def_Handler d)) default_definitions)
    as Hall by repeat constructor.
  rewrite Forall_forall in Hall. specialize (Hall _ Hd). by rewrite Hh in Hall.
Qed.

(** ** What is expected of a built-in message *)
Definition builtin_typed (m : GoMessage) : Prop :=
  match m with
  | MClientHello a => wc_typed a | MWelcome a => wc_typed a | MPing a => wc_typed a
  | MPong a => wc_typed a | MErrorMessage a => wc_typed a | MDisconnectMessage a => wc_typed a
  | MObjectRequest a => wc_typed a | MPlayerInput a => wc_typed a | MGenericClientInput a => wc_typed a
  | MWorldSnapshot a => wc_typed a | MWorldDeltaSnapshot a => wc_typed a
  | MEntitySpawn a => wc_typed a | MEntityDespawn a => wc_typed a | MEntityUpdate a => wc_typed a
  | _ => False
  end.

(** What is read back: snapshot values in their decoded form, all else as it is. *)
Definition builtin_canon (m : GoMessage) : GoMessage :=
  match m with
  | MWorldSnapshot a => MWorldSnapshot (wc_canon a)
  | MWorldDeltaSnapshot a => MWorldDeltaSnapshot (wc_canon a)
  | MEntitySpawn a => MEntitySpawn (wc_canon a)
  | MEntityUpdate a => MEntityUpdate (wc_canon a)
  | m => m
  end.

Definition builtin_ends_empty (m : GoMessage) : bool :=
  match m with
  | MClientHello a => wc_ends_empty a | MWelcome a => wc_ends_empty a | MPing a => wc_ends_empty a
  | MPong a => wc_ends_empty a | MErrorMessage a => wc_ends_empty a
  | MDisconnectMessage a => wc_ends_empty a | MObjectRequest a => wc_ends_empty a
  | MPlayerInput a => wc_ends_empty a | MGenericClientInput a => wc_ends_empty a
  | MWorldSnapshot a => wc_ends_empty a | MWorldDeltaSnapshot a => wc_ends_empty a
  | MEntitySpawn a => wc_ends_empty a | MEntityDespawn a => wc_ends_empty a
  | MEntityUpdate a => wc_ends_empty a
  | _ => false
  end.

Lemma builtin_roundtrip_spec custom r m w :
  runtime_registry custom = Ok r -> builtin_typed m ->
  EncodeMessage (Some r) (AnyValue m) = Ok w ->
  DecodeMessage (Some r) w =
    if builtin_ends_empty m then Err ErrEOF else Ok (AnyValue (builtin_canon m)).
Proof.
  intros [Hok Hdef]%runtime_registry_inv Ht He.
  assert (forall n d, nth_error default_definitions n = Some d -> byID r !! def_ID d = Some d) as Hn.
  { intros n d H. apply Hdef. apply list_elem_of_In. by apply nth_error_In in H. }
  destruct m; try done; cbn [builtin_canon builtin_ends_empty].
  - refine (carried_roundtrip r _ m w Hok (Hn 0%nat _ eq_refl) _ Ht _ He); [by split | done].
  - refine (carried_roundtrip r _ m w Hok (Hn 1%nat _ eq_refl) _ Ht _ He); [by split | done].
  - refine (carried_roundtrip r _ m w Hok (Hn 2%nat _ eq_refl) _ Ht _ He); [by split | done].
  - refine (carried_roundtrip r _ m w Hok (Hn 3%nat _ eq_refl) _ Ht _ He); [by split | done].
  - refine (carried_roundtrip r _ m w Hok (Hn 4%nat _ eq_refl) _ Ht _ He); [by split | done].
  - refine (carried_roundtrip r _ m w Hok (Hn 5%nat _ eq_refl) _ Ht _ He); [by split | done].
  - refine (carried_roundtrip r _ m w Hok (Hn 6%nat _ eq_refl) _ Ht _ He); [by split | done].
  - refine (carried_roundtrip r _ m w Hok (Hn 7%nat _ eq_refl) _ Ht _ He); [by split | done].
  - refine (carried_roundtrip r _ m w Hok (Hn 8%nat _ eq_refl) _ Ht _ He); [by split | done].
  - refine (carried_roundtrip r _ m w Hok (Hn 9%nat _ eq_refl) _ Ht _ He); [by split | done].
  - refine (carried_roundtrip r _ m w Hok (Hn 10%nat _ eq_refl) _ Ht _ He); [by split | done].
  - refine (carried_roundtrip r _ m w Hok (Hn 11%nat _ eq_refl) _ Ht _ He); [by split | done].
  - refine (carried_roundtrip r _ m w Hok (Hn 12%nat _ eq_refl) _ Ht _ He); [by split | done].
  - refine (carried_roundtrip r _ m w Hok (Hn 13%nat _ eq_refl) _ Ht _ He); [by split | done].
Qed.

(** The helpers of the package: what a client encodes a server decodes, and back. *)
Lemma package_roundtrip m w :
  builtin_typed m -> EncodeClientMessage (AnyValue m) = Ok w ->
  DecodeServerMessage w = if builtin_ends_empty m then Err ErrEOF else Ok (AnyValue (builtin_canon m)).
Proof.
  unfold EncodeClientMessage, DecodeServerMessage, DefaultWireMessages. intros Ht He.
  destruct NewDefaultWireMessageRegistry as [r|] eqn:Er; [|done].
  apply (builtin_roundtrip_spec [] r m w); [|done|done]. unfold runtime_registry. by rewrite Er.
Qed.

(** C28: every built-in message survives the registry.  Under the registry of any
    runtime, whatever a game has registered on top, encoding a built-in message
    and decoding the result gives the message back; the only exception are the
    messages that end in an empty field, which the decoder cannot read. *)
Theorem builtin_roundtrip custom r m w :
  runtime_registry custom = Ok r -> builtin_typed m ->
  EncodeMessage (Some r) (AnyValue m) = Ok w ->
  DecodeMessage (Some r) w =
    if builtin_ends_empty m then Err ErrEOF else Ok (AnyValue (builtin_canon m)).
Proof. apply builtin_roundtrip_spec. Qed.

(** On a value, the validators of the default registry do not panic. *)
Lemma default_validators d m :
  d ∈ default_definitions -> validateWireMessage d (AnyValue m) <> Err ErrPanic.
Proof.
  intros Hd. unfold default_definitions in Hd. unfold validateWireMessage.
  repeat (apply elem_of_cons in Hd as [->|Hd];
    [cbn [def_Validate]; try done;
     unfold validateClientHello, validateObjectRequest, validatePlayerInput,
       validateGenericClientInput, validateCodeMessage, as_struct; cbn [rbind];
     repeat match goal with |- context [match ?x with _ => _ end] =>
       lazymatch x with context [match _ with _ => _ end] => fail | _ => destruct x; try done end end|]).
  by apply elem_of_nil in Hd.
Qed.

(** Every default definition carries the codec of a safe message type. *)
Lemma default_carried (P : WireMessageDefinition -> Prop) d :
  (forall d A `(GoStruct A, !GoStructLaws A, WireCodec A, !WireCodecLaws A, !WireCodecSafe A),
     carries d A -> (forall a : A, builtin_typed (gs_in a) = wc_typed a) -> P d) ->
  d ∈ default_definitions -> P d.
Proof.
  intros H Hd. unfold default_definitions in Hd.
  apply elem_of_cons in Hd as [->|Hd]; [apply (H _ ClientHello _ _ _ _ _); [by split | done]|].
  apply elem_of_cons in Hd as [->|Hd]; [apply (H _ Welcome _ _ _ _ _); [by split | done]|].
  apply elem_of_cons in Hd as [->|Hd]; [apply (H _ Ping _ _ _ _ _); [by split | done]|].
  apply elem_of_cons in Hd as [->|Hd]; [apply (H _ Pong _ _ _ _ _); [by split | done]|].
  apply elem_of_cons in Hd as [->|Hd]; [apply (H _ ErrorMessage _ _ _ _ _); [by split | done]|].
  apply elem_of_cons in Hd as [->|Hd]; [apply (H _ DisconnectMessage _ _ _ _ _); [by split | done]|].
  apply elem_of_cons in Hd as [->|Hd]; [apply (H _ ObjectRequest _ _ _ _ _); [by split | done]|].
  apply elem_of_cons in Hd as [->|Hd]; [apply (H _ PlayerInput _ _ _ _ _); [by split | done]|].
  apply elem_of_cons in Hd as [->|Hd]; [apply (H _ GenericClientInput _ _ _ _ _); [by split | done]|].
  apply elem_of_cons in Hd as [->|Hd]; [apply (H _ WorldSnapshot _ _ _ _ _); [by split | done]|].
  apply elem_of_cons in Hd as [->|Hd]; [apply (H _ WorldDeltaSnapshot _ _ _ _ _); [by split | done]|].
  apply elem_of_cons in Hd as [->|Hd]; [apply (H _ EntitySpawn _ _ _ _ _); [by split | done]|].
  apply elem_of_cons in Hd as [->|Hd]; [apply (H _ EntityDespawn _ _ _ _ _); [by split | done]|].
  apply elem_of_cons in Hd as [->|Hd]; [apply (H _ EntityUpdate _ _ _ _ _); [by split | done]|].
  by apply elem_of_nil in Hd.
Qed.

(** No payload harms the decoder.  A framed message from the network, of any
    type and with any payload, is decoded by the default registry into a message
    of that type whose fields are in the ranges of their Go types, or is refused
    with a wire error or the validation error, never with a panic; a type that is
    not registered is passed on as it is. *)
Lemma DecodeMessage_safe r w :
  NewDefaultWireMessageRegistry = Ok r ->
  match DecodeMessage (Some r) w with
  | Ok (AnyValue m) =>
      builtin_typed m \/
      m = MUnknownWireMessage (mkUnknownWire (msg_Type w) (msg_Payload w)) /\
      ~ exists d, d ∈ default_definitions /\ def_ID d = msg_Type w
  | Ok _ => False
  | Err e => wire_error e \/ e = ErrWireMessageValidation
  end.
Proof.
  intros E. destruct (runtime_registry_inv [] r) as [Hok Hdef].
  { unfold runtime_registry. by rewrite E. }
  destruct (byID r !! msg_Type w) as [d|] eqn:Hd.
  - pose proof (default_registry_from r _ d E Hd) as Hin.
    destruct (ro_byID r Hok _ _ Hd) as (_ & Hid & _). rewrite <- Hid in Hd. symmetry in Hid.
    revert Hd Hid. pattern d. eapply default_carried; [|exact Hin].
    intros d' A HA1 HA2 HA3 HA4 HA5 Hc Hty Hd Hid.
    pose proof (carried_safe (A := A) r d' w Hd Hc Hid) as Hs.
    destruct (DecodeMessage (Some r) w) as [v|e].
    + destruct Hs as (a & -> & Ha); [|left; by rewrite Hty].
      intros a. apply default_validators. by eapply default_registry_from.
    + apply Hs. intros a. apply default_validators. by eapply default_registry_from.
  - unfold DecodeMessage, Definition_. rewrite Hd. right. split; [done|].
    intros (d & Hin & Hid). apply Hdef in Hin. rewrite Hid in Hin. congruence.
Qed.

(** The registry's invariant.  However a game extends the default registry -
    registrations that fail included - its two maps hold the same definitions,
    each under its own id and its own type, every definition has a name, both
    halves of a codec and a valid delivery class, and no built-in message can be
    replaced. *)
Theorem runtime_registry_ok custom r :
  runtime_registry custom = Ok r ->
  registry_ok r /\
  forall d, d ∈ default_definitions ->
    byID r !! def_ID d = Some d /\
    exists t, def_MessageType d = Some t /\ byType r !! t = Some d.
Proof.
  intros [Hok Hdef]%runtime_registry_inv. split; [done|]. intros d Hd. specialize (Hdef d Hd).
  split; [done|]. by destruct (ro_byID r Hok _ _ Hdef) as (_ & _ & ?).
Qed.

(** [Register] accepts a definition exactly when it is complete, has a valid
    delivery class and an id in the known ranges, and neither its id nor its
    message type is taken; otherwise the registry is unchanged. *)
Theorem Register_exact r d :
  let (r', e) := Register r d in
  (e = Ok tt <->
     definition_ok d /\ byID r !! def_ID d = None /\
     exists t, def_MessageType d = Some t /\ byType r !! elem_if_pointer t = None) /\
  (e <> Ok tt -> r' = r) /\
  (in_u16 (def_ID d) -> e <> Err ErrWireMessageTypeOutOfRange).
Proof.
  pose proof (Register_spec r d) as Hs. destruct (Register r d) as [r' e]. cbn [fst snd] in Hs.
  destruct Hs as [t Ht Hd Hi Hy|e Hbad].
  - split_and!; [|done|done]. split; [|done]. intros _. split_and!; [done..|]. by exists t.
  - split_and!; [| done |].
    + split; [done|]. intros ([Hn [He Hde] Hv Hr] & Hi & t & Ht & Hy). exfalso.
      destruct Hbad as [[_ ?]|[[_ ?]|[[_ [? | ?]]|[?|[[_ ?]|[_ [?|(t' & Ht' & ?)]]]]]]]; try congruence.
      * rewrite H in He. by destruct He.
      * rewrite H in Hde. by destruct Hde.
      * rewrite Hi in H. by destruct H.
      * rewrite Ht in Ht'. injection Ht' as <-. rewrite Hy in H. by destruct H.
    + intros Hu [= ->]. destruct Hbad as [[? _]|[[? _]|[[? _]|[Hv|[[_ Hr]|[? _]]]]]]; try done.
      * unfold validateDeliveryClass in Hv. destruct (_ || _); congruence.
      * unfold wireMessageIDInKnownRange, WireMessageSystemMin, WireMessageSystemMax, WireMessageEngineMin,
          WireMessageEngineMax, WireMessageGameMin, WireMessageGameMax in Hr. unfold in_u in Hu. zbool. lia.
Qed.
End Registry.

(** ** Witnesses *)
Lemma default_registry_exists {World : Type} :
  exists r, NewDefaultWireMessageRegistry (World := World) = Ok r.
Proof.
  pose proof (NewDefault_ok (World := World)) as H.
  destruct NewDefaultWireMessageRegistry as [r|]; [by exists r | discriminate].
Qed.

Lemma runtime_registry_exists {World : Type} (custom : list (WireMessageDefinition (World := World))) :
  exists r, runtime_registry custom = Ok r.
Proof.
  unfold runtime_registry. destruct (default_registry_exists (World := World)) as [r ->].
  cbn [rbind]. by eexists.
Qed.

Definition chat_definition : WireMessageDefinition (World := unit) :=
  mkDefinition 0x1000 "game.chat" WireDirectionBoth DeliveryReliableOrdered
    (Some ("network.ChatMessage"%string, 1%nat)) (Some (fun _ => Ok [])) (Some (fun _ => Ok AnyNil)) None None.

Lemma builtin_roundtrip_witness :
  exists r, runtime_registry [chat_definition] = Ok r /\
    DecodeMessage (Some r) (mkWireMessage WireMessagePing (be_bytes 8 77) DeliveryUnreliable 0) =
      Ok (AnyValue (MPing (mkPing 77))).
Proof.
  destruct (runtime_registry_exists [chat_definition]) as [r Hr]. exists r. split; [exact Hr|].
  refine (builtin_roundtrip [chat_definition] r (MPing (mkPing 77)) _ Hr _ _).
  - split; [discriminate | reflexivity].
  - destruct (runtime_registry_inv _ _ Hr) as [Hok Hdef].
    assert (nth 2 default_definitions chat_definition ∈ default_definitions) as Hin
      by (do 2 right; left).
    transitivity (EncodeMessage (Some r) (AnyValue (gs_in (mkPing 77)))); [reflexivity|].
    rewrite (EncodeMessage_carried (A := Ping) r _ (mkPing 77) Hok (Hdef _ Hin)); [reflexivity|].
    split; reflexivity.
Defined.

Lemma runtime_registry_ok_witness :
  exists r, runtime_registry [chat_definition] = Ok r /\ registry_ok r.
Proof.
  destruct (runtime_registry_exists [chat_definition]) as [r Hr]. exists r. split; [exact Hr|].
  exact (proj1 (runtime_registry_ok [chat_definition] r Hr)).
Defined.
