(* ===== verification/Payload.v ===== *)
(** * Payloads: copying a decoded message into a request struct

    [network/payload.go]: [decodePayload] copies by reflection what a codec has decoded
    into the struct of the game that asks for it, field by field, and leaves the rest
    to JSON.  A reflected value is a type with a value of it: [GType] is [reflect.Type]
    as far as assignment and conversion tell types apart, [GVal] the data under it.
    Pointers and interfaces on the side of the source are followed; the tag of a
    field is its json tag. *)
From Stdlib Require Import Ascii.
From S2P Require Import Prelude Buffer Keys Values Float64.

(** ** [float32] *)

(** The exponent of the last place of a [float32] near [q]: 24 significant bits, and
    2^-149 at least. *)
Definition last_place32 (q : Z) : Z := Z.max 925 (Z.log2 q - 23).
Definition round32_int (k : Z) : Z := rnd_even k (2 ^ last_place32 k) * 2 ^ last_place32 k.

(** [float32(x)], its value. *)
Definition round32 (x : f64) : f64 :=
  match x with
  | Fin s k => let k := round32_int k in if k <? 2 ^ (128 + 1074) then Fin s k else Inf s
  | _ => x
  end.

(** The number that the 32 bits of [math.Float32bits] stand for. *)
Definition f32_of_bits (bits : Z) : f64 :=
  let neg := Z.testbit bits 31 in
  let exponent := Z.land (Z.shiftr bits 23) 255 in
  let mantissa := Z.land bits (2 ^ 23 - 1) in
  if exponent =? 255 then if mantissa =? 0 then Inf neg else NaN
  else if exponent =? 0 then Fin neg (mantissa * 2 ^ 925)
  else Fin neg ((2 ^ 23 + mantissa) * 2 ^ (exponent + 924)).

Definition representable32 (k : Z) : Prop := (2 ^ last_place32 k | k).

Lemma last_place32_pos q : 0 < 2 ^ last_place32 q.
Proof. apply Z.pow_pos_nonneg; unfold last_place32; lia. Qed.

Lemma round32_int_exact k : representable32 k -> round32_int k = k.
Proof.
  intros [m Hm]. unfold round32_int. pose proof (last_place32_pos k) as Hp.
  set (p := 2 ^ last_place32 k) in *. clearbody p. subst k. by rewrite rnd_even_exact.
Qed.

Lemma representable32_shift m a : 0 <= m < 2 ^ 24 -> 925 <= a -> representable32 (m * 2 ^ a).
Proof.
  intros Hm Ha. unfold representable32. destruct (Z.eq_dec m 0) as [->|Hm0]; [apply Z.divide_0_r|].
  apply Z.divide_mul_r. exists (2 ^ (a - last_place32 (m * 2 ^ a))).
  assert (last_place32 (m * 2 ^ a) <= a).
  { unfold last_place32. rewrite Z.log2_mul_pow2 by lia.
    assert (Z.log2 m < 24) by (apply Z.log2_lt_pow2; lia). lia. }
  rewrite <- Z.pow_add_r by (unfold last_place32 in *; lia). f_equal. lia.
Qed.

Lemma representable32_round k : 0 <= k -> representable32 (round32_int k).
Proof.
  intros Hk. unfold round32_int. pose proof (last_place32_pos k) as Hp.
  assert (k < 2 ^ (24 + last_place32 k)) as Hup.
  { destruct (Z.eq_dec k 0) as [->|Hne]; [apply Z.pow_pos_nonneg; unfold last_place32; lia|].
    pose proof (Z.log2_spec k ltac:(lia)) as [_ H]. eapply Z.lt_le_trans; [exact H|].
    apply Z.pow_le_mono_r; unfold last_place32; lia. }
  assert (925 <= last_place32 k) as He by (unfold last_place32; lia).
  pose proof (rnd_even_bounds k (2 ^ last_place32 k) Hp) as Hb. pose proof (Z.div_pos k _ Hk Hp).
  set (e := last_place32 k) in *. clearbody e.
  assert (k / 2 ^ e < 2 ^ 24) by (apply Z.div_lt_upper_bound; [done|]; rewrite <- Z.pow_add_r, Z.add_comm by lia; done).
  destruct (Z.eq_dec (rnd_even k (2 ^ e)) (2 ^ 24)) as [->|Hne]; [|apply representable32_shift; lia].
  rewrite <- Z.pow_add_r, <- (Z.mul_1_l (2 ^ _)) by lia. apply representable32_shift; lia.
Qed.

(** The magnitude of a finite number is not negative. *)
Definition float_ok (x : f64) : bool := match x with Fin _ k => 0 <=? k | _ => true end.

Lemma round32_idem x : float_ok x = true -> round32 (round32 x) = round32 x.
Proof.
  destruct x as [|s|s k]; [done..|]. cbn [float_ok]. intros Hk%Z.leb_le. unfold round32 at 2 3.
  destruct (Z.ltb_spec (round32_int k) (2 ^ (128 + 1074))) as [Hlt|]; [|done].
  unfold round32. rewrite round32_int_exact by by apply representable32_round. cbv zeta.
  by rewrite (proj2 (Z.ltb_lt _ _) Hlt).
Qed.

Lemma round32_of_bits bits : round32 (f32_of_bits bits) = f32_of_bits bits.
Proof.
  unfold f32_of_bits. set (e := Z.land _ 255). set (m := Z.land bits _).
  assert (0 <= e < 2 ^ 8) as He by (unfold e; change 255 with (Z.ones 8); rewrite Z.land_ones by lia; by apply Z.mod_pos_bound).
  assert (0 <= m < 2 ^ 23) as Hm
    by (unfold m; change (2 ^ 23 - 1) with (Z.ones 23); rewrite Z.land_ones by lia; by apply Z.mod_pos_bound).
  clearbody e m. destruct (Z.eqb_spec e 255); [by destruct (m =? 0)|].
  assert (forall a b, 0 <= a < 2 ^ 24 -> 925 <= b <= 1178 ->
    round32 (Fin (Z.testbit bits 31) (a * 2 ^ b)) = Fin (Z.testbit bits 31) (a * 2 ^ b)) as Hfix.
  { intros a b Ha Hb. unfold round32. rewrite round32_int_exact by (apply representable32_shift; lia). cbv zeta.
    rewrite (proj2 (Z.ltb_lt _ _)); [done|]. apply Z.lt_le_trans with (2 ^ 24 * 2 ^ b).
    - apply Z.mul_lt_mono_pos_r; [apply Z.pow_pos_nonneg; lia | lia].
    - rewrite <- Z.pow_add_r by lia. apply Z.pow_le_mono_r; lia. }
  destruct (Z.eqb_spec e 0); apply Hfix; lia.
Qed.

(** The largest [float32] and its half ulp; 0.1. *)
Example round32_examples :
  round32 (f32_of_bits 0x7f7fffff) = f32_of_bits 0x7f7fffff /\ round32 (f_of_Z (2 ^ 128)) = Inf false /\
  round32 (f_of_bits 0x3fb999999999999a) = f32_of_bits 0x3dcccccd /\
  f32_of_bits 0x00000001 = f_of_bits (float64_of_float32 0x00000001).
Proof. vm_compute. repeat split. Qed.

(** ** Types and values *)
Inductive NumKind := KSigned (width : Z) | KUnsigned (width : Z) | KFloat32 | KFloat64.

#[export] Instance NumKind_eq_dec : EqDecision NumKind.
Proof. solve_decision. Defined.

(** A type has its name, empty for a type literal. *)
Unset Elimination Schemes.
Inductive GType :=
| TBool (name : string)
| TNum (name : string) (k : NumKind)
| TString (name : string)
| TStruct (name : string) (fields : list (StructField * GType))
| TMap (name : string) (key elem : GType)
| TList (name : string) (len : option Z) (elem : GType)   (* a slice, or an array *)
| TPtr (elem : GType)
| TInterface (name : string)
| TOther (name : string).                                  (* chan, func, complex *)

(** Floats are their numbers; a map whose keys are strings is its entries, any other
    one and the values of [TOther] are only moved as a whole. *)
Inductive GVal :=
| GBool (b : bool)
| GInt (z : Z)
| GFloat (x : f64)
| GString (s : string)
| GStruct (vs : list GVal)
| GMap (entries : option (list (string * GVal)))
| GList (items : option (list GVal))
| GPtr (target : option GVal)
| GIface (dynamic : option (GType * GVal))
| GOther (what : nat).
Set Elimination Schemes.

Inductive Kind :=
| KBool | KNum (k : NumKind) | KString | KStruct | KMap | KSlice | KArray | KPointer | KInterface
| KOther (name : string).

#[export] Instance Kind_eq_dec : EqDecision Kind.
Proof. solve_decision. Defined.

Definition kind_of (T : GType) : Kind :=
  match T with
  | TBool _ => KBool
  | TNum _ k => KNum k
  | TString _ => KString
  | TStruct _ _ => KStruct
  | TMap _ _ _ => KMap
  | TList _ None _ => KSlice
  | TList _ (Some _) _ => KArray
  | TPtr _ => KPointer
  | TInterface _ => KInterface
  | TOther name => KOther name
  end.

Definition name_of (T : GType) : string :=
  match T with
  | TBool n | TNum n _ | TString n | TStruct n _ | TMap n _ _ | TList n _ _ | TInterface n | TOther n => n
  | TPtr _ => ""
  end.

(** The underlying types are identical; with [tags], the tags of fields count.  Types
    of one name are one type, so that comparing their structure too is no loss. *)
Fixpoint same_underlying (tags : bool) (U T : GType) {struct U} : bool :=
  let identical U T := bool_decide (name_of U = name_of T) && same_underlying tags U T in
  match U, T with
  | TBool _, TBool _ => true
  | TNum _ k, TNum _ l => bool_decide (k = l)
  | TString _, TString _ => true
  | TStruct _ fs, TStruct _ gs =>
      (fix all (fs gs : list (StructField * GType)) : bool :=
         match fs, gs with
         | [], [] => true
         | (f, U) :: fs, (g, T) :: gs =>
             bool_decide (field_Name f = field_Name g) && bool_decide (field_PkgPath f = field_PkgPath g) &&
             (negb tags || bool_decide (field_jsonTag f = field_jsonTag g)) &&
             (bool_decide (name_of U = name_of T) && same_underlying tags U T) && all fs gs
         | _, _ => false
         end) fs gs
  | TMap _ k e, TMap _ k' e' => identical k k' && identical e e'
  | TList _ n e, TList _ n' e' => bool_decide (n = n') && identical e e'
  | TPtr e, TPtr e' => identical e e'
  | TInterface n, TInterface m | TOther n, TOther m => bool_decide (n = m)
  | _, _ => false
  end.

Definition identical (U T : GType) : bool :=
  bool_decide (name_of U = name_of T) && same_underlying true U T.

(** ** Well-typed values *)
Definition int_in (k : NumKind) (z : Z) : bool :=
  match k with
  | KSigned w => (- 2 ^ (w - 1) <=? z) && (z <? 2 ^ (w - 1))
  | KUnsigned w => (0 <=? z) && (z <? 2 ^ w)
  | _ => false
  end.

Definition float_in (k : NumKind) (x : f64) : bool :=
  match k with
  | KFloat32 => float_ok x && bool_decide (round32 x = x)
  | KFloat64 => float_ok x
  | _ => false
  end.

Fixpoint typed (v : GVal) (T : GType) {struct v} : bool :=
  match v, T with
  | GBool _, TBool _ => true
  | GInt z, TNum _ k => int_in k z
  | GFloat x, TNum _ k => float_in k x
  | GString _, TString _ => true
  | GStruct vs, TStruct _ fs =>
      (fix all (vs : list GVal) (fs : list (StructField * GType)) : bool :=
         match vs, fs with
         | [], [] => true
         | v :: vs, (_, T) :: fs => typed v T && all vs fs
         | _, _ => false
         end) vs fs
  | GMap entries, TMap _ (TString _) e =>
      match entries with None => true | Some l => forallb (fun x => typed x.2 e) l end
  | GList items, TList _ n e =>
      match items, n with
      | None, None => true
      | Some l, None => forallb (fun x => typed x e) l
      | Some l, Some n => forallb (fun x => typed x e) l && (zlen l =? n)
      | None, Some _ => false
      end
  | GPtr target, TPtr e => match target with None => true | Some v => typed v e end
  | GIface dynamic, TInterface _ => match dynamic with None => true | Some (U, v) => typed v U end
  | GOther _, TOther _ => true
  | GOther _, TMap _ key _ => negb (bool_decide (kind_of key = KString))
  | _, _ => false
  end.

(** ** Reflection *)
Section Reflection.
(** What the implementation makes of a float that does not fit into 64 bits, signed
    and unsigned, and which types implement an interface. *)
Context (overflow overflow_unsigned : f64 -> Z) (implements : GType -> string -> bool).

(** [reflect.Type.AssignableTo], for a source that is no interface. *)
Definition AssignableTo (U T : GType) : bool :=
  identical U T ||
  (same_underlying true U T && (bool_decide (name_of U = ""%string) || bool_decide (name_of T = ""%string))) ||
  match T with TInterface name => implements U name | _ => false end.

(** [reflect.Type.ConvertibleTo], for types that [safeNumericConversion] lets through. *)
Definition ConvertibleTo (U T : GType) : bool :=
  same_underlying false U T || match U, T with TNum _ _, TNum _ _ => true | _, _ => false end.

Definition isNumericKind (kind : Kind) : bool := match kind with KNum _ => true | _ => false end.

Definition safeNumericConversion (targetKind sourceKind : Kind) : bool :=
  if decide (targetKind = sourceKind) then true else isNumericKind targetKind && isNumericKind sourceKind.

(** An integer in a width, and the integer of a float. *)
Definition to_kind (k : NumKind) (z : Z) : Z :=
  match k with
  | KSigned w => let z := wrap w z in if z <? 2 ^ (w - 1) then z else z - 2 ^ w
  | KUnsigned w => wrap w z
  | _ => z
  end.

Definition f_to_uint (x : f64) : Z :=
  match x with
  | Fin s k => let z := signed s (k / one_scaled) in if decide (in_u64 z) then z else overflow_unsigned x
  | _ => overflow_unsigned x
  end.

(** [reflect.Value.Convert] of a number; other values stay as they are. *)
Definition Convert (T : GType) (v : GVal) : GVal :=
  match T, v with
  | TNum _ k, GInt z =>
      match k with
      | KFloat64 => GFloat (f_of_Z z)
      | KFloat32 => GFloat (round32 (f_of_Z z))
      | _ => GInt (to_kind k z)
      end
  | TNum _ k, GFloat x =>
      match k with
      | KFloat64 => GFloat x
      | KFloat32 => GFloat (round32 x)
      | KSigned _ => GInt (to_kind k (f_to_int overflow x))
      | KUnsigned _ => GInt (to_kind k (f_to_uint x))
      end
  | _, _ => v
  end.

(** [target.Set(source)]: an interface keeps the type of what it holds. *)
Definition Set_ (U T : GType) (source : GVal) : GVal :=
  match T with TInterface _ => GIface (Some (U, source)) | _ => source end.

(** The loop that follows pointers and interfaces. *)
Fixpoint deref (v : GVal) (T : GType) {struct v} : option (GType * GVal) :=
  match v, T with
  | GPtr None, _ | GIface None, _ => None
  | GPtr (Some v), TPtr e => deref v e
  | GIface (Some (U, v)), _ => deref v U
  | _, _ => Some (T, v)
  end.

Definition jsonFieldName (field : StructField) : option string :=
  let tag := field_jsonTag field in
  if bool_decide (tag = "-"%string) then None
  else if bool_decide (tag = ""%string) then None
  else
    let name := (split_comma tag).1 in
    if bool_decide (name = ""%string) then None else Some name.

Definition fieldNames (field : StructField) : list string :=
  [field_Name field; ToLower (field_Name field)] ++ option_list (jsonFieldName field).

Definition sourceFields (fields : list (StructField * GType)) (vs : list GVal) : gmap string (GType * GVal) :=
  foldl (fun m '((field, T), v) =>
    if bool_decide (field_PkgPath field = ""%string)
    then foldl (fun m name => <[name := (T, v)]> m) m (fieldNames field)
    else m) ∅ (zip fields vs).

(** The loop over the names of one field; [assign] is [assignReflectValue] on it. *)
Fixpoint assign_names (assign : GType -> GVal -> result (option GVal))
    (lookup : string -> result (option (GType * GVal))) (names : list string) (v : GVal)
    : result (GVal * bool) :=
  match names with
  | [] => Ok (v, false)
  | name :: names =>
      let! source := lookup name in
      match source with
      | None => assign_names assign lookup names v
      | Some (U, source) =>
          let! assigned := assign U source in
          match assigned with
          | Some v => Ok (v, true)
          | None => assign_names assign lookup names v
          end
      end
  end.

(** The loop over the fields of the target. *)
Fixpoint assign_fields (lookup : string -> result (option (GType * GVal)))
    (fields : list (StructField * (GVal * (GType -> GVal -> result (option GVal)))))
    : result (list GVal * bool) :=
  match fields with
  | [] => Ok ([], false)
  | (field, (v, assign)) :: fields =>
      let! (v, assigned) :=
        if negb (bool_decide (field_PkgPath field = ""%string)) then Ok (v, false)
        else assign_names assign lookup (fieldNames field) v in
      let! (vs, others) := assign_fields lookup fields in
      Ok (v :: vs, assigned || others)
  end.

Fixpoint entry {A} (name : string) (l : list (string * A)) : option A :=
  match l with
  | [] => None
  | (n, a) :: l => if bool_decide (n = name) then Some a else entry name l
  end.

(** [source.MapIndex(reflect.ValueOf(name))] panics at a key type other than
    [string] itself. *)
Definition MapIndex (key elem : GType) (entries : option (list (string * GVal))) (name : string)
    : result (option (GType * GVal)) :=
  if negb (bool_decide (name_of key = "string"%string)) then Err ErrPanic
  else Ok (pair elem <$> entry name (default [] entries)).

(** [None] is the answer [false], which leaves the target as it is. *)
Definition assignStruct (U : GType) (source : GVal)
    (fields : list (StructField * (GVal * (GType -> GVal -> result (option GVal))))) : result (option GVal) :=
  match U, source with
  | TStruct _ sourceTypes, GStruct vs =>
      let named := sourceFields sourceTypes vs in
      let! (vs, assigned) := assign_fields (fun name => Ok (named !! name)) fields in
      Ok (if assigned : bool then Some (GStruct vs) else None)
  | TMap _ key elem, GMap entries =>
      if negb (bool_decide (kind_of key = KString)) then Ok None
      else
        let! (vs, assigned) := assign_fields (MapIndex key elem entries) fields in
        Ok (if assigned : bool then Some (GStruct vs) else None)
  | _, _ => Ok None
  end.

(** The fields of the target, each with its value and what may be assigned to it. *)
Definition target_fields {X} (assign : GType -> GVal -> X)
    : list (StructField * GType) -> list GVal -> list (StructField * (GVal * X)) :=
  fix each (fields : list (StructField * GType)) (vs : list GVal) :=
    match fields, vs with
    | (field, T) :: fields, v :: vs => (field, (v, assign T v)) :: each fields vs
    | _, _ => []
    end.

Fixpoint assignReflectValue (T : GType) (target : GVal) (U : GType) (source : GVal) {struct T}
    : result (option GVal) :=
  match deref source U with
  | None => Ok None
  | Some (U, source) =>
      if AssignableTo U T then Ok (Some (Set_ U T source))
      else if ConvertibleTo U T && safeNumericConversion (kind_of T) (kind_of U)
      then Ok (Some (Convert T source))
      else
        match T, target with
        | TStruct _ fields, GStruct vs =>
            assignStruct U source (target_fields assignReflectValue fields vs)
        | _, _ => Ok None
        end
  end.

(** What [Decode] is given: nil, a value that is no pointer or a nil pointer, or a
    pointer to a variable.  The result is the target afterwards. *)
Inductive DecodeTarget := TargetNil | TargetNoPointer | TargetPointer (T : GType) (v : GVal).

(** [json] is what [json.Marshal] of the payload and [json.Unmarshal] into the target
    make of it. *)
Definition decodePayload (json : GType * GVal -> GType -> GVal -> result GVal)
    (payload : option (GType * GVal)) (target : DecodeTarget) : result DecodeTarget :=
  match payload with
  | None => Ok target
  | Some (U, source) =>
      match target with
      | TargetNil => Err (ErrOther "nil decode target")
      | TargetNoPointer => Err (ErrOther "decode target must be a non-nil pointer")
      | TargetPointer T v =>
          let! assigned := assignReflectValue T v U source in
          match assigned with
          | Some v => Ok (TargetPointer T v)
          | None => let! v := json (U, source) T v in Ok (TargetPointer T v)
          end
      end
  end.
End Reflection.

(** ** Induction *)
Section GTypeInd.
Context (P : GType -> Prop).
Context (Hstruct : forall n fs, Forall (fun f => P f.2) fs -> P (TStruct n fs)).
Context (Hother : forall T, kind_of T <> KStruct -> P T).

Fixpoint GType_ind (T : GType) : P T :=
  let fix all (fs : list (StructField * GType)) : Forall (fun f => P f.2) fs :=
    match fs return Forall (fun f => P f.2) fs with
    | [] => Forall_nil_2 _
    | f :: fs => Forall_cons_2 _ f fs (GType_ind f.2) (all fs)
    end in
  match T with
  | TStruct n fs => Hstruct n fs (all fs)
  | TBool n => Hother (TBool n) ltac:(done)
  | TNum n k => Hother (TNum n k) ltac:(done)
  | TString n => Hother (TString n) ltac:(done)
  | TMap n k e => Hother (TMap n k e) ltac:(done)
  | TList n (Some l) e => Hother (TList n (Some l) e) ltac:(done)
  | TList n None e => Hother (TList n None e) ltac:(done)
  | TPtr e => Hother (TPtr e) ltac:(done)
  | TInterface n => Hother (TInterface n) ltac:(done)
  | TOther n => Hother (TOther n) ltac:(done)
  end.
End GTypeInd.

Section GValInd.
Context (P : GVal -> Prop).
Context (Hbool : forall b, P (GBool b)) (Hint : forall z, P (GInt z)) (Hfloat : forall x, P (GFloat x))
  (Hstring : forall s, P (GString s)) (Hother : forall n, P (GOther n)).
Context (Hstruct : forall vs, Forall P vs -> P (GStruct vs))
  (Hmap : forall l, Forall (fun e => P e.2) l -> P (GMap (Some l))) (Hnomap : P (GMap None))
  (Hlist : forall l, Forall P l -> P (GList (Some l))) (Hnolist : P (GList None))
  (Hptr : forall v, P v -> P (GPtr (Some v))) (Hnoptr : P (GPtr None))
  (Hiface : forall U v, P v -> P (GIface (Some (U, v)))) (Hnoiface : P (GIface None)).

Fixpoint GVal_ind (v : GVal) : P v :=
  let fix all (l : list GVal) : Forall P l :=
    match l return Forall P l with
    | [] => Forall_nil_2 _
    | v :: l => Forall_cons_2 _ v l (GVal_ind v) (all l)
    end in
  let fix all_snd (l : list (string * GVal)) : Forall (fun e => P e.2) l :=
    match l return Forall (fun e => P e.2) l with
    | [] => Forall_nil_2 _
    | e :: l => Forall_cons_2 _ e l (GVal_ind e.2) (all_snd l)
    end in
  match v with
  | GBool b => Hbool b
  | GInt z => Hint z
  | GFloat x => Hfloat x
  | GString s => Hstring s
  | GStruct vs => Hstruct vs (all vs)
  | GMap None => Hnomap
  | GMap (Some l) => Hmap l (all_snd l)
  | GList None => Hnolist
  | GList (Some l) => Hlist l (all l)
  | GPtr None => Hnoptr
  | GPtr (Some v) => Hptr v (GVal_ind v)
  | GIface None => Hnoiface
  | GIface (Some (U, v)) => Hiface U v (GVal_ind v)
  | GOther n => Hother n
  end.
End GValInd.

(** ** Types are kept *)
Ltac bools :=
  repeat (match goal with
    | H : bool_decide _ = true |- _ => apply bool_decide_eq_true_1 in H
    | H : False |- _ => destruct H
    end || zbool).

Lemma same_underlying_kind tags U T : same_underlying tags U T = true -> kind_of U = kind_of T.
Proof.
  destruct U, T; cbn; intros H; try done; bools; try congruence.
  subst. by destruct len0.
Qed.

Lemma typed_struct vs n fs :
  typed (GStruct vs) (TStruct n fs) = true <-> Forall2 (fun v f => typed v f.2 = true) vs fs.
Proof.
  revert fs. induction vs as [|v vs IH]; intros [|[f T] fs]; cbn in *; split; try done; intros H.
  - inversion H.
  - inversion H.
  - apply andb_true_iff in H as [H1 H2]. constructor; [done | by apply IH].
  - apply Forall2_cons in H as [H1 H2]. apply andb_true_iff. split; [done | by apply IH].
Qed.

Lemma forallb_impl {A} (f g : A -> bool) l :
  Forall (fun x => f x = true -> g x = true) l -> forallb f l = true -> forallb g l = true.
Proof. induction 1 as [|x l H _ IH]; [done|]. cbn. intros [H1 H2]%andb_true_iff. by rewrite H, IH. Qed.

Lemma typed_same tags v : forall U T, same_underlying tags U T = true -> typed v U = true -> typed v T = true.
Proof.
  induction v as [| | | | |vs IH|l IH| |l IH| |v IH| |W v IH|] using GVal_ind; intros U T;
    destruct U as [|? k| |? fs|? ku eu|? nu eu|eu| |], T as [|? k'| |? gs|? kt et|? nt et|et| |];
    cbn [same_underlying typed]; try done.
  - by intros ->%bool_decide_eq_true_1.
  - by intros ->%bool_decide_eq_true_1.
  - intros H. bools. by rewrite (same_underlying_kind tags ku kt).
  - revert fs gs. induction IH as [|v vs Hv _ IH]; intros [|[f A] fs] [|[g B] gs]; try done.
    intros H [H1 H2]%andb_true_iff. bools. apply andb_true_iff. split; [by apply (Hv A) | by apply (IH fs)].
  - intros H. bools. assert (kind_of ku = kind_of kt) as Hk by by eapply same_underlying_kind.
    destruct ku, kt; try done; cbn in Hk; try congruence; try (by destruct len); try (by destruct len0).
    apply forallb_impl. eapply Forall_impl; [exact IH|]. intros [n w] Hw. by apply Hw.
  - intros H. bools. assert (kind_of ku = kind_of kt) as Hk by by eapply same_underlying_kind.
    destruct ku, kt; try done; cbn in Hk; try congruence; try (by destruct len); by destruct len0.
  - intros H. bools. subst nt. intros Hl.
    assert (forallb (fun x => typed x eu) l = true -> forallb (fun x => typed x et) l = true) as Hi.
    { apply forallb_impl. eapply Forall_impl; [exact IH|]. intros w Hw. by apply Hw. }
    destruct nu; bools; [|by apply Hi]. rewrite Hi by done. by apply Z.eqb_eq.
  - intros H. bools. by subst.
  - intros H. bools. by apply IH.
Qed.

Lemma deref_typed v : forall T U w, deref v T = Some (U, w) -> typed v T = true -> typed w U = true.
Proof.
  induction v as [| | | | |vs _|l _| |l _| |v IH| |W v IH|] using GVal_ind; intros T U w; cbn [deref]; try by intros [= <- <-].
  - destruct T; try by intros [= <- <-]. apply IH.
  - destruct T; apply IH || (intros _ [=]).
Qed.

(** ** Numbers *)
Lemma to_kind_in k z : (exists y, int_in k y = true) -> int_in k (to_kind k z) = true.
Proof.
  intros [y Hy]. destruct k as [w|w| |]; try done; cbn [int_in to_kind] in *; apply andb_true_iff in Hy as [H1 H2]; zbool.
  - assert (0 < w) as Hw by (destruct (Z.lt_ge_cases 0 w); [done|]; rewrite Z.pow_neg_r in * by lia; lia).
    pose proof (wrap_range w z ltac:(lia)) as [H3 H4].
    assert (2 ^ w = 2 * 2 ^ (w - 1)) by (rewrite <- Z.pow_succ_r by lia; f_equal; lia).
    destruct (Z.ltb_spec (wrap w z) (2 ^ (w - 1)));
      apply andb_true_iff; split; apply Z.leb_le || apply Z.ltb_lt; lia.
  - assert (0 <= w) as Hw by (destruct (Z.le_gt_cases 0 w); [done|]; rewrite Z.pow_neg_r in * by lia; lia).
    pose proof (wrap_range w z Hw) as [H3 H4]. apply andb_true_iff. split; [by apply Z.leb_le | by apply Z.ltb_lt].
Qed.

Lemma f_of_Z_float_ok z : float_ok (f_of_Z z) = true.
Proof.
  unfold f_of_Z, round. destruct (_ <? max_scaled); [|done]. apply Z.leb_le, round_int_nonneg; [|done].
  pose proof one_scaled_pos. lia.
Qed.

Lemma round32_float_ok x : float_ok x = true -> float_ok (round32 x) = true.
Proof.
  destruct x as [| |s k]; [done..|]. cbn [float_ok round32]. intros Hk%Z.leb_le. destruct (_ <? _); [|done].
  apply Z.leb_le. unfold round32_int. pose proof (last_place32_pos k) as Hp.
  pose proof (rnd_even_bounds k _ Hp). pose proof (Z.div_pos k _ Hk Hp). nia.
Qed.

Section Typing.
Context (overflow overflow_unsigned : f64 -> Z) (implements : GType -> string -> bool).

Lemma Convert_typed n k target m l source :
  typed target (TNum n k) = true -> typed source (TNum m l) = true ->
  typed (Convert overflow overflow_unsigned (TNum n k) source) (TNum n k) = true.
Proof.
  intros Ht Hs.
  assert (forall w, k = KSigned w \/ k = KUnsigned w -> exists y, int_in k y = true) as Hk.
  { intros w Hw. destruct target as [|z|x| | | | | | |]; try done; [by exists z|]. by destruct Hw as [-> | ->]. }
  destruct source as [|z|x| | | | | | |]; try done; cbn [typed] in Hs; cbn [Convert].
  - destruct k as [w|w| |]; cbn [typed float_in]; [by apply to_kind_in, (Hk w); left | by apply to_kind_in, (Hk w); right | |].
    + rewrite round32_float_ok, round32_idem by apply f_of_Z_float_ok. by apply bool_decide_eq_true_2.
    + apply f_of_Z_float_ok.
  - assert (float_ok x = true) as Hx by (destruct l; cbn in Hs; bools; done).
    destruct k as [w|w| |]; cbn [typed float_in]; [by apply to_kind_in, (Hk w); left | by apply to_kind_in, (Hk w); right | |].
    + rewrite round32_float_ok, round32_idem by done. by apply bool_decide_eq_true_2.
    + done.
Qed.

(** The fields of a struct under their names, and a predicate that they all have. *)
Lemma sourceFields_all (P : GType * GVal -> Prop) fs vs :
  Forall (fun p => P (p.1.2, p.2)) (zip fs vs) -> map_Forall (fun _ => P) (sourceFields fs vs).
Proof.
  assert (forall names p, P p -> forall m : gmap string (GType * GVal), map_Forall (fun _ => P) m ->
    map_Forall (fun _ => P) (foldl (fun m name => <[name := p]> m) m names)) as Hnames.
  { intros names p Hp. induction names as [|name names IH]; intros m Hm; [done|].
    cbn. apply IH. by apply map_Forall_insert_2. }
  unfold sourceFields. intros Hall.
  assert (forall m : gmap string (GType * GVal), map_Forall (fun _ => P) m ->
    map_Forall (fun _ => P) (foldl (fun m '((field, T), v) =>
      if bool_decide (field_PkgPath field = ""%string)
      then foldl (fun m name => <[name := (T, v)]> m) m (fieldNames field) else m) m (zip fs vs))) as H.
  { induction Hall as [|[[f T] v] l Hp _ IH]; intros m Hm; [done|]. cbn [foldl]. apply IH.
    case_bool_decide; [by apply Hnames | done]. }
  apply H, map_Forall_empty.
Qed.

Definition pair_typed (p : GType * GVal) : Prop := typed p.2 p.1 = true.

Lemma sourceFields_typed n fs vs :
  typed (GStruct vs) (TStruct n fs) = true -> map_Forall (fun _ => pair_typed) (sourceFields fs vs).
Proof.
  rewrite typed_struct. intros H. apply sourceFields_all.
  induction H as [|v [f T] vs fs Hv _ IH]; constructor; done.
Qed.

Section Fields.
Context (assign : GType -> GVal -> GType -> GVal -> result (option GVal)).
Context (lookup : string -> result (option (GType * GVal))).
Hypothesis lookup_typed : forall name p, lookup name = Ok (Some p) -> pair_typed p.

Lemma assign_names_typed T names v w b :
  (forall U source r, typed v T = true -> typed source U = true -> assign T v U source = Ok (Some r) -> typed r T = true) ->
  typed v T = true -> assign_names (assign T v) lookup names v = Ok (w, b) -> typed w T = true.
Proof.
  intros Ha Hv. induction names as [|name names IH]; cbn [assign_names]; [by intros [= <- <-]|].
  destruct (lookup name) as [[[U source]|]|e] eqn:El; cbn [rbind]; [|done..].
  destruct (assign T v U source) as [[r|]|e] eqn:Ea; cbn [rbind]; [|done..].
  intros [= <- <-]. by apply (Ha U source r Hv (lookup_typed _ _ El)).
Qed.

Lemma assign_fields_typed fs : forall vs ws b,
  Forall (fun f => forall v U source r, typed v f.2 = true -> typed source U = true ->
    assign f.2 v U source = Ok (Some r) -> typed r f.2 = true) fs ->
  Forall2 (fun v f => typed v f.2 = true) vs fs ->
  assign_fields lookup (target_fields assign fs vs) = Ok (ws, b) ->
  Forall2 (fun v f => typed v f.2 = true) ws fs.
Proof.
  induction fs as [|[f T] fs IH]; intros vs ws b Hall H2 He.
  - inversion H2; subst. cbn in He. injection He as <- <-. constructor.
  - inversion H2 as [|v ? vs' ? Hv Hvs]; subst. apply Forall_cons in Hall as [Ha Hall].
    cbn [target_fields assign_fields] in He. fold (target_fields assign) in He.
    destruct (if negb _ then _ else _) as [[w a]|e] eqn:E; [|done]. cbn [rbind] in He.
    destruct (assign_fields _ _) as [[ws' others]|e] eqn:Ef; [|done]. cbn [rbind] in He. injection He as <- <-.
    constructor; [|by eapply IH]. destruct (negb _); [by injection E as <- <-|].
    by eapply (assign_names_typed T); [apply Ha | apply Hv | exact E].
Qed.
End Fields.

Lemma entry_Some {A} name (l : list (string * A)) a : entry name l = Some a -> exists n, (n, a) ∈ l.
Proof.
  induction l as [|[n b] l IH]; [done|]. cbn. case_bool_decide.
  - intros [= ->]. exists n. left.
  - intros [m Hm]%IH. exists m. by right.
Qed.

Abbreviation assign := (assignReflectValue overflow overflow_unsigned implements).

Lemma assignReflectValue_eq T target U source :
  assign T target U source =
    match deref source U with
    | None => Ok None
    | Some (U, source) =>
        if AssignableTo implements U T then Ok (Some (Set_ U T source))
        else if ConvertibleTo U T && safeNumericConversion (kind_of T) (kind_of U)
        then Ok (Some (Convert overflow overflow_unsigned T source))
        else
          match T, target with
          | TStruct _ fields, GStruct vs => assignStruct U source (target_fields assign fields vs)
          | _, _ => Ok None
          end
    end.
Proof. by destruct T. Qed.

Lemma Set_typed U T v : AssignableTo implements U T = true -> typed v U = true -> typed (Set_ U T v) T = true.
Proof.
  unfold AssignableTo, identical. intros H Hv. destruct (match T with TInterface _ => true | _ => false end) eqn:E.
  - by destruct T.
  - assert (same_underlying true U T = true) as Hs.
    { destruct T; try done; rewrite orb_false_r in H; apply orb_true_iff in H as [H|H]; by bools. }
    destruct T; try done; by apply (typed_same _ _ _ _ Hs).
Qed.

Lemma assignStruct_typed U source n fs vs r :
  Forall (fun f => forall v U source r, typed v f.2 = true -> typed source U = true ->
    assign f.2 v U source = Ok (Some r) -> typed r f.2 = true) fs ->
  typed (GStruct vs) (TStruct n fs) = true -> typed source U = true ->
  assignStruct U source (target_fields assign fs vs) = Ok (Some r) -> typed r (TStruct n fs) = true.
Proof.
  intros Hall Ht Hs H. pose proof (proj1 (typed_struct _ _ _) Ht) as Hvs.
  assert (forall lookup, (forall name p, lookup name = Ok (Some p) -> pair_typed p) ->
    (let! (ws, assigned) := assign_fields lookup (target_fields assign fs vs) in
     Ok (if assigned : bool then Some (GStruct ws) else None)) = Ok (Some r) -> typed r (TStruct n fs) = true) as Hgen.
  { intros lookup Hl He. destruct (assign_fields _ _) as [[ws a]|e] eqn:E; [|done]. cbn [rbind] in He.
    destruct a; [|done]. injection He as <-. apply typed_struct. by eapply assign_fields_typed. }
  destruct U as [| | |m us|m key elem| | | |]; try done; destruct source as [| | | |ss|entries| | | |]; try done; cbn [assignStruct] in H.
  - revert H. apply Hgen. intros name p [= Hp]. exact (sourceFields_typed m us ss Hs name p Hp).
  - destruct (negb _); [done|]. revert H. apply Hgen. intros name p. unfold MapIndex. destruct (negb _); [done|].
    destruct (entry name _) as [v|] eqn:E; [|done]. intros [= <-]. apply entry_Some in E as [k Hin].
    unfold pair_typed. cbn. destruct key; try done. destruct entries as [l|]; [|by apply elem_of_nil in Hin].
    cbn [typed] in Hs. apply forallb_elem in Hs. rewrite Forall_forall in Hs. exact (Hs _ Hin).
Qed.

(** Assignment keeps the type of the target, whatever the type of the source: the
    result of [assignReflectValue] is again a value of the target's type. *)
Theorem assign_typed T : forall target U source v,
  typed target T = true -> typed source U = true -> assign T target U source = Ok (Some v) -> typed v T = true.
Proof.
  assert (forall T target U source v,
    typed target T = true -> typed source U = true ->
    (forall n fs vs U source, T = TStruct n fs -> target = GStruct vs -> typed source U = true ->
       assignStruct U source (target_fields assign fs vs) = Ok (Some v) -> typed v T = true) ->
    assign T target U source = Ok (Some v) -> typed v T = true) as Hstep.
  { clear T. intros T target U source v Ht Hs Hstruct. rewrite assignReflectValue_eq.
    destruct (deref source U) as [[U' s]|] eqn:Ed; [|done]. pose proof (deref_typed _ _ _ _ Ed Hs) as Hs'.
    destruct (AssignableTo implements U' T) eqn:Ea; [intros [= <-]; by apply Set_typed|].
    destruct (ConvertibleTo U' T && _) eqn:Ec.
    - intros [= <-]. apply andb_true_iff in Ec as [Ec _]. unfold ConvertibleTo in Ec.
      destruct (match T with TNum _ _ => true | _ => false end) eqn:En.
      + destruct T as [|m k| | | | | | |]; try done.
        destruct U' as [|m' k'| | | | | | |]; try done. by eapply Convert_typed.
      + apply orb_true_iff in Ec as [Ec|Ec]; [|by destruct U', T].
        assert (Convert overflow overflow_unsigned T s = s) as -> by by destruct T. by eapply typed_same.
    - destruct T; try done. destruct target; try done. by eapply Hstruct. }
  induction T as [n fs IH|T HT] using GType_ind; intros target U source v Ht Hs.
  - apply Hstep; [done..|]. intros n' fs' vs U' s' [= <- <-] -> Hs'. by apply assignStruct_typed.
  - apply Hstep; [done..|]. by intros n' fs' vs U' s' -> -> .
Qed.

(** ** No panic *)

(** The maps that an assignment from the value looks into have keys of type [string]. *)
Fixpoint string_keys (v : GVal) (T : GType) {struct v} : bool :=
  match v, T with
  | GStruct vs, TStruct _ fs =>
      (fix all (vs : list GVal) (fs : list (StructField * GType)) : bool :=
         match vs, fs with
         | v :: vs, (_, T) :: fs => string_keys v T && all vs fs
         | _, _ => true
         end) vs fs
  | GMap entries, TMap _ key e =>
      bool_decide (name_of key = "string"%string) &&
      match entries with None => true | Some l => forallb (fun x => string_keys x.2 e) l end
  | GPtr (Some v), TPtr e => string_keys v e
  | GIface (Some (U, v)), _ => string_keys v U
  | _, _ => true
  end.

Definition pair_keys (p : GType * GVal) : Prop := string_keys p.2 p.1 = true.

Lemma deref_keys v : forall T U w, deref v T = Some (U, w) -> string_keys v T = true -> string_keys w U = true.
Proof.
  induction v as [| | | | |vs _|l _| |l _| |v IH| |W v IH|] using GVal_ind; intros T U w; cbn [deref];
    try by intros [= <- <-].
  - destruct T; try by intros [= <- <-]. apply IH.
  - destruct T; apply IH || (intros _ [=]).
Qed.

Lemma sourceFields_keys n fs vs :
  string_keys (GStruct vs) (TStruct n fs) = true -> map_Forall (fun _ => pair_keys) (sourceFields fs vs).
Proof.
  intros H. apply sourceFields_all. revert fs H.
  induction vs as [|v vs IH]; intros [|[f T] fs] H; try by constructor.
  cbn in H. apply andb_true_iff in H as [H1 H2]. constructor; [exact H1 | by apply IH].
Qed.

Lemma assign_fields_total (assign : GType -> GVal -> GType -> GVal -> result (option GVal)) lookup fs :
  (forall name, exists p, lookup name = Ok p /\ forall x, p = Some x -> pair_keys x) ->
  Forall (fun f => forall v U source, string_keys source U = true -> is_ok (assign f.2 v U source) = true) fs ->
  forall vs, is_ok (assign_fields lookup (target_fields assign fs vs)) = true.
Proof.
  intros Hl Hall. induction Hall as [|[f T] fs Ha _ IH]; intros [|v vs]; try done.
  cbn [target_fields assign_fields]. fold (target_fields assign).
  assert (forall names w, is_ok (assign_names (assign T v) lookup names w) = true) as Hn.
  { induction names as [|name names IHn]; intros w; [done|]. cbn [assign_names].
    destruct (Hl name) as (p & -> & Hp). cbn [rbind]. destruct p as [[U source]|]; [|apply IHn].
    specialize (Ha v U source (Hp _ eq_refl)). cbn in Ha. destruct (assign T v U source) as [[r|]|e]; [done | apply IHn | done]. }
  specialize (Hn (fieldNames f) v).
  destruct (negb _); cbn [rbind].
  - specialize (IH vs). by destruct (assign_fields _ _) as [[ws b]|e].
  - destruct (assign_names _ _ _ _) as [[w b]|e]; [|done]. cbn [rbind]. specialize (IH vs).
    by destruct (assign_fields _ _) as [[ws b']|e].
Qed.

Lemma assign_total T : forall target U source,
  string_keys source U = true -> is_ok (assign T target U source) = true.
Proof.
  induction T as [n fs IH|T HT] using GType_ind; intros target U source Hk; rewrite assignReflectValue_eq;
    (destruct (deref source U) as [[U' s]|] eqn:Ed; [|done]);
    (destruct (AssignableTo implements U' _); [done|]); (destruct (_ && _); [done|]); [|by destruct T].
  pose proof (deref_keys _ _ _ _ Ed Hk) as Hs. destruct target as [| | | |vs| | | | |]; try done.
  assert (forall lookup, (forall name, exists p, lookup name = Ok p /\ forall x, p = Some x -> pair_keys x) ->
    is_ok (let! (ws, assigned) := assign_fields lookup (target_fields assign fs vs) in
      Ok (if assigned : bool then Some (GStruct ws) else None)) = true) as Hgen.
  { intros lookup Hl. pose proof (assign_fields_total assign lookup fs Hl IH vs) as H.
    by destruct (assign_fields _ _) as [[ws b]|e]. }
  destruct U' as [| | |m us|m key elem| | | |]; try done; destruct s as [| | | |ss|entries| | | |]; try done; cbn [assignStruct].
  - apply Hgen. intros name. eexists. split; [reflexivity|]. intros x Hx.
    exact (sourceFields_keys m us ss Hs name x Hx).
  - destruct (negb _); [done|]. apply Hgen. intros name. unfold MapIndex.
    cbn [string_keys] in Hs. apply andb_true_iff in Hs as [-> Hs]. cbn [negb]. eexists. split; [reflexivity|].
    intros x. destruct (entry name _) as [w|] eqn:E; [|done]. intros [= <-]. apply entry_Some in E as [k Hin].
    destruct entries as [l|]; [|by apply elem_of_nil in Hin]. apply forallb_elem in Hs. rewrite Forall_forall in Hs.
    exact (Hs _ Hin).
Qed.
End Typing.
