(* ===== verification/Decode.v ===== *)
(** * Decode: messages as reflected values

    The reflected form of the messages that the codecs decode, with the types of
    their struct declarations ([network/wire.go], [network/protocol.go],
    [network/reliability.go]), and [Decode] of such a message into a Go variable. *)
From S2P Require Import Prelude Buffer Values Snapshot Messages Packet Registry Float64 Payload.

Create HintDb good.

(** ** Types *)
Definition tString : GType := TString "string".
Definition tBool : GType := TBool "bool".
Definition tUint8 : GType := TNum "uint8" (KUnsigned 8).
Definition tUint16 : GType := TNum "uint16" (KUnsigned 16).
Definition tUint32 : GType := TNum "uint32" (KUnsigned 32).
Definition tUint64 : GType := TNum "uint64" (KUnsigned 64).
Definition tInt64 : GType := TNum "int64" (KSigned 64).
Definition tInt : GType := TNum "int" (KSigned 64).
Definition tFloat32 : GType := TNum "float32" KFloat32.
Definition tFloat64 : GType := TNum "float64" KFloat64.
Definition tAny : GType := TInterface "".
Definition tBytes : GType := TList "" None tUint8.
Definition tCapabilities : GType := TNum "network.WireCapabilities" (KUnsigned 64).
Definition tSnapshotData : GType := TMap "network.SnapshotData" tString (TMap "" tString tAny).

(** An exported field without a tag, and one with a json tag. *)
Definition plain (name : string) (T : GType) : StructField * GType := (mkStructField name "" "", T).
Definition tagged (name tag : string) (T : GType) : StructField * GType := (mkStructField name "" tag, T).

(** A struct: its type with its value. *)
Definition struct (name : string) (fields : list (StructField * GType * GVal)) : GType * GVal :=
  (TStruct name (map fst fields), GStruct (map snd fields)).

Definition f_string (name : string) (s : string) := (plain name tString, GString s).
Definition f_uint (name : string) (T : GType) (z : Z) := (plain name T, GInt z).
Definition f_float32 (name : string) (bits : Z) := (plain name tFloat32, GFloat (f32_of_bits bits)).
Definition bytes_val (bs : bytes) : GVal := GList (Some (map (fun b => GInt (Z_of_byte b)) bs)).

(** ** Messages *)
Section Reflect.
(** The types of values and messages that the repository does not declare. *)
Context (other_value : GoValue -> GType * GVal) (other_message : string -> GoValue -> GType * GVal).

(** An [any] as [decodeWireValue] builds it. *)
Fixpoint any_val (v : GoValue) : GVal :=
  GIface
    match v with
    | VNil => None
    | VBool b => Some (tBool, GBool b)
    | VInt z => Some (tInt64, GInt z)
    | VUint z => Some (tUint64, GInt z)
    | VFloat64 bits => Some (tFloat64, GFloat (f_of_bits bits))
    | VString s => Some (tString, GString s)
    | VMap entries => Some (TMap "" tString tAny, GMap (Some (map (fun e => (e.1, any_val e.2)) entries)))
    | VSlice items => Some (TList "" None tAny, GList (Some (map any_val items)))
    | _ => Some (other_value v)
    end.

Definition objects_val (objects : SnapshotObjects) : GVal :=
  GMap (Some (map (fun e => (e.1, any_val e.2)) (map_to_list objects))).

Definition snapshot_val (data : SnapshotData) : GVal :=
  GMap (Some (map (fun e => (e.1, objects_val e.2)) (map_to_list data))).

Definition f_snapshot (name : string) (data : SnapshotData) := (plain name tSnapshotData, snapshot_val data).

Definition ref_val (r : SnapshotObjectRef) : GType * GVal := struct "network.SnapshotObjectRef" [
  (tagged "ObjectType" "objectType" tString, GString (ref_ObjectType r));
  (tagged "ObjectID" "objectId" tString, GString (ref_ObjectID r))].

Fixpoint message_val (m : GoMessage) : GType * GVal :=
  match m with
  | MClientHello m => struct (type_name (MClientHello m)) [
      f_string "ClientName" (hello_ClientName m); f_string "Token" (hello_Token m);
      f_uint "ProtocolVersion" tUint8 (hello_ProtocolVersion m);
      f_uint "Capabilities" tCapabilities (hello_Capabilities m);
      f_uint "MaxPacketSize" tUint32 (hello_MaxPacketSize m)]
  | MWelcome m => struct (type_name (MWelcome m)) [
      f_string "ClientID" (welcome_ClientID m); f_string "AuthenticatedID" (welcome_AuthenticatedID m);
      f_uint "ProtocolVersion" tUint8 (welcome_ProtocolVersion m);
      f_uint "Capabilities" tCapabilities (welcome_Capabilities m);
      f_uint "MaxPacketSize" tUint32 (welcome_MaxPacketSize m)]
  | MPing m => struct (type_name (MPing m)) [f_uint "Nonce" tUint64 (ping_Nonce m)]
  | MPong m => struct (type_name (MPong m)) [f_uint "Nonce" tUint64 (pong_Nonce m)]
  | MErrorMessage m => struct (type_name (MErrorMessage m)) [
      f_uint "Code" tUint16 (err_Code m); f_string "Message" (err_Message m)]
  | MDisconnectMessage m => struct (type_name (MDisconnectMessage m)) [
      f_uint "Code" tUint16 (disc_Code m); f_string "Message" (disc_Message m)]
  | MObjectRequest m => struct (type_name (MObjectRequest m)) [
      f_string "ObjectType" (req_ObjectType m); f_string "ObjectID" (req_ObjectID m);
      f_string "Action" (req_Action m); (plain "Data" tBytes, bytes_val (req_Data m))]
  | MPlayerInput m => struct (type_name (MPlayerInput m)) [
      f_uint "Sequence" tUint64 (pin_Sequence m); f_uint "Tick" tUint64 (pin_Tick m);
      f_string "ObjectID" (pin_ObjectID m);
      f_float32 "X" (pin_X m); f_float32 "Y" (pin_Y m); f_float32 "Z" (pin_Z m)]
  | MGenericClientInput m => struct (type_name (MGenericClientInput m)) [
      f_uint "Sequence" tUint64 (gci_Sequence m); f_uint "Tick" tUint64 (gci_Tick m);
      f_string "ObjectType" (gci_ObjectType m); f_string "ObjectID" (gci_ObjectID m);
      f_string "TargetID" (gci_TargetID m); (plain "Payload" tBytes, bytes_val (gci_Payload m))]
  | MWorldSnapshot m => struct (type_name (MWorldSnapshot m)) [
      f_string "ClientID" (ws_ClientID m); f_uint "Tick" tUint64 (ws_Tick m);
      f_uint "LastSequence" tUint64 (ws_LastSequence m); f_snapshot "Objects" (ws_Objects m)]
  | MWorldDeltaSnapshot m => struct (type_name (MWorldDeltaSnapshot m)) [
      f_string "ClientID" (wd_ClientID m); f_uint "Tick" tUint64 (wd_Tick m);
      f_uint "LastSequence" tUint64 (wd_LastSequence m); f_uint "BaselineTick" tUint64 (wd_BaselineTick m);
      f_snapshot "Spawned" (wd_Spawned m); f_snapshot "Changed" (wd_Changed m);
      (plain "Despawned" (TList "" None (ref_val (mkRef "" "")).1),
       GList (Some (map (fun r => (ref_val r).2) (wd_Despawned m))))]
  | MEntitySpawn m => struct (type_name (MEntitySpawn m)) [
      f_string "ObjectType" (spawn_ObjectType m); f_string "ObjectID" (spawn_ObjectID m);
      (plain "Snapshot" tAny, any_val (spawn_Snapshot m))]
  | MEntityDespawn m => struct (type_name (MEntityDespawn m)) [
      f_string "ObjectType" (despawn_ObjectType m); f_string "ObjectID" (despawn_ObjectID m)]
  | MEntityUpdate m => struct (type_name (MEntityUpdate m)) [
      f_string "ObjectType" (update_ObjectType m); f_string "ObjectID" (update_ObjectID m);
      (plain "Snapshot" tAny, any_val (update_Snapshot m))]
  | MChatMessage m => struct (type_name (MChatMessage m)) [f_string "Text" (chat_Text m)]
  | MUnknownWireMessage m => struct (type_name (MUnknownWireMessage m)) [
      f_uint "Type" (TNum "network.WireMessageType" (KUnsigned 16)) (unknown_Type m);
      (plain "Payload" tBytes, bytes_val (unknown_Payload m))]
  | MAuthenticationResponse m => struct (type_name (MAuthenticationResponse m)) [
      (tagged "Type" "type" tString, GString (authr_Type m));
      (tagged "Sequence" "seq,omitempty" tUint64, GInt (authr_Sequence m));
      (tagged "OK" "ok" tBool, GBool (authr_OK m));
      (tagged "ClientID" "clientId" tString, GString (authr_ClientID m));
      (tagged "AuthenticatedID" "authenticatedId" tString, GString (authr_AuthenticatedID m))]
  | MResponseMessage m => struct (type_name (MResponseMessage m)) [
      (tagged "Type" "type" tString, GString (resp_Type m));
      (tagged "Sequence" "seq,omitempty" tUint64, GInt (resp_Sequence m));
      (tagged "OK" "ok" tBool, GBool (resp_OK m));
      (tagged "Error" "error,omitempty" tString, GString (resp_Error m));
      (tagged "Data" "data,omitempty" tAny, any_val (resp_Data m))]
  | MWireDelivery message class => struct (type_name (MWireDelivery message class)) [
      (plain "Message" tAny, GIface (payload_val message));
      f_uint "Class" (TNum "network.DeliveryClass" (KUnsigned 8)) class]
  | MWirePriority message priority => struct (type_name (MWirePriority message priority)) [
      (plain "Message" tAny, GIface (payload_val message));
      f_uint "Priority" (TNum "network.OutboundPriority" (KSigned 64)) priority]
  | MOther name value => other_message name value
  end
with payload_val (payload : GoAny) : option (GType * GVal) :=
  match payload with
  | AnyNil => None
  | AnyValue m => Some (message_val m)
  | AnyPointer m => Some (TPtr (message_val m).1, GPtr (Some (message_val m).2))
  | AnyNilPointer name => Some (TPtr (TOther name), GPtr None)
  end.
End Reflect.

(** ** Go variables *)

(** A Go struct type: its reflected type, and its values as reflected ones. *)
Class Reflect (A : Type) := { type_of : GType; to_val : A -> GVal; of_val : GVal -> option A }.
Arguments type_of A {_}.

Class ReflectLaws (A : Type) `{Reflect A} : Prop := {
  of_val_typed v : typed v (type_of A) = true -> is_Some (of_val v);
  of_val_to_val (a : A) : of_val (to_val a) = Some a
}.

(** Reflection outside the repository: see [Payload] and [Section Reflect] above. *)
Class Reflection := {
  int_overflow : f64 -> Z;
  uint_overflow : f64 -> Z;
  implements : GType -> string -> bool;
  other_value : GoValue -> GType * GVal;
  other_message : string -> GoValue -> GType * GVal
}.

Class ReflectionLaws `{Reflection} : Prop := {
  other_value_typed v : typed (other_value v).2 (other_value v).1 = true;
  other_value_keys v : string_keys (other_value v).2 (other_value v).1 = true
}.

Section Decoding.
Context {reflection : Reflection}.

Abbreviation message_value := (message_val other_value other_message).

(** [decodePayload(payload, &target)] for a variable of type [A] that holds [zero];
    [json] is [json.Marshal] of the payload with [json.Unmarshal] into the target. *)
Definition decode_as {A} `{Reflect A} (json : GoAny -> A -> result A) (zero : A) (payload : GoAny) : result A :=
  let unmarshal _ _ v :=
    match of_val v with Some a => let! a := json payload a in Ok (to_val a) | None => Err ErrPanic end in
  let! target := decodePayload int_overflow uint_overflow implements unmarshal
    (payload_val other_value other_message payload) (TargetPointer (type_of A) (to_val zero)) in
  match target with
  | TargetPointer _ v => match of_val v with Some a => Ok a | None => Err ErrPanic end
  | _ => Err ErrPanic
  end.

Context `{laws : !ReflectionLaws}.

Lemma f_of_bits_float_ok bits : float_ok (f_of_bits bits) = true.
Proof.
  unfold f_of_bits. assert (0 <= Z.land bits (2 ^ 52 - 1)) as Hm by (apply Z.land_nonneg; lia).
  revert Hm. generalize (Z.land bits (2 ^ 52 - 1)). intros m Hm.
  destruct (_ =? 2047); [by destruct (m =? 0)|]. destruct (_ =? 0); apply Z.leb_le; [done|].
  apply Z.mul_nonneg_nonneg; [lia | by apply Z.pow_nonneg].
Qed.

Lemma f32_of_bits_float_ok bits : float_ok (f32_of_bits bits) = true.
Proof.
  unfold f32_of_bits. assert (0 <= Z.land bits (2 ^ 23 - 1)) as Hm by (apply Z.land_nonneg; lia).
  revert Hm. generalize (Z.land bits (2 ^ 23 - 1)). intros m Hm.
  destruct (_ =? 255); [by destruct (m =? 0)|].
  destruct (_ =? 0); apply Z.leb_le; (apply Z.mul_nonneg_nonneg; [lia | by apply Z.pow_nonneg]).
Qed.

Lemma f32_typed bits : typed (GFloat (f32_of_bits bits)) tFloat32 = true.
Proof. cbn. rewrite f32_of_bits_float_ok, round32_of_bits. by apply bool_decide_eq_true_2. Qed.

Lemma int_in_unsigned w z : in_u w z -> int_in (KUnsigned w) z = true.
Proof. intros [H1 H2]. apply andb_true_iff. split; [by apply Z.leb_le | by apply Z.ltb_lt]. Qed.

Lemma int_in_signed z : in_i64 z -> int_in (KSigned 64) z = true.
Proof. intros [H1 H2]. apply andb_true_iff. split; [by apply Z.leb_le | by apply Z.ltb_lt]. Qed.

Lemma bytes_typed bs : typed (bytes_val bs) tBytes = true.
Proof.
  cbn. apply forallb_elem, Forall_map, Forall_forall. intros b _. apply int_in_unsigned. by destruct b.
Qed.

(** A reflected value that is well-typed and that no assignment panics on. *)
Definition good (v : GVal) (T : GType) : Prop := typed v T = true /\ string_keys v T = true.

Lemma good_entries {A} (f : A -> GVal) (name : A -> string) n T l :
  Forall (fun x => good (f x) T) l ->
  good (GMap (Some (map (fun x => (name x, f x)) l))) (TMap n tString T).
Proof.
  intros H. split; cbn; apply forallb_elem, Forall_map; eapply Forall_impl; [exact H | | exact H |]; by intros x [H1 H2].
Qed.

Lemma good_items {A} (f : A -> GVal) n T l :
  Forall (fun x => typed (f x) T = true) l -> good (GList (Some (map f l))) (TList n None T).
Proof. intros H. split; [|done]. cbn. by apply forallb_elem, Forall_map. Qed.

Lemma any_val_good v : GoValue_ok v = true -> good (any_val other_value v) tAny.
Proof.
  assert (forall v, good (GIface (Some (other_value v))) tAny) as Hother.
  { intros w. pose proof (other_value_typed w) as H1. pose proof (other_value_keys w) as H2. by destruct (other_value w). }
  assert (forall T w, good w T -> good (GIface (Some (T, w))) tAny) as Hiface by done.
  induction v as [| |v IH| | | | | | | |es IH|es IH| |fs IH| |l IH|l IH|] using GoValue_ind; intros Hok;
    cbn [any_val]; try apply Hother; try done; apply Hiface.
  - split; [|done]. cbn in Hok. bools. by apply int_in_signed.
  - split; [|done]. cbn in Hok. bools. by apply (int_in_unsigned 64).
  - split; [apply f_of_bits_float_ok | done].
  - cbn in Hok. apply andb_true_iff in Hok as [_ Hok]. apply forallb_elem in Hok. apply good_entries.
    rewrite Forall_forall in *. intros e He. by apply IH, Hok.
  - cbn in Hok. apply forallb_elem in Hok. apply good_items. rewrite Forall_forall in *. intros e He. by apply IH, Hok.
Qed.

Lemma snapshot_good data :
  snapshot_forall (fun v => GoValue_ok v = true) data -> good (snapshot_val other_value data) tSnapshotData.
Proof.
  intros H. apply good_entries, Forall_forall. intros [t objects] Ht%elem_of_map_to_list.
  apply good_entries, Forall_forall. intros [i v] Hi%elem_of_map_to_list. apply any_val_good.
  exact (H t objects Ht i v Hi).
Qed.

(** A struct of good fields. *)
Definition good_field (f : StructField * GType * GVal) : Prop := good f.2 f.1.2.

Lemma good_struct name fields :
  Forall good_field fields -> good (struct name fields).2 (struct name fields).1.
Proof.
  intros H. split; [apply typed_struct|]; induction H as [|[[f T] v] fs [Hf1 Hf2] _ IH]; try done.
  - by constructor.
  - cbn in *. by rewrite Hf2.
Qed.

Lemma good_string name s : good_field (f_string name s).
Proof. done. Qed.

Lemma good_uint name n w z : in_u w z -> good_field (f_uint name (TNum n (KUnsigned w)) z).
Proof. intros H. split; [by apply int_in_unsigned | done]. Qed.

Lemma good_float32 name bits : good_field (f_float32 name bits).
Proof. split; [apply f32_typed | done]. Qed.

Lemma good_bytes name bs : good_field (plain name tBytes, bytes_val bs).
Proof. split; [apply bytes_typed | done]. Qed.

Lemma good_any name v : GoValue_ok v = true -> good_field (plain name tAny, any_val other_value v).
Proof. apply any_val_good. Qed.

Lemma good_snapshot name data :
  snapshot_forall (fun v => GoValue_ok v = true) data -> good_field (f_snapshot other_value name data).
Proof. apply snapshot_good. Qed.

Lemma good_refs name l :
  good_field (plain name (TList "" None (ref_val (mkRef "" "")).1), GList (Some (map (fun r => (ref_val r).2) l))).
Proof. apply good_items, Forall_forall. by intros []. Qed.

#[local] Hint Resolve good_string good_uint good_float32 good_bytes good_any good_snapshot good_refs : good.

(** The messages that the registry decodes are good values. *)
Lemma message_val_good m : builtin_typed m -> good (message_value m).2 (message_value m).1.
Proof.
  intros H. destruct m; try done; cbn [message_val];
    cbv [builtin_typed wc_typed hello_typed ClientHello_codec Welcome_codec Ping_codec Pong_codec ErrorMessage_codec
      DisconnectMessage_codec ObjectRequest_codec PlayerInput_codec GenericClientInput_codec WorldSnapshot_codec
      WorldDeltaSnapshot_codec EntitySpawn_codec EntityDespawn_codec EntityUpdate_codec] in H; apply good_struct;
    repeat match goal with H : _ /\ _ |- _ => destruct H end;
    repeat (apply Forall_cons_2; [eauto with good|]); apply Forall_nil_2.
Qed.

(** [Decode] of a message that the registry has decoded never panics: it is JSON's
    answer, or the variable with values of its type. *)
Lemma decode_as_safe {A} `{ReflectLaws A} (json : GoAny -> A -> result A) (zero : A) m :
  builtin_typed m -> typed (to_val zero) (type_of A) = true ->
  decode_as json zero (AnyValue m) = json (AnyValue m) zero \/
  exists v a, typed v (type_of A) = true /\ of_val v = Some a /\ decode_as json zero (AnyValue m) = Ok a.
Proof.
  intros Hm Hz. apply message_val_good in Hm as [Ht Hk]. unfold decode_as.
  change (payload_val other_value other_message (AnyValue m)) with (Some (message_value m)).
  destruct (message_value m) as [U source]. cbn [fst snd] in *. unfold decodePayload.
  pose proof (assign_total int_overflow uint_overflow implements (type_of A) (to_val zero) U source Hk) as Hok.
  destruct (assignReflectValue _ _ _ _ _ _ _) as [[v|]|e] eqn:E; [right | left | by cbn in Hok]; cbn [rbind].
  - pose proof (assign_typed _ _ _ _ _ _ _ _ Hz Ht E) as Hv. destruct (of_val_typed v Hv) as [a Ha].
    exists v, a. by rewrite Ha.
  - rewrite of_val_to_val. destruct (json _ zero) as [a|e]; [|done]. cbn [rbind]. by rewrite of_val_to_val.
Qed.

(** C38: whatever the network sends, decoding does no harm.  A framed message of any
    type and payload is refused with a wire error or the validation error, or is
    passed on as a type that the server does not know, or becomes a message that
    [Decode] copies into any variable of the game without a panic: the variable then
    holds values of its type, or what JSON makes of it where no field fits. *)
Theorem decode_safe {World A} `{ReflectLaws A} (r : WireMessageRegistry (World := World))
    (json : GoAny -> A -> result A) (zero : A) w :
  NewDefaultWireMessageRegistry = Ok r -> typed (to_val zero) (type_of A) = true ->
  match DecodeMessage (Some r) w with
  | Ok (AnyValue (MUnknownWireMessage u)) => u = mkUnknownWire (msg_Type w) (msg_Payload w)
  | Ok (AnyValue m) =>
      decode_as json zero (AnyValue m) = json (AnyValue m) zero \/
      exists v a, typed v (type_of A) = true /\ of_val v = Some a /\ decode_as json zero (AnyValue m) = Ok a
  | Ok _ => False
  | Err e => wire_error e \/ e = ErrWireMessageValidation
  end.
Proof.
  intros Hr Hz. pose proof (DecodeMessage_safe r w Hr) as Hd.
  destruct (DecodeMessage (Some r) w) as [[|m| |]|e]; try exact Hd.
  destruct Hd as [Hm|[-> _]]; [|reflexivity]. pose proof (decode_as_safe json zero m Hm Hz) as Hs.
  destruct m; exact Hs || (exfalso; exact Hm).
Qed.
End Decoding.

(** ** [SceneSwitchRequest] *)
Record SceneSwitchRequest := mkSceneSwitchRequest { ssr_TargetScene : string }.

#[export] Instance SceneSwitchRequest_reflect : Reflect SceneSwitchRequest := {
  type_of := TStruct "network.SceneSwitchRequest" [tagged "TargetScene" "targetScene" (TString "network.SceneID")];
  to_val r := GStruct [GString (ssr_TargetScene r)];
  of_val v := match v with GStruct [GString s] => Some (mkSceneSwitchRequest s) | _ => None end
}.

#[export] Instance SceneSwitchRequest_laws : ReflectLaws SceneSwitchRequest.
Proof.
  split; [|by intros []]. intros v Hv. destruct v as [| | | |vs| | | | |]; try done.
  apply typed_struct in Hv. inversion Hv as [|w ? ws ? Hw Hws]; subst. inversion Hws; subst.
  by destruct w.
Qed.

(** ** Witnesses *)
Definition no_reflection : Reflection := {|
  int_overflow _ := 0;
  uint_overflow _ := 0;
  implements _ _ := false;
  other_value _ := (TOther "other", GOther 0);
  other_message _ _ := (TOther "other", GOther 0)
|}.

Lemma no_reflection_laws : ReflectionLaws (H := no_reflection).
Proof. by split. Qed.

(** An entity update is decoded into a scene switch: no field fits. *)
Lemma decode_safe_witness :
  exists r, NewDefaultWireMessageRegistry (World := unit) = Ok r /\
    match DecodeMessage (Some r) (mkWireMessage WireMessageEntityDespawn [x00; x01; x61; x00; x01; x62] DeliveryUnreliable 0) with
    | Ok (AnyValue m) =>
        is_ok (decode_as (reflection := no_reflection) (fun _ r => Ok r) (mkSceneSwitchRequest "a") (AnyValue m)) = true
    | _ => True
    end.
Proof.
  destruct (default_registry_exists (World := unit)) as [r Hr]. exists r. split; [exact Hr|].
  pose proof (decode_safe (reflection := no_reflection) (laws := no_reflection_laws) r (fun _ r => Ok r)
    (mkSceneSwitchRequest "a")
    (mkWireMessage WireMessageEntityDespawn [x00; x01; x61; x00; x01; x62] DeliveryUnreliable 0) Hr eq_refl) as H.
  destruct (DecodeMessage _ _) as [[|m| |]|]; try exact I.
  destruct m; try (destruct H as [-> | (v & a & _ & _ & ->)]; reflexivity). by subst.
Defined.
