(* ===== verification/Scenes.v ===== *)
(** * Scene management

    [network/scene_management.go], and [interestObjectKey] of
    [network/interest_management.go].  The state is the field [scenes] of
    [Features], [None] before its first use; every function is for a [Features]
    that is not nil.  The lock that each method takes is left out: a method is one
    step. *)
From Stdlib Require Import Ascii.
From S2P Require Import Prelude Keys.

Definition SceneID := string.
Definition SceneGlobal : SceneID := "*".

Definition normalizeSceneID (sceneID : SceneID) : SceneID := normalizeObjectKey sceneID.

Definition interestObjectKey (objectType objectID : string) : string :=
  (normalizeObjectKey objectType ++ "/" ++ normalizeObjectKey objectID)%string.

Record SceneManager := mkScenes {
  scenes_enabled : bool;
  scenes_clients : gmap string SceneID;
  scenes_objects : gmap string SceneID
}.

Definition newSceneManager : SceneManager := mkScenes false ∅ ∅.

(** [if features.scenes == nil { features.scenes = newSceneManager() }]. *)
Definition scenes_of (scenes : option SceneManager) : SceneManager := default newSceneManager scenes.

Definition Scenes (scenes : option SceneManager) : option SceneManager := Some (scenes_of scenes).

(** [enabled = len(clients) > 0] after a change. *)
Definition with_enabled (clients objects : gmap string SceneID) : SceneManager :=
  mkScenes (negb (bool_decide (size clients = 0%nat))) clients objects.

Definition empty_key (s : string) : bool := bool_decide (s = ""%string).

Definition SetObjectScene (scenes : option SceneManager) (objectType objectID : string)
    (sceneID : SceneID) : option SceneManager * bool :=
  let objectType := normalizeObjectKey objectType in
  let objectID := normalizeObjectKey objectID in
  let sceneID := normalizeSceneID sceneID in
  if empty_key objectType || empty_key objectID || empty_key sceneID then (scenes, false)
  else
    let m := scenes_of scenes in
    (Some (with_enabled (scenes_clients m)
       (<[interestObjectKey objectType objectID := sceneID]> (scenes_objects m))), true).

(** [identity] is what [objectIdentity] makes of the object. *)
Definition SetObjectSceneForObject (scenes : option SceneManager) (identity : result (string * string))
    (sceneID : SceneID) : option SceneManager * bool :=
  match identity with
  | Err _ => (scenes, false)
  | Ok (objectType, objectID) => SetObjectScene scenes objectType objectID sceneID
  end.

Definition SetObjectGlobal (scenes : option SceneManager) (objectType objectID : string)
    : option SceneManager * bool :=
  SetObjectScene scenes objectType objectID SceneGlobal.

Definition ClearObjectScene (scenes : option SceneManager) (objectType objectID : string)
    : option SceneManager :=
  let objectType := normalizeObjectKey objectType in
  let objectID := normalizeObjectKey objectID in
  if empty_key objectType || empty_key objectID then scenes
  else match scenes with
  | None => None
  | Some m =>
      Some (with_enabled (scenes_clients m)
        (delete (interestObjectKey objectType objectID) (scenes_objects m)))
  end.

Definition ObjectScene (scenes : option SceneManager) (objectType objectID : string) : option SceneID :=
  let objectType := normalizeObjectKey objectType in
  let objectID := normalizeObjectKey objectID in
  if empty_key objectType || empty_key objectID then None
  else match scenes with
  | None => None
  | Some m => scenes_objects m !! interestObjectKey objectType objectID
  end.

Definition SetClientScene (scenes : option SceneManager) (clientID : string) (sceneID : SceneID)
    : option SceneManager * bool :=
  let clientID := normalizeObjectKey clientID in
  let sceneID := normalizeSceneID sceneID in
  if empty_key clientID || empty_key sceneID then (scenes, false)
  else
    let m := scenes_of scenes in
    (Some (with_enabled (<[clientID := sceneID]> (scenes_clients m)) (scenes_objects m)), true).

Definition ClearClientScene (scenes : option SceneManager) (clientID : string) : option SceneManager :=
  let clientID := normalizeObjectKey clientID in
  if empty_key clientID then scenes
  else match scenes with
  | None => None
  | Some m => Some (with_enabled (delete clientID (scenes_clients m)) (scenes_objects m))
  end.

Definition ClientScene (scenes : option SceneManager) (clientID : string) : option SceneID :=
  let clientID := normalizeObjectKey clientID in
  if empty_key clientID then None
  else match scenes with
  | None => None
  | Some m => scenes_clients m !! clientID
  end.

Definition DisableSceneManagement (scenes : option SceneManager) (objectType objectID : string)
    : option SceneManager :=
  ClearObjectScene scenes objectType objectID.

(** [sceneState]: a copy of the manager, empty unless it is enabled. *)
Definition sceneState (scenes : option SceneManager) : SceneManager :=
  match scenes with
  | None => newSceneManager
  | Some m => if scenes_enabled m then m else newSceneManager
  end.

(** [sceneState.clientScene]. *)
Definition clientScene (state : SceneManager) (clientID : string) : option SceneID :=
  if negb (scenes_enabled state) then None
  else scenes_clients state !! normalizeObjectKey clientID.

(** [sceneState.objectVisibleToClient]: the pair of [clientScene] and
    [filtersScene] is the option. *)
Definition objectVisibleToClient (state : SceneManager) (client : option SceneID)
    (objectType objectID : string) : bool :=
  match client with
  | None => true
  | Some scene =>
      if negb (scenes_enabled state) then true
      else match scenes_objects state !! interestObjectKey objectType objectID with
      | None => true
      | Some objectScene =>
          if decide (objectScene = SceneGlobal) then true else bool_decide (objectScene = scene)
      end
  end.

(** ** Invariant *)
Definition key_ok (s : string) : Prop := key_normal s /\ s <> ""%string.

Record scenes_ok (scenes : option SceneManager) : Prop := {
  so_enabled m : scenes = Some m -> scenes_enabled m = negb (bool_decide (size (scenes_clients m) = 0%nat));
  so_clients m : scenes = Some m ->
    map_Forall (fun c s => key_ok c /\ key_ok s) (scenes_clients m);
  so_objects m : scenes = Some m -> map_Forall (fun _ s => key_ok s) (scenes_objects m)
}.

Inductive scene_op :=
| OpSetObject (objectType objectID sceneID : string)
| OpClearObject (objectType objectID : string)
| OpSetClient (clientID sceneID : string)
| OpClearClient (clientID : string).

Definition scene_step (scenes : option SceneManager) (op : scene_op) : option SceneManager :=
  match op with
  | OpSetObject t i s => (SetObjectScene scenes t i s).1
  | OpClearObject t i => ClearObjectScene scenes t i
  | OpSetClient c s => (SetClientScene scenes c s).1
  | OpClearClient c => ClearClientScene scenes c
  end.

Lemma empty_key_false s : empty_key s = false -> s <> ""%string.
Proof. unfold empty_key. by rewrite bool_decide_eq_false. Qed.

Lemma key_ok_normalize s : empty_key (normalizeObjectKey s) = false -> key_ok (normalizeObjectKey s).
Proof. intros H%empty_key_false. by split. Qed.

Lemma interestObjectKey_norm t i :
  interestObjectKey (normalizeObjectKey t) (normalizeObjectKey i) = interestObjectKey t i.
Proof. unfold interestObjectKey. by rewrite !normalizeObjectKey_idemp. Qed.

Lemma key_ok_eq s : key_ok s -> normalizeObjectKey s = s /\ empty_key s = false.
Proof. intros [H Hne]. split; [exact H | by apply bool_decide_eq_false_2]. Qed.

(** The scene that was set is the scene that is read. *)
Lemma ObjectScene_set scenes t i s :
  key_ok t -> key_ok i -> key_ok s -> ObjectScene (SetObjectScene scenes t i s).1 t i = Some s.
Proof.
  intros Ht Hi Hs. apply key_ok_eq in Ht as [Ht Ht'], Hi as [Hi Hi'], Hs as [Hs Hs'].
  unfold SetObjectScene, ObjectScene, normalizeSceneID. rewrite Ht, Hi, Hs, Ht', Hi', Hs'.
  cbn [orb fst scenes_objects with_enabled]. by rewrite lookup_insert_eq.
Qed.

Lemma ClientScene_set scenes c s :
  key_ok c -> key_ok s -> ClientScene (SetClientScene scenes c s).1 c = Some s.
Proof.
  intros Hc Hs. apply key_ok_eq in Hc as [Hc Hc'], Hs as [Hs Hs'].
  unfold SetClientScene, ClientScene, normalizeSceneID. rewrite Hc, Hs, Hc', Hs'.
  cbn [orb fst scenes_clients with_enabled]. by rewrite lookup_insert_eq.
Qed.

Lemma ObjectScene_client scenes c s t i :
  ObjectScene (SetClientScene scenes c s).1 t i = ObjectScene scenes t i.
Proof.
  unfold SetClientScene. destruct (empty_key (normalizeObjectKey c) || empty_key (normalizeSceneID s)); [done|].
  unfold ObjectScene. cbn [fst].
  destruct (empty_key (normalizeObjectKey t) || empty_key (normalizeObjectKey i)); [done|].
  destruct scenes as [m|]; [done|]. cbn. by rewrite lookup_empty.
Qed.

Lemma scenes_of_ok scenes : scenes_ok scenes -> scenes_ok (Some (scenes_of scenes)).
Proof.
  intros [H1 H2 H3]. destruct scenes as [m|]; [done|].
  split; intros m [= <-]; [done | apply map_Forall_empty | apply map_Forall_empty].
Qed.

Lemma with_enabled_ok clients objects :
  map_Forall (fun c s => key_ok c /\ key_ok s) clients -> map_Forall (fun _ s => key_ok s) objects ->
  scenes_ok (Some (with_enabled clients objects)).
Proof. intros Hc Ho. by split; intros m [= <-]. Qed.

Lemma scene_step_ok scenes op : scenes_ok scenes -> scenes_ok (scene_step scenes op).
Proof.
  intros Hok. pose proof (scenes_of_ok _ Hok) as [_ Hc Ho].
  specialize (Hc _ eq_refl). specialize (Ho _ eq_refl).
  destruct op as [t i s|t i|c s|c]; cbn [scene_step].
  - unfold SetObjectScene. destruct (_ || empty_key (normalizeSceneID s)) eqn:E; [done|].
    apply orb_false_iff in E as [_ Es]. apply with_enabled_ok; [done|].
    apply map_Forall_insert_2; [by apply key_ok_normalize | done].
  - unfold ClearObjectScene. destruct (_ || _); [done|]. destruct scenes as [m|]; [|done].
    apply with_enabled_ok; [done | by apply map_Forall_delete].
  - unfold SetClientScene. destruct (_ || empty_key (normalizeSceneID s)) eqn:E; [done|].
    apply orb_false_iff in E as [Ec Es]. apply with_enabled_ok; [|done].
    apply map_Forall_insert_2; [split; by apply key_ok_normalize | done].
  - unfold ClearClientScene. destruct (empty_key _); [done|]. destruct scenes as [m|]; [|done].
    apply with_enabled_ok; [by apply map_Forall_delete | done].
Qed.

Lemma scene_run_ok ops : forall scenes, scenes_ok scenes -> scenes_ok (foldl scene_step scenes ops).
Proof. induction ops as [|op ops IH]; intros scenes H; [done|]. by apply IH, scene_step_ok. Qed.

Lemma no_scenes_ok : scenes_ok None.
Proof. split; by intros m. Qed.

(** ** Specification: membership by identity, not by key string *)
Record AbsScenes := mkAbs {
  abs_client : gmap string SceneID;
  abs_object : gmap (string * string) SceneID
}.

Definition abs_step (a : AbsScenes) (op : scene_op) : AbsScenes :=
  match op with
  | OpSetObject t i s =>
      let t := normalizeObjectKey t in let i := normalizeObjectKey i in let s := normalizeObjectKey s in
      if empty_key t || empty_key i || empty_key s then a
      else mkAbs (abs_client a) (<[(t, i) := s]> (abs_object a))
  | OpClearObject t i =>
      mkAbs (abs_client a) (delete (normalizeObjectKey t, normalizeObjectKey i) (abs_object a))
  | OpSetClient c s =>
      let c := normalizeObjectKey c in let s := normalizeObjectKey s in
      if empty_key c || empty_key s then a else mkAbs (<[c := s]> (abs_client a)) (abs_object a)
  | OpClearClient c => mkAbs (delete (normalizeObjectKey c) (abs_client a)) (abs_object a)
  end.

(** An object is shown to a client unless both are in scenes and these differ. *)
Definition abs_visible (a : AbsScenes) (clientID objectType objectID : string) : Prop :=
  match abs_client a !! normalizeObjectKey clientID,
        abs_object a !! (normalizeObjectKey objectType, normalizeObjectKey objectID) with
  | Some scene, Some objectScene => objectScene = SceneGlobal \/ objectScene = scene
  | _, _ => True
  end.

(** The implementation's answer. *)
Definition visible (scenes : option SceneManager) (clientID objectType objectID : string) : bool :=
  let state := sceneState scenes in
  objectVisibleToClient state (clientScene state clientID) objectType objectID.

(** *** The key of an object *)
Definition slash : ascii := "/"%char.

Fixpoint has_slash (s : string) : bool :=
  match s with
  | EmptyString => false
  | String a s => bool_decide (a = slash) || has_slash s
  end.

Lemma join_inj t1 : forall t2 i1 i2 : string,
  has_slash t1 = false -> has_slash t2 = false ->
  (t1 ++ "/" ++ i1 = t2 ++ "/" ++ i2)%string -> t1 = t2 /\ i1 = i2.
Proof.
  induction t1 as [|a t1 IH]; intros [|b t2] i1 i2 H1 H2 E; simpl in *.
  - injection E as E. split; [done | exact E].
  - injection E as <- _. apply orb_false_iff in H2 as [H2 _]. by rewrite bool_decide_true in H2.
  - injection E as -> _. apply orb_false_iff in H1 as [H1 _]. by rewrite bool_decide_true in H1.
  - injection E as -> E. apply orb_false_iff in H1 as [_ H1], H2 as [_ H2].
    destruct (IH t2 i1 i2 H1 H2 E) as [-> ->]. done.
Qed.

(** Object types without a slash. *)
Definition plain_type (t : string) : Prop := has_slash (normalizeObjectKey t) = false.

Lemma interestObjectKey_inj t1 i1 t2 i2 :
  plain_type t1 -> plain_type t2 -> interestObjectKey t1 i1 = interestObjectKey t2 i2 ->
  normalizeObjectKey t1 = normalizeObjectKey t2 /\ normalizeObjectKey i1 = normalizeObjectKey i2.
Proof. intros H1 H2. by apply join_inj. Qed.

Definition plain_op (op : scene_op) : Prop :=
  match op with OpSetObject t _ _ | OpClearObject t _ => plain_type t | _ => True end.

(** The two states agree. *)
Record refines (scenes : option SceneManager) (a : AbsScenes) : Prop := {
  rf_ok : scenes_ok scenes;
  rf_clients c : scenes_clients (scenes_of scenes) !! c = abs_client a !! c;
  rf_objects t i : plain_type t ->
    scenes_objects (scenes_of scenes) !! interestObjectKey t i =
    abs_object a !! (normalizeObjectKey t, normalizeObjectKey i);
  rf_keys t i s : abs_object a !! (t, i) = Some s -> t <> ""%string /\ i <> ""%string;
  rf_client_keys c s : abs_client a !! c = Some s -> c <> ""%string
}.

Lemma refines_init : refines None (mkAbs ∅ ∅).
Proof.
  split; [apply no_scenes_ok | done | | |]; simpl.
  - intros t i _. by rewrite !lookup_empty.
  - intros t i s. by rewrite lookup_empty.
  - intros c s. by rewrite lookup_empty.
Qed.

Lemma object_key_ne t i t' i' :
  plain_type t -> plain_type t' ->
  (normalizeObjectKey t, normalizeObjectKey i) <> (normalizeObjectKey t', normalizeObjectKey i') ->
  interestObjectKey t i <> interestObjectKey t' i'.
Proof. intros H H' Hne E. apply Hne. by destruct (interestObjectKey_inj _ _ _ _ H H' E) as [-> ->]. Qed.

Lemma scenes_of_clear scenes : scenes_of scenes = default newSceneManager scenes.
Proof. done. Qed.

Lemma refines_set_object scenes a t i s :
  plain_type t -> refines scenes a ->
  refines (scene_step scenes (OpSetObject t i s)) (abs_step a (OpSetObject t i s)).
Proof.
  intros Hp Hr. pose proof (scene_step_ok scenes (OpSetObject t i s) (rf_ok _ _ Hr)) as Hok'.
  destruct Hr as [Hok Hc Ho Hk Hck]. cbn [scene_step abs_step] in *. unfold SetObjectScene, normalizeSceneID in *.
  destruct (empty_key (normalizeObjectKey t) || empty_key (normalizeObjectKey i)
    || empty_key (normalizeObjectKey s)) eqn:E; [done|].
  apply orb_false_iff in E as [[Et Ei]%orb_false_iff _].
  split; [done | done | | | done]; cbn [fst scenes_of default from_option id scenes_objects with_enabled abs_object].
  - intros t' i' Hp'. rewrite interestObjectKey_norm.
    destruct (decide ((normalizeObjectKey t, normalizeObjectKey i) =
      (normalizeObjectKey t', normalizeObjectKey i'))) as [Eq|Hne].
    + injection Eq as E1 E2. unfold interestObjectKey. rewrite E1, E2. by rewrite !lookup_insert_eq.
    + rewrite lookup_insert_ne by by apply object_key_ne. rewrite lookup_insert_ne by done. by apply Ho.
  - intros t' i' s' [[[= <- <-] _]|[_ H]]%lookup_insert_Some; [|by eapply Hk].
    by split; apply empty_key_false.
Qed.

(** Any state without the object's entry agrees with the map without it. *)
Lemma refines_delete_object scenes scenes' a t i :
  plain_type t -> refines scenes a -> scenes_ok scenes' ->
  scenes_clients (scenes_of scenes') = scenes_clients (scenes_of scenes) ->
  scenes_objects (scenes_of scenes') = delete (interestObjectKey t i) (scenes_objects (scenes_of scenes)) ->
  refines scenes' (mkAbs (abs_client a) (delete (normalizeObjectKey t, normalizeObjectKey i) (abs_object a))).
Proof.
  intros Hp [Hok Hc Ho Hk Hck] Hok1 Hcl Hob.
  split; [done | by rewrite Hcl | | | done]; cbn [abs_object].
  - intros t' i' Hp'. rewrite Hob.
    destruct (decide ((normalizeObjectKey t, normalizeObjectKey i) =
      (normalizeObjectKey t', normalizeObjectKey i'))) as [Eq|Hne].
    + injection Eq as E1 E2. unfold interestObjectKey. rewrite E1, E2. by rewrite !lookup_delete_eq.
    + rewrite lookup_delete_ne by by apply object_key_ne. rewrite lookup_delete_ne by done. by apply Ho.
  - intros t' i' s' [_ H]%lookup_delete_Some. by eapply Hk.
Qed.

Lemma refines_clear_object scenes a t i :
  plain_type t -> refines scenes a ->
  refines (scene_step scenes (OpClearObject t i)) (abs_step a (OpClearObject t i)).
Proof.
  intros Hp Hr. pose proof (scene_step_ok scenes (OpClearObject t i) (rf_ok _ _ Hr)) as Hok'.
  apply (refines_delete_object scenes _ a t i Hp Hr Hok'); destruct Hr as [Hok Hc Ho Hk Hck];
    cbn [scene_step]; unfold ClearObjectScene in *; destruct (_ || _) eqn:E; try by destruct scenes.
  - symmetry. apply delete_id. rewrite Ho by done.
    destruct (abs_object a !! _) as [s|] eqn:Es; [|done]. apply Hk in Es as [Et Ei].
    unfold empty_key in E. by rewrite !bool_decide_false in E.
  - destruct scenes as [m|]; [by rewrite interestObjectKey_norm | done].
Qed.

Lemma refines_set_client scenes a c s :
  refines scenes a -> refines (scene_step scenes (OpSetClient c s)) (abs_step a (OpSetClient c s)).
Proof.
  intros Hr. pose proof (scene_step_ok scenes (OpSetClient c s) (rf_ok _ _ Hr)) as Hok'.
  destruct Hr as [Hok Hc Ho Hk Hck]. cbn [scene_step abs_step] in *. unfold SetClientScene, normalizeSceneID in *.
  destruct (empty_key (normalizeObjectKey c) || empty_key (normalizeObjectKey s)) eqn:E; [done|].
  apply orb_false_iff in E as [Ec _].
  split; [done | | done | done |]; cbn [fst scenes_of default from_option id scenes_clients with_enabled abs_client].
  - intros c'. destruct (decide (normalizeObjectKey c = c')) as [->|Hne];
      [by rewrite !lookup_insert_eq | by rewrite !lookup_insert_ne].
  - intros c' s' [[<- _]|[_ H]]%lookup_insert_Some; [by apply empty_key_false | by eapply Hck].
Qed.

Lemma refines_delete_client scenes scenes' a c :
  refines scenes a -> scenes_ok scenes' ->
  scenes_clients (scenes_of scenes') = delete (normalizeObjectKey c) (scenes_clients (scenes_of scenes)) ->
  scenes_objects (scenes_of scenes') = scenes_objects (scenes_of scenes) ->
  refines scenes' (mkAbs (delete (normalizeObjectKey c) (abs_client a)) (abs_object a)).
Proof.
  intros [Hok Hc Ho Hk Hck] Hok1 Hcl Hob. split; [done | | by rewrite Hob | done |]; cbn [abs_client].
  - intros c'. rewrite Hcl. destruct (decide (normalizeObjectKey c = c')) as [->|Hne];
      [by rewrite !lookup_delete_eq | by rewrite !lookup_delete_ne].
  - intros c' s' [_ H]%lookup_delete_Some. by eapply Hck.
Qed.

Lemma refines_clear_client scenes a c :
  refines scenes a -> refines (scene_step scenes (OpClearClient c)) (abs_step a (OpClearClient c)).
Proof.
  intros Hr. pose proof (scene_step_ok scenes (OpClearClient c) (rf_ok _ _ Hr)) as Hok'.
  apply (refines_delete_client scenes _ a c Hr Hok'); destruct Hr as [Hok Hc Ho Hk Hck];
    cbn [scene_step]; unfold ClearClientScene in *; destruct (empty_key _) eqn:E; try by destruct scenes.
  symmetry. apply delete_id. rewrite Hc.
  destruct (abs_client a !! _) as [s|] eqn:Es; [|done]. apply Hck in Es.
  unfold empty_key in E. by rewrite bool_decide_false in E.
Qed.

Lemma refines_step scenes a op :
  plain_op op -> refines scenes a -> refines (scene_step scenes op) (abs_step a op).
Proof.
  destruct op; cbn [plain_op]; intros Hp Hr;
    [by apply refines_set_object | by apply refines_clear_object | by apply refines_set_client
    | by apply refines_clear_client].
Qed.

Lemma refines_run ops : forall scenes a,
  Forall plain_op ops -> refines scenes a ->
  refines (foldl scene_step scenes ops) (foldl abs_step a ops).
Proof.
  induction ops as [|op ops IH]; intros scenes a Hp Hr; [done|].
  apply Forall_cons in Hp as [Hop Hp]. apply IH; [done | by apply refines_step].
Qed.

(** Visibility needs the manager to be enabled, which it is as soon as a client
    is in a scene. *)
Lemma visible_spec scenes c t i :
  scenes_ok scenes ->
  visible scenes c t i = true <->
  match scenes_clients (scenes_of scenes) !! normalizeObjectKey c,
        scenes_objects (scenes_of scenes) !! interestObjectKey t i with
  | Some scene, Some objectScene => objectScene = SceneGlobal \/ objectScene = scene
  | _, _ => True
  end.
Proof.
  intros Hok. unfold visible, sceneState. destruct scenes as [m|]; [|by simpl; rewrite lookup_empty].
  change (scenes_of (Some m)) with m.
  pose proof (so_enabled _ Hok m eq_refl) as He. destruct (scenes_enabled m) eqn:Een.
  - unfold clientScene, objectVisibleToClient. rewrite Een. cbn [negb].
    destruct (scenes_clients m !! normalizeObjectKey c) as [scene|]; [|done].
    destruct (scenes_objects m !! interestObjectKey t i) as [objectScene|]; [|done].
    destruct (decide (objectScene = SceneGlobal)) as [->|Hne]; [tauto|].
    rewrite bool_decide_eq_true. tauto.
  - symmetry in He. apply negb_false_iff, bool_decide_eq_true, map_size_empty_iff in He. rewrite He, lookup_empty.
    done.
Qed.

(** ** Properties *)

(** C37: scene membership refines its specification.  After any operations on
    objects whose type has no slash, a client sees an object unless the last
    scenes given to the two differ and the object's is not the global one; what
    [ClientScene] and [ObjectScene] report is what was last set, by trimmed
    identifiers. *)
Theorem scenes_refinement ops :
  Forall plain_op ops ->
  let scenes := foldl scene_step None ops in
  let a := foldl abs_step (mkAbs ∅ ∅) ops in
  (forall c t i, plain_type t -> visible scenes c t i = true <-> abs_visible a c t i) /\
  (forall c, ClientScene scenes c = abs_client a !! normalizeObjectKey c) /\
  (forall t i, plain_type t ->
     ObjectScene scenes t i = abs_object a !! (normalizeObjectKey t, normalizeObjectKey i)).
Proof.
  intros Hp. cbv zeta. pose proof (refines_run ops _ _ Hp refines_init) as [Hok Hc Ho Hk Hck].
  set (scenes := foldl scene_step None ops) in *. set (a := foldl abs_step (mkAbs ∅ ∅) ops) in *.
  split_and!.
  - intros c t i Ht. rewrite (visible_spec _ _ _ _ Hok), Hc, Ho by done. done.
  - intros c. unfold ClientScene. destruct (empty_key _) eqn:E.
    + destruct (abs_client a !! _) as [s|] eqn:Es; [|done]. apply Hck in Es.
      unfold empty_key in E. by rewrite bool_decide_false in E.
    + rewrite <- Hc. destruct scenes as [m|]; [done | exact (eq_sym (lookup_empty _))].
  - intros t i Ht. unfold ObjectScene. destruct (_ || _) eqn:E.
    + destruct (abs_object a !! _) as [s|] eqn:Es; [|done]. apply Hk in Es as [Et Ei].
      unfold empty_key in E. by rewrite !bool_decide_false in E.
    + rewrite <- Ho by done. destruct scenes as [m|];
        [by rewrite interestObjectKey_norm | exact (eq_sym (lookup_empty _))].
Qed.

(** Two objects can share one scene entry.  The key of an object joins its
    type and its id with a slash without escaping it, so an object type with a
    slash makes distinct objects collide: putting one in a scene hides the other
    from the clients of other scenes. *)
Theorem scene_key_collision client :
  let scenes := foldl scene_step None
    [OpSetClient client "lobby"; OpSetObject "npc/guard" "1" "dungeon"] in
  empty_key (normalizeObjectKey client) = false ->
  ObjectScene scenes "npc" "guard/1" = Some "dungeon"%string /\
  visible scenes client "npc" "guard/1" = false.
Proof.
  cbv zeta. intros He.
  assert (foldl scene_step None [OpSetClient client "lobby"; OpSetObject "npc/guard" "1" "dungeon"] =
    Some (with_enabled (<[normalizeObjectKey client := "lobby"%string]> ∅)
            (<["npc/guard/1"%string := "dungeon"%string]> ∅))) as E.
  { cbn [foldl]. unfold scene_step at 2, SetClientScene. rewrite He. reflexivity. }
  pose proof (scene_run_ok [OpSetClient client "lobby"; OpSetObject "npc/guard" "1" "dungeon"] None
    no_scenes_ok) as Hok.
  rewrite E in *. split; [reflexivity|]. apply not_true_iff_false. rewrite visible_spec by done.
  change (scenes_of (Some ?m)) with m. cbn [scenes_clients scenes_objects with_enabled].
  rewrite lookup_insert_eq. change (interestObjectKey "npc" "guard/1") with "npc/guard/1"%string.
  rewrite lookup_insert_eq. intros [H|H]; discriminate.
Qed.

(** ** Witnesses *)
Definition scene_example : list scene_op :=
  [OpSetClient "alice" "lobby"; OpSetObject "npc" " guard " "dungeon"; OpSetObject "npc" "cat" "*"].

Lemma scenes_refinement_witness :
  ClientScene (foldl scene_step None scene_example) "alice" = Some "lobby"%string /\
  visible (foldl scene_step None scene_example) "alice" "npc" "cat" = true.
Proof.
  destruct (scenes_refinement scene_example) as (Hv & Hc & _);
    [repeat (constructor; [exact I || reflexivity|]); constructor|].
  split.
  - exact (Hc "alice"%string).
  - apply (Hv "alice"%string "npc"%string "cat"%string); [reflexivity|]. left. reflexivity.
Defined.

Lemma scene_key_collision_witness :
  visible (foldl scene_step None [OpSetClient "alice" "lobby"; OpSetObject "npc/guard" "1" "dungeon"])
    "alice" "npc" "guard/1" = false.
Proof. exact (proj2 (scene_key_collision "alice" eq_refl)). Defined.
