(* ===== verification/Interest.v ===== *)
(** * Interest management

    [network/interest_management.go], and of [network/runtime.go] the two routines
    that decide which managed objects a player sees: [visibleInterestObjectKeys],
    with a spatial hash, and [visibleInterestObjectKeysLinear], the reference it
    falls back to.  The registrations are the field [interest] of [Features],
    [None] before their first use; the lock of [Features] makes each method one
    step.  [EqualFold] is [strings.EqualFold], [ParseFloat] is
    [strconv.ParseFloat] to 64 bits ([None] for an error), and [overflow] is what
    the processor makes of a float that does not fit an [int].

    A Go [range] over a map has no order: the fields of a map snapshot are tried in
    the order of the list that stands for it, and the players in the order of
    [map_to_list]. *)
From S2P Require Import Prelude Keys Values Float64 Scenes.

Definition InterestSubject := string.
Definition InterestPlayer : InterestSubject := "Player".
Definition InterestGameObject : InterestSubject := "GameObject".

Record InterestManagementConfig := mkInterest {
  SubjectType : InterestSubject;
  ic_ObjectType : string;
  ic_ObjectID : string;
  XField : string;
  YField : string;
  ZField : string;
  Radius : f64;
  IncludeSelf : bool
}.

(** [identity] is what [objectIdentity] gives for the object. *)
Definition objectInterestConfig (subject : InterestSubject) (identity : result (string * string))
    (xField yField zField : string) : InterestManagementConfig :=
  let (objectType, objectID) :=
    match identity with Ok (t, i) => (t, i) | Err _ => (""%string, ""%string) end in
  mkInterest subject objectType objectID xField yField zField f_zero false.

Definition PlayerInterest (identity : result (string * string)) (xField yField zField : string)
    (radius : f64) : InterestManagementConfig :=
  let config := objectInterestConfig InterestPlayer identity xField yField zField in
  mkInterest (SubjectType config) (ic_ObjectType config) (ic_ObjectID config) (XField config)
    (YField config) (ZField config) radius true.

Definition PlayerInterest2D (identity : result (string * string)) (xField yField : string)
    (radius : f64) : InterestManagementConfig :=
  PlayerInterest identity xField yField "" radius.

Definition GameObjectInterest (identity : result (string * string)) (xField yField zField : string)
    : InterestManagementConfig :=
  objectInterestConfig InterestGameObject identity xField yField zField.

Definition GameObjectInterest2D (identity : result (string * string)) (xField yField : string)
    : InterestManagementConfig :=
  GameObjectInterest identity xField yField "".

(** ** Registrations *)
Record InterestManager := mkManager {
  interest_enabled : bool;
  interest_players : gmap string InterestManagementConfig;
  interest_objects : gmap string InterestManagementConfig
}.

Definition newInterestManager : InterestManager := mkManager false ∅ ∅.
Definition interest_of (interest : option InterestManager) : InterestManager :=
  default newInterestManager interest.

Definition InterestManagement (interest : option InterestManager) : option InterestManager :=
  Some (interest_of interest).

(** The canonical subject: [switch strings.ToLower(strings.TrimSpace(...))]. *)
Definition normalizeSubject (subject : InterestSubject) : option InterestSubject :=
  let name := ToLower (TrimSpace subject) in
  if decide (name = "player"%string) then Some InterestPlayer
  else if decide (name ∈ ["gameobject"%string; "game object"%string; "object"%string])
  then Some InterestGameObject
  else None.

(** [None] stands for [false]. *)
Definition normalizeInterestConfig (config : InterestManagementConfig)
    : option InterestManagementConfig :=
  let objectType := normalizeObjectKey (ic_ObjectType config) in
  let objectID := normalizeObjectKey (ic_ObjectID config) in
  let xField := TrimSpace (XField config) in
  let yField := TrimSpace (YField config) in
  let zField := TrimSpace (ZField config) in
  if empty_key objectType || empty_key objectID || empty_key xField || empty_key yField then None
  else
    let radius := if f_lt (Radius config) f_zero then f_zero else Radius config in
    match normalizeSubject (SubjectType config) with
    | Some subject =>
        Some (mkInterest subject objectType objectID xField yField zField radius (IncludeSelf config))
    | None => None
    end.

(** [enabled = len(players) > 0] after a change. *)
Definition with_players (players objects : gmap string InterestManagementConfig) : InterestManager :=
  mkManager (negb (bool_decide (size players = 0%nat))) players objects.

Definition EnableInterestManagement (interest : option InterestManager)
    (config : InterestManagementConfig) : option InterestManager :=
  match normalizeInterestConfig config with
  | None => interest
  | Some config =>
      let m := interest_of interest in
      let key := interestObjectKey (ic_ObjectType config) (ic_ObjectID config) in
      Some (if decide (SubjectType config = InterestPlayer)
            then with_players (<[key := config]> (interest_players m)) (interest_objects m)
            else with_players (interest_players m) (<[key := config]> (interest_objects m)))
  end.

Definition DisableInterestManagement (interest : option InterestManager)
    (objectType objectID : string) : option InterestManager :=
  let objectType := normalizeObjectKey objectType in
  let objectID := normalizeObjectKey objectID in
  if empty_key objectType || empty_key objectID then interest
  else
    match interest with
    | None => None
    | Some m =>
        let key := interestObjectKey objectType objectID in
        Some (with_players (delete key (interest_players m)) (delete key (interest_objects m)))
    end.

(** [interestState]: a copy of the tables when the filter is on. *)
Definition interestState (interest : option InterestManager) : InterestManager :=
  match interest with
  | Some m => if interest_enabled m then m else newInterestManager
  | None => newInterestManager
  end.

Definition playerForClient (state : InterestManager) (clientID : string)
    : option InterestManagementConfig :=
  let clientID := normalizeObjectKey clientID in
  if empty_key clientID then None
  else snd <$> List.find (fun e => bool_decide (ic_ObjectID e.2 = clientID))
                 (map_to_list (interest_players state)).

Definition objectConfig (state : InterestManager) (objectType objectID : string)
    : option InterestManagementConfig :=
  let key := interestObjectKey objectType objectID in
  match interest_players state !! key with
  | Some config => Some config
  | None => interest_objects state !! key
  end.

(** ** Positions in snapshots *)
Record interestPosition := mkPosition { pos_X : f64; pos_Y : f64; pos_Z : f64; HasZ : bool }.

(** [indirectValue]: [None] is the invalid [reflect.Value]. *)
Fixpoint indirectValue (value : GoValue) : option GoValue :=
  match value with
  | VNil => None
  | VPtr target => match target with Some v => indirectValue v | None => None end
  | _ => Some value
  end.

Section Snapshots.
Context (EqualFold : string -> string -> bool) (ParseFloat : string -> option f64).

(** A [json.Number] is a string to reflection, and is parsed in the same way. *)
Definition numberValue (value : GoValue) : option f64 :=
  match indirectValue value with
  | Some (VFloat32 bits) => Some (f_of_bits (float64_of_float32 bits))
  | Some (VFloat64 bits) => Some (f_of_bits bits)
  | Some (VInt z) | Some (VUint z) => Some (f_of_Z z)
  | Some (VString s) => ParseFloat s
  | _ => None
  end.

Definition matchesSnapshotField (field : StructField) (fieldName : string) : bool :=
  if bool_decide (field_Name field = fieldName) || EqualFold (field_Name field) fieldName then true
  else
    let jsonName := (split_comma (field_jsonTag field)).1 in
    if bool_decide (jsonName = ""%string) || bool_decide (jsonName = "-"%string) then false
    else bool_decide (jsonName = fieldName) || EqualFold jsonName fieldName.

Fixpoint structNumber (fields : list (StructField * GoValue)) (fieldName : string) : option f64 :=
  match fields with
  | [] => None
  | (field, value) :: rest =>
      if negb (bool_decide (field_PkgPath field = ""%string)) then structNumber rest fieldName
      else if matchesSnapshotField field fieldName then numberValue value
      else structNumber rest fieldName
  end.

Fixpoint mapNumber (entries : list (string * GoValue)) (fieldName : string) : option f64 :=
  match entries with
  | [] => None
  | (keyName, value) :: rest =>
      if negb (bool_decide (keyName = fieldName)) && negb (EqualFold keyName fieldName)
      then mapNumber rest fieldName
      else numberValue value
  end.

Definition snapshotNumber (snapshot : GoValue) (fieldName : string) : option f64 :=
  let fieldName := TrimSpace fieldName in
  if empty_key fieldName then None
  else
    match indirectValue snapshot with
    | Some (VMap entries) | Some (VMapDefinedKey entries) => mapNumber entries fieldName
    | Some (VStruct fields) => structNumber fields fieldName
    | _ => None
    end.

Definition extractPosition (snapshot : GoValue) (config : InterestManagementConfig)
    : option interestPosition :=
  match snapshotNumber snapshot (XField config) with
  | None => None
  | Some x =>
      match snapshotNumber snapshot (YField config) with
      | None => None
      | Some y =>
          if empty_key (ZField config) then Some (mkPosition x y f_zero false)
          else
            match snapshotNumber snapshot (ZField config) with
            | None => None
            | Some z => Some (mkPosition x y z true)
            end
      end
  end.
End Snapshots.

(** ** Radii *)
Definition withinInterestRadius (a b : interestPosition) (radius : f64) : bool :=
  let dx := f_sub (pos_X a) (pos_X b) in
  let dy := f_sub (pos_Y a) (pos_Y b) in
  if HasZ a && HasZ b then
    let dz := f_sub (pos_Z a) (pos_Z b) in
    f_le (f_add (f_add (f_mul dx dx) (f_mul dy dy)) (f_mul dz dz)) (f_mul radius radius)
  else f_le (f_add (f_mul dx dx) (f_mul dy dy)) (f_mul radius radius).

Definition finiteInterestPosition (position : interestPosition) : bool :=
  if is_nan (pos_X position) || is_nan (pos_Y position) || is_inf (pos_X position) ||
     is_inf (pos_Y position) then false
  else if negb (HasZ position) then true
  else negb (is_nan (pos_Z position)) && negb (is_inf (pos_Z position)).

Definition effectiveInterestRadius (playerConfig objectConfig : InterestManagementConfig) : f64 :=
  if f_le (Radius playerConfig) f_zero then Radius objectConfig else Radius playerConfig.

Definition filtersByInterestRadius (radius : f64) : bool :=
  f_lt f_zero radius && negb (is_nan radius) && negb (is_inf radius).

Record interestSnapshotObject := mkInterestObject {
  io_objectType : string;
  io_objectID : string;
  io_key : string;
  io_snapshot : GoValue;
  io_visible : bool;
  io_managed : bool;
  io_config : InterestManagementConfig;
  io_position : interestPosition;
  io_hasPosition : bool
}.

(** One turn of the loop of [interestSpatialQueryRadius]. *)
Definition grow_radius (playerConfig : InterestManagementConfig) (radius : f64)
    (entry : interestSnapshotObject) : f64 :=
  if negb (io_visible entry) || negb (io_managed entry) then radius
  else
    let entryRadius := effectiveInterestRadius playerConfig (io_config entry) in
    if filtersByInterestRadius entryRadius && f_lt radius entryRadius then entryRadius else radius.

Definition interestSpatialQueryRadius (entries : list interestSnapshotObject)
    (playerConfig : InterestManagementConfig) : f64 :=
  if filtersByInterestRadius (Radius playerConfig) then Radius playerConfig
  else foldl (grow_radius playerConfig) f_zero entries.

(** ** The spatial hash *)
Definition interestSpatialCell : Type := Z * Z.

(** [cells] is [None] for the nil map. *)
Record interestSpatialHash := mkHash {
  cellSize : f64;
  cells : option (gmap interestSpatialCell (list nat))
}.

Definition newInterestSpatialHash (cellSize : f64) : interestSpatialHash :=
  if f_le cellSize f_zero || is_nan cellSize || is_inf cellSize then mkHash f_zero None
  else mkHash cellSize (Some ∅).

Section SpatialHash.
Context (overflow : f64 -> Z).

Definition cellFor (hash : interestSpatialHash) (x y : f64) : interestSpatialCell :=
  (f_cell overflow x (cellSize hash), f_cell overflow y (cellSize hash)).

Definition insert (hash : interestSpatialHash) (position : interestPosition) (index : nat)
    : interestSpatialHash :=
  match cells hash with
  | Some table =>
      if f_le (cellSize hash) f_zero || negb (finiteInterestPosition position) then hash
      else
        let cell := cellFor hash (pos_X position) (pos_Y position) in
        mkHash (cellSize hash) (Some (<[cell := default [] (table !! cell) ++ [index]]> table))
  | None => hash
  end.

(** The integers [for i := first; i <= last; i++] goes through. *)
Definition int_range (first last : Z) : list Z := seqZ first (last - first + 1).

Definition query (hash : interestSpatialHash) (position : interestPosition) (radius : f64) : list nat :=
  match cells hash with
  | Some table =>
      if f_le (cellSize hash) f_zero || bool_decide (size table = 0%nat) || f_le radius f_zero ||
         is_nan radius || is_inf radius || negb (finiteInterestPosition position) then []
      else
        let minCell := cellFor hash (f_sub (pos_X position) radius) (f_sub (pos_Y position) radius) in
        let maxCell := cellFor hash (f_add (pos_X position) radius) (f_add (pos_Y position) radius) in
        concat (map (fun y =>
          concat (map (fun x => default [] (table !! (x, y))) (int_range minCell.1 maxCell.1)))
          (int_range minCell.2 maxCell.2))
  | None => []
  end.

(** ** The objects a player sees *)
Definition is_player (playerConfig : InterestManagementConfig) (object : interestSnapshotObject) : bool :=
  bool_decide (io_objectType object = ic_ObjectType playerConfig) &&
  bool_decide (io_objectID object = ic_ObjectID playerConfig).

Definition visibleLinear (playerConfig : InterestManagementConfig) (playerPosition : interestPosition)
    (visible : gset string) (object : interestSnapshotObject) : gset string :=
  if negb (io_visible object) || negb (io_managed object) then visible
  else
    let isSelf := is_player playerConfig object in
    if isSelf && negb (IncludeSelf (io_config object)) then visible
    else
      let radius := effectiveInterestRadius playerConfig (io_config object) in
      if negb isSelf && filtersByInterestRadius radius && io_hasPosition object &&
         negb (withinInterestRadius playerPosition (io_position object) radius)
      then visible
      else {[io_key object]} ∪ visible.

Definition visibleInterestObjectKeysLinear (objects : list interestSnapshotObject)
    (playerConfig : InterestManagementConfig) (playerPosition : interestPosition) : gset string :=
  foldl (visibleLinear playerConfig playerPosition) ∅ objects.

(** One turn of the first loop of [visibleInterestObjectKeys]. *)
Definition index_object (playerConfig : InterestManagementConfig)
    (state : gset string * interestSpatialHash) (entry : nat * interestSnapshotObject)
    : gset string * interestSpatialHash :=
  let (visible, hash) := state in
  let (index, object) := entry in
  if negb (io_visible object) || negb (io_managed object) then (visible, hash)
  else if is_player playerConfig object then
    (if IncludeSelf (io_config object) then {[io_key object]} ∪ visible else visible, hash)
  else
    let radius := effectiveInterestRadius playerConfig (io_config object) in
    if negb (filtersByInterestRadius radius) || negb (io_hasPosition object)
    then ({[io_key object]} ∪ visible, hash)
    else (visible, insert hash (io_position object) index).

(** One turn of the second loop. *)
Definition show_found (objects : list interestSnapshotObject) (playerConfig : InterestManagementConfig)
    (playerPosition : interestPosition) (visible : gset string) (index : nat) : gset string :=
  match objects !! index with
  | Some object =>
      let radius := effectiveInterestRadius playerConfig (io_config object) in
      if withinInterestRadius playerPosition (io_position object) radius
      then {[io_key object]} ∪ visible else visible
  | None => visible
  end.

Definition visibleInterestObjectKeys (objects : list interestSnapshotObject)
    (playerConfig : InterestManagementConfig) (playerPosition : interestPosition) : gset string :=
  if negb (finiteInterestPosition playerPosition)
  then visibleInterestObjectKeysLinear objects playerConfig playerPosition
  else
    let queryRadius := interestSpatialQueryRadius objects playerConfig in
    let (visible, hash) :=
      foldl (index_object playerConfig) (∅, newInterestSpatialHash queryRadius)
        (combine (seq 0 (length objects)) objects) in
    foldl (show_found objects playerConfig playerPosition) visible
      (query hash playerPosition queryRadius).

(** ** What the two routines compute *)
Section Visible.
Context (playerConfig : InterestManagementConfig) (playerPosition : interestPosition).

Definition radius_of (o : interestSnapshotObject) : f64 :=
  effectiveInterestRadius playerConfig (io_config o).

(** The managed objects the position does not matter for, and whether they show. *)
Definition shown_anyway (o : interestSnapshotObject) : bool :=
  io_visible o && io_managed o &&
  (if is_player playerConfig o then IncludeSelf (io_config o)
   else negb (filtersByInterestRadius (radius_of o)) || negb (io_hasPosition o)).

(** The managed objects that are filtered by their position. *)
Definition filtered (o : interestSnapshotObject) : bool :=
  io_visible o && io_managed o && negb (is_player playerConfig o) &&
  filtersByInterestRadius (radius_of o) && io_hasPosition o.

Definition in_radius (o : interestSnapshotObject) : bool :=
  withinInterestRadius playerPosition (io_position o) (radius_of o).

Definition key_of_shown (P : interestSnapshotObject -> Prop) (objects : list interestSnapshotObject)
    (k : string) : Prop :=
  exists o, o ∈ objects /\ io_key o = k /\ P o.

Lemma key_of_shown_nil P k : ~ key_of_shown P [] k.
Proof. intros (o & Ho & _). by apply elem_of_nil in Ho. Qed.

Lemma key_of_shown_app P l l' k : key_of_shown P (l ++ l') k <-> key_of_shown P l k \/ key_of_shown P l' k.
Proof. unfold key_of_shown. setoid_rewrite elem_of_app. firstorder. Qed.

Lemma key_of_shown_one P o k : key_of_shown P [o] k <-> io_key o = k /\ P o.
Proof.
  unfold key_of_shown. setoid_rewrite list_elem_of_singleton. split.
  - by intros (? & -> & ?).
  - intros H. by exists o.
Qed.

Lemma key_of_shown_cons P o objects k :
  key_of_shown P (o :: objects) k <-> (io_key o = k /\ P o) \/ key_of_shown P objects k.
Proof. change (o :: objects) with ([o] ++ objects). by rewrite key_of_shown_app, key_of_shown_one. Qed.

Lemma visibleLinear_step visible o k :
  k ∈ visibleLinear playerConfig playerPosition visible o <->
  (io_key o = k /\ (shown_anyway o = true \/ filtered o = true /\ in_radius o = true)) \/ k ∈ visible.
Proof.
  unfold visibleLinear, shown_anyway, filtered, in_radius, radius_of.
  destruct (io_visible o), (io_managed o), (is_player playerConfig o), (IncludeSelf (io_config o)),
    (filtersByInterestRadius _), (io_hasPosition o), (withinInterestRadius _ _ _);
    cbn [negb andb orb]; rewrite ?elem_of_union, ?elem_of_singleton; intuition congruence.
Qed.

Lemma visibleLinear_elem objects k :
  k ∈ visibleInterestObjectKeysLinear objects playerConfig playerPosition <->
  key_of_shown (fun o => shown_anyway o = true \/ filtered o = true /\ in_radius o = true) objects k.
Proof.
  unfold visibleInterestObjectKeysLinear.
  assert (forall visible, k ∈ foldl (visibleLinear playerConfig playerPosition) visible objects <->
    key_of_shown (fun o => shown_anyway o = true \/ filtered o = true /\ in_radius o = true) objects k \/
    k ∈ visible) as H; [|rewrite H, elem_of_empty; tauto].
  induction objects as [|o objects IH]; intros visible; cbn [foldl].
  - pose proof (key_of_shown_nil (fun o => shown_anyway o = true \/ filtered o = true /\ in_radius o = true) k).
    tauto.
  - rewrite IH, visibleLinear_step, key_of_shown_cons. tauto.
Qed.

(** The hash after the first loop: the cells hold the filtered objects. *)
Definition in_cell (size : f64) (entries : list (nat * interestSnapshotObject)) (c : interestSpatialCell)
    (i : nat) : Prop :=
  exists o, (i, o) ∈ entries /\ filtered o = true /\ finiteInterestPosition (io_position o) = true /\
    c = cellFor (newInterestSpatialHash size) (pos_X (io_position o)) (pos_Y (io_position o)).

Lemma in_cell_snoc size entries i o c j :
  in_cell size (entries ++ [(i, o)]) c j <->
  in_cell size entries c j \/
  (j = i /\ filtered o = true /\ finiteInterestPosition (io_position o) = true /\
   c = cellFor (newInterestSpatialHash size) (pos_X (io_position o)) (pos_Y (io_position o))).
Proof.
  unfold in_cell. setoid_rewrite elem_of_app. setoid_rewrite list_elem_of_singleton. split.
  - intros (x & [Hx|Heq] & Hrest); [left; by exists x | right]. by injection Heq as -> ->.
  - intros [(x & Hx & H)|[-> H]]; [exists x | exists o]; (split; [|done]); [by left | by right].
Qed.

Record hash_ok (size : f64) (entries : list (nat * interestSnapshotObject))
    (visible : gset string) (hash : interestSpatialHash) : Prop := {
  ho_size : cellSize hash = cellSize (newInterestSpatialHash size);
  ho_visible k : k ∈ visible <-> key_of_shown (fun o => shown_anyway o = true) entries.*2 k;
  ho_cells :
    match cells hash with
    | Some table =>
        filtersByInterestRadius size = true /\
        forall c i, i ∈ default [] (table !! c) <-> in_cell size entries c i
    | None => filtersByInterestRadius size = false
    end
}.

Lemma new_hash_size size :
  filtersByInterestRadius size = negb (f_le size f_zero || is_nan size || is_inf size).
Proof.
  unfold filtersByInterestRadius. destruct size as [|s|s k]; [done | by destruct s|].
  cbn [f_lt f_zero is_nan is_inf]. rewrite !orb_false_r. cbn [negb]. by rewrite !andb_true_r.
Qed.

Lemma new_hash_ok size : hash_ok size [] ∅ (newInterestSpatialHash size).
Proof.
  split; [done | intros k; rewrite elem_of_empty; split; [done | apply key_of_shown_nil] |].
  unfold newInterestSpatialHash.
  destruct (_ || _ || _) eqn:E; cbn [cells]; rewrite new_hash_size, E; [done|]. split; [done|].
  intros c i. rewrite lookup_empty. cbn [default from_option id]. split; [intros Hi; by apply elem_of_nil in Hi|].
  intros (o & Ho & _). by apply elem_of_nil in Ho.
Qed.

Lemma shown_not_filtered o : filtered o = true -> shown_anyway o = false.
Proof.
  unfold filtered, shown_anyway. rewrite !andb_true_iff, negb_true_iff.
  intros ((((-> & ->) & ->) & ->) & ->). done.
Qed.

Lemma insert_ok size entries visible hash i o :
  hash_ok size entries visible hash -> filtered o = true ->
  hash_ok size (entries ++ [(i, o)]) visible (insert hash (io_position o) i).
Proof.
  intros [Hs Hv Hc] Hf.
  assert (forall k, k ∈ visible <-> key_of_shown (fun o => shown_anyway o = true) (entries ++ [(i, o)]).*2 k) as Hv'.
  { intros k. rewrite Hv, fmap_app, key_of_shown_app. cbn [fmap list_fmap snd].
    rewrite key_of_shown_one, (shown_not_filtered _ Hf). intuition congruence. }
  unfold insert. destruct (cells hash) as [table|] eqn:Et; cycle 1.
  { split; [done | done | by rewrite Et]. }
  destruct Hc as [Hr Hc].
  assert (cellSize (newInterestSpatialHash size) = size) as Hsz.
  { rewrite new_hash_size in Hr. apply negb_true_iff in Hr. unfold newInterestSpatialHash. by rewrite Hr. }
  assert (f_le (cellSize hash) f_zero = false) as ->.
  { rewrite Hs, Hsz. rewrite new_hash_size, negb_true_iff in Hr. by zbool. }
  cbn [orb]. destruct (finiteInterestPosition (io_position o)) eqn:Hfin; cbn [negb].
  - split; cbn [cellSize cells]; [done | done|]. split; [done|].
    replace (cellFor hash) with (cellFor (newInterestSpatialHash size)) by (unfold cellFor; by rewrite Hs).
    intros c j. rewrite in_cell_snoc, <- Hc. set (c0 := cellFor _ _ _).
    destruct (decide (c0 = c)) as [<-|Hne].
    + rewrite lookup_insert_eq. cbn [default from_option id].
      rewrite elem_of_app, list_elem_of_singleton. tauto.
    + rewrite lookup_insert_ne by done. intuition congruence.
  - split; [done | done|]. rewrite Et. split; [done|]. intros c j. rewrite Hc, in_cell_snoc. intuition congruence.
Qed.

Lemma index_object_ok size entries visible hash i o :
  hash_ok size entries visible hash ->
  let (visible', hash') := index_object playerConfig (visible, hash) (i, o) in
  hash_ok size (entries ++ [(i, o)]) visible' hash'.
Proof.
  intros H. destruct (filtered o) eqn:Hf.
  - pose proof (insert_ok _ _ _ _ i o H Hf) as Hi. unfold filtered in Hf.
    repeat rewrite andb_true_iff in Hf. destruct Hf as ((((Hv & Hm) & Hp) & Hr) & Hpos).
    apply negb_true_iff in Hp. unfold index_object, radius_of in *.
    by rewrite Hv, Hm, Hp, Hr, Hpos.
  - destruct H as [Hs Hv Hc].
    assert (index_object playerConfig (visible, hash) (i, o) =
      (if shown_anyway o then {[io_key o]} ∪ visible else visible, hash)) as ->.
    { clear Hs Hv Hc. unfold index_object, shown_anyway, filtered, radius_of in *.
      destruct (io_visible o), (io_managed o), (is_player playerConfig o), (IncludeSelf (io_config o)),
        (filtersByInterestRadius _), (io_hasPosition o); cbn [negb andb orb] in *; done. }
    split; [done | |].
    + intros k. rewrite fmap_app, key_of_shown_app. cbn [fmap list_fmap snd]. rewrite key_of_shown_one, <- Hv.
      destruct (shown_anyway o); [rewrite elem_of_union, elem_of_singleton|]; intuition congruence.
    + destruct (cells hash) as [table|]; [|done]. destruct Hc as [Hr Hc]. split; [done|].
      intros c j. rewrite Hc, in_cell_snoc, Hf. intuition congruence.
Qed.

Lemma index_all_ok size entries : forall done visible hash,
  hash_ok size done visible hash ->
  let (visible', hash') := foldl (index_object playerConfig) (visible, hash) entries in
  hash_ok size (done ++ entries) visible' hash'.
Proof.
  induction entries as [|[i o] entries IH]; intros done visible hash H; cbn [foldl].
  { by rewrite app_nil_r. }
  pose proof (index_object_ok _ _ _ _ i o H) as Ho.
  destruct (index_object playerConfig (visible, hash) (i, o)) as [visible' hash'].
  specialize (IH _ _ _ Ho). by rewrite <- app_assoc in IH.
Qed.
Lemma elem_of_concat_map {A B} (f : A -> list B) l b :
  b ∈ concat (map f l) <-> exists a, a ∈ l /\ b ∈ f a.
Proof.
  rewrite list_elem_of_In, in_concat. setoid_rewrite in_map_iff. setoid_rewrite list_elem_of_In. split.
  - intros (x & (a & <- & Ha) & Hb). by exists a.
  - intros (a & Ha & Hb). eauto.
Qed.

(** The object's cell is among the ones that a query around the player visits. *)
Definition queried (size : f64) (o : interestSnapshotObject) : Prop :=
  let cell v := f_cell overflow v size in
  (cell (f_sub (pos_X playerPosition) size) <= cell (pos_X (io_position o)) <=
   cell (f_add (pos_X playerPosition) size)) /\
  (cell (f_sub (pos_Y playerPosition) size) <= cell (pos_Y (io_position o)) <=
   cell (f_add (pos_Y playerPosition) size)).

Lemma hash_size size : filtersByInterestRadius size = true -> cellSize (newInterestSpatialHash size) = size.
Proof.
  rewrite new_hash_size, negb_true_iff. intros Hr. unfold newInterestSpatialHash. by rewrite Hr.
Qed.

Lemma query_spec reach entries visible hash i :
  finiteInterestPosition playerPosition = true -> hash_ok reach entries visible hash ->
  i ∈ query hash playerPosition reach <->
  filtersByInterestRadius reach = true /\
  exists o, (i, o) ∈ entries /\ filtered o = true /\ finiteInterestPosition (io_position o) = true /\
    queried reach o.
Proof.
  intros Hfin [Hs _ Hc]. unfold query. destruct (cells hash) as [table|]; cycle 1.
  { rewrite Hc. split; [intros H; by apply elem_of_nil in H | by intros [? _]]. }
  destruct Hc as [Hr Hc]. rewrite Hs, (hash_size _ Hr), Hfin. assert (Hr' := Hr).
  rewrite new_hash_size, negb_true_iff in Hr'. zbool.
  rewrite H, H0, H1. cbn [negb orb].
  assert (cellFor hash = fun x y => (f_cell overflow x reach, f_cell overflow y reach)) as Hcf.
  { unfold cellFor. by rewrite Hs, (hash_size _ Hr). }
  destruct (bool_decide_reflect (size table = 0%nat)) as [Hz|Hz]; cbn [orb].
  - apply map_size_empty_inv in Hz as ->. split; [intros Hi; by apply elem_of_nil in Hi|].
    intros (_ & o & Hin & Hf & Hp & _).
    assert (in_cell reach entries (cellFor (newInterestSpatialHash reach)
      (pos_X (io_position o)) (pos_Y (io_position o))) i) as Hcell by (exists o; done).
    apply Hc in Hcell. rewrite lookup_empty in Hcell. by apply elem_of_nil in Hcell.
  - rewrite elem_of_concat_map, Hcf. cbn [fst snd].
    setoid_rewrite elem_of_concat_map. setoid_rewrite Hc. unfold int_range. setoid_rewrite elem_of_seqZ.
    unfold in_cell, cellFor, queried. rewrite (hash_size _ Hr). split.
    + intros (y & Hy & x & Hx & o & Hin & Hf & Hp & [= -> ->]). split; [done|]. exists o.
      split_and!; (done || lia).
    + intros (_ & o & Hin & Hf & Hp & Hx & Hy).
      exists (f_cell overflow (pos_Y (io_position o)) reach). split; [lia|].
      exists (f_cell overflow (pos_X (io_position o)) reach). split; [lia|]. by exists o.
Qed.

Lemma show_found_elem objects indexes k : forall visible,
  k ∈ foldl (show_found objects playerConfig playerPosition) visible indexes <->
  k ∈ visible \/ exists i o, i ∈ indexes /\ objects !! i = Some o /\ io_key o = k /\ in_radius o = true.
Proof.
  induction indexes as [|i indexes IH]; intros visible; cbn [foldl].
  { split; [by left|]. intros [?|(i & o & Hi & _)]; [done|]. by apply elem_of_nil in Hi. }
  rewrite IH. setoid_rewrite elem_of_cons. unfold show_found.
  destruct (objects !! i) as [o|] eqn:Ho.
  - fold (radius_of o). fold (in_radius o). destruct (in_radius o) eqn:Hin.
    + rewrite elem_of_union, elem_of_singleton. split.
      * intros [[->|Hv]|(j & x & Hj & H)]; [right; exists i, o; eauto 6 | by left | right; eauto 8].
      * intros [Hv|(j & x & [->|Hj] & Hx & Hk & H)]; [by left; right | | right; eauto 8].
        left. left. congruence.
    + split; [intros [?|(j & x & Hj & H)]; [by left | right; eauto 8]|].
      intros [Hv|(j & x & [->|Hj] & Hx & Hk & H)]; [by left | congruence | right; eauto 8].
  - split; [intros [?|(j & x & Hj & H)]; [by left | right; eauto 8]|].
    intros [Hv|(j & x & [->|Hj] & Hx & Hk & H)]; [by left | congruence | right; eauto 8].
Qed.

Lemma elem_of_indexed (objects : list interestSnapshotObject) i o :
  (i, o) ∈ combine (seq 0 (length objects)) objects <-> objects !! i = Some o.
Proof.
  assert (forall n, (i, o) ∈ combine (seq n (length objects)) objects <->
    (n <= i)%nat /\ objects !! (i - n)%nat = Some o) as H.
  { induction objects as [|x objects IH]; intros n; cbn [length seq combine].
    - split; [intros Hi; by apply elem_of_nil in Hi | by intros [_ ?]].
    - rewrite elem_of_cons, IH. split.
      + intros [[= -> ->]|[Hn Ho]]; [rewrite Nat.sub_diag; split; [lia | done]|]. split; [lia|].
        by replace (i - n)%nat with (S (i - S n)) by lia.
      + intros [Hn Ho]. destruct (decide (i = n)) as [->|Hne].
        * rewrite Nat.sub_diag in Ho. injection Ho as ->. by left.
        * right. split; [lia|]. by replace (i - n)%nat with (S (i - S n)) in Ho by lia. }
  rewrite H, Nat.sub_0_r. split; [by intros [_ ?] | split; [lia | done]].
Qed.

Lemma snd_indexed (objects : list interestSnapshotObject) :
  (combine (seq 0 (length objects)) objects).*2 = objects.
Proof.
  generalize 0%nat. induction objects as [|x l IH]; intros n; [done|]. cbn. f_equal. apply IH.
Qed.

(** The routine with the hash, for a finite player position. *)
Lemma visible_hash_elem objects k :
  finiteInterestPosition playerPosition = true ->
  let size := interestSpatialQueryRadius objects playerConfig in
  k ∈ visibleInterestObjectKeys objects playerConfig playerPosition <->
  key_of_shown (fun o => shown_anyway o = true \/
    (filtered o = true /\ in_radius o = true /\ filtersByInterestRadius size = true /\
     finiteInterestPosition (io_position o) = true /\ queried size o)) objects k.
Proof.
  intros Hfin size. unfold visibleInterestObjectKeys. rewrite Hfin. cbn [negb]. fold size.
  pose proof (index_all_ok size (combine (seq 0 (length objects)) objects) [] ∅ _ (new_hash_ok size)) as H.
  destruct (foldl (index_object playerConfig) _ _) as [visible hash]. rewrite app_nil_l in H.
  rewrite show_found_elem. rewrite (ho_visible _ _ _ _ H), snd_indexed.
  setoid_rewrite (query_spec _ _ _ _ _ Hfin H). setoid_rewrite elem_of_indexed. unfold key_of_shown. split.
  - intros [(o & Ho & Hk & Hs)|(i & o & (Hr & o' & Hi & Hf & Hp & Hq) & Ho & Hk & Hin)].
    + exists o. eauto.
    + rewrite Ho in Hi. injection Hi as <-. exists o. split; [by eapply list_elem_of_lookup_2|]. eauto 8.
  - intros (o & Ho & Hk & [Hs|(Hf & Hin & Hr & Hp & Hq)]); [left; by exists o|]. right.
    apply list_elem_of_lookup_1 in Ho as [i Hi]. exists i, o. eauto 10.
Qed.
End Visible.
End SpatialHash.

(** ** Positions on a grid

    Coordinates and radii that are multiples of 1/256 below 65536: what a game
    world has in practice.  On them the float arithmetic above is exact but for
    the division by the cell size, which is monotone. *)
Definition grid : Z := 8.

Definition grid_coordinate (x : f64) : Prop := exists j, on_grid x grid j /\ Z.abs j < 2 ^ 24.

Definition grid_position (p : interestPosition) : Prop :=
  grid_coordinate (pos_X p) /\ grid_coordinate (pos_Y p) /\
  (HasZ p = true -> grid_coordinate (pos_Z p)).

Record grid_scene (playerConfig : InterestManagementConfig) (playerPosition : interestPosition)
    (objects : list interestSnapshotObject) : Prop := {
  gs_player : grid_position playerPosition;
  gs_objects o : o ∈ objects -> io_hasPosition o = true -> grid_position (io_position o);
  gs_player_radius : filtersByInterestRadius (Radius playerConfig) = true ->
    grid_coordinate (Radius playerConfig);
  gs_radii o : o ∈ objects -> filtersByInterestRadius (radius_of playerConfig o) = true ->
    grid_coordinate (radius_of playerConfig o)
}.

Lemma grid_range : 0 <= grid <= 1074.
Proof. done. Qed.

Lemma f_zero_grid : on_grid f_zero grid 0.
Proof. by exists false, 0. Qed.

Lemma grid_filters x j : on_grid x grid j -> filtersByInterestRadius x = (0 <? j).
Proof.
  intros H. pose proof (f_le_grid grid grid_range x f_zero j 0 H f_zero_grid) as Hle.
  destruct H as (s & k & -> & Hk & Hv). unfold filtersByInterestRadius.
  cbn [is_nan is_inf negb]. rewrite !andb_true_r. unfold f_lt, f_zero in *. rewrite Hle.
  by rewrite Z.leb_antisym, negb_involutive.
Qed.

Lemma grid_finite p : grid_position p -> finiteInterestPosition p = true.
Proof.
  intros ((j & (s & k & Hx & _) & _) & (l & (t & m & Hy & _) & _) & Hz).
  unfold finiteInterestPosition. rewrite Hx, Hy. cbn [is_nan is_inf orb].
  destruct (HasZ p); [|done]. destruct (Hz eq_refl) as (n & (u & q & -> & _) & _). done.
Qed.

Lemma cell_grid_mono overflow x y c j l r :
  on_grid x grid j -> on_grid y grid l -> on_grid c grid r -> 0 < r ->
  Z.abs j <= 2 ^ 26 -> Z.abs l <= 2 ^ 26 -> j <= l -> f_cell overflow x c <= f_cell overflow y c.
Proof.
  intros (s & k & -> & Hk & Hv) (t & m & -> & Hm & Hw) (u & n & -> & Hn & Hr) Hpos Hj Hl Hle.
  pose proof (grid_unit grid grid_range) as Hu. set (U := 2 ^ (1074 - grid)) in *.
  assert (u = false) as -> by (destruct u; [cbn [signed] in Hr; nia | done]). cbn [signed] in Hr.
  assert (2 ^ 26 * U <= 2 ^ 52 * n) by nia.
  apply f_cell_mono; [| | nia | nia].
  - destruct s; cbn [signed] in Hv; nia.
  - destruct t; cbn [signed] in Hw; nia.
Qed.

Lemma square_bound z : Z.abs z < 2 ^ 25 -> 0 <= z * z < 2 ^ 50.
Proof.
  intros H. rewrite <- Z.abs_square. split; [nia|]. change (2 ^ 50) with (2 ^ 25 * 2 ^ 25).
  apply Z.mul_lt_mono_nonneg; lia.
Qed.

Lemma square_grid x j : on_grid x grid j -> Z.abs j < 2 ^ 25 -> on_grid (f_mul x x) 16 (j * j).
Proof. intros Hx Hj. apply (f_mul_grid grid grid); try done. pose proof (square_bound _ Hj). lia. Qed.

Lemma within_grid a b r xa ya za xb yb zb jr :
  on_grid (pos_X a) grid xa -> on_grid (pos_X b) grid xb ->
  on_grid (pos_Y a) grid ya -> on_grid (pos_Y b) grid yb ->
  (HasZ a = true -> on_grid (pos_Z a) grid za) -> (HasZ b = true -> on_grid (pos_Z b) grid zb) ->
  on_grid r grid jr ->
  Z.abs xa < 2 ^ 24 -> Z.abs xb < 2 ^ 24 -> Z.abs ya < 2 ^ 24 -> Z.abs yb < 2 ^ 24 ->
  Z.abs za < 2 ^ 24 -> Z.abs zb < 2 ^ 24 -> Z.abs jr < 2 ^ 24 ->
  withinInterestRadius a b r =
    ((xa - xb) * (xa - xb) + (ya - yb) * (ya - yb) +
     (if HasZ a && HasZ b then (za - zb) * (za - zb) else 0) <=? jr * jr).
Proof.
  intros Hxa Hxb Hya Hyb Hza Hzb Hr Bxa Bxb Bya Byb Bza Bzb Br. unfold withinInterestRadius.
  pose proof (square_grid _ _ (f_sub_grid grid grid_range _ _ _ _ Hxa Hxb ltac:(lia)) ltac:(lia)) as HX.
  pose proof (square_grid _ _ (f_sub_grid grid grid_range _ _ _ _ Hya Hyb ltac:(lia)) ltac:(lia)) as HY.
  pose proof (square_grid _ _ Hr ltac:(lia)) as HR.
  assert (0 <= 16 <= 1074) as H16 by done.
  pose proof (square_bound (xa - xb) ltac:(lia)) as SX. pose proof (square_bound (ya - yb) ltac:(lia)) as SY.
  pose proof (square_bound (za - zb) ltac:(lia)) as SZ.
  pose proof (f_add_grid 16 H16 _ _ _ _ HX HY ltac:(lia)) as HXY.
  destruct (HasZ a && HasZ b) eqn:Hz; [|by rewrite (f_le_grid 16 H16 _ _ _ _ HXY HR), Z.add_0_r].
  apply andb_true_iff in Hz as [Ha Hb].
  pose proof (square_grid _ _ (f_sub_grid grid grid_range _ _ _ _ (Hza Ha) (Hzb Hb) ltac:(lia)) ltac:(lia)) as HZ.
  by rewrite (f_le_grid 16 H16 _ _ _ _ (f_add_grid 16 H16 _ _ _ _ HXY HZ ltac:(lia)) HR).
Qed.

(** The query radius reaches every object that is filtered. *)
Lemma grow_radius_grid playerConfig objects : forall acc a,
  (forall o, o ∈ objects -> filtersByInterestRadius (radius_of playerConfig o) = true ->
     grid_coordinate (radius_of playerConfig o)) ->
  on_grid acc grid a -> 0 <= a < 2 ^ 24 ->
  exists r, on_grid (foldl (grow_radius playerConfig) acc objects) grid r /\ a <= r < 2 ^ 24 /\
    forall o j, o ∈ objects -> filtered playerConfig o = true -> on_grid (radius_of playerConfig o) grid j ->
      j <= r.
Proof.
  induction objects as [|o objects IH]; intros acc a Hg Ha Hb; cbn [foldl].
  { exists a. split_and!; [done | lia | lia|]. intros o j Ho. by apply elem_of_nil in Ho. }
  assert (exists b, on_grid (grow_radius playerConfig acc o) grid b /\ a <= b < 2 ^ 24 /\
    forall j, filtered playerConfig o = true -> on_grid (radius_of playerConfig o) grid j -> j <= b)
    as (b & Hb1 & Hb2 & Hb3).
  { unfold grow_radius. fold (radius_of playerConfig o).
    destruct (negb (io_visible o) || negb (io_managed o)) eqn:Em.
    { exists a. split_and!; [done | lia | lia|]. intros j Hf _. exfalso. unfold filtered in Hf.
      by destruct (io_visible o), (io_managed o). }
    destruct (filtersByInterestRadius (radius_of playerConfig o)) eqn:Er; cbn [andb].
    2: { exists a. split_and!; [done | lia | lia|]. intros j Hf _. exfalso. unfold filtered in Hf.
         rewrite Er in Hf. by rewrite andb_false_r in Hf. }
    destruct (Hg o ltac:(left) Er) as (j & Hj & Hjb).
    assert (f_lt acc (radius_of playerConfig o) = (a <? j)) as ->.
    { rewrite Z.ltb_antisym, <- (f_le_grid grid grid_range _ _ _ _ Hj Ha).
      destruct Ha as (? & ? & -> & _), Hj as (? & ? & -> & _). done. }
    assert (forall i, on_grid (radius_of playerConfig o) grid i -> i = j) as Huniq.
    { intros i Hi. pose proof (f_le_grid grid grid_range _ _ _ _ Hi Hj) as H1.
      pose proof (f_le_grid grid grid_range _ _ _ _ Hj Hi) as H2.
      pose proof (f_le_grid grid grid_range _ _ _ _ Hj Hj) as H3. rewrite Z.leb_refl in H3.
      rewrite H3 in H1, H2. symmetry in H1, H2. zbool. lia. }
    destruct (Z.ltb_spec a j); [exists j | exists a]; split_and!; try done; try lia;
      intros i _ Hi; rewrite (Huniq i Hi); lia. }
  destruct (IH _ b (fun o' Ho' => Hg o' ltac:(by right)) Hb1 ltac:(lia)) as (r & Hr1 & Hr2 & Hr3).
  exists r. split_and!; [done | lia | lia|]. intros o' j [->|Ho']%elem_of_cons Hf Hj; [|by eapply Hr3].
  specialize (Hb3 j Hf Hj). lia.
Qed.

Lemma query_radius_grid playerConfig playerPosition objects o j :
  grid_scene playerConfig playerPosition objects -> o ∈ objects -> filtered playerConfig o = true ->
  on_grid (radius_of playerConfig o) grid j ->
  exists r, on_grid (interestSpatialQueryRadius objects playerConfig) grid r /\ j <= r < 2 ^ 24.
Proof.
  intros [_ _ Hp Hr] Ho Hf Hj. unfold interestSpatialQueryRadius.
  destruct (filtersByInterestRadius (Radius playerConfig)) eqn:Ef.
  - assert (radius_of playerConfig o = Radius playerConfig) as E.
    { unfold radius_of, effectiveInterestRadius. destruct (Hp eq_refl) as (i & Hi & _).
      rewrite (grid_filters _ _ Hi) in Ef. rewrite (f_le_grid grid grid_range _ _ _ _ Hi f_zero_grid).
      zbool. by rewrite (proj2 (Z.leb_gt _ _)). }
    rewrite E in *. exists j. split; [done|]. split; [lia|].
    destruct (Hp eq_refl) as (i & Hi & Hb).
    pose proof (f_le_grid grid grid_range _ _ _ _ Hi Hj) as H1.
    pose proof (f_le_grid grid grid_range _ _ _ _ Hj Hi) as H2.
    pose proof (f_le_grid grid grid_range _ _ _ _ Hj Hj) as H3. rewrite Z.leb_refl in H3.
    rewrite H3 in H1, H2. symmetry in H1, H2. zbool. lia.
  - destruct (grow_radius_grid playerConfig objects f_zero 0 Hr f_zero_grid ltac:(lia)) as (r & Hr1 & Hr2 & Hr3).
    exists r. split; [done|]. split; [by eapply Hr3 | lia].
Qed.

(** On the grid a filtered object within its radius is found by the query. *)
Lemma grid_queried overflow playerConfig playerPosition objects o :
  let size := interestSpatialQueryRadius objects playerConfig in
  grid_scene playerConfig playerPosition objects -> o ∈ objects -> filtered playerConfig o = true ->
  in_radius playerConfig playerPosition o = true ->
  filtersByInterestRadius size = true /\ finiteInterestPosition (io_position o) = true /\
  queried overflow playerPosition size o.
Proof.
  intros size Hg Ho Hf Hin.
  assert (io_hasPosition o = true /\ filtersByInterestRadius (radius_of playerConfig o) = true) as [Hpos Hfr].
  { unfold filtered in Hf. rewrite !andb_true_iff in Hf. tauto. }
  destruct (gs_radii _ _ _ Hg o Ho Hfr) as (j & Hj & Bj).
  destruct (query_radius_grid _ _ _ o j Hg Ho Hf Hj) as (r & Hr & Bjr & Br). fold size in Hr.
  rewrite (grid_filters _ _ Hj) in Hfr. zbool.
  pose proof (gs_objects _ _ _ Hg o Ho Hpos) as Hp. pose proof (gs_player _ _ _ Hg) as Hq.
  split; [rewrite (grid_filters _ _ Hr); lia|]. split; [by apply grid_finite|].
  destruct Hp as ((xb & Hxb & Bxb) & (yb & Hyb & Byb) & Hzb), Hq as ((xa & Hxa & Bxa) & (ya & Hya & Bya) & Hza).
  assert (exists z, (HasZ playerPosition = true -> on_grid (pos_Z playerPosition) grid z) /\ Z.abs z < 2 ^ 24)
    as (za & Hza' & Bza).
  { destruct (HasZ playerPosition); [destruct (Hza eq_refl) as (z & Hz & Bz); by exists z | by exists 0]. }
  assert (exists z, (HasZ (io_position o) = true -> on_grid (pos_Z (io_position o)) grid z) /\ Z.abs z < 2 ^ 24)
    as (zb & Hzb' & Bzb).
  { destruct (HasZ (io_position o)); [destruct (Hzb eq_refl) as (z & Hz & Bz); by exists z | by exists 0]. }
  unfold in_radius in Hin.
  rewrite (within_grid _ _ _ _ _ _ _ _ _ _ Hxa Hxb Hya Hyb Hza' Hzb' Hj) in Hin by done. zbool.
  assert (0 <= (if HasZ playerPosition && HasZ (io_position o) then (za - zb) * (za - zb) else 0)) as Hz.
  { destruct (_ && _); [apply Z.square_nonneg | done]. }
  pose proof (Z.square_nonneg (xa - xb)). pose proof (Z.square_nonneg (ya - yb)).
  assert (Z.abs (xa - xb) <= j) by (apply Z.square_le_simpl_nonneg; [lia|]; rewrite Z.abs_square; lia).
  assert (Z.abs (ya - yb) <= j) by (apply Z.square_le_simpl_nonneg; [lia|]; rewrite Z.abs_square; lia).
  pose proof (f_sub_grid grid grid_range _ _ _ _ Hxa Hr ltac:(lia)) as Hx1.
  pose proof (f_add_grid grid grid_range _ _ _ _ Hxa Hr ltac:(lia)) as Hx2.
  pose proof (f_sub_grid grid grid_range _ _ _ _ Hya Hr ltac:(lia)) as Hy1.
  pose proof (f_add_grid grid grid_range _ _ _ _ Hya Hr ltac:(lia)) as Hy2.
  unfold queried. cbv zeta. split; split; (eapply cell_grid_mono; [eassumption | eassumption | exact Hr | lia..]).
Qed.

(** ** The registrations *)
Inductive interest_op :=
| OpEnable (config : InterestManagementConfig)
| OpDisable (objectType objectID : string).

Definition interest_step (interest : option InterestManager) (op : interest_op) : option InterestManager :=
  match op with
  | OpEnable config => EnableInterestManagement interest config
  | OpDisable objectType objectID => DisableInterestManagement interest objectType objectID
  end.

(** A registration: normalized, under its own key, in the table of its subject. *)
Definition registration_ok (subject : InterestSubject) (key : string) (config : InterestManagementConfig) : Prop :=
  SubjectType config = subject /\ key = interestObjectKey (ic_ObjectType config) (ic_ObjectID config) /\
  normalizeInterestConfig config = Some config.

Record interest_ok (m : InterestManager) : Prop := {
  im_enabled : interest_enabled m = true <-> interest_players m <> ∅;
  im_players : map_Forall (registration_ok InterestPlayer) (interest_players m);
  im_objects : map_Forall (registration_ok InterestGameObject) (interest_objects m)
}.

Lemma with_players_enabled players objects :
  interest_enabled (with_players players objects) = true <-> players <> ∅.
Proof.
  cbn [interest_enabled with_players]. rewrite negb_true_iff, bool_decide_eq_false.
  split; intros H E; apply H; [by rewrite E | by apply map_size_empty_inv].
Qed.

Lemma new_interest_ok : interest_ok newInterestManager.
Proof. split; [by split | apply map_Forall_empty..]. Qed.

Lemma normalizeSubject_cases subject subject' :
  normalizeSubject subject = Some subject' -> subject' = InterestPlayer \/ subject' = InterestGameObject.
Proof. unfold normalizeSubject. repeat case_decide; intros [= <-]; auto. Qed.

Lemma normalizeInterestConfig_subject config config' :
  normalizeInterestConfig config = Some config' ->
  SubjectType config' = InterestPlayer \/ SubjectType config' = InterestGameObject.
Proof.
  unfold normalizeInterestConfig. destruct (_ || _ || _ || _); [done|].
  destruct (normalizeSubject _) as [subject|] eqn:E; intros [= <-]. by apply normalizeSubject_cases in E.
Qed.

Lemma normalizeInterestConfig_idemp config config' :
  normalizeInterestConfig config = Some config' -> normalizeInterestConfig config' = Some config'.
Proof.
  unfold normalizeInterestConfig at 1. destruct (_ || _ || _ || _) eqn:Ek; [done|].
  destruct (normalizeSubject _) as [subject|] eqn:E; intros [= <-]. unfold normalizeInterestConfig.
  cbn [ic_ObjectType ic_ObjectID XField YField ZField Radius SubjectType IncludeSelf].
  change TrimSpace with normalizeObjectKey in *. rewrite !normalizeObjectKey_idemp, Ek.
  assert (normalizeSubject subject = Some subject) as ->.
  { apply normalizeSubject_cases in E as [->| ->]; vm_compute; reflexivity. }
  destruct (f_lt (Radius config) f_zero) eqn:Er; [done|]. by rewrite Er.
Qed.

Lemma interest_step_ok interest op : interest_ok (interest_of interest) -> interest_ok (interest_of (interest_step interest op)).
Proof.
  intros [He Hp Ho]. destruct op as [config|t i]; cbn [interest_step].
  - unfold EnableInterestManagement. destruct (normalizeInterestConfig config) as [c|] eqn:E; [|done].
    assert (registration_ok (SubjectType c) (interestObjectKey (ic_ObjectType c) (ic_ObjectID c)) c) as Hr.
    { split_and!; [done | done | by eapply normalizeInterestConfig_idemp]. }
    destruct (decide (SubjectType c = InterestPlayer)) as [Es|Es];
      cbn [interest_of default from_option id]; (split; [apply with_players_enabled | |]);
      cbn [interest_players interest_objects with_players]; try done.
    + rewrite Es in Hr. by apply map_Forall_insert_2.
    + apply map_Forall_insert_2; [|done].
      destruct (normalizeInterestConfig_subject _ _ E) as [?|Eg]; [done | by rewrite Eg in Hr].
  - unfold DisableInterestManagement. destruct (_ || _); [done|]. destruct interest as [m|]; [|done].
    cbn [interest_of default from_option id] in *. split; [apply with_players_enabled | |];
      cbn [interest_players interest_objects with_players]; by apply map_Forall_delete.
Qed.

Lemma interest_run_ok ops : forall interest,
  interest_ok (interest_of interest) -> interest_ok (interest_of (foldl interest_step interest ops)).
Proof. induction ops as [|op ops IH]; intros interest H; [done|]. by apply IH, interest_step_ok. Qed.

(** The two results, for the views built on them. *)
Lemma hash_shows_linear overflow objects playerConfig playerPosition :
  visibleInterestObjectKeys overflow objects playerConfig playerPosition ⊆
  visibleInterestObjectKeysLinear objects playerConfig playerPosition.
Proof.
  intros k. destruct (finiteInterestPosition playerPosition) eqn:Hf.
  2: { unfold visibleInterestObjectKeys. by rewrite Hf. }
  rewrite (visible_hash_elem overflow playerConfig playerPosition objects k Hf), (visibleLinear_elem overflow).
  intros (o & Ho & Hk & Hs). exists o. split; [done|]. split; [done|]. tauto.
Qed.

Lemma hash_shows_grid overflow objects playerConfig playerPosition :
  grid_scene playerConfig playerPosition objects ->
  visibleInterestObjectKeys overflow objects playerConfig playerPosition =
  visibleInterestObjectKeysLinear objects playerConfig playerPosition.
Proof.
  intros Hg. apply set_eq. intros k. pose proof (grid_finite _ (gs_player _ _ _ Hg)) as Hf.
  rewrite (visible_hash_elem overflow playerConfig playerPosition objects k Hf), (visibleLinear_elem overflow).
  unfold key_of_shown. split; intros (o & Ho & Hk & Hs); exists o; (split_and!; [done | done |]); [tauto|].
  destruct Hs as [Hs|[Hs Hin]]; [by left | right].
  destruct (grid_queried overflow _ _ _ o Hg Ho Hs Hin) as (H1 & H2 & H3). done.
Qed.

(** ** Properties *)

(** The spatial hash never shows more than the reference.  Whatever the
    floats are, NaNs and infinities included, every object key that
    [visibleInterestObjectKeys] returns is one that the linear scan
    [visibleInterestObjectKeysLinear] returns. *)
Theorem hash_within_linear overflow objects playerConfig playerPosition :
  visibleInterestObjectKeys overflow objects playerConfig playerPosition ⊆
  visibleInterestObjectKeysLinear objects playerConfig playerPosition.
Proof. apply hash_shows_linear. Qed.

(** C39: on positions and radii that are multiples of 1/256 below 65536 the spatial
    hash shows exactly what the linear scan shows, for any number of objects and
    any mixture of radii. *)
Theorem hash_exact_on_grid overflow objects playerConfig playerPosition :
  grid_scene playerConfig playerPosition objects ->
  visibleInterestObjectKeys overflow objects playerConfig playerPosition =
  visibleInterestObjectKeysLinear objects playerConfig playerPosition.
Proof. apply hash_shows_grid. Qed.

(** The interest tables.  After any operations the filter is on exactly when a
    player is registered, and every registration is normalized, under its own key
    and in the table of its subject.  A further registration is what
    [objectConfig] finds from then on, except that a player registered under the
    same key keeps precedence over a game object; a disabled object has no
    configuration. *)
Theorem interest_tables ops config t i :
  let interest := foldl interest_step None ops in
  interest_ok (interest_of interest) /\
  match normalizeInterestConfig config with
  | Some c =>
      let key := interestObjectKey (ic_ObjectType c) (ic_ObjectID c) in
      objectConfig (interest_of (EnableInterestManagement interest config)) (ic_ObjectType c) (ic_ObjectID c) =
        if decide (SubjectType c = InterestPlayer) then Some c
        else match interest_players (interest_of interest) !! key with Some p => Some p | None => Some c end
  | None => EnableInterestManagement interest config = interest
  end /\
  (empty_key (normalizeObjectKey t) || empty_key (normalizeObjectKey i) = false ->
   objectConfig (interest_of (DisableInterestManagement interest t i)) t i = None).
Proof.
  cbv zeta. pose proof (interest_run_ok ops None new_interest_ok) as Hok.
  set (interest := foldl interest_step None ops) in *. split; [done|]. split.
  - unfold EnableInterestManagement. destruct (normalizeInterestConfig config) as [c|]; [|done].
    unfold objectConfig. destruct (decide (SubjectType c = InterestPlayer));
      cbn [interest_of default from_option id interest_players interest_objects with_players];
      by rewrite lookup_insert_eq.
  - intros Hk. unfold DisableInterestManagement. rewrite Hk. destruct interest as [m|].
    + unfold objectConfig. cbn [interest_of default from_option id interest_players interest_objects with_players].
      by rewrite interestObjectKey_norm, !lookup_delete_eq.
    + unfold objectConfig. cbn [interest_of default from_option id newInterestManager interest_players interest_objects].
      by rewrite !lookup_empty.
Qed.

(** ** Examples *)
Definition player_at (radius : f64) : InterestManagementConfig :=
  mkInterest InterestPlayer "player" "p" "x" "y" "" radius true.

Definition object_at (id : string) (x y : f64) : interestSnapshotObject :=
  mkInterestObject "npc" id ("npc/" ++ id) VNil true true
    (mkInterest InterestGameObject "npc" id "x" "y" "" f_zero false) (mkPosition x y f_zero false) true.

(** Off that grid the two routines differ.  A player at (1, 0) with radius 1
    and an object at (-2^-60, 0): their distance rounds to 1, so the scan shows
    the object, but the object lies in the cell left of the ones that the query
    visits, and the hash hides it. *)
Theorem hash_misses_object overflow :
  let objects := [object_at "far" (f_of_bits 0xbc30000000000000) f_zero] in
  let at_one := mkPosition (f_of_Z 1) f_zero f_zero false in
  visibleInterestObjectKeysLinear objects (player_at (f_of_Z 1)) at_one = {["npc/far"%string]} /\
  visibleInterestObjectKeys overflow objects (player_at (f_of_Z 1)) at_one = ∅.
Proof. split; vm_compute; reflexivity. Qed.

Lemma grid_of_Z z : Z.abs z < 2 ^ 16 -> grid_coordinate (f_of_Z z).
Proof.
  intros Hz. exists (z * 2 ^ 8). split; [|lia]. unfold f_of_Z.
  pose proof (round_grid grid grid_range (z <? 0) (Z.abs z * 2 ^ 8) 1 ltac:(lia) ltac:(lia)) as E.
  assert (Z.abs z * one_scaled = Z.abs z * 2 ^ 8 * 2 ^ (1074 - grid)) as E'.
  { unfold one_scaled, grid. rewrite <- Z.mul_assoc, <- Z.pow_add_r by lia. f_equal. }
  rewrite Z.mul_1_r in E. rewrite E', E.
  exists (z <? 0), (Z.abs z * 2 ^ 8 * 2 ^ (1074 - grid)). split; [done|].
  pose proof (grid_unit grid grid_range).
  split; [nia|]. destruct (Z.ltb_spec z 0); cbn [signed]; [rewrite Z.abs_neq | rewrite Z.abs_eq]; lia.
Qed.

Lemma hash_exact_on_grid_witness :
  visibleInterestObjectKeys (fun _ => 0) [object_at "near" (f_of_Z 3) (f_of_Z (-4)); object_at "far" (f_of_Z 9) (f_of_Z 9)]
    (player_at (f_of_Z 5)) (mkPosition f_zero f_zero f_zero false) = {["npc/near"%string]}.
Proof.
  rewrite (hash_exact_on_grid (fun _ => 0)
    [object_at "near" (f_of_Z 3) (f_of_Z (-4)); object_at "far" (f_of_Z 9) (f_of_Z 9)]
    (player_at (f_of_Z 5)) (mkPosition f_zero f_zero f_zero false)); [vm_compute; reflexivity|].
  assert (grid_coordinate f_zero) as H0 by exact (grid_of_Z 0 eq_refl).
  split.
  - split; [exact H0|]. split; [exact H0 | discriminate].
  - intros o [->|[->|Ho]%elem_of_cons]%elem_of_cons _; cycle 2; [by apply elem_of_nil in Ho| |];
      (split; [apply grid_of_Z; reflexivity|]; split; [apply grid_of_Z; reflexivity | discriminate]).
  - intros _. apply grid_of_Z. reflexivity.
  - intros o [->|[->|Ho]%elem_of_cons]%elem_of_cons _; cycle 2; [by apply elem_of_nil in Ho| |];
      apply (grid_of_Z 5); reflexivity.
Defined.

Lemma interest_tables_witness :
  objectConfig (interest_of (DisableInterestManagement
    (foldl interest_step None [OpEnable (player_at f_zero)]) "player" " p ")) "player" " p " = None.
Proof. apply (interest_tables [OpEnable (player_at f_zero)] (player_at f_zero) "player" " p "). vm_compute. reflexivity. Defined.
