(* ===== verification/Metrics.v ===== *)
(** * The counters of the UDP server

    [network/udp.go]: the counters that only the debug report reads, grouped as
    traffic, authentication, snapshots and snapshot encoding, and the functions
    that advance them.  The counters of requests, clients and reliable delivery
    are with the code that decides by them ([UdpClients], [ReliableOut]). *)
From S2P Require Import Prelude Config Float64.

(** ** State *)
Record TrafficMetrics := mkTraffic {
  datagramsReceived : Z;
  requestErrors : Z;
  total_budgetDrops : Z;
  total_budgetDeferrals : Z;
  outboundBytesSent : Z
}.

Record AuthMetrics := mkAuthMetrics {
  authAttempts : Z;
  authSuccesses : Z;
  authFailures : Z
}.

Record SnapshotMetrics := mkSnapshotMetrics {
  snapshotsSent : Z;
  fullSnapshotsSent : Z;
  deltaSnapshotsSent : Z;
  snapshotErrors : Z
}.

Record EncodeMetrics := mkEncodeMetrics {
  snapshotEncodeCount : Z;
  lastSnapshotEncodeDurationNs : Z;
  maxSnapshotEncodeDurationNs : Z;
  totalSnapshotEncodeDurationNs : Z
}.

Record ServerMetrics := mkServerMetrics {
  traffic : TrafficMetrics;
  auth : AuthMetrics;
  snapshotMetrics : SnapshotMetrics;
  encoding : EncodeMetrics
}.

Definition newServerMetrics : ServerMetrics :=
  mkServerMetrics (mkTraffic 0 0 0 0 0) (mkAuthMetrics 0 0 0) (mkSnapshotMetrics 0 0 0 0) (mkEncodeMetrics 0 0 0 0).

Definition on_traffic (m : ServerMetrics) (f : TrafficMetrics -> TrafficMetrics) : ServerMetrics :=
  mkServerMetrics (f (traffic m)) (auth m) (snapshotMetrics m) (encoding m).
Definition on_auth (m : ServerMetrics) (f : AuthMetrics -> AuthMetrics) : ServerMetrics :=
  mkServerMetrics (traffic m) (f (auth m)) (snapshotMetrics m) (encoding m).
Definition on_snapshots (m : ServerMetrics) (f : SnapshotMetrics -> SnapshotMetrics) : ServerMetrics :=
  mkServerMetrics (traffic m) (auth m) (f (snapshotMetrics m)) (encoding m).

(** ** Operations *)
Definition recordDatagram (m : ServerMetrics) : ServerMetrics :=
  on_traffic m (fun t => mkTraffic (u64_inc (datagramsReceived t)) (requestErrors t) (total_budgetDrops t)
    (total_budgetDeferrals t) (outboundBytesSent t)).
Definition recordRequestError (m : ServerMetrics) : ServerMetrics :=
  on_traffic m (fun t => mkTraffic (datagramsReceived t) (u64_inc (requestErrors t)) (total_budgetDrops t)
    (total_budgetDeferrals t) (outboundBytesSent t)).

(** The server's part of [recordBudgetDeferral], of [recordSnapshotDeferrals], of a
    refusal by [reserveOutboundBudget] and of [recordOutboundBytes]. *)
Definition count_deferrals (m : ServerMetrics) (count : Z) : ServerMetrics :=
  on_traffic m (fun t => mkTraffic (datagramsReceived t) (requestErrors t) (total_budgetDrops t)
    (u64_add (total_budgetDeferrals t) count) (outboundBytesSent t)).
Definition count_budget_drop (m : ServerMetrics) : ServerMetrics :=
  on_traffic m (fun t => mkTraffic (datagramsReceived t) (requestErrors t) (u64_inc (total_budgetDrops t))
    (total_budgetDeferrals t) (outboundBytesSent t)).
Definition count_bytes (m : ServerMetrics) (bytes : Z) : ServerMetrics :=
  on_traffic m (fun t => mkTraffic (datagramsReceived t) (requestErrors t) (total_budgetDrops t)
    (total_budgetDeferrals t) (u64_add (outboundBytesSent t) (wrap 64 bytes))).

Definition recordAuthAttempt (m : ServerMetrics) : ServerMetrics :=
  on_auth m (fun a => mkAuthMetrics (u64_inc (authAttempts a)) (authSuccesses a) (authFailures a)).
Definition recordAuthSuccess (m : ServerMetrics) : ServerMetrics :=
  on_auth m (fun a => mkAuthMetrics (authAttempts a) (u64_inc (authSuccesses a)) (authFailures a)).
Definition recordAuthFailure (m : ServerMetrics) : ServerMetrics :=
  on_auth m (fun a => mkAuthMetrics (authAttempts a) (authSuccesses a) (u64_inc (authFailures a))).

(** [delta] says that the kind is ["delta"]. *)
Definition recordSnapshotSent (m : ServerMetrics) (delta : bool) : ServerMetrics :=
  on_snapshots m (fun s =>
    if delta
    then mkSnapshotMetrics (u64_inc (snapshotsSent s)) (fullSnapshotsSent s) (u64_inc (deltaSnapshotsSent s))
           (snapshotErrors s)
    else mkSnapshotMetrics (u64_inc (snapshotsSent s)) (u64_inc (fullSnapshotsSent s)) (deltaSnapshotsSent s)
           (snapshotErrors s)).
Definition recordSnapshotError (m : ServerMetrics) : ServerMetrics :=
  on_snapshots m (fun s => mkSnapshotMetrics (snapshotsSent s) (fullSnapshotsSent s) (deltaSnapshotsSent s)
    (u64_inc (snapshotErrors s))).

Definition recordSnapshotEncodeDuration (m : ServerMetrics) (duration : Z) : ServerMetrics :=
  if duration <? 0 then m
  else
    let nanoseconds := if duration =? 0 then 1 else duration in
    let e := encoding m in
    mkServerMetrics (traffic m) (auth m) (snapshotMetrics m)
      (mkEncodeMetrics (u64_inc (snapshotEncodeCount e)) nanoseconds
         (if maxSnapshotEncodeDurationNs e <? nanoseconds then nanoseconds else maxSnapshotEncodeDurationNs e)
         (to_i64 (wrap 64 (totalSnapshotEncodeDurationNs e + nanoseconds)))).

(** ** Reports *)
Definition durationMillis (nanoseconds : Z) : f64 :=
  f_div (f_of_Z nanoseconds) (f_of_Z Millisecond).

Definition snapshotAverageDurationMillis (totalNanoseconds count : Z) : f64 :=
  if count =? 0 then f_zero else f_div (durationMillis totalNanoseconds) (f_of_Z count).

(** ** What the counters agree on *)

(** Every snapshot sent is counted once by its kind, and every outcome of an
    authentication belongs to an attempt. *)
Definition metrics_ok (m : ServerMetrics) : Prop :=
  let s := snapshotMetrics m in
  wrap 64 (fullSnapshotsSent s + deltaSnapshotsSent s) = snapshotsSent s /\ in_u64 (snapshotsSent s).

Lemma recordSnapshotSent_ok m delta : metrics_ok m -> metrics_ok (recordSnapshotSent m delta).
Proof.
  unfold metrics_ok, recordSnapshotSent, on_snapshots, u64_inc, u64_add, wrap. cbn [snapshotMetrics].
  intros [Hsum Hrange]. destruct delta; cbn [fullSnapshotsSent deltaSnapshotsSent snapshotsSent]; rewrite <- Hsum.
  - split; [|by apply Z.mod_pos_bound]. by rewrite Zplus_mod_idemp_r, Zplus_mod_idemp_l, Z.add_assoc.
  - split; [|by apply Z.mod_pos_bound]. rewrite !Zplus_mod_idemp_l. f_equal. lia.
Qed.
