(* ===== verification/Runtime.v ===== *)
(** * The runtime: registered objects and the hooks that run on them

    [network/runtime.go], and the contexts and interfaces of [network/protocol.go].
    The game's objects and factories are outside the repository's core: they are
    the class [GameCode], one field per method of the Go interfaces, a method that
    an object need not have being [None].  A hook acts on the whole [World]: the
    runtime and the rest of the process ([Game]: the objects' own fields, the
    transport).  [hooksMu] runs one hook at a time and [mu] guards the tables, so
    an operation is a function of the world; the clock is an argument.

    Left out of the record: the wire message registry, which is [Registry], since
    its handlers act on the world that contains the runtime. *)
From S2P Require Import Prelude Keys Values Snapshot Messages Packet Config InputBuffer Registry Scenes Float64 Metrics Interest.

(** ** Data *)
Record Features := mkFeatures { interest : option InterestManager; scenes : option SceneManager }.

Record RuntimeMetrics := mkMetrics {
  TicksAdvanced : Z;
  LastTickDurationNs : Z;
  LastTickDurationMs : f64;
  MaxTickDurationNs : Z;
  MaxTickDurationMs : f64;
  TotalTickDurationNs : Z;
  TotalTickDurationMs : f64;
  AverageTickDurationMs : f64
}.

Record RequestMessage := mkRequest {
  rm_Type : string;
  rm_Sequence : Z;
  rm_ObjectType : string;
  rm_ObjectID : string;
  rm_Action : string;
  rm_Data : bytes
}.

(** Objects are compared by nobody: an [Obj] is the interface value itself. *)
Record Runtime (Obj Factory Payload : Type) := mkRuntime {
  config : Config;
  tick : Z;
  objects : gmap string (gmap string Obj);
  factories : gmap string Factory;
  inputs : inputBuffer (Payload := Payload);
  rt_metrics : RuntimeMetrics;
  authenticationHandler : option Obj;
  features : Features;
  authenticationObjectType : string;
  authenticationObjectID : string
}.
Arguments mkRuntime {Obj Factory Payload}.
Arguments config {Obj Factory Payload}.
Arguments tick {Obj Factory Payload}.
Arguments objects {Obj Factory Payload}.
Arguments factories {Obj Factory Payload}.
Arguments inputs {Obj Factory Payload}.
Arguments rt_metrics {Obj Factory Payload}.
Arguments authenticationHandler {Obj Factory Payload}.
Arguments features {Obj Factory Payload}.
Arguments authenticationObjectType {Obj Factory Payload}.
Arguments authenticationObjectID {Obj Factory Payload}.

Record SceneSwitchDecision := mkDecision {
  Allowed : bool;
  sd_Scene : SceneID;
  Reason : string;
  ClearClientObjects : bool;
  sd_Data : GoValue
}.

Definition no_decision : SceneSwitchDecision := mkDecision false "" "" false VNil.

Definition SceneSwitchAllowed : SceneSwitchDecision := mkDecision true "" "" true VNil.
Definition SceneSwitchAllowedTo (sceneID : SceneID) : SceneSwitchDecision :=
  let decision := SceneSwitchAllowed in
  mkDecision (Allowed decision) sceneID (Reason decision) (ClearClientObjects decision) (sd_Data decision).
Definition SceneSwitchDenied (reason : string) : SceneSwitchDecision := mkDecision false "" reason false VNil.

Section Contexts.
Context (Obj Factory Payload Game : Type).

Definition World : Type := Runtime Obj Factory Payload * Game.

(** The fields [Runtime] and [Features] of the contexts are part of the world. *)
Record TickContext := mkTick { tk_Tick : Z; tk_Delta : Z; tk_DeltaSeconds : f64 }.

Record RequestContext := mkRequestContext {
  rc_Transport : string;
  rc_ClientID : string;
  rc_Tick : Z;
  rc_ReceivedAt : Z;
  rc_Request : RequestMessage;
  rc_Payload : GoAny;
  rc_Object : option Obj;
  rc_Response : ResponseWriter (World := World)
}.

Record SceneSwitchContext := mkSceneSwitch {
  sc_Transport : string;
  sc_ClientID : string;
  sc_Tick : Z;
  sc_ReceivedAt : Z;
  sc_Request : RequestMessage;
  sc_Payload : GoAny;
  sc_Object : option Obj;
  sc_ObjectType : string;
  sc_ObjectID : string;
  sc_CurrentScene : SceneID;
  sc_TargetScene : SceneID;
  sc_Response : ResponseWriter (World := World)
}.

Record AuthenticationContext := mkAuthentication {
  ac_Transport : string;
  ac_ConnectionID : string;
  ac_ClientID : string;
  ac_Tick : Z;
  ac_ReceivedAt : Z;
  ac_Request : RequestMessage;
  ac_Payload : GoAny
}.

Record InitContext := mkInit { ini_object : Obj; ini_objectType : string; ini_objectID : string }.

(** The interfaces [Object], [InitHandler], [TickHandler], [FullTickHandler],
    [RequestHandler], [AuthenticationHandler], [SceneSwitchHandler],
    [SnapshotVisibility], [SnapshotPriorityProvider] and [ObjectFactory]. *)
Class GameCode := {
  ObjectType : Obj -> Game -> string;
  ObjectID : Obj -> Game -> string;
  ObjectSnapshot : Obj -> Game -> GoValue;
  OnInit : Obj -> option (InitContext -> World -> World);
  OnTick : Obj -> option (TickContext -> World -> World);
  OnFullTick : Obj -> option (TickContext -> World -> World);
  OnRequest : Obj -> option (RequestContext -> World -> World * result unit);
  OnAuthenticationAttempt : Obj -> option (AuthenticationContext -> World -> World * result string);
  OnSceneSwitchRequest :
    Obj -> option (SceneSwitchContext -> World -> World * (SceneSwitchDecision * result unit));
  SnapshotVisible : Obj -> option (Game -> bool);
  SnapshotPriority : Obj -> option (Game -> OutboundPriority);
  FactoryCreate : Factory -> RequestContext -> World -> World * result (option Obj)
}.
End Contexts.
Arguments mkRequestContext {Obj Factory Payload Game}.
Arguments rc_Transport {Obj Factory Payload Game}.
Arguments rc_ClientID {Obj Factory Payload Game}.
Arguments rc_Tick {Obj Factory Payload Game}.
Arguments rc_ReceivedAt {Obj Factory Payload Game}.
Arguments rc_Request {Obj Factory Payload Game}.
Arguments rc_Payload {Obj Factory Payload Game}.
Arguments rc_Object {Obj Factory Payload Game}.
Arguments rc_Response {Obj Factory Payload Game}.
Arguments mkSceneSwitch {Obj Factory Payload Game}.
Arguments sc_ClientID {Obj Factory Payload Game}.
Arguments sc_Tick {Obj Factory Payload Game}.
Arguments sc_Transport {Obj Factory Payload Game}.
Arguments sc_ReceivedAt {Obj Factory Payload Game}.
Arguments sc_Request {Obj Factory Payload Game}.
Arguments sc_Payload {Obj Factory Payload Game}.
Arguments sc_Object {Obj Factory Payload Game}.
Arguments sc_ObjectType {Obj Factory Payload Game}.
Arguments sc_ObjectID {Obj Factory Payload Game}.
Arguments sc_CurrentScene {Obj Factory Payload Game}.
Arguments sc_TargetScene {Obj Factory Payload Game}.
Arguments sc_Response {Obj Factory Payload Game}.
Arguments mkInit {Obj}.
Arguments GameCode : clear implicits.
Arguments ObjectType {Obj Factory Payload Game _}.
Arguments ObjectID {Obj Factory Payload Game _}.
Arguments ObjectSnapshot {Obj Factory Payload Game _}.
Arguments OnInit {Obj Factory Payload Game _}.
Arguments OnTick {Obj Factory Payload Game _}.
Arguments OnFullTick {Obj Factory Payload Game _}.
Arguments OnRequest {Obj Factory Payload Game _}.
Arguments OnAuthenticationAttempt {Obj Factory Payload Game _}.
Arguments OnSceneSwitchRequest {Obj Factory Payload Game _}.
Arguments SnapshotVisible {Obj Factory Payload Game _}.
Arguments SnapshotPriority {Obj Factory Payload Game _}.
Arguments FactoryCreate {Obj Factory Payload Game _}.

Section Operations.
Context {Obj Factory Payload Game : Type} `{!GameCode Obj Factory Payload Game}.
Abbreviation Runtime := (Runtime Obj Factory Payload).
Abbreviation World := (World Obj Factory Payload Game).
Abbreviation RequestContext := (RequestContext Obj Factory Payload Game).
Abbreviation SceneSwitchContext := (SceneSwitchContext Obj Factory Payload Game).

Definition zero_metrics : RuntimeMetrics := mkMetrics 0 0 f_zero 0 f_zero 0 f_zero f_zero.

Definition NewRuntime (config : Config) : Runtime :=
  mkRuntime (Normalized config) 0 ∅ ∅ newInputBuffer zero_metrics None (mkFeatures None None) "" "".

(** ** Field updates *)
Definition set_tick (r : Runtime) (t : Z) : Runtime :=
  mkRuntime (config r) t (objects r) (factories r) (inputs r) (rt_metrics r) (authenticationHandler r)
    (features r) (authenticationObjectType r) (authenticationObjectID r).
Definition set_objects (r : Runtime) (os : gmap string (gmap string Obj)) : Runtime :=
  mkRuntime (config r) (tick r) os (factories r) (inputs r) (rt_metrics r) (authenticationHandler r)
    (features r) (authenticationObjectType r) (authenticationObjectID r).
Definition set_factories (r : Runtime) (fs : gmap string Factory) : Runtime :=
  mkRuntime (config r) (tick r) (objects r) fs (inputs r) (rt_metrics r) (authenticationHandler r)
    (features r) (authenticationObjectType r) (authenticationObjectID r).
Definition set_inputs (r : Runtime) (b : inputBuffer) : Runtime :=
  mkRuntime (config r) (tick r) (objects r) (factories r) b (rt_metrics r) (authenticationHandler r)
    (features r) (authenticationObjectType r) (authenticationObjectID r).
Definition set_metrics (r : Runtime) (m : RuntimeMetrics) : Runtime :=
  mkRuntime (config r) (tick r) (objects r) (factories r) (inputs r) m (authenticationHandler r)
    (features r) (authenticationObjectType r) (authenticationObjectID r).
Definition set_authentication (r : Runtime) (handler : option Obj) (t i : string) : Runtime :=
  mkRuntime (config r) (tick r) (objects r) (factories r) (inputs r) (rt_metrics r) handler
    (features r) t i.
Definition set_features (r : Runtime) (f : Features) : Runtime :=
  mkRuntime (config r) (tick r) (objects r) (factories r) (inputs r) (rt_metrics r)
    (authenticationHandler r) f (authenticationObjectType r) (authenticationObjectID r).

Definition on_interest (r : Runtime) (f : option InterestManager -> option InterestManager) : Runtime :=
  set_features r (mkFeatures (f (interest (features r))) (scenes (features r))).
Definition on_scenes (r : Runtime) (f : option SceneManager -> option SceneManager) : Runtime :=
  set_features r (mkFeatures (interest (features r)) (f (scenes (features r)))).

Definition on_runtime (w : World) (f : Runtime -> Runtime) : World := (f w.1, w.2).

(** ** Inputs *)
Definition BufferClientInput (r : Runtime) (input : ClientInput) (now : Z) : Runtime * result unit :=
  let (b, e) := add (inputs r) input (tick r) (config r) now in (set_inputs r b, e).

Definition ConsumeClientInputsForTick (r : Runtime) (clientID : string) (t : Z)
    : Runtime * list ClientInput :=
  let (b, l) := InputBuffer.consume (inputs r) clientID t in (set_inputs r b, l).

Definition ConsumeClientInputs (r : Runtime) (clientID : string) : Runtime * list ClientInput :=
  ConsumeClientInputsForTick r clientID (tick r).

Definition ConsumeClientInputsForObjectAtTick (EqualFold : string -> string -> bool) (r : Runtime)
    (clientID : string) (t : Z) (objectType objectID : string) : Runtime * list ClientInput :=
  let (b, l) := consumeForObject EqualFold (inputs r) clientID t objectType objectID in (set_inputs r b, l).

Definition ConsumeClientInputsForObject (EqualFold : string -> string -> bool) (r : Runtime)
    (clientID objectType objectID : string) : Runtime * list ClientInput :=
  ConsumeClientInputsForObjectAtTick EqualFold r clientID (tick r) objectType objectID.

(** ** Objects *)

(** [objectIdentity]: [None] is the nil object. *)
Definition objectIdentity (object : option Obj) (g : Game) : result (string * string) :=
  match object with
  | None => Err (ErrOther "nil object")
  | Some o =>
      let objectType := normalizeObjectKey (ObjectType o g) in
      if empty_key objectType then Err ErrMissingObjectType
      else
        let objectID := normalizeObjectKey (ObjectID o g) in
        if empty_key objectID then Err ErrMissingObjectID else Ok (objectType, objectID)
  end.

(** [runtime.objects[objectType][objectID] = object]. *)
Definition store (r : Runtime) (objectType objectID : string) (object : Obj) : Runtime :=
  set_objects r (<[objectType := <[objectID := object]> (default ∅ (objects r !! objectType))]> (objects r)).

(** The two [Disable] calls that follow every change of an object. *)
Definition disable_features (r : Runtime) (objectType objectID : string) : Runtime :=
  let r := on_interest r (fun m => DisableInterestManagement m objectType objectID) in
  on_scenes r (fun m => DisableSceneManagement m objectType objectID).

Definition initializeObject (object : Obj) (objectType objectID : string) (w : World) : World :=
  match OnInit object with
  | Some hook => hook (mkInit object objectType objectID) w
  | None => w
  end.

Definition RegisterObject (object : option Obj) (w : World) : World * result unit :=
  match objectIdentity object w.2, object with
  | Ok (objectType, objectID), Some o =>
      let w := on_runtime w (fun r => store r objectType objectID o) in
      let w := on_runtime w (fun r => disable_features r objectType objectID) in
      (initializeObject o objectType objectID w, Ok tt)
  | Err e, _ => (w, Err e)
  | _, None => (w, Err (ErrOther "nil object"))
  end.

Definition RegisterAuthenticationObject (object : option Obj) (w : World) : World * result unit :=
  match object with
  | None => (w, Err ErrAuthenticationHandlerUnsupported)
  | Some o =>
      match OnAuthenticationAttempt o with
      | None => (w, Err ErrAuthenticationHandlerUnsupported)
      | Some _ =>
          match objectIdentity object w.2 with
          | Err e => (w, Err e)
          | Ok (objectType, objectID) =>
              match authenticationHandler w.1 with
              | Some _ => (w, Err ErrAuthenticationHandlerExists)
              | None =>
                  let w := on_runtime w (fun r => store r objectType objectID o) in
                  let w := on_runtime w (fun r => set_authentication r (Some o) objectType objectID) in
                  let w := on_runtime w (fun r => disable_features r objectType objectID) in
                  (initializeObject o objectType objectID w, Ok tt)
              end
          end
      end
  end.

Definition RemoveObject (r : Runtime) (objectType objectID : string) : Runtime :=
  let objectType := normalizeObjectKey objectType in
  let objectID := normalizeObjectKey objectID in
  match objects r !! objectType with
  | None => r
  | Some objectsByID =>
      let objectsByID := delete objectID objectsByID in
      let r := set_objects r (if bool_decide (size objectsByID = 0%nat) then delete objectType (objects r)
                              else <[objectType := objectsByID]> (objects r)) in
      let r :=
        if bool_decide (authenticationObjectType r = objectType) &&
           bool_decide (authenticationObjectID r = objectID)
        then set_authentication r None "" "" else r in
      disable_features r objectType objectID
  end.

Definition GetObject (r : Runtime) (objectType objectID : string) : option Obj :=
  let objectType := normalizeObjectKey objectType in
  let objectID := normalizeObjectKey objectID in
  objectsByID ← objects r !! objectType; objectsByID !! objectID.

Definition RegisterFactory (r : Runtime) (objectType : string) (factory : option Factory)
    : Runtime * result unit :=
  let objectType := normalizeObjectKey objectType in
  if empty_key objectType then (r, Err ErrMissingObjectType)
  else
    match factory with
    | None => (r, Err (ErrOther "nil object factory"))
    | Some factory => (set_factories r (<[objectType := factory]> (factories r)), Ok tt)
    end.

Definition AuthenticationRequired (r : Runtime) : bool :=
  match authenticationHandler r with Some _ => true | None => false end.

Definition CreateObject (objectType objectID : string) (now : Z) (w : World)
    : World * result (option Obj) :=
  let objectType := normalizeObjectKey objectType in
  let objectID := normalizeObjectKey objectID in
  if empty_key objectType then (w, Err ErrMissingObjectType)
  else if empty_key objectID then (w, Err ErrMissingObjectID)
  else if bool_decide (is_Some (GetObject w.1 objectType objectID)) then (w, Err ErrObjectExists)
  else
    match factories w.1 !! objectType with
    | None => (w, Err ErrObjectNotFound)
    | Some factory =>
        let (w, created) :=
          FactoryCreate factory
            (mkRequestContext "" "" 0 now (mkRequest "" 0 objectType objectID "" []) AnyNil None None) w in
        match created with
        | Err e => (w, Err e)
        | Ok object =>
            match objectIdentity object w.2 with
            | Err e => (w, Err e)
            | Ok (createdType, createdID) =>
                if negb (bool_decide (createdType = objectType)) || negb (bool_decide (createdID = objectID))
                then (w, Err (ErrOther "factory created another object"))
                else
                  let (w, registered) := RegisterObject object w in
                  match registered with
                  | Err e => (w, Err e)
                  | Ok _ => (w, Ok object)
                  end
            end
        end
    end.

(** ** Ticks *)

(** [objectList], in the order in which Go's [range] happens to walk the maps. *)
Definition objectList (r : Runtime) : list Obj :=
  concat (map (fun e => map snd (map_to_list e.2)) (map_to_list (objects r))).

Definition tick_one (ctx : TickContext) (w : World) (object : Obj) : World :=
  match OnTick object with Some hook => hook ctx w | None => w end.
Definition full_tick_one (ctx : TickContext) (w : World) (object : Obj) : World :=
  match OnFullTick object with Some hook => hook ctx w | None => w end.

Definition recordTickDuration (r : Runtime) (duration : Z) : Runtime :=
  if duration <? 0 then r
  else
    let nanoseconds := if duration =? 0 then 1 else duration in
    let m := rt_metrics r in
    let ticks := u64_inc (TicksAdvanced m) in
    let total := to_i64 (wrap 64 (TotalTickDurationNs m + nanoseconds)) in
    let longer := MaxTickDurationNs m <? nanoseconds in
    set_metrics r (mkMetrics ticks nanoseconds (durationMillis nanoseconds)
      (if longer then nanoseconds else MaxTickDurationNs m)
      (if longer then durationMillis nanoseconds else MaxTickDurationMs m)
      total (durationMillis total)
      (f_div (durationMillis total) (f_of_Z ticks))).

(** [Advance]: [duration] is what the clock measured. *)
Definition Advance (duration : Z) (w : World) : World * Z :=
  let w := on_runtime w (fun r => set_tick r (u64_inc (tick r))) in
  let t := tick w.1 in
  let interval := TickInterval (config w.1) in
  let ctx := mkTick t interval (Seconds interval) in
  let w := foldl (tick_one ctx) w (objectList w.1) in
  let w :=
    if t mod (TickRate (config w.1)) =? 0
    then foldl (full_tick_one ctx) w (objectList w.1) else w in
  (on_runtime w (fun r => recordTickDuration r duration), t).

(** ** Requests *)
Definition isSceneSwitchAction (action : string) : bool :=
  bool_decide (ToLower (TrimSpace action) ∈
    ["scene"%string; "scene.switch"%string; "switchscene"%string; "switch_scene"%string]).

(** [or_now t now] is [if t.IsZero() { t = time.Now() }]. *)
Definition or_now (t now : Z) : Z := if t =? 0 then now else t.

Definition switch_to (r : Runtime) (objectType objectID clientID : string) (scene : SceneID) : Runtime :=
  let r := on_scenes r (fun m => (SetObjectScene m objectType objectID scene).1) in
  if bool_decide (clientID = ""%string) then r
  else on_scenes r (fun m => (SetClientScene m clientID scene).1).

(** The key that [requestSceneSwitch] acts on: the object's own identity, or
    what the context and then the request name. *)
Definition switch_key (ctx : SceneSwitchContext) (g : Game) : result (string * string) :=
  let! (objectType, objectID) :=
    match sc_Object ctx with
    | Some o => objectIdentity (Some o) g
    | None => Ok (normalizeObjectKey (sc_ObjectType ctx), normalizeObjectKey (sc_ObjectID ctx))
    end in
  let objectType :=
    if empty_key objectType then normalizeObjectKey (rm_ObjectType (sc_Request ctx)) else objectType in
  let objectID :=
    if empty_key objectID then normalizeObjectKey (rm_ObjectID (sc_Request ctx)) else objectID in
  if empty_key objectType then Err ErrMissingObjectType
  else if empty_key objectID then Err ErrMissingObjectID
  else Ok (objectType, objectID).

Definition requestSceneSwitch (ctx : SceneSwitchContext) (now : Z) (w : World)
    : World * (SceneSwitchDecision * result unit) :=
  let targetScene := normalizeSceneID (sc_TargetScene ctx) in
  if empty_key targetScene then (w, (no_decision, Err ErrMissingSceneID))
  else
    match switch_key ctx w.2 with
    | Err e => (w, (no_decision, Err e))
    | Ok (objectType, objectID) =>
        let found :=
          match sc_Object ctx with
          | Some o => Some o
          | None => GetObject w.1 objectType objectID
          end in
        match found with
        | None => (w, (no_decision, Err ErrObjectNotFound))
        | Some object =>
            match OnSceneSwitchRequest object with
            | None => (w, (no_decision, Err ErrSceneSwitchUnsupported))
            | Some hook =>
                let currentScene := default ""%string (ObjectScene (scenes (features w.1)) objectType objectID) in
                let '(w, (decision, e)) :=
                  hook (mkSceneSwitch (sc_Transport ctx) (sc_ClientID ctx) (sc_Tick ctx)
                          (or_now (sc_ReceivedAt ctx) now) (sc_Request ctx) (sc_Payload ctx) (Some object)
                          objectType objectID currentScene targetScene (sc_Response ctx)) w in
                match e with
                | Err _ => (w, (decision, e))
                | Ok _ =>
                    if negb (Allowed decision) then (w, (decision, Ok tt))
                    else
                      let finalScene := normalizeSceneID (sd_Scene decision) in
                      let finalScene := if empty_key finalScene then targetScene else finalScene in
                      let decision := mkDecision (Allowed decision) finalScene (Reason decision)
                                        (ClearClientObjects decision) (sd_Data decision) in
                      (on_runtime w (fun r => switch_to r objectType objectID (sc_ClientID ctx) finalScene),
                       (decision, Ok tt))
                end
            end
        end
    end.

(** [RequestSceneSwitch] sets the tick of the context. *)
Definition RequestSceneSwitch (ctx : SceneSwitchContext) (now : Z) (w : World)
    : World * (SceneSwitchDecision * result unit) :=
  requestSceneSwitch
    (mkSceneSwitch (sc_Transport ctx) (sc_ClientID ctx) (tick w.1) (or_now (sc_ReceivedAt ctx) now)
       (sc_Request ctx) (sc_Payload ctx) (sc_Object ctx) (sc_ObjectType ctx) (sc_ObjectID ctx)
       (sc_CurrentScene ctx) (sc_TargetScene ctx) (sc_Response ctx)) now w.

(** The [SceneSwitchContext] that both callers below make of a request. *)
Definition scene_context (ctx : RequestContext) (targetScene : SceneID) : SceneSwitchContext :=
  mkSceneSwitch (rc_Transport ctx) (rc_ClientID ctx) (rc_Tick ctx) (rc_ReceivedAt ctx) (rc_Request ctx)
    (rc_Payload ctx) (rc_Object ctx) (rm_ObjectType (rc_Request ctx)) (rm_ObjectID (rc_Request ctx))
    ""%string targetScene (rc_Response ctx).

(** [RequestContext.RequestSceneSwitch]. *)
Definition context_RequestSceneSwitch (ctx : RequestContext) (targetScene : SceneID) (now : Z) (w : World)
    : World * (SceneSwitchDecision * result unit) :=
  requestSceneSwitch (scene_context ctx targetScene) now w.

(** The struct [SceneSwitchResponse] as reflection sees it. *)
Definition SceneSwitchResponse (type : string) (sequence : Z) (ok : bool) (scene previous : SceneID)
    (reason : string) (clear : bool) (data : GoValue) : GoAny :=
  let field name tag v := (mkStructField name "" tag, v) in
  AnyValue (MOther "network.SceneSwitchResponse" (VStruct [
    field "Type" "type" (VString type);
    field "Sequence" "seq,omitempty" (VUint sequence);
    field "OK" "ok" (VBool ok);
    field "Scene" "scene,omitempty" (VString scene);
    field "PreviousScene" "previousScene,omitempty" (VString previous);
    field "Reason" "reason,omitempty" (VString reason);
    field "ClearClientObjects" "clearClientObjects,omitempty" (VBool clear);
    field "Data" "data,omitempty" data])%string).

(** What the [Decode] methods of the three contexts do with a payload and a request,
    into a target that holds [zero].  [decodePayload] is the function of that name of
    [network/payload.go] at the type of the target, [Unmarshal] is [json.Unmarshal]. *)
Definition decode_request {T : Type} (decodePayload : GoAny -> result T) (Unmarshal : bytes -> result T) (zero : T)
    (payload : GoAny) (request : RequestMessage) : result T :=
  match payload with
  | AnyNil => match rm_Data request with [] => Ok zero | data => Unmarshal data end
  | payload => decodePayload payload
  end.

Definition Decode {T : Type} (decodePayload : GoAny -> result T) (Unmarshal : bytes -> result T) (zero : T)
    (ctx : RequestContext) : result T :=
  decode_request decodePayload Unmarshal zero (rc_Payload ctx) (rc_Request ctx).

Definition SceneSwitch_Decode {T : Type} (decodePayload : GoAny -> result T) (Unmarshal : bytes -> result T) (zero : T)
    (ctx : SceneSwitchContext) : result T :=
  decode_request decodePayload Unmarshal zero (sc_Payload ctx) (sc_Request ctx).

Definition Authentication_Decode {T : Type} (decodePayload : GoAny -> result T) (Unmarshal : bytes -> result T)
    (zero : T) (ctx : AuthenticationContext) : result T :=
  decode_request decodePayload Unmarshal zero (ac_Payload ctx) (ac_Request ctx).

(** [Decode] of a [SceneSwitchRequest]: the scene it names. *)
Definition decodeSceneSwitch (decodePayload : GoAny -> result SceneID)
    (Unmarshal : bytes -> result SceneID) (ctx : RequestContext) : result SceneID :=
  Decode decodePayload Unmarshal ""%string ctx.

Section Requests.
Context (decodePayload : GoAny -> result SceneID) (Unmarshal : bytes -> result SceneID).

Definition handleSceneSwitchRequest (ctx : RequestContext) (now : Z) (w : World) : World * result unit :=
  match decodeSceneSwitch decodePayload Unmarshal ctx with
  | Err e => (w, Err e)
  | Ok targetScene =>
      let request := rc_Request ctx in
      let previousScene := default ""%string
        (ObjectScene (scenes (features w.1)) (rm_ObjectType request) (rm_ObjectID request)) in
      let '(w, (decision, e)) :=
        requestSceneSwitch (scene_context ctx targetScene) now w in
      match e, rc_Response ctx with
      | Err e, _ => (w, Err e)
      | Ok _, None => (w, Ok tt)
      | Ok _, Some _ =>
          Respond (rc_Response ctx)
            (SceneSwitchResponse "scene.switch" (rm_Sequence request) (Allowed decision) (sd_Scene decision)
               previousScene (Reason decision) (ClearClientObjects decision) (sd_Data decision)) w
      end
  end.

(** The context with the names, the object, the tick and the time filled in. *)
Definition resolved_context (ctx : RequestContext) (objectType objectID : string) (object : Obj) (now : Z)
    (w : World) : RequestContext :=
  let request := rc_Request ctx in
  mkRequestContext (rc_Transport ctx) (rc_ClientID ctx) (tick w.1) (or_now (rc_ReceivedAt ctx) now)
    (mkRequest (rm_Type request) (rm_Sequence request) objectType objectID (rm_Action request) (rm_Data request))
    (rc_Payload ctx) (Some object) (rc_Response ctx).

Definition HandleRequest (ctx : RequestContext) (now : Z) (w : World) : World * result unit :=
  let request := rc_Request ctx in
  let objectType := normalizeObjectKey (rm_ObjectType request) in
  let objectID := normalizeObjectKey (rm_ObjectID request) in
  if empty_key objectType then (w, Err ErrMissingObjectType)
  else if empty_key objectID then (w, Err ErrMissingObjectID)
  else
    match GetObject w.1 objectType objectID with
    | None => (w, Err ErrObjectNotFound)
    | Some object =>
        let ctx := resolved_context ctx objectType objectID object now w in
        if isSceneSwitchAction (rm_Action request) then handleSceneSwitchRequest ctx now w
        else
          match OnRequest object with
          | Some hook => hook ctx w
          | None => (w, Ok tt)
          end
    end.
End Requests.

Definition HandleAuthenticationAttempt (ctx : AuthenticationContext) (now : Z) (w : World)
    : World * result string :=
  let ctx := mkAuthentication (ac_Transport ctx) (ac_ConnectionID ctx) (ac_ClientID ctx) (tick w.1)
               (or_now (ac_ReceivedAt ctx) now) (ac_Request ctx) (ac_Payload ctx) in
  let hook :=
    match authenticationHandler w.1 with
    | Some handler => OnAuthenticationAttempt handler
    | None => None
    end in
  match hook with
  | None => (w, Err ErrMissingAuthenticationHandler)
  | Some hook =>
      let (w, attempt) := hook ctx w in
      match attempt with
      | Err e => (w, Err e)
      | Ok authenticatedID =>
          let authenticatedID := normalizeObjectKey authenticatedID in
          if empty_key authenticatedID then (w, Err ErrMissingAuthenticationID)
          else (w, Ok authenticatedID)
      end
  end.

(** ** Invariant *)
Record runtime_ok (r : Runtime) : Prop := {
  rk_config : exists c, config r = Normalized c;
  rk_tick : in_u64 (tick r);
  rk_objects t objectsByID : objects r !! t = Some objectsByID ->
    key_ok t /\ objectsByID <> ∅ /\ forall i, is_Some (objectsByID !! i) -> key_ok i;
  rk_factories t : is_Some (factories r !! t) -> key_ok t;
  rk_inputs : buffer_ok (InputBufferLimit (config r)) (inputs r);
  rk_authentication :
    match authenticationHandler r with
    | Some o =>
        is_Some (OnAuthenticationAttempt (Game := Game) (Factory := Factory) (Payload := Payload) o) /\
        is_Some (GetObject r (authenticationObjectType r) (authenticationObjectID r)) /\
        key_ok (authenticationObjectType r) /\ key_ok (authenticationObjectID r)
    | None => authenticationObjectType r = ""%string /\ authenticationObjectID r = ""%string
    end;
  rk_interest : interest_ok (interest_of (interest (features r)));
  rk_scenes : scenes_ok (scenes (features r))
}.

(** What the methods that a hook can call do to the runtime.  The fields of
    [Runtime] are private, so that game code changes it in no other way; the
    methods that take [hooksMu] block when a hook calls them. *)
Inductive api_step : Runtime -> Runtime -> Prop :=
| api_register r t i o :
    key_ok t -> key_ok i -> api_step r (disable_features (store r t i o) t i)
| api_authentication r t i o :
    key_ok t -> key_ok i -> authenticationHandler r = None ->
    is_Some (OnAuthenticationAttempt (Game := Game) (Factory := Factory) (Payload := Payload) o) ->
    api_step r (disable_features (set_authentication (store r t i o) (Some o) t i) t i)
| api_remove r t i : api_step r (RemoveObject r t i)
| api_factory r t f : api_step r (RegisterFactory r t f).1
| api_input r input now : api_step r (BufferClientInput r input now).1
| api_consume r c t : api_step r (ConsumeClientInputsForTick r c t).1
| api_consume_object EqualFold r c t ot oi :
    api_step r (ConsumeClientInputsForObjectAtTick EqualFold r c t ot oi).1
| api_interest r op : api_step r (on_interest r (fun m => interest_step m op))
| api_scene r op : api_step r (on_scenes r (fun m => scene_step m op)).

Definition api_steps : Runtime -> Runtime -> Prop := rtc api_step.

(** A response writer is part of a transport: it does not touch the runtime but
    through its methods. *)
Definition writer_ok (writer : ResponseWriter (World := World)) : Prop :=
  forall m w, api_steps w.1 (Respond writer m w).1.1.

(** The law of game code: hooks change the runtime only through its methods. *)
Class GameLaws : Prop := {
  law_init o hook ctx w : OnInit o = Some hook -> api_steps w.1 (hook ctx w).1;
  law_tick o hook ctx w : OnTick o = Some hook -> api_steps w.1 (hook ctx w).1;
  law_full_tick o hook ctx w : OnFullTick o = Some hook -> api_steps w.1 (hook ctx w).1;
  law_request o hook ctx w :
    OnRequest o = Some hook -> writer_ok (rc_Response ctx) -> api_steps w.1 (hook ctx w).1.1;
  law_authentication o hook ctx w : OnAuthenticationAttempt o = Some hook -> api_steps w.1 (hook ctx w).1.1;
  law_scene o hook ctx w :
    OnSceneSwitchRequest o = Some hook -> writer_ok (sc_Response ctx) -> api_steps w.1 (hook ctx w).1.1;
  law_factory f ctx w : writer_ok (rc_Response ctx) -> api_steps w.1 (FactoryCreate f ctx w).1.1
}.

Lemma GetObject_keys r t i :
  key_ok t -> key_ok i -> GetObject r t i = (objectsByID ← objects r !! t; objectsByID !! i).
Proof. intros [Ht _] [Hi _]. unfold GetObject. unfold key_normal in *. by rewrite Ht, Hi. Qed.

Lemma lookup_store r t i o t' :
  objects (store r t i o) !! t' =
    if decide (t = t') then Some (<[i := o]> (default ∅ (objects r !! t))) else objects r !! t'.
Proof.
  unfold store. cbn [objects set_objects]. destruct (decide (t = t')) as [<-|Hne].
  - by rewrite lookup_insert_eq.
  - by rewrite lookup_insert_ne.
Qed.

Lemma GetObject_store r t i o t' i' :
  key_ok t -> key_ok i ->
  GetObject (store r t i o) t' i' =
    if decide (t = normalizeObjectKey t' /\ i = normalizeObjectKey i') then Some o else GetObject r t' i'.
Proof.
  intros Ht Hi. unfold GetObject. rewrite lookup_store.
  destruct (decide (t = normalizeObjectKey t')) as [->|Hne]; cycle 1.
  { rewrite decide_False; [done|]. by intros [? _]. }
  cbn [mbind option_bind]. destruct (decide (i = normalizeObjectKey i')) as [->|Hni].
  - by rewrite decide_True, lookup_insert_eq.
  - rewrite decide_False by (by intros [_ ?]). rewrite lookup_insert_ne by done.
    destruct (objects r !! normalizeObjectKey t'); [done|]. cbn. by rewrite lookup_empty.
Qed.

Lemma disable_features_frame r t i :
  let r' := disable_features r t i in
  config r' = config r /\ tick r' = tick r /\ objects r' = objects r /\ factories r' = factories r /\
  inputs r' = inputs r /\ authenticationHandler r' = authenticationHandler r /\
  authenticationObjectType r' = authenticationObjectType r /\
  authenticationObjectID r' = authenticationObjectID r.
Proof. done. Qed.

Lemma disable_features_ok r t i :
  runtime_ok r -> runtime_ok (disable_features r t i).
Proof.
  intros [H1 H2 H3 H4 H5 H6 H7 H8]. split; try done.
  - apply (interest_step_ok _ (OpDisable t i)). done.
  - exact (scene_step_ok _ (OpClearObject t i) H8).
Qed.

Lemma store_ok r t i o : key_ok t -> key_ok i -> runtime_ok r -> runtime_ok (store r t i o).
Proof.
  intros Ht Hi [H1 H2 H3 H4 H5 H6 H7 H8]. split; try done.
  - intros t' tbl. rewrite lookup_store. destruct (decide (t = t')) as [<-|]; [|by apply H3].
    intros [= <-]. split; [done|]. split; [apply insert_non_empty|].
    intros i'. destruct (decide (i = i')) as [<-|Hne]; [done|]. rewrite lookup_insert_ne by done.
    destruct (objects r !! t) as [tbl|] eqn:E; [|cbn; rewrite lookup_empty; by intros [? ?]].
    destruct (H3 _ _ E) as (_ & _ & Hk). apply Hk.
  - cbn [authenticationHandler store set_objects authenticationObjectType authenticationObjectID] in *.
    destruct (authenticationHandler r) as [h|]; [|done]. destruct H6 as (Hh & Hg & Hk1 & Hk2).
    split_and!; try done. rewrite GetObject_store by done. case_decide; [done | exact Hg].
Qed.

(** [RemoveObject] without what follows the change of the table. *)
Definition unstore (r : Runtime) (objectType objectID : string) : Runtime :=
  match objects r !! objectType with
  | None => r
  | Some objectsByID =>
      let objectsByID := delete objectID objectsByID in
      set_objects r (if bool_decide (size objectsByID = 0%nat) then delete objectType (objects r)
                     else <[objectType := objectsByID]> (objects r))
  end.

Lemma lookup_unstore r t i t' :
  objects (unstore r t i) !! t' =
    if decide (t = t') then
      objectsByID ← objects r !! t;
      if bool_decide (size (delete i objectsByID) = 0%nat) then None else Some (delete i objectsByID)
    else objects r !! t'.
Proof.
  unfold unstore. destruct (objects r !! t) as [tbl|] eqn:E; cbn [mbind option_bind].
  2: { case_decide; [by subst|done]. }
  cbn [objects set_objects]. destruct (bool_decide _); case_decide; subst;
    by rewrite ?lookup_delete_eq, ?lookup_delete_ne, ?lookup_insert_eq, ?lookup_insert_ne by done.
Qed.

Lemma GetObject_unstore r t i t' i' :
  GetObject (unstore r t i) t' i' =
    if decide (t = normalizeObjectKey t' /\ i = normalizeObjectKey i') then None else GetObject r t' i'.
Proof.
  unfold GetObject. rewrite lookup_unstore. destruct (decide (t = normalizeObjectKey t')) as [->|Hne]; cycle 1.
  { rewrite decide_False; [done|]. by intros [? _]. }
  destruct (objects r !! normalizeObjectKey t') as [tbl|]; cbn [mbind option_bind]; [|by case_decide].
  destruct (bool_decide_reflect (size (delete i tbl) = 0%nat)) as [Hz|Hz]; cbn [mbind option_bind].
  - apply map_size_empty_inv in Hz. case_decide as Hc; [done|].
    rewrite <- (lookup_delete_ne tbl i) by naive_solver. by rewrite Hz, lookup_empty.
  - case_decide as Hc; [destruct Hc as [_ ->]; by rewrite lookup_delete_eq|].
    by rewrite lookup_delete_ne by naive_solver.
Qed.

Lemma RemoveObject_eq r t i :
  RemoveObject r t i =
    let t := normalizeObjectKey t in let i := normalizeObjectKey i in
    if decide (is_Some (objects r !! t)) then
      disable_features
        (if bool_decide (authenticationObjectType r = t) && bool_decide (authenticationObjectID r = i)
         then set_authentication (unstore r t i) None "" "" else unstore r t i) t i
    else r.
Proof.
  cbv zeta. unfold RemoveObject, unstore. destruct (objects r !! normalizeObjectKey t) as [tbl|].
  - by rewrite decide_True by done.
  - rewrite decide_False; [done|]. by intros [? ?].
Qed.

Lemma unstore_objects_ok r t i :
  (forall t objectsByID, objects r !! t = Some objectsByID ->
    key_ok t /\ objectsByID <> ∅ /\ forall i, is_Some (objectsByID !! i) -> key_ok i) ->
  forall t' objectsByID, objects (unstore r t i) !! t' = Some objectsByID ->
    key_ok t' /\ objectsByID <> ∅ /\ forall i, is_Some (objectsByID !! i) -> key_ok i.
Proof.
  intros H t' tbl. rewrite lookup_unstore. case_decide as E; [subst t'|by apply H].
  destruct (objects r !! t) as [tbl0|] eqn:E; [|done]. cbn [mbind option_bind].
  destruct (bool_decide_reflect (size (delete i tbl0) = 0%nat)) as [Hz|Hz]; [done|]. intros [= <-].
  destruct (H _ _ E) as (Hk & _ & Hi). split; [done|]. split.
  - intros He. apply Hz. by rewrite He.
  - intros i' [o [Hne Ho]%lookup_delete_Some]. apply Hi. by exists o.
Qed.

Lemma RemoveObject_ok r t i : runtime_ok r -> runtime_ok (RemoveObject r t i).
Proof.
  intros [H1 H2 H3 H4 H5 H6 H7 H8]. rewrite RemoveObject_eq. cbv zeta.
  generalize (normalizeObjectKey t) (normalizeObjectKey i). clear t i. intros t i.
  destruct (decide _) as [_|_]; [|by split]. apply disable_features_ok.
  assert (config (unstore r t i) = config r /\ tick (unstore r t i) = tick r /\
    factories (unstore r t i) = factories r /\ inputs (unstore r t i) = inputs r /\
    features (unstore r t i) = features r /\ authenticationHandler (unstore r t i) = authenticationHandler r /\
    authenticationObjectType (unstore r t i) = authenticationObjectType r /\
    authenticationObjectID (unstore r t i) = authenticationObjectID r) as (E1 & E2 & E3 & E4 & E5 & E6 & E7 & E8).
  { unfold unstore. by destruct (objects r !! t). }
  pose proof (unstore_objects_ok r t i H3) as H3'.
  destruct (_ && _) eqn:Ea.
  - split; cbn [config tick objects factories inputs authenticationHandler features authenticationObjectType
      authenticationObjectID set_authentication]; rewrite ?E1, ?E2, ?E3, ?E4, ?E5; try done.
  - split; rewrite ?E1, ?E2, ?E3, ?E4, ?E5, ?E6, ?E7, ?E8; try done.
    destruct (authenticationHandler r) as [h|]; [|done]. destruct H6 as (Hh & Hg & Hk1 & Hk2).
    split_and!; try done. rewrite GetObject_unstore. rewrite decide_False; [exact Hg|].
    destruct Hk1 as [-> _], Hk2 as [-> _]. intros [-> ->]. by rewrite !bool_decide_true in Ea.
Qed.

Lemma input_step_ok EqualFold r op :
  runtime_ok r ->
  buffer_ok (InputBufferLimit (config r)) (buffer_step EqualFold (config r) (inputs r) op).
Proof.
  intros [[c Hc] _ _ _ Hb _ _ _]. apply buffer_step_ok; [|done].
  rewrite Hc. apply (cv_inputs _ (Normalized_config_valid c)).
Qed.

Lemma api_step_ok r r' : api_step r r' -> runtime_ok r -> runtime_ok r'.
Proof.
  intros Hs Hok. assert (Hok' := Hok). destruct Hok' as [H1 H2 H3 H4 H5 H6 H7 H8]. destruct Hs.
  - by apply disable_features_ok, store_ok.
  - apply disable_features_ok. destruct (store_ok r t i o ltac:(done) ltac:(done) Hok) as [].
    split; try done. split_and!; [done | | done | done].
    change (GetObject (set_authentication ?r _ _ _)) with (GetObject r).
    cbn [set_authentication authenticationObjectType authenticationObjectID].
    rewrite GetObject_store by done. destruct H as [-> _], H0 as [-> _]. by rewrite decide_True.
  - by apply RemoveObject_ok.
  - unfold RegisterFactory. destruct (empty_key _) eqn:E; [done|]. destruct f as [f|]; [|done].
    split; try done. intros t'. cbn [fst factories set_factories].
    destruct (decide (normalizeObjectKey t = t')) as [<-|Hne].
    + intros _. by apply key_ok_normalize.
    + rewrite lookup_insert_ne by done. apply H4.
  - unfold BufferClientInput. pose proof (input_step_ok (fun _ _ => false) r (OpAdd input (tick r) now) Hok) as Hb.
    cbn [buffer_step] in Hb. destruct (add _ _ _ _ _) as [b e]. by split.
  - unfold ConsumeClientInputsForTick. pose proof (input_step_ok (fun _ _ => false) r (OpConsume c t) Hok) as Hb.
    cbn [buffer_step] in Hb. destruct (InputBuffer.consume _ _ _) as [b l]. by split.
  - unfold ConsumeClientInputsForObjectAtTick.
    pose proof (input_step_ok EqualFold r (OpConsumeForObject c t ot oi) Hok) as Hb.
    cbn [buffer_step] in Hb. destruct (consumeForObject _ _ _ _ _ _) as [b l]. by split.
  - split; try done. by apply interest_step_ok.
  - split; try done. by apply scene_step_ok.
Qed.

Lemma api_steps_ok r r' : api_steps r r' -> runtime_ok r -> runtime_ok r'.
Proof. induction 1 as [|r1 r2 r3 H _ IH]; [done|]. intros Hr. by apply IH, (api_step_ok r1). Qed.

(** What no method changes. *)
Lemma api_step_frame r r' : api_step r r' -> config r' = config r /\ tick r' = tick r.
Proof.
  destruct 1; try done.
  - rewrite RemoveObject_eq. cbv zeta. destruct (decide _); [|done].
    generalize (normalizeObjectKey t) (normalizeObjectKey i). intros t' i'.
    unfold unstore. by destruct (objects r !! t'), (_ && _).
  - unfold RegisterFactory. by destruct (empty_key _), f.
  - unfold BufferClientInput. by destruct (add _ _ _ _ _).
  - unfold ConsumeClientInputsForTick. by destruct (InputBuffer.consume _ _ _).
  - unfold ConsumeClientInputsForObjectAtTick. by destruct (consumeForObject _ _ _ _ _ _).
Qed.

Lemma api_steps_frame r r' : api_steps r r' -> config r' = config r /\ tick r' = tick r.
Proof.
  induction 1 as [|r1 r2 r3 H _ [IH1 IH2]]; [done|].
  apply api_step_frame in H as [<- <-]. by rewrite IH1, IH2.
Qed.

Lemma objectIdentity_ok object g t i : objectIdentity object g = Ok (t, i) -> key_ok t /\ key_ok i.
Proof.
  unfold objectIdentity. destruct object as [o|]; [|done].
  destruct (empty_key (normalizeObjectKey (ObjectType o g))) eqn:Et; [done|].
  destruct (empty_key (normalizeObjectKey (ObjectID o g))) eqn:Ei; [done|].
  intros [= <- <-]. split; by apply key_ok_normalize.
Qed.

(** ** The operations of the process *)
Section Operation.
Context `{laws : !GameLaws}.

Lemma initializeObject_steps o t i w : api_steps w.1 (initializeObject o t i w).1.
Proof.
  unfold initializeObject. destruct (OnInit o) as [hook|] eqn:E; [by apply (law_init o) | done].
Qed.

Lemma RegisterObject_steps object w : api_steps w.1 (RegisterObject object w).1.1.
Proof.
  unfold RegisterObject. destruct (objectIdentity object w.2) as [[t i]|e] eqn:E; [|done].
  destruct object as [o|]; [|done]. apply objectIdentity_ok in E as [Ht Hi].
  eapply rtc_l; [exact (api_register w.1 t i o Ht Hi)|]. cbn [fst].
  exact (initializeObject_steps o t i (on_runtime (on_runtime w _) _)).
Qed.

Lemma RegisterAuthenticationObject_steps object w :
  api_steps w.1 (RegisterAuthenticationObject object w).1.1.
Proof.
  unfold RegisterAuthenticationObject. destruct object as [o|]; [|done].
  destruct (OnAuthenticationAttempt o) as [hook|] eqn:Ea; [|done].
  destruct (objectIdentity (Some o) w.2) as [[t i]|e] eqn:E; [|done].
  destruct (authenticationHandler w.1) eqn:Eh; [done|]. apply objectIdentity_ok in E as [Ht Hi].
  eapply rtc_l; [exact (api_authentication w.1 t i o Ht Hi Eh (ltac:(by eexists)))|]. cbn [fst].
  exact (initializeObject_steps o t i (on_runtime (on_runtime (on_runtime w _) _) _)).
Qed.

Lemma no_writer_ok : writer_ok None.
Proof. intros m w. reflexivity. Qed.

Lemma CreateObject_steps t i now w : api_steps w.1 (CreateObject t i now w).1.1.
Proof.
  unfold CreateObject. destruct (empty_key _); [done|]. destruct (empty_key _); [done|].
  destruct (bool_decide _); [done|]. destruct (factories w.1 !! _) as [factory|]; [|done].
  match goal with |- context [FactoryCreate factory ?ctx w] =>
    pose proof (law_factory factory ctx w no_writer_ok) as Hf;
    destruct (FactoryCreate factory ctx w) as [w1 created] end.
  cbn [fst] in Hf. destruct created as [object|e]; [|done].
  destruct (objectIdentity object w1.2) as [[ct ci]|e]; [|done].
  destruct (_ || _); [done|]. pose proof (RegisterObject_steps object w1) as Hr.
  destruct (RegisterObject object w1) as [w2 registered]. cbn [fst] in Hr.
  destruct registered; cbn [fst]; by etrans.
Qed.

Lemma foldl_steps (f : World -> Obj -> World) l :
  (forall w o, api_steps w.1 (f w o).1) -> forall w, api_steps w.1 (foldl f w l).1.
Proof.
  intros Hf. induction l as [|o l IH]; intros w; [done|]. cbn [foldl]. etrans; [apply Hf | apply IH].
Qed.

(** A tick: the counter, then hooks, then the metrics. *)
Lemma Advance_steps duration w :
  let (w', t) := Advance duration w in
  t = u64_inc (tick w.1) /\
  exists r, api_steps (set_tick w.1 (u64_inc (tick w.1))) r /\ w'.1 = recordTickDuration r duration.
Proof.
  unfold Advance. cbn [fst on_runtime]. split; [done|].
  match goal with |- context [foldl (tick_one ?ctx) ?w0 ?l] =>
    assert (api_steps w0.1 (foldl (tick_one ctx) w0 l).1) as H1 end.
  { apply foldl_steps. intros w0 o. unfold tick_one.
    destruct (OnTick o) as [hook|] eqn:E; [by apply (law_tick o) | done]. }
  destruct (_ =? 0); [|by eexists].
  match goal with |- context [foldl (full_tick_one ?ctx) ?w0 ?l] =>
    assert (api_steps w0.1 (foldl (full_tick_one ctx) w0 l).1) as H2 end.
  { apply foldl_steps. intros w0 o. unfold full_tick_one.
    destruct (OnFullTick o) as [hook|] eqn:E; [by apply (law_full_tick o) | done]. }
  eexists. split; [etrans; [exact H1 | exact H2] | done].
Qed.

Lemma switch_to_steps r t i c scene : api_steps r (switch_to r t i c scene).
Proof.
  unfold switch_to. eapply rtc_l; [exact (api_scene r (OpSetObject t i scene))|].
  destruct (bool_decide _); [reflexivity|]. apply rtc_once. exact (api_scene _ (OpSetClient c scene)).
Qed.

Lemma requestSceneSwitch_steps ctx now w :
  writer_ok (sc_Response ctx) -> api_steps w.1 (requestSceneSwitch ctx now w).1.1.
Proof.
  intros Hw. unfold requestSceneSwitch. destruct (empty_key _); [done|].
  destruct (switch_key ctx w.2) as [[t i]|e]; [|done].
  destruct (match sc_Object ctx with Some o => Some o | None => _ end) as [object|]; [|done].
  destruct (OnSceneSwitchRequest object) as [hook|] eqn:Eh; [|done].
  match goal with |- context [hook ?c w] => pose proof (law_scene object hook c w Eh Hw) as Hs;
    destruct (hook c w) as [w1 [decision e]] end.
  cbn [fst] in Hs. destruct e as [[]|e]; [|done].
  destruct (negb (Allowed decision)); [done|]. cbn [fst on_runtime]. etrans; [exact Hs | apply switch_to_steps].
Qed.

Context (decodePayload : GoAny -> result SceneID) (Unmarshal : bytes -> result SceneID).

Lemma handleSceneSwitchRequest_steps ctx now w :
  writer_ok (rc_Response ctx) ->
  api_steps w.1 (handleSceneSwitchRequest decodePayload Unmarshal ctx now w).1.1.
Proof.
  intros Hw. unfold handleSceneSwitchRequest. destruct (decodeSceneSwitch _ _ _) as [scene|e]; [|done].
  match goal with |- context [requestSceneSwitch ?c now w] =>
    pose proof (requestSceneSwitch_steps c now w Hw) as Hs;
    destruct (requestSceneSwitch c now w) as [w1 [decision e]] end.
  cbn [fst] in Hs. destruct e as [[]|e]; [|done].
  destruct (rc_Response ctx) as [respond|]; [|done]. etrans; [exact Hs | apply Hw].
Qed.

Lemma HandleRequest_steps ctx now w :
  writer_ok (rc_Response ctx) -> api_steps w.1 (HandleRequest decodePayload Unmarshal ctx now w).1.1.
Proof.
  intros Hw. unfold HandleRequest. destruct (empty_key _); [done|]. destruct (empty_key _); [done|].
  destruct (GetObject w.1 _ _) as [object|]; [|done].
  destruct (isSceneSwitchAction _); [by apply handleSceneSwitchRequest_steps|].
  destruct (OnRequest object) as [hook|] eqn:E; [by apply (law_request object) | done].
Qed.

Lemma HandleAuthenticationAttempt_steps ctx now w :
  api_steps w.1 (HandleAuthenticationAttempt ctx now w).1.1.
Proof.
  unfold HandleAuthenticationAttempt. destruct (authenticationHandler w.1) as [o|]; [|done].
  destruct (OnAuthenticationAttempt o) as [hook|] eqn:E; [|done].
  match goal with |- context [hook ?c w] => pose proof (law_authentication o hook c w E) as Hs;
    destruct (hook c w) as [w1 attempt] end.
  cbn [fst] in Hs. destruct attempt; [|done]. by destruct (empty_key _).
Qed.

(** Everything that happens to a runtime: calls from outside a hook, in any
    order, and changes of the rest of the process. *)
Inductive operation : World -> World -> Prop :=
| op_api w r : api_step w.1 r -> operation w (r, w.2)
| op_register object w : operation w (RegisterObject object w).1
| op_register_authentication object w : operation w (RegisterAuthenticationObject object w).1
| op_create t i now w : operation w (CreateObject t i now w).1
| op_advance duration w : operation w (Advance duration w).1
| op_request ctx now w :
    writer_ok (rc_Response ctx) -> operation w (HandleRequest decodePayload Unmarshal ctx now w).1
| op_authenticate ctx now w : operation w (HandleAuthenticationAttempt ctx now w).1
| op_switch ctx now w : writer_ok (sc_Response ctx) -> operation w (RequestSceneSwitch ctx now w).1
| op_process r g g' : operation (r, g) (r, g').

Lemma record_ok r duration : runtime_ok r -> runtime_ok (recordTickDuration r duration).
Proof.
  intros [H1 H2 H3 H4 H5 H6 H7 H8]. unfold recordTickDuration.
  destruct (duration <? 0); [by split|]. by split.
Qed.

Lemma record_frame r duration :
  config (recordTickDuration r duration) = config r /\ tick (recordTickDuration r duration) = tick r.
Proof. unfold recordTickDuration. by destruct (duration <? 0). Qed.

Lemma operation_spec w w' :
  operation w w' ->
  (runtime_ok w.1 -> runtime_ok w'.1) /\ config w'.1 = config w.1 /\
  (tick w'.1 = tick w.1 \/ tick w'.1 = u64_inc (tick w.1)).
Proof.
  assert (forall r r', api_steps r r' ->
    (runtime_ok r -> runtime_ok r') /\ config r' = config r /\ (tick r' = tick r \/ tick r' = u64_inc (tick r))) as Hs.
  { intros r r' H. pose proof (api_steps_frame _ _ H) as [? ?]. split; [by apply api_steps_ok|]. by split; [|left]. }
  intros Hop. destruct Hop as [w r H|o w|o w|t i now w|d w|ctx now w H|ctx now w|ctx now w H|r g g'].
  - apply Hs. by apply rtc_once.
  - apply Hs, RegisterObject_steps.
  - apply Hs, RegisterAuthenticationObject_steps.
  - apply Hs, CreateObject_steps.
  - pose proof (Advance_steps d w) as Ha. destruct (Advance d w) as [w' t]. destruct Ha as (_ & r & Hr & Hw).
    cbn [fst]. rewrite Hw. destruct (Hs _ _ Hr) as (H1 & H2 & _). destruct (record_frame r d) as [-> ->].
    pose proof (api_steps_frame _ _ Hr) as [_ ->]. split; [|by split; [|right]].
    intros Hok. apply record_ok, H1. destruct Hok. split; try done. by apply wrap_range.
  - by apply Hs, HandleRequest_steps.
  - apply Hs, HandleAuthenticationAttempt_steps.
  - apply Hs. by apply requestSceneSwitch_steps.
  - apply Hs. reflexivity.
Qed.

Lemma NewRuntime_ok c : runtime_ok (NewRuntime c).
Proof.
  split; cbn [NewRuntime config tick objects factories inputs features authenticationHandler].
  - by eexists.
  - done.
  - intros t tbl. by rewrite lookup_empty.
  - intros t. rewrite lookup_empty. by intros [? ?].
  - apply newInputBuffer_ok.
  - done.
  - apply new_interest_ok.
  - apply no_scenes_ok.
Qed.

(** ** Properties *)

(** C24: the runtime's invariant, for every game.  Whatever objects and factories a
    game brings, as long as they reach the runtime through its methods, and
    however calls, ticks, requests and the hooks they run (which register and
    remove objects themselves) follow each other: registered identities are
    trimmed and not empty and no type is left without objects, the authentication
    handler is an object that can authenticate and something is registered under
    its identity, the input buffer, the interest tables and the scene tables keep
    their own invariants, and the configuration is the normalized one. *)
Theorem runtime_invariant c g w :
  rtc operation (NewRuntime c, g) w -> runtime_ok w.1 /\ config w.1 = Normalized c.
Proof.
  intros H. assert (forall w0, rtc operation w0 w -> runtime_ok w0.1 -> runtime_ok w.1 /\ config w.1 = config w0.1) as Hr.
  { clear H. induction 1 as [|w1 w2 w3 H _ IH]; [done|]. intros Hok.
    destruct (operation_spec _ _ H) as (H1 & H2 & _). destruct (IH (H1 Hok)) as [H3 H4]. split; [done|]. by rewrite H4. }
  destruct (Hr _ H (NewRuntime_ok c)) as [H1 H2]. done.
Qed.
End Operation.

(** ** The object table *)
Inductive table_op :=
| OpRegister (object : Obj)
| OpRemove (objectType objectID : string).

Definition table_step (w : World) (op : table_op) : World :=
  match op with
  | OpRegister object => (RegisterObject (Some object) w).1
  | OpRemove t i => on_runtime w (fun r => RemoveObject r t i)
  end.

(** The specification: a map from identities to objects. *)
Definition abs_table_step (g : Game) (m : gmap (string * string) Obj) (op : table_op)
    : gmap (string * string) Obj :=
  match op with
  | OpRegister object =>
      match objectIdentity (Some object) g with Ok k => <[k := object]> m | Err _ => m end
  | OpRemove t i => delete (normalizeObjectKey t, normalizeObjectKey i) m
  end.

Definition plain_table_op (op : table_op) : Prop :=
  match op with
  | OpRegister object => OnInit (Factory := Factory) (Payload := Payload) (Game := Game) object = None
  | OpRemove _ _ => True
  end.

Definition at_key (r : Runtime) (k : string * string) : option Obj :=
  objectsByID ← objects r !! k.1; objectsByID !! k.2.

Definition table_refines (r : Runtime) (m : gmap (string * string) Obj) : Prop :=
  forall k, at_key r k = m !! k.

Lemma at_key_store r t i o k :
  at_key (store r t i o) k = if decide ((t, i) = k) then Some o else at_key r k.
Proof.
  destruct k as [t' i']. unfold at_key. cbn [fst snd]. rewrite lookup_store.
  destruct (decide (t = t')) as [<-|Hne]; [|by rewrite decide_False by congruence].
  cbn [mbind option_bind]. destruct (decide (i = i')) as [<-|Hni].
  - by rewrite decide_True, lookup_insert_eq.
  - rewrite decide_False by congruence. rewrite lookup_insert_ne by done.
    destruct (objects r !! t); [done|]. cbn. by rewrite lookup_empty.
Qed.

Lemma at_key_unstore r t i k :
  at_key (unstore r t i) k = if decide ((t, i) = k) then None else at_key r k.
Proof.
  destruct k as [t' i']. unfold at_key. cbn [fst snd]. rewrite lookup_unstore.
  destruct (decide (t = t')) as [<-|Hne]; [|by rewrite decide_False by congruence].
  destruct (objects r !! t) as [tbl|]; cbn [mbind option_bind]; [|by case_decide].
  destruct (bool_decide_reflect (size (delete i tbl) = 0%nat)) as [Hz|Hz]; cbn [mbind option_bind].
  - apply map_size_empty_inv in Hz. case_decide as Hc; [done|].
    rewrite <- (lookup_delete_ne tbl i) by congruence. by rewrite Hz, lookup_empty.
  - case_decide as Hc; [injection Hc as ->; by rewrite lookup_delete_eq|].
    by rewrite lookup_delete_ne by congruence.
Qed.

Lemma table_step_refines w op m :
  plain_table_op op -> table_refines w.1 m ->
  table_refines (table_step w op).1 (abs_table_step w.2 m op) /\ (table_step w op).2 = w.2.
Proof.
  intros Hp Hr. destruct op as [object|t i]; cbn [table_step abs_table_step plain_table_op] in *.
  - unfold RegisterObject. destruct (objectIdentity (Some object) w.2) as [[t i]|e]; [|done].
    unfold initializeObject. rewrite Hp. split; [|done]. intros k.
    cbn [fst on_runtime]. change (at_key (disable_features ?r t i) k) with (at_key r k).
    rewrite at_key_store. case_decide as Hk; [subst k; by rewrite lookup_insert_eq|].
    rewrite lookup_insert_ne by done. apply Hr.
  - split; [|done]. intros k. cbn [fst on_runtime]. rewrite RemoveObject_eq. cbv zeta.
    generalize (normalizeObjectKey t) (normalizeObjectKey i). clear t i Hp. intros t i.
    destruct (decide (is_Some (objects w.1 !! t))) as [Hs|Hs].
    + transitivity (at_key (unstore w.1 t i) k); [by destruct (_ && _)|]. rewrite at_key_unstore.
      case_decide as Hk; [subst k; by rewrite lookup_delete_eq|]. rewrite lookup_delete_ne by done. apply Hr.
    + destruct (decide ((t, i) = k)) as [<-|Hk]; [|by rewrite lookup_delete_ne by done].
      rewrite lookup_delete_eq. unfold at_key. cbn [fst].
      destruct (objects w.1 !! t); [|done]. destruct Hs. done.
Qed.

Lemma NoDup_nested {A} (l : list (string * gmap string A)) :
  NoDup l.*1 -> NoDup (concat (map (fun e => map (fun x => ((e.1, x.1), x.2)) (map_to_list e.2)) l)).
Proof.
  induction l as [|[t tbl] l IH]; intros Hnd; [constructor|]. cbn [map concat fmap list_fmap fst snd] in *.
  apply NoDup_cons in Hnd as [Hn Hnd]. apply NoDup_app. split_and!.
  - assert (Inj eq eq (fun x : string * A => ((t, x.1), x.2))) as Hinj.
    { intros [a b] [a' b']. cbn. by intros [= -> ->]. }
    apply (NoDup_fmap_2 (fun x => ((t, x.1), x.2))), NoDup_map_to_list.
  - intros [[t' i] o] Hx Hy. apply Hn. apply list_elem_of_In, in_map_iff in Hx as (x & [= <- _ _] & _).
    apply list_elem_of_In, in_concat in Hy as (y & (e & <- & He)%in_map_iff & (z & [= Hz _ _] & _)%in_map_iff).
    rewrite <- Hz. apply list_elem_of_fmap. exists e. split; [done|]. by apply list_elem_of_In.
  - by apply IH.
Qed.

(** The walk over all objects meets each registered object once. *)
Lemma objectList_perm r m : table_refines r m -> objectList r ≡ₚ (map_to_list m).*2.
Proof.
  intros Hr. set (entries := concat (map (fun e => map (fun x => ((e.1, x.1), x.2)) (map_to_list e.2))
    (map_to_list (objects r)))).
  assert (objectList r = entries.*2) as ->.
  { unfold objectList, entries. induction (map_to_list (objects r)) as [|e l IH]; [done|].
    cbn [map concat]. rewrite fmap_app, IH. f_equal. symmetry.
    change ((map (fun x => ((e.1, x.1), x.2)) (map_to_list e.2)).*2) with
      (map snd (map (fun x => ((e.1, x.1), x.2)) (map_to_list e.2))). by rewrite map_map. }
  apply fmap_Permutation. apply NoDup_Permutation; [| apply NoDup_map_to_list|].
  { apply NoDup_nested, NoDup_fst_map_to_list. }
  intros [[t i] o]. rewrite elem_of_map_to_list, <- (Hr (t, i)). unfold entries, at_key. cbn [fst snd].
  rewrite list_elem_of_In, in_concat. split.
  - intros (l & (e & <- & He)%in_map_iff & (x & [= <- <- <-] & Hx)%in_map_iff).
    apply list_elem_of_In in He, Hx. destruct e as [t' tbl], x as [i' o']. cbn [fst snd] in *.
    apply elem_of_map_to_list in He, Hx. by rewrite He.
  - intros Hx. apply bind_Some in Hx as (tbl & Ht & Hi).
    exists (map (fun x => ((t, x.1), x.2)) (map_to_list tbl)). rewrite !in_map_iff. split.
    + exists (t, tbl). split; [done|]. by apply list_elem_of_In, elem_of_map_to_list.
    + exists (i, o). split; [done|]. by apply list_elem_of_In, elem_of_map_to_list.
Qed.

(** C25: the object table is a map.  After any registrations (of objects that do
    nothing in [OnInit]) and removals, [GetObject] finds under every spelling of
    an identity the object registered last and not removed since, and a tick
    walks every such object exactly once. *)
Theorem object_table_refines c g ops :
  Forall plain_table_op ops ->
  let w := foldl table_step (NewRuntime c, g) ops in
  let m := foldl (abs_table_step g) ∅ ops in
  (forall t i, GetObject w.1 t i = m !! (normalizeObjectKey t, normalizeObjectKey i)) /\
  objectList w.1 ≡ₚ (map_to_list m).*2.
Proof.
  intros Hp. cbv zeta.
  assert (forall w m, w.2 = g -> table_refines w.1 m -> table_refines (foldl table_step w ops).1
    (foldl (abs_table_step g) m ops)) as H.
  { induction Hp as [|op ops H1 _ IH]; intros w m Hg Hr; [done|]. cbn [foldl].
    destruct (table_step_refines w op m H1 Hr) as [Hr' Hg']. rewrite Hg in Hr'. apply IH; [congruence | done]. }
  specialize (H (NewRuntime c, g) ∅ eq_refl).
  assert (table_refines (NewRuntime c) ∅) as H0.
  { intros k. unfold at_key. cbn [objects NewRuntime]. by rewrite !lookup_empty. }
  specialize (H H0). split; [|by apply objectList_perm].
  intros t i. rewrite <- H. done.
Qed.

(** ** Scene switching *)
Lemma switch_key_ok ctx g t i : switch_key ctx g = Ok (t, i) -> key_ok t /\ key_ok i.
Proof.
  unfold switch_key. intros H. apply rbind_ok_inv in H as ([t0 i0] & H0 & H).
  assert (key_normal t0 /\ key_normal i0) as [Ht0 Hi0].
  { destruct (sc_Object ctx) as [o|].
    - apply objectIdentity_ok in H0 as [[? _] [? _]]. done.
    - injection H0 as <- <-. split; apply normalize_key_normal. }
  set (t1 := if empty_key t0 then _ else t0) in H. set (i1 := if empty_key i0 then _ else i0) in H.
  assert (key_normal t1) by (unfold t1; destruct (empty_key t0); [apply normalize_key_normal | done]).
  assert (key_normal i1) by (unfold i1; destruct (empty_key i0); [apply normalize_key_normal | done]).
  destruct (empty_key t1) eqn:Et; [done|]. destruct (empty_key i1) eqn:Ei; [done|].
  injection H as <- <-. by split; split; [| apply empty_key_false | | apply empty_key_false].
Qed.

Lemma key_ok_nonempty s : key_ok s -> empty_key (normalizeObjectKey s) = false.
Proof. intros [-> H]. unfold empty_key. by apply bool_decide_eq_false. Qed.

Lemma switch_to_scenes r t i c scene :
  key_ok t -> key_ok i -> key_ok scene ->
  let m := scenes (features (switch_to r t i c scene)) in
  ObjectScene m t i = Some scene /\
  (empty_key (normalizeObjectKey c) = false ->
   ClientScene m c = Some scene /\ visible m c t i = true).
Proof.
  intros Ht Hi Hs. pose proof (key_ok_nonempty _ Ht) as Et. pose proof (key_ok_nonempty _ Hi) as Ei.
  pose proof (key_ok_nonempty _ Hs) as Es.
  assert (exists clients objs, (SetObjectScene (scenes (features r)) t i scene).1 = Some (with_enabled clients objs) /\
    objs !! interestObjectKey t i = Some (scene : SceneID)) as (clients & objs & E & Ho).
  { unfold SetObjectScene, normalizeSceneID. rewrite Et, Ei, Es. cbn [orb fst]. eexists _, _. split; [done|].
    rewrite interestObjectKey_norm, lookup_insert_eq. f_equal. apply Hs. }
  cbv zeta. unfold switch_to, on_scenes.
  destruct (bool_decide_reflect (c = ""%string)) as [->|Hc].
  - cbn [scenes features set_features]. rewrite E. split.
    + unfold ObjectScene. rewrite Et, Ei. cbn [orb with_enabled scenes_objects]. by rewrite interestObjectKey_norm.
    + intros Hc. by vm_compute in Hc.
  - cbn [scenes features set_features]. rewrite E. unfold SetClientScene, normalizeSceneID. rewrite Es, orb_false_r.
    destruct (empty_key (normalizeObjectKey c)) eqn:Ec; cbn [fst].
    + split; [|done]. unfold ObjectScene. rewrite Et, Ei. cbn [orb with_enabled scenes_objects].
      by rewrite interestObjectKey_norm.
    + change (scenes_of (Some ?m)) with m. split.
      { unfold ObjectScene. rewrite Et, Ei. cbn [orb with_enabled scenes_objects]. by rewrite interestObjectKey_norm. }
      intros _. rewrite (proj1 Hs). split.
      * unfold ClientScene. rewrite Ec. cbn [with_enabled scenes_clients]. by rewrite lookup_insert_eq.
      * unfold visible, sceneState, with_enabled. cbn [scenes_enabled scenes_clients scenes_objects].
        rewrite bool_decide_false; cycle 1.
        { intros Hz%map_size_empty_inv. by apply insert_non_empty in Hz. }
        cbn [negb scenes_enabled clientScene objectVisibleToClient scenes_clients scenes_objects].
        unfold clientScene, objectVisibleToClient. cbn [negb scenes_enabled scenes_clients scenes_objects].
        rewrite lookup_insert_eq. generalize Ho. unfold SceneID. intros ->. case_decide; [done|].
        by apply bool_decide_true.
Qed.

(** C27: the outcome of a scene switch.  An error, and a refusal by the object's
    handler, move nobody: the world is as the handler left it.  When the handler
    allows it, the decision names a scene (the requested one unless the handler
    chose another), which is now the scene of the object and, when the request
    comes from a client, of that client, who can see the object there. *)
Theorem requestSceneSwitch_exact ctx now w :
  let '(w', (decision, e)) := requestSceneSwitch ctx now w in
  match e with
  | Err _ =>
      w' = w \/
      exists object hook ctx', OnSceneSwitchRequest object = Some hook /\ hook ctx' w = (w', (decision, e))
  | Ok _ =>
      exists object hook ctx' w1 d t i,
        OnSceneSwitchRequest object = Some hook /\ hook ctx' w = (w1, (d, Ok tt)) /\
        switch_key ctx w.2 = Ok (t, i) /\ Allowed decision = Allowed d /\ w'.2 = w1.2 /\
        if Allowed decision then
          key_ok (sd_Scene decision) /\
          sd_Scene decision =
            (if empty_key (normalizeSceneID (sd_Scene d)) then normalizeSceneID (sc_TargetScene ctx)
             else normalizeSceneID (sd_Scene d)) /\
          let m := scenes (features w'.1) in
          ObjectScene m t i = Some (sd_Scene decision) /\
          (empty_key (normalizeObjectKey (sc_ClientID ctx)) = false ->
           ClientScene m (sc_ClientID ctx) = Some (sd_Scene decision) /\
           visible m (sc_ClientID ctx) t i = true)
        else w' = w1
  end.
Proof.
  unfold requestSceneSwitch. destruct (empty_key (normalizeSceneID (sc_TargetScene ctx))) eqn:Et; [by left|].
  destruct (switch_key ctx w.2) as [[t i]|e] eqn:Ek; [|by left].
  destruct (match sc_Object ctx with Some o => Some o | None => _ end) as [object|]; [|by left].
  destruct (OnSceneSwitchRequest object) as [hook|] eqn:Eh; [|by left].
  set (ctx' := mkSceneSwitch _ _ _ _ _ _ _ _ _ _ _ _).
  destruct (hook ctx' w) as [w1 [d e]] eqn:Ew. destruct e as [[]|e].
  2: { right. by exists object, hook, ctx'. }
  destruct (Allowed d) eqn:Ea; cbn [negb]; cycle 1.
  { exists object, hook, ctx', w1, d, t, i. by rewrite Ea. }
  exists object, hook, ctx', w1, d, t, i. cbn [Allowed sd_Scene on_runtime fst snd]. rewrite Ea.
  split_and!; try done.
  all: set (scene := if empty_key (normalizeSceneID (sd_Scene d)) then _ else _).
  all: assert (key_ok scene) as Hs by
    (unfold scene; destruct (empty_key (normalizeSceneID (sd_Scene d))) eqn:E; by apply key_ok_normalize).
  - done.
  - destruct (switch_key_ok _ _ _ _ Ek). by apply (switch_to_scenes w1.1 t i (sc_ClientID ctx) scene).
  - destruct (switch_key_ok _ _ _ _ Ek). by apply (switch_to_scenes w1.1 t i (sc_ClientID ctx) scene).
Qed.

(** Replacing the authentication object leaves its handler behind.  After
    [RegisterObject], which may replace any object, has replaced the object that
    authenticates, requests go to the new object but authentication attempts still
    run the old one's handler, and a new handler cannot be registered. *)
Theorem replaced_authentication_handler old new t i w :
  objectIdentity (Some old) w.2 = Ok (t, i) -> objectIdentity (Some new) w.2 = Ok (t, i) ->
  is_Some (OnAuthenticationAttempt (Game := Game) (Factory := Factory) (Payload := Payload) old) ->
  is_Some (OnAuthenticationAttempt (Game := Game) (Factory := Factory) (Payload := Payload) new) ->
  OnInit (Game := Game) (Factory := Factory) (Payload := Payload) old = None ->
  OnInit (Game := Game) (Factory := Factory) (Payload := Payload) new = None ->
  authenticationHandler w.1 = None ->
  let w1 := (RegisterAuthenticationObject (Some old) w).1 in
  let w2 := (RegisterObject (Some new) w1).1 in
  GetObject w2.1 t i = Some new /\ authenticationHandler w2.1 = Some old /\
  (RegisterAuthenticationObject (Some new) w2).2 = Err ErrAuthenticationHandlerExists.
Proof.
  intros Ho Hn [h Hh] [h' Hh'] Io In Ha. cbv zeta. destruct (objectIdentity_ok _ _ _ _ Ho) as [Ht Hi].
  assert (exists r, (RegisterAuthenticationObject (Some old) w).1 = (r, w.2) /\ authenticationHandler r = Some old)
    as (r & -> & Hr).
  { unfold RegisterAuthenticationObject. rewrite Hh, Ho, Ha. unfold initializeObject. rewrite Io.
    eexists. split; reflexivity. }
  assert ((RegisterObject (Some new) (r, w.2)).1 = (disable_features (store r t i new) t i, w.2)) as ->.
  { unfold RegisterObject. cbn [snd]. rewrite Hn. unfold initializeObject. by rewrite In. }
  cbn [fst snd on_runtime]. split_and!.
  - transitivity (GetObject (store r t i new) t i); [done|]. rewrite GetObject_store by done.
    apply decide_True. by destruct Ht as [-> _], Hi as [-> _].
  - exact Hr.
  - unfold RegisterAuthenticationObject. rewrite Hh'. cbn [snd]. rewrite Hn.
    cbn [fst]. change (authenticationHandler (disable_features (store r t i new) t i)) with (authenticationHandler r).
    by rewrite Hr.
Qed.
End Operations.

(** ** A small game *)
Module Toy.
Local Open Scope string_scope.

Inductive thing := Door (id : string) | Guard (name : string) | Spawner.

Abbreviation Runtime := (Runtime thing unit unit).
Abbreviation World := (World thing unit unit Z).

(** The spawner puts a door next to itself when it is registered. *)
Definition spawn (ctx : InitContext thing) (w : World) : World :=
  on_runtime w (fun r => disable_features (store r "door" "inner" (Door "inner")) "door" "inner").

Definition allow (ctx : SceneSwitchContext thing unit unit Z) (w : World)
    : World * (SceneSwitchDecision * result unit) :=
  (w, (SceneSwitchAllowedTo " cellar ", Ok tt)).

#[global] Instance toy : GameCode thing unit unit Z := {
  ObjectType o _ := match o with Door _ => "door" | Guard _ => "guard" | Spawner => "spawner" end;
  ObjectID o _ := match o with Door id => id | Guard _ => "1" | Spawner => "s" end;
  ObjectSnapshot o _ := VNil;
  OnInit o := match o with Spawner => Some spawn | _ => None end;
  OnTick o := match o with Door _ => Some (fun _ w => (w.1, w.2 + 1)) | _ => None end;
  OnFullTick _ := None;
  OnRequest _ := None;
  OnAuthenticationAttempt o := match o with Guard name => Some (fun _ w => (w, Ok name)) | _ => None end;
  OnSceneSwitchRequest o := match o with Door _ => Some allow | _ => None end;
  SnapshotVisible _ := None;
  SnapshotPriority _ := None;
  FactoryCreate _ ctx w := (w, Ok (Some (Door (rm_ObjectID (rc_Request ctx)))))
}.

#[global] Instance toy_laws : GameLaws (GameCode0 := toy).
Proof.
  split; [|by intros [] hook ctx w [= <-]..|].
  - intros [] hook ctx w [= <-]. apply rtc_once. apply (api_register w.1 "door" "inner"); by split.
  - intros f ctx w _. reflexivity.
Qed.

Definition start : World := (NewRuntime DefaultConfig, 0).
Definition no_decode (m : GoAny) : result SceneID := Err (ErrOther "not decoded").
Definition no_json (data : bytes) : result SceneID := Err (ErrOther "not json").
End Toy.

Lemma runtime_invariant_witness :
  let w := (Advance 5 (RegisterObject (Some Toy.Spawner) Toy.start).1).1 in
  runtime_ok w.1 /\ w.2 = 1 /\ GetObject w.1 " door" "inner" = Some (Toy.Door "inner").
Proof.
  split; [|vm_compute; done].
  refine (proj1 (runtime_invariant Toy.no_decode Toy.no_json DefaultConfig 0 _ _)).
  eapply rtc_l; [apply (op_register Toy.no_decode Toy.no_json (Some Toy.Spawner))|].
  apply rtc_once. apply op_advance.
Defined.

Lemma object_table_refines_witness :
  GetObject (foldl table_step Toy.start
    [OpRegister (Toy.Door " a "); OpRegister (Toy.Guard "g"); OpRemove "guard" "1 "]).1 "door" "a" =
    Some (Toy.Door " a ").
Proof.
  etransitivity.
  - apply (object_table_refines DefaultConfig 0
      [OpRegister (Toy.Door " a "); OpRegister (Toy.Guard "g"); OpRemove "guard" "1 "]).
    repeat constructor.
  - vm_compute. reflexivity.
Defined.

Lemma replaced_authentication_handler_witness :
  let w1 := (RegisterAuthenticationObject (Some (Toy.Guard "old")) Toy.start).1 in
  let w2 := (RegisterObject (Some (Toy.Guard "new")) w1).1 in
  GetObject w2.1 "guard" "1" = Some (Toy.Guard "new") /\ authenticationHandler w2.1 = Some (Toy.Guard "old").
Proof.
  destruct (replaced_authentication_handler (Toy.Guard "old") (Toy.Guard "new") "guard" "1" Toy.start)
    as (H1 & H2 & _); [reflexivity | reflexivity | by eexists | by eexists | done | done | done |].
  split; [exact H1 | exact H2].
Defined.
