(* ===== verification/View.v ===== *)
(** * What clients see: the runtime's snapshots

    [network/runtime.go]: [Snapshot], [SnapshotForClient] and
    [SnapshotPriorities].  The snapshot of an object, its visibility and its
    identity are reads of the game state.  [EqualFold], [ParseFloat] and
    [overflow] are as in [Interest]. *)
From S2P Require Import Prelude Keys Values Snapshot Config Scenes Float64 Interest Runtime.

(** [snapshotPriorityKey] of [network/udp.go]. *)
Definition nul : string := String Ascii.zero "".
Definition snapshotPriorityKey (objectType objectID : string) : string :=
  (objectType ++ nul ++ objectID)%string.

Section View.
Context {Obj Factory Payload Game : Type} `{!GameCode Obj Factory Payload Game}.
Context (EqualFold : string -> string -> bool) (ParseFloat : string -> option f64) (overflow : f64 -> Z).
Abbreviation Runtime := (Runtime Obj Factory Payload).

(** [visibility, ok := object.(SnapshotVisibility); ok && !visibility.SnapshotVisible()]. *)
Definition hidden (g : Game) (object : Obj) : bool :=
  match SnapshotVisible object with Some visible => negb (visible g) | None => false end.

Definition add_visible (g : Game) (shown : string -> string -> bool) (snapshot : SnapshotData) (object : Obj)
    : SnapshotData :=
  if hidden g object then snapshot
  else
    match objectIdentity (Some object) g with
    | Err _ => snapshot
    | Ok (objectType, objectID) =>
        if negb (shown objectType objectID) then snapshot
        else addSnapshotObject snapshot objectType objectID (ObjectSnapshot object g)
    end.

Definition snapshotFromObjects (g : Game) (objects : list Obj) : SnapshotData :=
  foldl (add_visible g (fun _ _ => true)) ∅ objects.

Definition snapshotFromObjectsForClient (g : Game) (objects : list Obj) (scenes : SceneManager)
    (clientScene : option SceneID) : SnapshotData :=
  foldl (add_visible g (objectVisibleToClient scenes clientScene)) ∅ objects.

Definition RuntimeSnapshot (r : Runtime) (g : Game) : SnapshotData := snapshotFromObjects g (objectList r).

(** One turn of the loop of [interestSnapshotObjects], the index of the player aside. *)
Definition interest_object (g : Game) (state : InterestManager) (playerConfig : InterestManagementConfig)
    (scenes : SceneManager) (clientScene : option SceneID) (object : Obj) : option interestSnapshotObject :=
  match objectIdentity (Some object) g with
  | Err _ => None
  | Ok (objectType, objectID) =>
      let snapshot := ObjectSnapshot object g in
      let visible := negb (hidden g object) && objectVisibleToClient scenes clientScene objectType objectID in
      let config := objectConfig state objectType objectID in
      let position := c ← config; extractPosition EqualFold ParseFloat snapshot c in
      let isPlayer := bool_decide (objectType = ic_ObjectType playerConfig) &&
                      bool_decide (objectID = ic_ObjectID playerConfig) in
      let position :=
        match position with
        | Some p => Some p
        | None => if isPlayer then extractPosition EqualFold ParseFloat snapshot playerConfig else None
        end in
      Some (mkInterestObject objectType objectID (interestObjectKey objectType objectID) snapshot visible
        (match config with Some _ => true | None => false end)
        (default (mkInterest "" "" "" "" "" "" f_zero false) config)
        (default (mkPosition f_zero f_zero f_zero false) position)
        (match position with Some _ => true | None => false end))
  end.

(** [interestSnapshotObjects]: the objects with their interest data, and the
    player among them, the last one if there are several; [None] for [false]. *)
Definition interestSnapshotObjects (g : Game) (objects : list Obj) (state : InterestManager)
    (playerConfig : InterestManagementConfig) (scenes : SceneManager) (clientScene : option SceneID)
    : option (list interestSnapshotObject * interestSnapshotObject) :=
  let interestObjects := omap (interest_object g state playerConfig scenes clientScene) objects in
  match last (List.filter (is_player playerConfig) interestObjects) with
  | Some player => if io_hasPosition player then Some (interestObjects, player) else None
  | None => None
  end.

Definition add_interesting (visible : gset string) (snapshot : SnapshotData) (object : interestSnapshotObject)
    : SnapshotData :=
  if negb (io_visible object) then snapshot
  else if io_managed object && negb (bool_decide (io_key object ∈ visible)) then snapshot
  else addSnapshotObject snapshot (io_objectType object) (io_objectID object) (io_snapshot object).

Definition SnapshotForClient (r : Runtime) (g : Game) (clientID : string) : SnapshotData :=
  let clientID := normalizeObjectKey clientID in
  let objects := objectList r in
  let scenes := sceneState (scenes (features r)) in
  let scene := clientScene scenes clientID in
  let interest := interestState (interest (features r)) in
  let unfiltered := snapshotFromObjectsForClient g objects scenes scene in
  if negb (interest_enabled interest) || empty_key clientID then unfiltered
  else
    match playerForClient interest clientID with
    | None => unfiltered
    | Some playerConfig =>
        match interestSnapshotObjects g objects interest playerConfig scenes scene with
        | None => unfiltered
        | Some (interestObjects, player) =>
            let visible := visibleInterestObjectKeys overflow interestObjects playerConfig (io_position player) in
            foldl (add_interesting visible) ∅ interestObjects
        end
    end.

Definition add_priority (r : Runtime) (g : Game) (priorities : gmap string OutboundPriority)
    (entry : object_entry) : gmap string OutboundPriority :=
  let '(objectType, objectID, _) := entry in
  match (objectsByID ← objects r !! objectType; objectsByID !! objectID) with
  | Some object =>
      match SnapshotPriority (Game := Game) (Factory := Factory) (Payload := Payload) object with
      | Some priority => <[snapshotPriorityKey objectType objectID := priority g]> priorities
      | None => priorities
      end
  | None => priorities
  end.

Definition SnapshotPriorities (r : Runtime) (g : Game) (snapshot : SnapshotData)
    : gmap string OutboundPriority :=
  foldl (add_priority r g) ∅ (snapshot_entries snapshot).

(** ** What the loops collect *)
Definition collect {X} (f : X -> option object_entry) (snapshot : SnapshotData) (l : list X) : SnapshotData :=
  foldl (fun s x => match f x with Some (t, i, v) => addSnapshotObject s t i v | None => s end) snapshot l.

Lemma collect_lookup {X} (f : X -> option object_entry) t i l : forall snapshot,
  (exists x v, lookup_object (collect f snapshot l) t i = Some v /\ x ∈ l /\ f x = Some (t, i, v)) \/
  (lookup_object (collect f snapshot l) t i = lookup_object snapshot t i /\
   forall x v, x ∈ l -> f x <> Some (t, i, v)).
Proof.
  induction l as [|x l IH]; intros snapshot.
  { right. split; [done|]. intros x v Hx. by apply elem_of_nil in Hx. }
  unfold collect. cbn [foldl]. set (s := match f x with Some _ => _ | None => _ end).
  fold (collect f s l). destruct (IH s) as [(y & v & H & Hy & Hf)|[H Hn]].
  { left. exists y, v. split_and!; [done | by right | done]. }
  rewrite H. subst s. destruct (f x) as [[[t' i'] v]|] eqn:Ef; cycle 1.
  { right. split; [done|]. intros y w [->|Hy]%elem_of_cons; [congruence | by apply Hn]. }
  rewrite lookup_addSnapshotObject. destruct (decide (t = t' /\ i = i')) as [[<- <-]|Hne].
  - left. exists x, v. split_and!; [done | left | done].
  - right. split; [done|]. intros y w [->|Hy]%elem_of_cons; [|by apply Hn]. rewrite Ef.
    intros [= -> -> _]. by destruct Hne.
Qed.

Lemma collect_spec {X} (f : X -> option object_entry) l t i v :
  (forall x y v w, x ∈ l -> y ∈ l -> f x = Some (t, i, v) -> f y = Some (t, i, w) -> v = w) ->
  lookup_object (collect f ∅ l) t i = Some v <-> exists x, x ∈ l /\ f x = Some (t, i, v).
Proof.
  intros Hu. destruct (collect_lookup f t i l ∅) as [(x & w & H & Hx & Hf)|[H Hn]]; rewrite H.
  - split; [intros [= ->]; by exists x|]. intros (y & Hy & Hfy). f_equal. by apply (Hu x y).
  - rewrite lookup_object_empty. split; [done|]. intros (x & Hx & Hf). by destruct (Hn x v Hx).
Qed.

Definition visible_entry (g : Game) (shown : string -> string -> bool) (object : Obj) : option object_entry :=
  if hidden g object then None
  else
    match objectIdentity (Some object) g with
    | Ok (t, i) => if shown t i then Some (t, i, ObjectSnapshot object g) else None
    | Err _ => None
    end.

Lemma add_visible_collect g shown objects snapshot :
  foldl (add_visible g shown) snapshot objects = collect (visible_entry g shown) snapshot objects.
Proof.
  unfold collect. apply foldl_ext_eq. intros s o. unfold add_visible, visible_entry.
  destruct (hidden g o); [done|]. destruct (objectIdentity (Some o) g) as [[t i]|]; [|done]. by destruct (shown t i).
Qed.

Definition interesting_entry (visible : gset string) (object : interestSnapshotObject) : option object_entry :=
  if io_visible object && (negb (io_managed object) || bool_decide (io_key object ∈ visible))
  then Some (io_objectType object, io_objectID object, io_snapshot object) else None.

Lemma add_interesting_collect visible objects snapshot :
  foldl (add_interesting visible) snapshot objects = collect (interesting_entry visible) snapshot objects.
Proof.
  unfold collect. apply foldl_ext_eq. intros s o. unfold add_interesting, interesting_entry.
  by destruct (io_visible o), (io_managed o), (bool_decide _).
Qed.

(** ** The view of a client *)

(** Every object still has the identity that it was registered under. *)
Definition identities_ok (r : Runtime) (g : Game) : Prop :=
  forall k o, at_key r k = Some o -> objectIdentity (Some o) g = Ok k.

Lemma elem_of_objectList (r : Runtime) (o : Obj) : o ∈ objectList r <-> exists k, at_key r k = Some o.
Proof.
  unfold objectList, at_key. rewrite elem_of_concat_map. split.
  - intros ([t tbl] & Ht & Ho). apply elem_of_map_to_list in Ht.
    apply list_elem_of_fmap in Ho as ([i o'] & -> & Ho). apply elem_of_map_to_list in Ho.
    exists (t, i). cbn [fst snd]. by rewrite Ht.
  - intros ([t i] & H). cbn [fst snd] in H. apply bind_Some in H as (tbl & Ht & Hi).
    exists (t, tbl). split; [by apply elem_of_map_to_list|]. apply list_elem_of_fmap.
    exists (i, o). split; [done | by apply elem_of_map_to_list].
Qed.

(** The interest filter that applies to a client: the configuration of its
    player, the objects with their interest data, and the player among them. *)
Definition interest_view (r : Runtime) (g : Game) (clientID : string)
    : option (InterestManagementConfig * list interestSnapshotObject * interestSnapshotObject) :=
  let clientID := normalizeObjectKey clientID in
  let interest := interestState (interest (features r)) in
  if negb (interest_enabled interest) || empty_key clientID then None
  else
    match playerForClient interest clientID with
    | None => None
    | Some playerConfig =>
        match interestSnapshotObjects g (objectList r) interest playerConfig (sceneState (scenes (features r)))
                (clientScene (sceneState (scenes (features r))) clientID) with
        | None => None
        | Some (interestObjects, player) => Some (playerConfig, interestObjects, player)
        end
    end.

Definition scene_shows (r : Runtime) (clientID t i : string) : bool :=
  let scenes := sceneState (scenes (features r)) in
  objectVisibleToClient scenes (clientScene scenes (normalizeObjectKey clientID)) t i.

Lemma SnapshotForClient_eq (r : Runtime) (g : Game) clientID :
  SnapshotForClient r g clientID =
    match interest_view r g clientID with
    | None => collect (visible_entry g (scene_shows r clientID)) ∅ (objectList r)
    | Some (playerConfig, interestObjects, player) =>
        collect (interesting_entry
          (visibleInterestObjectKeys overflow interestObjects playerConfig (io_position player))) ∅ interestObjects
    end.
Proof.
  unfold SnapshotForClient, interest_view, snapshotFromObjectsForClient. rewrite add_visible_collect.
  fold (scene_shows r clientID).
  destruct (negb _ || _); [done|]. destruct (playerForClient _ _) as [pc|]; [|done].
  destruct (interestSnapshotObjects _ _ _ _ _ _) as [[ios player]|]; [|done]. by rewrite add_interesting_collect.
Qed.

(** What the interest filter asks of an object: nothing when it is not managed;
    otherwise to be the player's own (and included), to be exempt from the
    distance, or to be within the radius. *)
Definition near (r : Runtime) (g : Game) (clientID : string) (o : Obj) : Prop :=
  match interest_view r g clientID with
  | None => True
  | Some (playerConfig, interestObjects, player) =>
      exists io,
        io ∈ interestObjects /\ objectIdentity (Some o) g = Ok (io_objectType io, io_objectID io) /\
        (io_managed io = true ->
         shown_anyway playerConfig io = true \/
         filtered playerConfig io = true /\ in_radius playerConfig (io_position player) io = true)
  end.

Definition view_on_grid (r : Runtime) (g : Game) (clientID : string) : Prop :=
  match interest_view r g clientID with
  | None => True
  | Some (playerConfig, interestObjects, player) =>
      grid_scene playerConfig (io_position player) interestObjects
  end.

(** The interest data of an object in the view. *)
Lemma interest_view_elem (r : Runtime) (g : Game) clientID playerConfig interestObjects player :
  interest_view r g clientID = Some (playerConfig, interestObjects, player) ->
  forall io, io ∈ interestObjects <->
    exists o, o ∈ objectList r /\
      interest_object g (interestState (interest (features r))) playerConfig (sceneState (scenes (features r)))
        (clientScene (sceneState (scenes (features r))) (normalizeObjectKey clientID)) o = Some io.
Proof.
  unfold interest_view. intros H io. destruct (negb _ || _); [done|].
  destruct (playerForClient _ _) as [pc|]; [|done].
  unfold interestSnapshotObjects in H. destruct (last _) as [pl|]; [|done].
  destruct (io_hasPosition pl); [|done]. injection H as <- <- _. by rewrite list_elem_of_omap.
Qed.

Lemma interest_object_fields (g : Game) state playerConfig scenes scene o io :
  interest_object g state playerConfig scenes scene o = Some io ->
  objectIdentity (Some o) g = Ok (io_objectType io, io_objectID io) /\
  io_key io = interestObjectKey (io_objectType io) (io_objectID io) /\
  io_snapshot io = ObjectSnapshot o g /\
  io_visible io = negb (hidden g o) && objectVisibleToClient scenes scene (io_objectType io) (io_objectID io).
Proof.
  unfold interest_object. destruct (objectIdentity (Some o) g) as [[t i]|]; [|done]. by intros [= <-].
Qed.

Section ViewFacts.
Context (r : Runtime) (g : Game) (Hid : identities_ok r g).

Lemma registered_unique o t i : o ∈ objectList r -> objectIdentity (Some o) g = Ok (t, i) -> at_key r (t, i) = Some o.
Proof.
  intros Ho Hi. apply elem_of_objectList in Ho as (k & Hk). pose proof (Hid _ _ Hk) as E. congruence.
Qed.

Lemma unfiltered_lookup shown t i v :
  lookup_object (collect (visible_entry g shown) ∅ (objectList r)) t i = Some v <->
  exists o, at_key r (t, i) = Some o /\ hidden g o = false /\ shown t i = true /\ v = ObjectSnapshot o g.
Proof.
  assert (forall o w, o ∈ objectList r -> visible_entry g shown o = Some (t, i, w) ->
    at_key r (t, i) = Some o /\ hidden g o = false /\ shown t i = true /\ w = ObjectSnapshot o g) as Hv.
  { intros o w Ho. unfold visible_entry. destruct (hidden g o); [done|].
    destruct (objectIdentity (Some o) g) as [[t' i']|] eqn:E; [|done].
    destruct (shown t' i') eqn:Es; [|done]. intros [= -> -> <-]. by rewrite (registered_unique _ _ _ Ho E). }
  rewrite collect_spec.
  - split; [intros (o & Ho & H); exists o; by apply Hv|]. intros (o & Hk & Hh & Hs & ->). exists o. split.
    + apply elem_of_objectList. by eexists.
    + unfold visible_entry. rewrite Hh, (Hid _ _ Hk), Hs. done.
  - intros x y w w' Hx Hy Hfx Hfy. destruct (Hv x w Hx Hfx) as (Ex & _ & _ & ->), (Hv y w' Hy Hfy) as (Ey & _ & _ & ->).
    congruence.
Qed.
End ViewFacts.

(** The objects that the interest filter looks at are registered and tell whose they are. *)
Lemma interest_view_objects (r : Runtime) (g : Game) clientID pc ios player :
  identities_ok r g -> interest_view r g clientID = Some (pc, ios, player) ->
  forall io, io ∈ ios -> exists o, at_key r (io_objectType io, io_objectID io) = Some o /\
    objectIdentity (Some o) g = Ok (io_objectType io, io_objectID io) /\ io_snapshot io = ObjectSnapshot o g /\
    io_key io = interestObjectKey (io_objectType io) (io_objectID io) /\
    io_visible io = negb (hidden g o) && scene_shows r clientID (io_objectType io) (io_objectID io).
Proof.
  intros Hid Ev io (o & Ho & Hf)%(interest_view_elem _ _ _ _ _ _ Ev).
  apply interest_object_fields in Hf as (H1 & H2 & H3 & H4).
  exists o. split_and!; try done. by apply (registered_unique r g Hid).
Qed.

Lemma interest_view_keys (r : Runtime) (g : Game) clientID pc ios player :
  identities_ok r g -> (forall k o, at_key r k = Some o -> plain_type k.1) ->
  interest_view r g clientID = Some (pc, ios, player) ->
  forall io io', io ∈ ios -> io' ∈ ios -> io_key io = io_key io' -> io = io'.
Proof.
  intros Hid Hplain Ev io io' (o & Ho & Hf)%(interest_view_elem _ _ _ _ _ _ Ev)
    (o' & Ho' & Hf')%(interest_view_elem _ _ _ _ _ _ Ev) E.
  pose proof (interest_object_fields _ _ _ _ _ _ _ Hf) as (H1 & H2 & _).
  pose proof (interest_object_fields _ _ _ _ _ _ _ Hf') as (H1' & H2' & _).
  pose proof (registered_unique r g Hid _ _ _ Ho H1) as Hr. pose proof (registered_unique r g Hid _ _ _ Ho' H1') as Hr'.
  rewrite H2, H2' in E. apply interestObjectKey_inj in E as [Et Ei]; [|by apply Hplain in Hr | by apply Hplain in Hr'].
  destruct (objectIdentity_ok _ _ _ _ H1) as [[Nt _] [Ni _]], (objectIdentity_ok _ _ _ _ H1') as [[Nt' _] [Ni' _]].
  unfold key_normal in *. rewrite Nt, Nt' in Et. rewrite Ni, Ni' in Ei. congruence.
Qed.

(** The snapshot of a client that the interest filter applies to. *)
Lemma view_lookup (r : Runtime) (g : Game) clientID pc ios player t i v :
  identities_ok r g -> (forall k o, at_key r k = Some o -> plain_type k.1) ->
  interest_view r g clientID = Some (pc, ios, player) ->
  let visible := visibleInterestObjectKeys overflow ios pc (io_position player) in
  lookup_object (collect (interesting_entry visible) ∅ ios) t i = Some v <->
  exists io, io ∈ ios /\ interesting_entry visible io = Some (t, i, v).
Proof.
  intros Hid Hplain Ev visible. assert (Hio := interest_view_objects r g clientID pc ios player Hid Ev).
  assert (Hkey := interest_view_keys r g clientID pc ios player Hid Hplain Ev).
  apply collect_spec. unfold interesting_entry. intros x y u u' Hx Hy.
  destruct (io_visible x && _); [|done]. destruct (io_visible y && _); [|done]. intros [= <- <- <-] [= E1 E2 <-].
  f_equal. apply Hkey; [done | done|]. destruct (Hio x Hx) as (_ & _ & _ & _ & -> & _), (Hio y Hy) as (_ & _ & _ & _ & -> & _).
  congruence.
Qed.

Lemma shown_anyway_visible pc position ios io :
  io ∈ ios -> shown_anyway pc io = true -> io_key io ∈ visibleInterestObjectKeys overflow ios pc position.
Proof.
  intros Hin Hs. destruct (finiteInterestPosition position) eqn:Hf.
  - apply visible_hash_elem; [done|]. exists io. eauto.
  - unfold visibleInterestObjectKeys. rewrite Hf. cbn [negb]. apply (visibleLinear_elem overflow). exists io. eauto.
Qed.

(** An object that the distance does not matter for is in the snapshot wherever the
    player is, whatever the floats. *)
Lemma exempt_lookup (r : Runtime) (g : Game) clientID t i o :
  identities_ok r g -> (forall k o, at_key r k = Some o -> plain_type k.1) ->
  at_key r (t, i) = Some o -> hidden g o = false -> scene_shows r clientID t i = true ->
  (forall pc ios player io, interest_view r g clientID = Some (pc, ios, player) ->
     interest_object g (interestState (interest (features r))) pc (sceneState (scenes (features r)))
       (clientScene (sceneState (scenes (features r))) (normalizeObjectKey clientID)) o = Some io ->
     io_managed io = true -> shown_anyway pc io = true) ->
  lookup_object (SnapshotForClient r g clientID) t i = Some (ObjectSnapshot o g).
Proof.
  intros Hid Hplain Hk Hh Hs Hexempt. rewrite SnapshotForClient_eq.
  destruct (interest_view r g clientID) as [[[pc ios] player]|] eqn:Ev; cycle 1.
  { apply (unfiltered_lookup r g Hid). eauto 8. }
  destruct (interest_object g (interestState (interest (features r))) pc (sceneState (scenes (features r)))
    (clientScene (sceneState (scenes (features r))) (normalizeObjectKey clientID)) o) as [io|] eqn:Eio; cycle 1.
  { unfold interest_object in Eio. by rewrite (Hid _ _ Hk) in Eio. }
  assert (io ∈ ios) as Hin by (apply (interest_view_elem _ _ _ _ _ _ Ev); exists o; split; [apply elem_of_objectList; eauto | done]).
  apply (view_lookup r g clientID pc ios player); [done | done | done|]. exists io. split; [done|].
  pose proof (interest_object_fields _ _ _ _ _ _ _ Eio) as (H1 & _ & H3 & H4).
  rewrite (Hid _ _ Hk) in H1. injection H1 as -> ->. unfold interesting_entry. rewrite H4, Hh, H3.
  change (objectVisibleToClient _ _ _ _) with (scene_shows r clientID (io_objectType io) (io_objectID io)). rewrite Hs.
  destruct (io_managed io) eqn:Em; [|done].
  by rewrite (bool_decide_eq_true_2 _ (shown_anyway_visible _ _ _ _ Hin (Hexempt _ _ _ _ eq_refl Eio Em))).
Qed.

(** C26: what a client's snapshot holds, soundly always and completely where the filter is
    exact.  An object in it is registered, carries
    its current snapshot, is not hidden, is in the client's scene (or in none, or
    in the global one), and, when the interest filter applies to the client, is
    exempt from it or within its player's radius.  When the filter does not
    apply, or positions and radii are on the binary grid of [Interest], every such
    object is in the snapshot.  (Identities must be stable and types without a
    slash, or the filter confuses objects.) *)
Theorem client_snapshot_exact (r : Runtime) (g : Game) clientID t i :
  identities_ok r g -> (forall k o, at_key r k = Some o -> plain_type k.1) ->
  (forall v, lookup_object (SnapshotForClient r g clientID) t i = Some v ->
     exists o, at_key r (t, i) = Some o /\ v = ObjectSnapshot o g /\ hidden g o = false /\
       scene_shows r clientID t i = true /\ near r g clientID o) /\
  (view_on_grid r g clientID -> forall o,
     at_key r (t, i) = Some o -> hidden g o = false -> scene_shows r clientID t i = true ->
     near r g clientID o ->
     lookup_object (SnapshotForClient r g clientID) t i = Some (ObjectSnapshot o g)).
Proof.
  intros Hid Hplain. rewrite SnapshotForClient_eq. unfold near, view_on_grid.
  destruct (interest_view r g clientID) as [[[pc ios] player]|] eqn:Ev; cycle 1.
  { setoid_rewrite (unfiltered_lookup r g Hid). split; [|by eauto 8].
    intros v (o & Hk & Hh & Hs & ->). eauto 8. }
  assert (Hio := interest_view_objects r g clientID pc ios player Hid Ev).
  assert (Hkey := interest_view_keys r g clientID pc ios player Hid Hplain Ev).
  set (visible := visibleInterestObjectKeys overflow ios pc (io_position player)) in *.
  assert (Hlook := fun v => view_lookup r g clientID pc ios player t i v Hid Hplain Ev). cbv zeta in Hlook. fold visible in Hlook.
  split.
  - intros v (io & Hin & Hf)%Hlook. unfold interesting_entry in Hf.
    destruct (io_visible io && _) eqn:Es; [|done]. injection Hf as <- <- <-.
    destruct (Hio io Hin) as (o & Hk & Hi & Hs & Hkk & Hv). apply andb_true_iff in Es as [E1 E2].
    rewrite Hv in E1. apply andb_true_iff in E1 as [Eh Escene]. apply negb_true_iff in Eh.
    exists o. split_and!; try done. exists io. split_and!; try done. intros Hm. rewrite Hm in E2.
    cbn [negb orb] in E2. apply bool_decide_eq_true in E2. apply hash_shows_linear in E2.
    apply (visibleLinear_elem overflow) in E2 as (io' & Hin' & Hk' & Hshow).
    by rewrite <- (Hkey io' io Hin' Hin Hk').
  - intros Hgrid o Hk Hh Hs (io & Hin & Hi & Hnear). apply Hlook. exists io. split; [done|].
    rewrite (Hid _ _ Hk) in Hi. injection Hi as -> ->.
    destruct (Hio io Hin) as (o' & Hk' & Hi' & Hsnap & Hkk & Hv). rewrite Hk in Hk'. injection Hk' as <-.
    unfold interesting_entry. rewrite Hv, Hh, Hs. cbn [negb andb].
    assert (negb (io_managed io) || bool_decide (io_key io ∈ visible) = true) as ->; [|by rewrite Hsnap].
    destruct (io_managed io); [|done]. cbn [negb orb]. apply bool_decide_eq_true. unfold visible.
    rewrite (hash_shows_grid overflow _ _ _ Hgrid). apply (visibleLinear_elem overflow).
    exists io. split_and!; [done | done | by apply Hnear].
Qed.

End View.

(** ** A small scene: a player and two objects *)
Module Plain.
Local Open Scope string_scope.

Record thing := mkThing { kind : string; name : string; place : Z * Z }.

Definition thing_snapshot (o : thing) : GoValue :=
  VMap [("x", VInt (place o).1); ("y", VInt (place o).2)].

#[global] Instance plain_game : GameCode thing unit unit unit := {
  ObjectType o _ := kind o;
  ObjectID o _ := name o;
  ObjectSnapshot o _ := thing_snapshot o;
  OnInit _ := None;
  OnTick _ := None;
  OnFullTick _ := None;
  OnRequest _ := None;
  OnAuthenticationAttempt _ := None;
  OnSceneSwitchRequest _ := None;
  SnapshotVisible _ := None;
  SnapshotPriority _ := None;
  FactoryCreate _ _ w := (w, Err (ErrOther "no factory"))
}.

Definition player : thing := mkThing "player" "p" (0, 0).
Definition near_npc : thing := mkThing "npc" "near" (3, 4).
Definition far_npc : thing := mkThing "npc" "far" (30, 40).

Definition empty : Runtime thing unit unit := NewRuntime DefaultConfig.

Definition field : Runtime thing unit unit :=
  let r := store (store (store empty "player" "p" player) "npc" "near" near_npc) "npc" "far" far_npc in
  on_interest r (fun m => foldl interest_step m
    [OpEnable (PlayerInterest2D (Ok ("player", "p")) "x" "y" (f_of_Z 5));
     OpEnable (GameObjectInterest2D (Ok ("npc", "near")) "x" "y");
     OpEnable (GameObjectInterest2D (Ok ("npc", "far")) "x" "y")]).

Definition view (clientID : string) : SnapshotData :=
  SnapshotForClient (fun _ _ => false) (fun _ => None) (fun _ => 0) field tt clientID.

Lemma at_key_field k o :
  at_key field k = Some o ->
  (k = ("npc", "far") /\ o = far_npc) \/ (k = ("npc", "near") /\ o = near_npc) \/ (k = ("player", "p") /\ o = player).
Proof.
  unfold field. change (at_key (on_interest ?r _) k) with (at_key r k). rewrite !at_key_store.
  repeat case_decide; subst; intros H'; try (injection H' as <-; tauto).
  unfold at_key, empty in H'. cbn [objects NewRuntime] in H'. by rewrite lookup_empty in H'.
Qed.

Lemma identities : identities_ok field tt.
Proof. intros k o [[-> ->]|[[-> ->]|[-> ->]]]%at_key_field; reflexivity. Qed.

Lemma plain_types k o : at_key field k = Some o -> plain_type k.1.
Proof. intros [[-> _]|[[-> _]|[-> _]]]%at_key_field; reflexivity. Qed.
End Plain.

Lemma client_snapshot_exact_witness :
  lookup_object (Plain.view "p") "npc" "far" = None /\
  lookup_object (Plain.view "p") "npc" "near" = Some (Plain.thing_snapshot Plain.near_npc) /\
  near (fun _ _ => false) (fun _ => None) Plain.field tt "p" Plain.near_npc.
Proof.
  assert (lookup_object (Plain.view "p") "npc" "near" = Some (Plain.thing_snapshot Plain.near_npc)) as E
    by (vm_compute; reflexivity).
  split; [vm_compute; reflexivity|]. split; [exact E|].
  destruct (proj1 (client_snapshot_exact (fun _ _ => false) (fun _ => None) (fun _ => 0) Plain.field tt "p" "npc" "near"
    Plain.identities Plain.plain_types) _ E) as (o & Hk & _ & _ & _ & Hnear).
  vm_compute in Hk. injection Hk as <-. exact Hnear.
Defined.
