(* ===== verification/Budget.v ===== *)
(** * The outbound bandwidth budget of a client

    [network/udp.go]: [refillClientBudgetLocked], [outboundBudgetLimit] and
    [reserveOutboundBudget] on a client that is in the table.  A token bucket in
    [float64]: it fills at [ClientBytesPerSecond] up to one second's worth, and a
    packet is sent only when its bytes are there.  The time is an argument; the
    zero [time.Time] is 0. *)
From S2P Require Import Prelude Float64 Messages Config.

Record Budget := mkBudget {
  budgetAvailable : f64;
  budgetLastRefill : Z;
  budgetDrops : Z;
  budgetDeferrals : Z;
  bytesSent : Z
}.

Definition newBudget : Budget := mkBudget f_zero 0 0 0 0.

Definition set_available (b : Budget) (available : f64) (now : Z) : Budget :=
  mkBudget available now (budgetDrops b) (budgetDeferrals b) (bytesSent b).

Definition refillClientBudgetLocked (config : Config) (b : Budget) (now : Z) : Budget :=
  if negb (EnableBandwidthBudget config) then b
  else
    let capacity := f_of_Z (ClientBytesPerSecond config) in
    if f_le capacity f_zero then set_available b f_zero now
    else if budgetLastRefill b =? 0 then set_available b capacity now
    else if now <? budgetLastRefill b then set_available b (budgetAvailable b) now
    else
      let elapsed := Seconds (now - budgetLastRefill b) in
      let available := f_add (budgetAvailable b) (f_mul elapsed capacity) in
      set_available b (if f_lt capacity available then capacity else available) now.

(** [outboundBudgetLimit]: [None] when there is no budget to keep. *)
Definition outboundBudgetLimit (overflow : f64 -> Z) (config : Config) (b : Budget) (now : Z)
    : Budget * option Z :=
  if negb (EnableBandwidthBudget config) then (b, None)
  else
    let b := refillClientBudgetLocked config b now in
    if f_le (budgetAvailable b) f_zero then (b, Some 0)
    else (b, Some (f_to_int overflow (budgetAvailable b))).

Definition reserveOutboundBudget (config : Config) (b : Budget) (bytes : Z) (deferrable : bool) (now : Z)
    : Budget * bool :=
  if bytes <=? 0 then (b, true)
  else if negb (EnableBandwidthBudget config) then (b, true)
  else
    let b := refillClientBudgetLocked config b now in
    if f_le (f_of_Z bytes) (budgetAvailable b) then
      (mkBudget (f_sub (budgetAvailable b) (f_of_Z bytes)) (budgetLastRefill b) (budgetDrops b)
         (budgetDeferrals b) (bytesSent b), true)
    else if deferrable then
      (mkBudget (budgetAvailable b) (budgetLastRefill b) (budgetDrops b) (u64_inc (budgetDeferrals b))
         (bytesSent b), false)
    else
      (mkBudget (budgetAvailable b) (budgetLastRefill b) (u64_inc (budgetDrops b)) (budgetDeferrals b)
         (bytesSent b), false).

(** [recordOutboundBytes], [recordBudgetDeferral] and [recordSnapshotDeferrals] on
    the client. *)
Definition recordOutboundBytes (b : Budget) (bytes : Z) : Budget :=
  if bytes <=? 0 then b
  else mkBudget (budgetAvailable b) (budgetLastRefill b) (budgetDrops b) (budgetDeferrals b)
         (u64_add (bytesSent b) (wrap 64 bytes)).
Definition recordBudgetDeferral (b : Budget) : Budget :=
  mkBudget (budgetAvailable b) (budgetLastRefill b) (budgetDrops b) (u64_inc (budgetDeferrals b)) (bytesSent b).
Definition recordSnapshotDeferrals (b : Budget) (count : Z) : Budget :=
  if count =? 0 then b
  else mkBudget (budgetAvailable b) (budgetLastRefill b) (budgetDrops b)
         (u64_add (budgetDeferrals b) count) (bytesSent b).

(** ** Exact behaviour

    [holds b k]: the bucket holds [k] 2^-1074ths of a byte, no more than one
    second's worth. *)
Section Behaviour.
Context (config : Config).
Context (enabled : EnableBandwidthBudget config = true).
Context (positive : 0 < ClientBytesPerSecond config < 2 ^ 53).

Abbreviation capacity := (ClientBytesPerSecond config).

Definition holds (b : Budget) (k : Z) : Prop :=
  budgetAvailable b = Fin false k /\ 0 <= k <= capacity * one_scaled /\ representable k.

(** Times are positive and fit the nanoseconds of a [Duration]. *)
Definition is_time (now : Z) : Prop := 0 < now < 2 ^ 63.

Definition budget_ok (b : Budget) : Prop :=
  (exists k, holds b k) /\ 0 <= budgetLastRefill b < 2 ^ 63.

Lemma holds_small k : 0 <= k <= capacity * one_scaled -> 0 <= k < max_scaled.
Proof.
  pose proof one_scaled_pos. intros Hk. split; [lia|]. unfold max_scaled. rewrite Z.pow_add_r by lia.
  change (2 ^ 1074) with one_scaled. assert (2 ^ 53 < 2 ^ 1024) by (apply Z.pow_lt_mono_r; lia). nia.
Qed.

(** The float that a refill adds. *)
Lemma refill_amount d : 0 <= d < 2 ^ 63 -> nonneg_upto 118 (f_mul (Seconds d) (f_of_Z capacity)).
Proof.
  intros Hd. apply (f_mul_upto _ _ 65 53); [by apply Seconds_upto | | lia | lia | lia].
  apply f_of_Z_upto; lia.
Qed.

(** No time refills nothing. *)
Lemma refill_nothing k a :
  0 <= k <= capacity * one_scaled -> representable k ->
  f_mul (Seconds 0) (Fin false (capacity * one_scaled)) = Fin false a ->
  f_add (Fin false k) (Fin false a) = Fin false k.
Proof.
  intros Hk Hr Ha. assert (Fin false a = f_zero) as ->.
  { rewrite <- Ha. change (Seconds 0) with f_zero. cbn [f_mul f_zero xorb]. rewrite Z.mul_0_l. by vm_compute. }
  apply f_add_zero; [by apply holds_small | done].
Qed.

(** What a refill leaves: never less than before, and everything when the bucket
    was never filled or the amount is enough; nothing changes at the instant of
    the last refill. *)
Lemma refill_holds b k now :
  holds b k -> 0 <= budgetLastRefill b < 2 ^ 63 -> is_time now ->
  exists k', holds (refillClientBudgetLocked config b now) k' /\ k <= k' /\
    budgetLastRefill (refillClientBudgetLocked config b now) = now /\
    (budgetLastRefill b = now -> k' = k) /\
    (budgetLastRefill b = 0 \/
     (0 < budgetLastRefill b <= now /\ exists a,
        f_mul (Seconds (now - budgetLastRefill b)) (f_of_Z capacity) = Fin false a /\
        capacity * one_scaled <= a) -> k' = capacity * one_scaled).
Proof.
  intros (Ha & Hk & Hr) Hlast [Hnow0 Hnow]. unfold refillClientBudgetLocked. rewrite enabled. cbn [negb].
  rewrite f_of_Z_exact by lia. pose proof one_scaled_pos as H1.
  assert (f_le (Fin false (capacity * one_scaled)) f_zero = false) as ->.
  { cbn [f_le f_zero signed]. apply Z.leb_gt. nia. }
  assert (representable (capacity * one_scaled)) as Hcr by (apply representable_one; lia).
  destruct (Z.eqb_spec (budgetLastRefill b) 0) as [E|Hne].
  { exists (capacity * one_scaled). unfold holds, set_available. cbn [budgetAvailable budgetLastRefill].
    split_and!; try done; lia. }
  destruct (Z.ltb_spec now (budgetLastRefill b)) as [Hlt|Hge].
  { exists k. unfold holds, set_available. cbn [budgetAvailable budgetLastRefill]. split_and!; try done; lia. }
  destruct (refill_amount (now - budgetLastRefill b) ltac:(lia)) as (a & Hamount & Ha0 & Hra).
  rewrite f_of_Z_exact in Hamount by lia. rewrite Hamount, Ha.
  destruct (f_add_upto (Fin false k) (Fin false a) 118) as (s & Hs & Hs0 & Hrs).
  { exists k. split_and!; try done; [lia|]. etrans; [apply Hk|]. apply Z.mul_le_mono_nonneg_r; [lia|].
    etrans; [apply Z.lt_le_incl, positive|]. apply Z.pow_le_mono_r; lia. }
  { by exists a. }
  { lia. }
  pose proof (f_add_lower k a k s ltac:(lia) ltac:(lia) ltac:(lia) Hr Hs) as Hle.
  assert (budgetLastRefill b = now -> s = k) as Hsame.
  { intros E. rewrite E, Z.sub_diag in Hamount. rewrite (refill_nothing k a Hk Hr Hamount) in Hs.
    by injection Hs as ->. }
  assert (capacity * one_scaled <= a -> capacity * one_scaled <= s) as Hfull.
  { intros Hca. apply (f_add_lower k a (capacity * one_scaled) s ltac:(lia) ltac:(lia) ltac:(lia) Hcr Hs). }
  rewrite Hs. cbn [f_lt f_le signed]. unfold holds.
  destruct (Z.leb_spec s (capacity * one_scaled)) as [Hsc|Hsc]; cbn [negb set_available budgetAvailable budgetLastRefill].
  - exists s. split_and!; try done; try lia. intros [?|(_ & a' & [= <-] & Hca)]; [lia|]. specialize (Hfull Hca). lia.
  - exists (capacity * one_scaled). split_and!; try done; try lia.
Qed.

(** [reserveOutboundBudget] by cases. *)
Lemma reserve_cases b k bytes deferrable now :
  holds b k -> 0 <= budgetLastRefill b < 2 ^ 63 -> is_time now -> 0 < bytes < 2 ^ 53 ->
  let refilled := refillClientBudgetLocked config b now in
  exists k', holds refilled k' /\ k <= k' /\ (budgetLastRefill b = now -> k' = k) /\
  if bytes * one_scaled <=? k' then
    exists b', reserveOutboundBudget config b bytes deferrable now = (b', true) /\
      holds b' (k' - bytes * one_scaled) /\ budgetLastRefill b' = now /\
      budgetDrops b' = budgetDrops b /\ budgetDeferrals b' = budgetDeferrals b
  else
    exists b', reserveOutboundBudget config b bytes deferrable now = (b', false) /\
      holds b' k' /\ budgetLastRefill b' = now /\
      budgetDrops b' = (if deferrable then budgetDrops b else u64_inc (budgetDrops b)) /\
      budgetDeferrals b' = (if deferrable then u64_inc (budgetDeferrals b) else budgetDeferrals b).
Proof.
  intros Hh Hlast Hnow Hbytes refilled.
  destruct (refill_holds b k now Hh Hlast Hnow) as (k' & Hh' & Hle & Hl' & Hsame & _). fold refilled in Hh', Hl'.
  assert (budgetDrops refilled = budgetDrops b /\ budgetDeferrals refilled = budgetDeferrals b) as [Hd Hf].
  { unfold refilled, refillClientBudgetLocked. destruct (negb _); [done|]. destruct (f_le _ _); [done|].
    destruct (_ =? 0); [done|]. by destruct (_ <? _). }
  exists k'. split_and!; [exact Hh' | done | done |]. unfold reserveOutboundBudget.
  rewrite (proj2 (Z.leb_gt bytes 0)), enabled by lia. cbn [negb]. fold refilled.
  rewrite f_of_Z_exact by lia. destruct Hh' as (Ha & Hk' & Hr'). rewrite Ha. cbn [f_le signed].
  destruct (Z.leb_spec (bytes * one_scaled) k') as [Hfit|Hbig].
  - pose proof one_scaled_pos as H1.
    assert (0 <= bytes * one_scaled) by (apply Z.mul_nonneg_nonneg; lia).
    assert (capacity * one_scaled < 2 ^ 53 * one_scaled) by (apply Z.mul_lt_mono_pos_r; lia).
    destruct (f_sub_exact k' bytes) as [Hsub Hr]; [lia | lia | done |]. eexists. split; [reflexivity|].
    unfold holds. cbn [budgetAvailable budgetLastRefill budgetDrops budgetDeferrals]. rewrite Hsub.
    split_and!; done || lia.
  - destruct deferrable; (eexists; split; [reflexivity|]); unfold holds;
      cbn [budgetAvailable budgetLastRefill budgetDrops budgetDeferrals]; rewrite ?Hd, ?Hf; split_and!; done || lia.
Qed.

(** *** Runs *)
Inductive budget_op :=
| op_limit (now : Z)
| op_reserve (bytes : Z) (deferrable : bool) (now : Z)
| op_sent (bytes : Z)
| op_deferral
| op_deferrals (count : Z).

(** One operation, and the bytes that it grants. *)
Definition budget_step (overflow : f64 -> Z) (b : Budget) (op : budget_op) : Budget * Z :=
  match op with
  | op_limit now => ((outboundBudgetLimit overflow config b now).1, 0)
  | op_reserve bytes deferrable now =>
      let (b, granted) := reserveOutboundBudget config b bytes deferrable now in
      (b, if granted then Z.max 0 bytes else 0)
  | op_sent bytes => (recordOutboundBytes b bytes, 0)
  | op_deferral => (recordBudgetDeferral b, 0)
  | op_deferrals count => (recordSnapshotDeferrals b count, 0)
  end.

Fixpoint budget_run (overflow : f64 -> Z) (b : Budget) (ops : list budget_op) : Budget * Z :=
  match ops with
  | [] => (b, 0)
  | op :: ops =>
      let (b, granted) := budget_step overflow b op in
      let (b, total) := budget_run overflow b ops in
      (b, granted + total)
  end.

(** The operation is admissible, and happens at [now] if it looks at the clock. *)
Definition op_ok (op : budget_op) : Prop :=
  match op with
  | op_limit now => is_time now
  | op_reserve bytes _ now => is_time now /\ bytes < 2 ^ 53
  | _ => True
  end.
Definition op_at (now : Z) (op : budget_op) : Prop :=
  match op with
  | op_limit t | op_reserve _ _ t => t = now
  | _ => True
  end.

(** At [now] at most [room] can be granted. *)
Definition room (b : Budget) (now m : Z) : Prop :=
  m = capacity * one_scaled \/ budgetLastRefill b = now /\ holds b m.

(** What a step at [now] leaves of the room at [now]. *)
Lemma budget_step_ok overflow b op :
  budget_ok b -> op_ok op ->
  let (b', granted) := budget_step overflow b op in
  budget_ok b' /\ 0 <= granted /\
  forall now m, op_at now op -> room b now m ->
    exists m', room b' now m' /\ 0 <= m' /\ m' + granted * one_scaled <= m.
Proof.
  intros [(k & Hh) Hlast] Hop. pose proof one_scaled_pos as H1.
  assert (forall b', budgetAvailable b' = budgetAvailable b -> budgetLastRefill b' = budgetLastRefill b ->
    budget_ok b' /\ 0 <= 0 /\ forall now m, True -> room b now m ->
      exists m', room b' now m' /\ 0 <= m' /\ m' + 0 * one_scaled <= m) as Hquiet.
  { intros b' Ha Hl. split_and!; [split; [exists k; unfold holds in *; by rewrite Ha | by rewrite Hl] | done |].
    intros now m _ Hroom. exists m. destruct Hroom as [->|[E Hm]].
    - split_and!; [by left | nia | lia].
    - split_and!; [right; unfold holds in *; by rewrite Hl, Ha | apply Hm | lia]. }
  destruct op as [now|bytes deferrable now|bytes| |count]; cbn [budget_step op_at].
  - destruct (refill_holds b k now Hh Hlast Hop) as (k' & Hh' & _ & Hl' & Hsame & _).
    unfold outboundBudgetLimit. rewrite enabled. cbn [negb].
    assert (forall r, (if f_le (budgetAvailable (refillClientBudgetLocked config b now)) f_zero
      then (refillClientBudgetLocked config b now, Some 0)
      else (refillClientBudgetLocked config b now, Some r)).1 = refillClientBudgetLocked config b now) as ->
      by (intros r; by destruct (f_le _ _)).
    split_and!; [split; [by exists k' | destruct Hop; lia] | done |].
    intros t m <- [->|[E Hm]].
    + exists k'. destruct Hh' as (? & ? & ?). split_and!; [by right | lia | lia].
    + exists k'. split_and!; [by right | apply Hh' |]. rewrite (Hsame E).
      destruct Hm as (Hm & _ & _), Hh as (Hk & _ & _). rewrite Hm in Hk. injection Hk as ->. lia.
  - destruct Hop as [Hnow Hb]. destruct (Z.leb_spec bytes 0) as [Hz|Hz].
    { unfold reserveOutboundBudget. rewrite (proj2 (Z.leb_le _ _)) by lia. rewrite Z.max_l by lia.
      destruct (Hquiet b eq_refl eq_refl) as (? & ? & Hr). split_and!; [done | done |].
      intros t m _ Hroom. by apply Hr. }
    destruct (reserve_cases b k bytes deferrable now Hh Hlast Hnow ltac:(lia)) as (k' & Hk' & _ & Hsame & Hcase).
    assert (forall t m, now = t -> room b t m -> k' <= m) as Hroom.
    { intros t m <- [->|[E Hm]]; [apply Hk'|]. rewrite (Hsame E).
      destruct Hm as (Hm & _ & _), Hh as (Hk & _ & _). rewrite Hm in Hk. injection Hk as ->. lia. }
    destruct (Z.leb_spec (bytes * one_scaled) k'); destruct Hcase as (b' & -> & Hb' & Hl' & _).
    + rewrite Z.max_r by lia. split_and!; [split; [by eexists | destruct Hnow; lia] | lia |].
      intros t m E Hm. specialize (Hroom t m E Hm). exists (k' - bytes * one_scaled).
      split_and!; [right; by rewrite <- E | apply Hb' | lia].
    + split_and!; [split; [by eexists | destruct Hnow; lia] | lia |].
      intros t m E Hm. specialize (Hroom t m E Hm). exists k'.
      split_and!; [right; by rewrite <- E | apply Hb' | lia].
  - unfold recordOutboundBytes. destruct (_ <=? 0); by apply Hquiet.
  - by apply Hquiet.
  - unfold recordSnapshotDeferrals. destruct (_ =? 0); by apply Hquiet.
Qed.

Lemma budget_run_ok overflow ops : forall b,
  budget_ok b -> Forall op_ok ops ->
  let (b', total) := budget_run overflow b ops in
  budget_ok b' /\ 0 <= total /\
  forall now m, Forall (op_at now) ops -> room b now m -> 0 <= m -> total * one_scaled <= m.
Proof.
  induction ops as [|op ops IH]; intros b Hb Hops; cbn [budget_run].
  { split_and!; [done | done |]. intros; lia. }
  apply Forall_cons in Hops as [Hop Hops]. pose proof (budget_step_ok overflow b op Hb Hop) as Hstep.
  destruct (budget_step overflow b op) as [b1 granted]. destruct Hstep as (Hb1 & Hg & Hroom).
  specialize (IH b1 Hb1 Hops). destruct (budget_run overflow b1 ops) as [b2 total]. destruct IH as (Hb2 & Ht & IH).
  split_and!; [done | lia |]. intros now m [Hat Hats]%Forall_cons Hm Hpos.
  destruct (Hroom now m Hat Hm) as (m' & Hm' & Hpos' & Hle). specialize (IH now m' Hats Hm' Hpos'). lia.
Qed.
(** ** Properties *)

(** C40: bounds of the bandwidth budget.  Whatever a client's bucket is used for,
    in any order and with any clock readings, it holds between nothing and one
    second's worth of bytes (it never becomes negative, infinite or NaN), and the
    packets that it lets through at one instant have together at most
    [ClientBytesPerSecond] bytes. *)
Theorem budget_bounds overflow ops b :
  budget_ok b -> Forall op_ok ops ->
  let (b', total) := budget_run overflow b ops in
  budget_ok b' /\
  forall now, Forall (op_at now) ops -> 0 <= total <= capacity.
Proof.
  intros Hb Hops. pose proof (budget_run_ok overflow ops b Hb Hops) as H.
  destruct (budget_run overflow b ops) as [b' total]. destruct H as (Hb' & Ht & Hroom). split; [done|].
  intros now Hat. split; [done|]. pose proof one_scaled_pos.
  specialize (Hroom now _ Hat (or_introl eq_refl) ltac:(nia)). nia.
Qed.

(** [outboundBudgetLimit] says exactly what [reserveOutboundBudget] grants at
    the same instant: a packet goes through if and only if it is no longer than
    the limit, it takes exactly its length out of the bucket, and otherwise
    exactly one of the two counters moves. *)
Theorem budget_limit_exact overflow b now bytes deferrable :
  budget_ok b -> is_time now -> 0 < bytes < 2 ^ 53 ->
  exists b1 limit b2 k, outboundBudgetLimit overflow config b now = (b1, Some limit) /\ holds b1 k /\
    reserveOutboundBudget config b1 bytes deferrable now = (b2, bytes <=? limit) /\
    holds b2 (if bytes <=? limit then k - bytes * one_scaled else k) /\
    budgetDrops b2 = (if (bytes <=? limit) || deferrable then budgetDrops b1 else u64_inc (budgetDrops b1)) /\
    budgetDeferrals b2 =
      (if (bytes <=? limit) || negb deferrable then budgetDeferrals b1 else u64_inc (budgetDeferrals b1)).
Proof.
  intros [(k & Hh) Hlast] Hnow Hb. pose proof one_scaled_pos as H1.
  destruct (refill_holds b k now Hh Hlast Hnow) as (k1 & Hk1 & _ & Hl1 & _).
  set (b1 := refillClientBudgetLocked config b now) in *.
  assert (exists limit, outboundBudgetLimit overflow config b now = (b1, Some limit) /\
    (bytes <=? limit) = (bytes * one_scaled <=? k1)) as (limit & Hlimit & Hiff).
  { unfold outboundBudgetLimit. rewrite enabled. cbn [negb]. fold b1. destruct Hk1 as (Ha & Hk & _). rewrite Ha.
    cbn [f_le f_zero signed]. destruct (Z.leb_spec k1 0) as [Hz|Hz].
    - exists 0. split; [done|]. rewrite !(proj2 (Z.leb_gt _ _)); [done | nia | lia].
    - exists (k1 / one_scaled). cbn [f_to_int signed]. rewrite decide_True.
      + split; [done|]. apply eq_true_iff_eq. rewrite !Z.leb_le, (Z.mul_comm bytes).
        split; intros Hle; [|by apply Z.div_le_lower_bound].
        etrans; [apply Z.mul_le_mono_nonneg_l; [lia | exact Hle] | by apply Z.mul_div_le].
      + split; [etrans; [|by apply Z.div_pos; lia]; done|].
        apply Z.lt_trans with (2 ^ 53); [|done]. apply Z.div_lt_upper_bound; [done|].
        apply Z.le_lt_trans with (capacity * one_scaled); [lia|].
        rewrite (Z.mul_comm one_scaled). apply Z.mul_lt_mono_pos_r; lia. }
  destruct (reserve_cases b1 k1 bytes deferrable now Hk1 ltac:(destruct Hnow; lia) Hnow Hb)
    as (k2 & _ & _ & Hsame & Hcase). rewrite (Hsame Hl1), <- Hiff in Hcase.
  exists b1, limit. destruct (bytes <=? limit); destruct Hcase as (b2 & Hr & Hb2 & _ & Hd & Hf);
    exists b2, k1; split_and!; try done; by destruct deferrable.
Qed.

(** The bucket is full again after a second: a packet of at most
    [ClientBytesPerSecond] bytes is granted to a client whose bucket was last
    looked at one second or more ago. *)
Theorem budget_refills b now bytes deferrable :
  budget_ok b -> is_time now -> 0 < budgetLastRefill b -> budgetLastRefill b + 1000000000 <= now ->
  0 < bytes <= capacity -> (reserveOutboundBudget config b bytes deferrable now).2 = true.
Proof.
  intros [(k & Hh) Hlast] [Hnow0 Hnow] Hpos Hsecond Hb. pose proof one_scaled_pos as H1.
  destruct (refill_amount (now - budgetLastRefill b) ltac:(lia)) as (a & Ha & _).
  assert (capacity * one_scaled <= a) as Hfull.
  { destruct (Seconds_upto (now - budgetLastRefill b) ltac:(lia)) as (s & Hs & Hs0 & _).
    pose proof (Seconds_lower (now - budgetLastRefill b) s ltac:(lia) Hs) as Hone. rewrite Hs, f_of_Z_exact in Ha by lia.
    cbn [f_mul xorb] in Ha. refine (round_lower _ _ _ a _ (representable_one _ _) H1 _ Ha); [nia | lia |].
    rewrite (Z.mul_comm s). apply Z.mul_le_mono_nonneg_l; nia. }
  destruct (refill_holds b k now Hh Hlast (conj Hnow0 Hnow)) as (k1 & Hk1 & _ & _ & _ & Hk).
  rewrite Hk in Hk1 by (right; split; [lia | by exists a]).
  unfold reserveOutboundBudget. rewrite (proj2 (Z.leb_gt bytes 0)), enabled by lia. cbn [negb].
  destruct Hk1 as (-> & _). rewrite f_of_Z_exact by lia. cbn [f_le signed].
  rewrite (proj2 (Z.leb_le _ _)); [done | nia].
Qed.
End Behaviour.

(** ** Witnesses *)
Module Witnesses.
(** 1000 bytes a second. *)
Definition config : Config := {|
  UDPAddress := ":9000"; TickRate := 128; SnapshotRate := 20; EnableDeltaSnapshots := false;
  SupportedWireCapabilities := 7; FullSnapshotInterval := 30; ClientTimeout := 5 * Second; MaxClients := 0;
  MaxUDPPacketSize := 1200; EnableBandwidthBudget := true; ClientBytesPerSecond := 1000;
  DefaultSnapshotPriority := OutboundPriorityNormal; ReliableRetryInterval := Second; ReliableMaxAttempts := 5;
  ReliableQueueLimit := 16; MaxInputFutureTicks := 8; MaxInputPastTicks := 8; InputBufferLimit := 64;
  DebugEnabled := false; DebugAddress := "" |}.

Definition overflow (_ : f64) : Z := 0.
(** A client created at the first second, and three packets then: the third is
    dropped, after which 300 bytes are left. *)
Definition fresh : Budget := set_available newBudget (f_of_Z 1000) Second.
Definition ops : list budget_op :=
  [op_reserve 500 false Second; op_reserve 200 false Second; op_reserve 400 false Second].

Lemma positive : 0 < ClientBytesPerSecond config < 2 ^ 53.
Proof. done. Qed.
Lemma fresh_ok : budget_ok config fresh.
Proof.
  split; [|done]. exists (1000 * one_scaled). repeat split; [by vm_compute.. | by apply representable_one].
Qed.
Lemma ops_ok : Forall op_ok ops.
Proof. repeat constructor. Qed.
End Witnesses.

Lemma budget_bounds_witness :
  (budget_run Witnesses.config Witnesses.overflow Witnesses.fresh Witnesses.ops).2 = 700 /\
  0 <= (budget_run Witnesses.config Witnesses.overflow Witnesses.fresh Witnesses.ops).2 <= 1000.
Proof.
  split; [vm_compute; reflexivity|].
  pose proof (budget_bounds Witnesses.config eq_refl Witnesses.positive Witnesses.overflow Witnesses.ops
    Witnesses.fresh Witnesses.fresh_ok Witnesses.ops_ok) as H.
  destruct (budget_run Witnesses.config Witnesses.overflow Witnesses.fresh Witnesses.ops) as [b total].
  apply (proj2 H Second). repeat constructor.
Defined.

Lemma budget_limit_exact_witness :
  (reserveOutboundBudget Witnesses.config Witnesses.fresh 1001 false Second).2 = false /\
  exists b1 limit, outboundBudgetLimit Witnesses.overflow Witnesses.config Witnesses.fresh Second = (b1, Some limit) /\
    (reserveOutboundBudget Witnesses.config b1 1000 false Second).2 = (1000 <=? limit).
Proof.
  split; [vm_compute; reflexivity|].
  destruct (budget_limit_exact Witnesses.config eq_refl Witnesses.positive Witnesses.overflow Witnesses.fresh Second
    1000 false Witnesses.fresh_ok) as (b1 & limit & b2 & k & H1 & _ & H2 & _);
    [split; reflexivity | split; reflexivity |].
  exists b1, limit. split; [exact H1|]. rewrite H2. reflexivity.
Defined.

Lemma budget_refills_witness :
  let b := (budget_run Witnesses.config Witnesses.overflow Witnesses.fresh Witnesses.ops).1 in
  (reserveOutboundBudget Witnesses.config b 400 false Second).2 = false /\
  (reserveOutboundBudget Witnesses.config b 1000 false (2 * Second)).2 = true.
Proof.
  split; [vm_compute; reflexivity|].
  pose proof (budget_run_ok Witnesses.config eq_refl Witnesses.positive Witnesses.overflow Witnesses.ops
    Witnesses.fresh Witnesses.fresh_ok Witnesses.ops_ok) as H.
  destruct (budget_run Witnesses.config Witnesses.overflow Witnesses.fresh Witnesses.ops) as [b total] eqn:E.
  assert (budgetLastRefill b = Second) as Hl.
  { change b with (b, total).1. rewrite <- E. vm_compute. reflexivity. }
  apply (budget_refills Witnesses.config eq_refl Witnesses.positive b (2 * Second) 1000 false (proj1 H));
    rewrite ?Hl; [split; reflexivity | reflexivity | discriminate | split; [reflexivity | discriminate]].
Defined.
