(* ===== verification/Window.v ===== *)
(** * The receive window of a UDP client

    [network/udp.go]: the sequence part of [acceptClientRequest] with
    [clientAckBitsLocked] and [pruneClientReceivedSeqsLocked].  The window
    decides which packet sequences are new and builds the acknowledgement state
    that the server sends back. *)
From S2P Require Import Prelude Packet.

(** The fields of [UDPClient] that the functions below own. *)
Record RecvWindow := mkWindow {
  lastSeq : Z;
  receivedSeqs : gset Z;
  ack : Z;
  ackBits : Z
}.

Definition newWindow : RecvWindow := mkWindow 0 ∅ 0 0.

(** The loop of [clientAckBitsLocked], [n] turns from [offset]. *)
Fixpoint ack_bits_loop (n : nat) (offset : Z) (w : RecvWindow) (bits : Z) : Z :=
  match n with
  | O => bits
  | S m =>
      let sequence := u64_sub (u64_sub (ack w) offset) 1 in
      let bits :=
        if decide (sequence ∈ receivedSeqs w) then Z.lor bits (wrap 64 (Z.shiftl 1 offset)) else bits in
      if sequence =? 0 then bits else ack_bits_loop m (offset + 1) w bits
  end.

Definition clientAckBitsLocked (w : RecvWindow) : Z :=
  if ack w =? 0 then 0 else ack_bits_loop 64 0 w 0.

Definition pruneClientReceivedSeqsLocked (w : RecvWindow) : RecvWindow :=
  if ack w <=? 64 then w
  else
    let minimum := u64_sub (ack w) 64 in
    mkWindow (lastSeq w) (filter (fun sequence => minimum <= sequence) (receivedSeqs w))
      (ack w) (ackBits w).

(** [acceptClientRequest] from [if sequence == 0] on: the new window and whether
    the packet is accepted. *)
Definition accept_sequence (w : RecvWindow) (sequence : Z) : RecvWindow * bool :=
  if sequence =? 0 then (w, true)
  else if decide (sequence ∈ receivedSeqs w) then (w, false)
  else if (0 <? ack w) && (u64_add sequence 64 <=? ack w) then (w, false)
  else
    let received := {[sequence]} ∪ receivedSeqs w in
    let (last, newest) :=
      if ack w <? sequence then (sequence, sequence) else (lastSeq w, ack w) in
    let w := mkWindow last received newest (ackBits w) in
    let w := mkWindow last received newest (clientAckBitsLocked w) in
    (pruneClientReceivedSeqsLocked w, true).

(** ** Specification: the window against the history of accepted sequences *)
Record window_ok (history : gset Z) (w : RecvWindow) : Prop := {
  wo_range : forall s, s ∈ history -> 1 <= s <= ack w;
  wo_ack : ack w = 0 \/ ack w ∈ history;
  wo_u64 : in_u64 (ack w);
  wo_last : lastSeq w = ack w;
  wo_received : forall s, s ∈ receivedSeqs w <-> s ∈ history /\ ack w - 64 <= s;
  wo_bits : forall i, 0 <= i < 64 -> (Z.testbit (ackBits w) i = true <-> ack w - i - 1 ∈ history)
}.

Lemma newWindow_ok : window_ok ∅ newWindow.
Proof.
  split; simpl; [by intros s ?%elem_of_empty | by left | unfold in_u; lia | done | |].
  - intros s. rewrite !elem_of_empty. tauto.
  - intros i _. rewrite Z.bits_0, elem_of_empty. split; [discriminate | done].
Qed.

(** The loop sets exactly the bits of the sequences that were received. *)
Lemma ack_bits_loop_spec n offset w bits i :
  in_u64 (ack w) -> 0 <= offset -> offset + Z.of_nat n <= 64 -> offset < ack w ->
  (forall s, s ∈ receivedSeqs w -> 1 <= s) ->
  0 <= i < 64 -> (forall j, offset <= j < 64 -> Z.testbit bits j = false) ->
  Z.testbit (ack_bits_loop n offset w bits) i =
    if decide (i < offset) then Z.testbit bits i
    else bool_decide (i < offset + Z.of_nat n /\ ack w - i - 1 ∈ receivedSeqs w).
Proof.
  intros Ha Ho Hn Hlt Hpos Hi. revert offset bits Ho Hn Hlt.
  induction n as [|n IH]; intros offset bits Ho Hn Hlt Hbits.
  { simpl. case_decide; [done|]. rewrite bool_decide_false by lia. apply Hbits. lia. }
  cbn [ack_bits_loop]. unfold u64_sub. rewrite (wrap_small 64 (ack w - offset)) by (unfold in_u in *; lia).
  rewrite wrap_small by (unfold in_u in *; lia).
  set (s := ack w - offset - 1).
  set (bits' := if decide (s ∈ receivedSeqs w) then Z.lor bits (wrap 64 (Z.shiftl 1 offset)) else bits).
  assert (forall j, 0 <= j < 64 -> Z.testbit bits' j =
    if decide (j = offset) then bool_decide (s ∈ receivedSeqs w) else Z.testbit bits j) as Hbits'.
  { intros j Hj. unfold bits'. rewrite Z.shiftl_1_l, wrap_small by
      (split; [apply Z.pow_nonneg; lia | apply Z.pow_lt_mono_r; lia]).
    destruct (decide (s ∈ receivedSeqs w)) as [Hs|Hs].
    - rewrite Z.lor_spec, Z.pow2_bits_eqb by lia. rewrite (bool_decide_true _ Hs).
      destruct (decide (j = offset)) as [->|Hne]; [by rewrite Z.eqb_refl, orb_true_r|].
      rewrite (proj2 (Z.eqb_neq offset j)) by lia. apply orb_false_r.
    - rewrite (bool_decide_false _ Hs). destruct (decide (j = offset)) as [->|]; [apply Hbits; lia | done]. }
  destruct (Z.eqb_spec s 0) as [E0|E0].
  - rewrite Hbits' by done. destruct (decide (i < offset)) as [H|H].
    + by rewrite decide_False by lia.
    + destruct (decide (i = offset)) as [->|].
      { apply bool_decide_ext. unfold s. split; [intros; split; [lia | done] | tauto]. }
      rewrite Hbits by lia. symmetry. apply bool_decide_false. intros [_ Hin%Hpos]. unfold s in *. lia.
  - rewrite IH; [| lia | lia | unfold s in *; lia |].
    2:{ intros j Hj. rewrite Hbits' by lia. rewrite decide_False by lia. apply Hbits. lia. }
    rewrite Hbits' by done. destruct (decide (i < offset)) as [H|H].
    + rewrite decide_True by lia. by rewrite decide_False by lia.
    + destruct (decide (i < offset + 1)).
      * rewrite decide_True by lia. replace i with offset by lia. apply bool_decide_ext.
        unfold s. split; [intros; split; [lia | done] | tauto].
      * apply bool_decide_ext. split; intros [? ?]; (split; [lia | done]).
Qed.

Lemma clientAckBitsLocked_spec w i :
  in_u64 (ack w) -> (forall s, s ∈ receivedSeqs w -> 1 <= s) -> 0 <= i < 64 ->
  Z.testbit (clientAckBitsLocked w) i = true <-> ack w <> 0 /\ ack w - i - 1 ∈ receivedSeqs w.
Proof.
  intros Ha Hpos Hi. unfold clientAckBitsLocked. destruct (Z.eqb_spec (ack w) 0) as [E|E].
  - rewrite Z.bits_0. split; [discriminate | tauto].
  - rewrite ack_bits_loop_spec; try done; try (unfold in_u in *; lia); [|intros; apply Z.bits_0].
    rewrite decide_False by lia. rewrite bool_decide_eq_true. split; [tauto|].
    intros [_ ?]. split; [lia | done].
Qed.

Lemma prune_received w s :
  in_u64 (ack w) -> (forall s, s ∈ receivedSeqs w -> 1 <= s) ->
  s ∈ receivedSeqs (pruneClientReceivedSeqsLocked w) <-> s ∈ receivedSeqs w /\ ack w - 64 <= s.
Proof.
  intros Ha Hpos. unfold pruneClientReceivedSeqsLocked. destruct (Z.leb_spec (ack w) 64).
  - split; [|tauto]. intros H1. split; [done|]. specialize (Hpos s H1). lia.
  - simpl. unfold u64_sub. rewrite wrap_small by (unfold in_u in *; lia).
    rewrite elem_of_filter. tauto.
Qed.

Lemma prune_fields w :
  lastSeq (pruneClientReceivedSeqsLocked w) = lastSeq w /\
  ack (pruneClientReceivedSeqsLocked w) = ack w /\
  ackBits (pruneClientReceivedSeqsLocked w) = ackBits w.
Proof. unfold pruneClientReceivedSeqsLocked. by destruct (_ <=? 64). Qed.

(** What the window refuses: a sequence it has, or one 64 or more behind. *)
Definition refused (w : RecvWindow) (sequence : Z) : bool :=
  bool_decide (sequence ∈ receivedSeqs w) ||
  ((0 <? ack w) && (u64_add sequence 64 <=? ack w)).

Lemma accept_sequence_ok history w sequence :
  window_ok history w -> in_u64 sequence ->
  let (w', accepted) := accept_sequence w sequence in
  accepted = (sequence =? 0) || negb (refused w sequence) /\
  window_ok (if accepted && negb (sequence =? 0) then {[sequence]} ∪ history else history) w' /\
  (accepted = false -> w' = w) /\ ack w <= ack w'.
Proof.
  intros Hw Hs. unfold accept_sequence, refused.
  destruct (Z.eqb_spec sequence 0) as [E0|E0]; [by cbn|].
  destruct (decide (sequence ∈ receivedSeqs w)) as [Hin|Hin].
  { by rewrite bool_decide_true. }
  rewrite bool_decide_false by done. cbn [orb].
  destruct ((0 <? ack w) && (u64_add sequence 64 <=? ack w)) eqn:Ewin; [done|].
  destruct Hw as [Hr Ha Hu Hl Hrec Hb].
  set (newest := if ack w <? sequence then sequence else ack w).
  assert ((if ack w <? sequence then (sequence, sequence) else (lastSeq w, ack w)) = (newest, newest)) as ->.
  { unfold newest. rewrite Hl. by destruct (ack w <? sequence). }
  set (w1 := mkWindow newest ({[sequence]} ∪ receivedSeqs w) newest (ackBits w)).
  set (w2 := mkWindow newest ({[sequence]} ∪ receivedSeqs w) newest (clientAckBitsLocked w1)).
  assert (newest = Z.max (ack w) sequence) as Hnew.
  { unfold newest. destruct (Z.ltb_spec (ack w) sequence); lia. }
  assert (in_u64 newest) as Hnu by (unfold in_u in *; lia).
  assert (forall s, s ∈ {[sequence]} ∪ receivedSeqs w -> 1 <= s) as Hpos.
  { intros s [->%elem_of_singleton|Hs']%elem_of_union; [unfold in_u in *; lia|].
    apply Hrec in Hs' as [Hs' _]. apply Hr in Hs'. lia. }
  destruct (prune_fields w2) as (Hf1 & Hf2 & Hf3).
  split; [done|]. cbn [andb negb].
  split; [|split; [done | rewrite Hf2; simpl; lia]].
  split; rewrite ?Hf1, ?Hf2, ?Hf3; simpl.
  - intros s [->%elem_of_singleton|Hs'%Hr]%elem_of_union; unfold in_u in *; lia.
  - right. destruct Ha as [Ha|Ha]; [apply elem_of_union_l, elem_of_singleton; unfold in_u in *; lia|].
    unfold newest. destruct (Z.ltb_spec (ack w) sequence); apply elem_of_union;
      [left; by apply elem_of_singleton | by right].
  - done.
  - done.
  - intros s. rewrite prune_received by done. simpl. rewrite !elem_of_union, elem_of_singleton, Hrec.
    split; [tauto|]. intros [[->|Hs'] Hle]; [tauto|]. split; [right; split; [done|lia] | done].
  - intros i Hi. rewrite (clientAckBitsLocked_spec w1) by done. simpl.
    rewrite !elem_of_union, elem_of_singleton, Hrec. split; [tauto|].
    intros [E|Hs']; [split; [unfold in_u in *; lia | by left]|].
    split; [apply Hr in Hs'; unfold in_u in *; lia|]. right. split; [done | lia].
Qed.

(** A sequence of the history is refused. *)
Lemma window_refuses history w s :
  window_ok history w -> in_u64 s -> s ∈ history -> refused w s = true.
Proof.
  intros [Hr Ha Hu Hl Hrec Hb] Hs Hin. unfold refused. apply orb_true_iff.
  specialize (Hr s Hin). destruct (Z.lt_ge_cases s (ack w - 64)) as [Hlt|Hge].
  - right. apply andb_true_iff. unfold u64_add. rewrite wrap_small by (unfold in_u in *; lia).
    rewrite Z.ltb_lt, Z.leb_le. lia.
  - left. apply bool_decide_eq_true, Hrec. split; [done | lia].
Qed.

(** The acknowledgement state against the history. *)
Lemma window_acked history w s :
  window_ok history w -> in_u64 s -> s <> 0 ->
  packetSequenceAcked (ack w) (ackBits w) s = true <-> s ∈ history /\ ack w - s <= 64.
Proof.
  intros [Hr Ha Hu _ _ Hb] Hs64 Hs0. rewrite packetSequenceAcked_spec by done. split.
  - intros (H0 & Ha0 & [->|[Hd Hbit]]).
    + split; [|lia]. by destruct Ha.
    + apply Hb in Hbit; [|lia]. replace (ack w - (ack w - s - 1) - 1) with s in Hbit by lia.
      split; [done | lia].
  - intros (Hin & Hd). pose proof (Hr s Hin) as Hrange. split; [done|]. split; [lia|].
    destruct (Z.eq_dec s (ack w)) as [|Hne]; [by left|]. right. split; [lia|].
    apply Hb; [lia|]. by replace (ack w - (ack w - s - 1) - 1) with s by lia.
Qed.

(** ** Runs of packets *)

(** The packets of one client in the order they arrive: the window at the end
    and the sequences that were accepted. *)
Fixpoint window_run (w : RecvWindow) (sequences : list Z) : RecvWindow * list Z :=
  match sequences with
  | [] => (w, [])
  | s :: rest =>
      let (w', accepted) := accept_sequence w s in
      let (w'', others) := window_run w' rest in
      (w'', if accepted then s :: others else others)
  end.

Definition nonzero (s : Z) : bool := negb (s =? 0).

Lemma window_run_ok sequences : forall history w,
  window_ok history w -> Forall in_u64 sequences ->
  let (w', accepted) := window_run w sequences in
  let new := List.filter nonzero accepted in
  window_ok (list_to_set new ∪ history) w' /\ NoDup new /\ (forall s, s ∈ new -> s ∉ history).
Proof.
  induction sequences as [|s rest IH]; intros history w Hw Hs; cbn [window_run].
  { simpl. split_and!; [by rewrite union_empty_l_L | constructor | set_solver]. }
  apply Forall_cons in Hs as [Hs Hrest].
  pose proof (accept_sequence_ok history w s Hw Hs) as H.
  destruct (accept_sequence w s) as [w1 accepted]. destruct H as (Hacc & Hw1 & _ & _).
  specialize (IH _ w1 Hw1 Hrest). destruct (window_run w1 rest) as [w2 others].
  destruct IH as (Hw2 & Hnd & Hnew).
  destruct accepted; cbn [List.filter andb] in *; [|by split_and!].
  unfold nonzero in *. destruct (Z.eqb_spec s 0) as [->|Hne]; cbn [negb orb] in *; [by split_and!|].
  assert (s ∉ history) as Hsh.
  { intros Hin. symmetry in Hacc. apply negb_true_iff in Hacc.
    by rewrite (window_refuses _ _ _ Hw Hs Hin) in Hacc. }
  split_and!.
  - replace (list_to_set (s :: List.filter _ others) ∪ history) with
      (list_to_set (List.filter nonzero others) ∪ ({[s]} ∪ history) : gset Z)
      by (apply set_eq; intros x; rewrite !elem_of_union, !elem_of_list_to_set, elem_of_cons,
            elem_of_singleton; tauto).
    exact Hw2.
  - apply NoDup_cons. split; [|done]. intros Hin. apply (Hnew s Hin). set_solver.
  - intros s' [->|Hin]%elem_of_cons; [done|]. specialize (Hnew s' Hin). set_solver.
Qed.

Definition accepted_set (accepted : list Z) : gset Z := list_to_set (List.filter nonzero accepted).

Lemma window_run_new_ok sequences :
  Forall in_u64 sequences ->
  window_ok (accepted_set (window_run newWindow sequences).2) (window_run newWindow sequences).1.
Proof.
  intros Hs. pose proof (window_run_ok sequences ∅ newWindow newWindow_ok Hs) as H.
  destruct (window_run newWindow sequences) as [w accepted]. destruct H as (H & _).
  by rewrite union_empty_r_L in H.
Qed.

(** ** Properties *)

(** Replay protection.  However the packets of a client are reordered,
    duplicated or replayed, no non-zero sequence number is ever accepted twice,
    although old entries of [receivedSeqs] are pruned. *)
Theorem window_accepts_once sequences :
  Forall in_u64 sequences ->
  NoDup (List.filter nonzero (window_run newWindow sequences).2).
Proof.
  intros Hs. pose proof (window_run_ok sequences ∅ newWindow newWindow_ok Hs) as H.
  destruct (window_run newWindow sequences) as [w accepted]. by destruct H as (_ & H & _).
Qed.

Lemma window_accepts_once_witness :
  (window_run newWindow [1; 70; 70; 1; 6; 5; 69; 69]).2 = [1; 70; 69] /\ NoDup [1; 70; 69].
Proof.
  assert ((window_run newWindow [1; 70; 70; 1; 6; 5; 69; 69]).2 = [1; 70; 69]) as E.
  { vm_compute. reflexivity. }
  split; [exact E|].
  pose proof (window_accepts_once [1; 70; 70; 1; 6; 5; 69; 69]) as H. rewrite E in H. apply H.
  repeat constructor; discriminate.
Defined.

(** C22: the acknowledgement state sent to a client is exact: by the receiver's
    own reading of it ([packetSequenceAcked]), a sequence is acknowledged
    exactly when a packet with it was accepted and it is at most 64 behind the
    newest; nothing that was not received is ever acknowledged. *)
Theorem window_acks_exact sequences s :
  Forall in_u64 sequences -> in_u64 s ->
  let (w, accepted) := window_run newWindow sequences in
  packetSequenceAcked (ack w) (ackBits w) s = true <->
  s <> 0 /\ s ∈ accepted /\ ack w - s <= 64.
Proof.
  intros Hs Hs64. pose proof (window_run_new_ok sequences Hs) as H.
  destruct (window_run newWindow sequences) as [w accepted]. simpl in H.
  assert (s ∈ accepted_set accepted <-> s ∈ accepted /\ s <> 0) as Hset.
  { unfold accepted_set. rewrite elem_of_list_to_set, list_elem_of_In, filter_In.
    unfold nonzero. rewrite negb_true_iff, Z.eqb_neq, list_elem_of_In. done. }
  destruct (Z.eq_dec s 0) as [->|Hne].
  { split; [|by intros [? _]]. unfold packetSequenceAcked. cbn. done. }
  rewrite (window_acked _ _ _ H Hs64 Hne), Hset. tauto.
Qed.

Lemma window_acks_exact_witness :
  let (w, _) := window_run newWindow [3; 1; 5] in
  packetSequenceAcked (ack w) (ackBits w) 1 = true.
Proof.
  pose proof (window_acks_exact [3; 1; 5] 1) as H.
  destruct (window_run newWindow [3; 1; 5]) as [w accepted] eqn:E.
  assert (w = (window_run newWindow [3; 1; 5]).1 /\ accepted = (window_run newWindow [3; 1; 5]).2) as [-> ->]
    by (rewrite E; split; reflexivity).
  apply H.
  - repeat constructor; discriminate.
  - split; [discriminate | reflexivity].
  - split; [discriminate|]. split; [|vm_compute; discriminate]. vm_compute. repeat constructor.
Defined.

(** What is accepted.  After any run of packets, a sequence not seen before
    is accepted when it is newer than all before it or at most 63 behind the
    newest (the last 64 sequence numbers of the 64-bit space apart, where the
    window test wraps around); anything 64 or more behind is dropped.  The window
    never holds more than 65 sequences. *)
Theorem window_accepts_fresh sequences s :
  Forall in_u64 sequences -> 1 <= s < 2 ^ 64 - 64 ->
  let (w, accepted) := window_run newWindow sequences in
  ((accept_sequence w s).2 = true <-> (s ∉ accepted) /\ ack w - s <= 63) /\
  Z.of_nat (size (receivedSeqs w)) <= 65.
Proof.
  intros Hs Hrange. pose proof (window_run_new_ok sequences Hs) as H.
  destruct (window_run newWindow sequences) as [w accepted]. simpl in H.
  assert (in_u64 s) as Hs64 by (unfold in_u; lia).
  pose proof (accept_sequence_ok _ w s H Hs64) as Hacc.
  destruct (accept_sequence w s) as [w' b]. destruct Hacc as (-> & _).
  destruct H as [Hr Ha Hu _ Hrec _].
  assert (forall x, x ∈ accepted_set accepted <-> x ∈ accepted /\ x <> 0) as Hset.
  { intros x. unfold accepted_set. rewrite elem_of_list_to_set, list_elem_of_In, filter_In.
    unfold nonzero. rewrite negb_true_iff, Z.eqb_neq, list_elem_of_In. done. }
  split.
  - rewrite (proj2 (Z.eqb_neq s 0)) by lia. cbn [orb snd]. unfold refused.
    rewrite negb_true_iff, orb_false_iff, bool_decide_eq_false, Hrec, Hset, andb_false_iff.
    unfold u64_add. rewrite wrap_small by (unfold in_u; lia).
    rewrite Z.ltb_ge, Z.leb_gt. split.
    + intros [H1 H2]. split; [|unfold in_u in *; lia]. intros Hin. apply H1.
      split; [split; [done | lia] | unfold in_u in *; lia].
    + intros [H1 H2]. split; [tauto|]. right. lia.
  - assert (receivedSeqs w ⊆ list_to_set (seqZ (ack w - 64) 65)) as Hsub.
    { intros x Hx. apply Hrec in Hx as [Hx Hle]. apply Hr in Hx.
      apply elem_of_list_to_set, elem_of_seqZ. lia. }
    apply subseteq_size in Hsub.
    rewrite size_list_to_set, length_seqZ in Hsub by apply NoDup_seqZ. lia.
Qed.

Lemma window_accepts_fresh_witness :
  (accept_sequence (window_run newWindow [3; 90]).1 27).2 = true /\
  Z.of_nat (size (receivedSeqs (window_run newWindow [3; 90]).1)) <= 65.
Proof.
  pose proof (window_accepts_fresh [3; 90] 27) as H.
  destruct (window_run newWindow [3; 90]) as [w accepted] eqn:E.
  destruct H as [H1 H2]; [repeat constructor; discriminate | split; [discriminate | reflexivity] |].
  split; [|exact H2]. apply H1.
  replace accepted with (window_run newWindow [3; 90]).2 by (rewrite E; reflexivity).
  replace w with (window_run newWindow [3; 90]).1 by (rewrite E; reflexivity).
  vm_compute. split; [|discriminate]. intros Hin. repeat (apply elem_of_cons in Hin as [Hin|Hin]; [discriminate|]).
  by apply elem_of_nil in Hin.
Defined.
