(* ===== verification/ReliableIn.v ===== *)
(** * Reliable delivery, receiving side

    [network/udp.go]: [acceptReliableIncomingMessages] and
    [clientSupportsReliable].  A message here is what the loop looks at, its
    delivery class and id, and a [Body] that stands for the rest of
    [udpIncomingMessage]. *)
From S2P Require Import Prelude Messages Packet.

(** The negotiated state of a client that the transport consults. *)
Record WireState := mkWireState {
  wireProtocol : bool;
  wireNegotiated : bool;
  wireVersion : Z;
  wireCapabilities : WireCapabilities;
  maxPacketSize : Z
}.

(** [clientSupportsReliable]; [None] is the nil client. *)
Definition clientSupportsReliable (client : option WireState) (class : DeliveryClass) : bool :=
  match client with
  | None => true
  | Some w =>
      if negb (delivery_reliable class) then true
      else if negb (wireNegotiated w) then true
      else if capabilities_Has (wireCapabilities w) WireCapabilityReliableOrdered &&
              (class =? DeliveryReliableOrdered) then true
      else if capabilities_Has (wireCapabilities w) WireCapabilityReliableUnordered &&
              (class =? DeliveryReliableUnordered) then true
      else false
  end.

Section Incoming.
Context {Body : Type}.

Record udpIncomingMessage := mkIncoming {
  inc_Body : Body;
  inc_delivery : DeliveryClass;
  inc_deliveryID : Z
}.

Record ReliableIn := mkReliableIn {
  reliableUnorderedReceived : gset Z;
  reliableOrderedReceived : gset Z;
  reliableOrderedNext : Z;
  reliableOrderedBuffer : gmap Z udpIncomingMessage
}.

Definition newReliableIn : ReliableIn := mkReliableIn ∅ ∅ 1 ∅.

(** The server counters that the loop touches. *)
Record DropCounters := mkDrops { reliableDrops : Z; requestsDropped : Z }.

(** What the loop carries: the client's state, the counters, [accepted]. *)
Record InLoop := mkInLoop {
  loop_in : ReliableIn;
  loop_drops : DropCounters;
  loop_accepted : list udpIncomingMessage
}.

(** The inner [for] that releases buffered messages. *)
Fixpoint release_buffered (fuel : nat) (r : ReliableIn) (accepted : list udpIncomingMessage)
    : ReliableIn * list udpIncomingMessage :=
  match fuel with
  | O => (r, accepted)
  | S fuel =>
      match reliableOrderedBuffer r !! reliableOrderedNext r with
      | None => (r, accepted)
      | Some buffered =>
          release_buffered fuel
            (mkReliableIn (reliableUnorderedReceived r)
               ({[inc_deliveryID buffered]} ∪ reliableOrderedReceived r)
               (u64_inc (reliableOrderedNext r))
               (delete (reliableOrderedNext r) (reliableOrderedBuffer r)))
            (accepted ++ [buffered])
      end
  end.

Definition drop_reliable (s : InLoop) : InLoop :=
  mkInLoop (loop_in s)
    (mkDrops (u64_inc (reliableDrops (loop_drops s))) (requestsDropped (loop_drops s)))
    (loop_accepted s).
Definition drop_request (s : InLoop) : InLoop :=
  mkInLoop (loop_in s)
    (mkDrops (reliableDrops (loop_drops s)) (u64_inc (requestsDropped (loop_drops s))))
    (loop_accepted s).

(** One turn of the loop over the packet's messages. *)
Definition accept_incoming (wire : WireState) (s : InLoop) (message : udpIncomingMessage) : InLoop :=
  let r := loop_in s in
  let class := inc_delivery message in
  let id := inc_deliveryID message in
  if class =? DeliveryUnreliable then
    mkInLoop r (loop_drops s) (loop_accepted s ++ [message])
  else if class =? DeliveryReliableUnordered then
    if negb (clientSupportsReliable (Some wire) class) then drop_reliable s
    else if id =? 0 then drop_reliable s
    else if decide (id ∈ reliableUnorderedReceived r) then drop_request s
    else
      mkInLoop
        (mkReliableIn ({[id]} ∪ reliableUnorderedReceived r) (reliableOrderedReceived r)
           (reliableOrderedNext r) (reliableOrderedBuffer r))
        (loop_drops s) (loop_accepted s ++ [message])
  else if class =? DeliveryReliableOrdered then
    if negb (clientSupportsReliable (Some wire) class) then drop_reliable s
    else if id =? 0 then drop_reliable s
    else if decide (id ∈ reliableOrderedReceived r) then drop_request s
    else if decide (is_Some (reliableOrderedBuffer r !! id)) then drop_request s
    else if reliableOrderedNext r <? id then
      mkInLoop
        (mkReliableIn (reliableUnorderedReceived r) (reliableOrderedReceived r)
           (reliableOrderedNext r) (<[id := message]> (reliableOrderedBuffer r)))
        (loop_drops s) (loop_accepted s)
    else if id <? reliableOrderedNext r then drop_request s
    else
      let r :=
        mkReliableIn (reliableUnorderedReceived r) ({[id]} ∪ reliableOrderedReceived r)
          (u64_inc (reliableOrderedNext r)) (reliableOrderedBuffer r) in
      let (r, accepted) :=
        release_buffered (S (size (reliableOrderedBuffer r))) r (loop_accepted s ++ [message]) in
      mkInLoop r (loop_drops s) accepted
  else drop_reliable s.

(** [acceptReliableIncomingMessages]. *)
Definition acceptReliableIncomingMessages (wire : WireState) (r : ReliableIn)
    (drops : DropCounters) (messages : list udpIncomingMessage)
    : ReliableIn * DropCounters * list udpIncomingMessage :=
  let s := foldl (accept_incoming wire) (mkInLoop r drops []) messages in
  (loop_in s, loop_drops s, loop_accepted s).

(** A run: the messages of each packet in turn, and all that was accepted. *)
Definition receive_packets (wire : WireState) (packets : list (list udpIncomingMessage)) : InLoop :=
  foldl (fun s messages =>
    let '(r, drops, accepted) :=
      acceptReliableIncomingMessages wire (loop_in s) (loop_drops s) messages in
    mkInLoop r drops (loop_accepted s ++ accepted))
    (mkInLoop newReliableIn (mkDrops 0 0) []) packets.

(** ** Specification

    The abstract receiver knows only the set of ordered ids that arrived: it has
    delivered [1, 2, ...] up to the first one missing. *)
Definition is_ordered (m : udpIncomingMessage) : bool := inc_delivery m =? DeliveryReliableOrdered.
Definition is_unordered (m : udpIncomingMessage) : bool := inc_delivery m =? DeliveryReliableUnordered.
Definition is_unreliable (m : udpIncomingMessage) : bool := inc_delivery m =? DeliveryUnreliable.

Definition ids_of (which : udpIncomingMessage -> bool) (l : list udpIncomingMessage) : list Z :=
  map inc_deliveryID (List.filter which l).

(** Ids are 64 bits wide; the last one would wrap the counter. *)
Definition id_ok (m : udpIncomingMessage) : Prop := 0 <= inc_deliveryID m < 2 ^ 64 - 1.

Record ordered_ok (arrived : gset Z) (r : ReliableIn) (accepted : list udpIncomingMessage)
    : Prop := {
  oo_next : 1 <= reliableOrderedNext r;
  oo_below : forall k, 1 <= k < reliableOrderedNext r -> k ∈ arrived;
  oo_gap : reliableOrderedNext r ∉ arrived;
  oo_received : forall k, k ∈ reliableOrderedReceived r <-> 1 <= k < reliableOrderedNext r;
  oo_buffer : forall k, is_Some (reliableOrderedBuffer r !! k) <->
                        k ∈ arrived /\ reliableOrderedNext r < k;
  oo_entries : forall k m, reliableOrderedBuffer r !! k = Some m ->
                           inc_deliveryID m = k /\ is_ordered m = true;
  oo_accepted : ids_of is_ordered accepted = seqZ 1 (reliableOrderedNext r - 1)
}.

(** The same while [release_buffered] runs: the next id may be buffered. *)
Record releasing (arrived : gset Z) (r : ReliableIn) (accepted : list udpIncomingMessage)
    : Prop := {
  re_next : 1 <= reliableOrderedNext r;
  re_below : forall k, 1 <= k < reliableOrderedNext r -> k ∈ arrived;
  re_received : forall k, k ∈ reliableOrderedReceived r <-> 1 <= k < reliableOrderedNext r;
  re_buffer : forall k, is_Some (reliableOrderedBuffer r !! k) <->
                        k ∈ arrived /\ reliableOrderedNext r <= k;
  re_entries : forall k m, reliableOrderedBuffer r !! k = Some m ->
                           inc_deliveryID m = k /\ is_ordered m = true;
  re_accepted : ids_of is_ordered accepted = seqZ 1 (reliableOrderedNext r - 1)
}.

Lemma ids_of_app which l k : ids_of which (l ++ k) = ids_of which l ++ ids_of which k.
Proof. unfold ids_of. by rewrite List.filter_app, map_app. Qed.

Lemma ids_of_snoc which l m :
  ids_of which (l ++ [m]) = ids_of which l ++ if which m then [inc_deliveryID m] else [].
Proof. rewrite ids_of_app. unfold ids_of. simpl. by destruct (which m). Qed.

Lemma seqZ_snoc n : 1 <= n -> seqZ 1 (n - 1) ++ [n] = seqZ 1 (n + 1 - 1).
Proof.
  intros Hn. replace (n + 1 - 1) with ((n - 1) + 1) by lia. rewrite seqZ_app by lia.
  f_equal. by replace (1 + (n - 1)) with n by lia.
Qed.

Lemma release_buffered_ok fuel : forall arrived r accepted,
  releasing arrived r accepted -> (size (reliableOrderedBuffer r) < fuel)%nat ->
  (forall k, k ∈ arrived -> k < 2 ^ 64 - 1) ->
  ordered_ok arrived (release_buffered fuel r accepted).1 (release_buffered fuel r accepted).2.
Proof.
  induction fuel as [|fuel IH]; intros arrived r accepted Hr Hsize Hmax; [lia|].
  destruct Hr as [Hn Hb Hrec Hbuf Hent Hacc]. cbn [release_buffered].
  destruct (reliableOrderedBuffer r !! reliableOrderedNext r) as [m|] eqn:E.
  - destruct (Hent _ _ E) as [Hid Hord].
    assert (reliableOrderedNext r ∈ arrived) as Hin by (apply Hbuf; by rewrite E).
    assert (u64_inc (reliableOrderedNext r) = reliableOrderedNext r + 1) as Hinc.
    { unfold u64_inc, u64_add. apply wrap_small. specialize (Hmax _ Hin). unfold in_u. lia. }
    apply IH; [| |done].
    2:{ pose proof (map_size_ne_0_lookup_2 (reliableOrderedBuffer r) (reliableOrderedNext r)
          ltac:(by rewrite E)). cbn [reliableOrderedBuffer]. rewrite map_size_delete, E. simpl. lia. }
    split; cbn [reliableOrderedNext reliableOrderedReceived reliableOrderedBuffer]; rewrite ?Hinc.
    + lia.
    + intros k Hk. destruct (Z.eq_dec k (reliableOrderedNext r)) as [->|]; [done|]. apply Hb. lia.
    + intros k. rewrite elem_of_union, elem_of_singleton, Hid, Hrec. lia.
    + intros k. destruct (Z.eq_dec k (reliableOrderedNext r)) as [->|Hne].
      * rewrite lookup_delete_eq. split; [by intros [? ?] | lia].
      * rewrite lookup_delete_ne, Hbuf by done. split; intros [? ?]; (split; [done | lia]).
    + intros k m' Hk. apply lookup_delete_Some in Hk as [_ Hk]. by apply Hent.
    + rewrite ids_of_snoc, Hord, Hacc, Hid. by apply seqZ_snoc.
  - split; cbn [fst snd]; try done.
    + intros Hin. assert (is_Some (reliableOrderedBuffer r !! reliableOrderedNext r)) as [? ?];
        [apply Hbuf; split; [done | lia] | congruence].
    + intros k. rewrite Hbuf. split; [|intros [? ?]; split; [done | lia]].
      intros [Hk Hle]. split; [done|]. destruct (Z.eq_dec k (reliableOrderedNext r)) as [->|]; [|lia].
      assert (is_Some (reliableOrderedBuffer r !! reliableOrderedNext r)) as [? ?];
        [by apply Hbuf | congruence].
Qed.

Lemma release_buffered_unordered fuel : forall r accepted,
  reliableUnorderedReceived (release_buffered fuel r accepted).1 = reliableUnorderedReceived r.
Proof.
  induction fuel as [|fuel IH]; intros r accepted; cbn [release_buffered]; [done|].
  destruct (_ !! _); [by rewrite IH | done].
Qed.

Lemma release_buffered_keeps fuel : forall r accepted k m,
  reliableOrderedBuffer (release_buffered fuel r accepted).1 !! k = Some m ->
  reliableOrderedBuffer r !! k = Some m.
Proof.
  induction fuel as [|fuel IH]; intros r accepted k m; cbn [release_buffered]; [done|].
  destruct (reliableOrderedBuffer r !! reliableOrderedNext r); [|done]. intros H%IH. simpl in H. by apply lookup_delete_Some in H as [_ ?].
Qed.

(** Releasing adds only ordered messages that were buffered. *)
Lemma release_buffered_adds fuel : forall r accepted,
  (forall k m, reliableOrderedBuffer r !! k = Some m -> is_ordered m = true) ->
  exists released, (release_buffered fuel r accepted).2 = accepted ++ released /\
    Forall (fun m => is_ordered m = true /\ exists k, reliableOrderedBuffer r !! k = Some m) released.
Proof.
  induction fuel as [|fuel IH]; intros r accepted Hb; cbn [release_buffered].
  { exists []. by rewrite app_nil_r. }
  destruct (reliableOrderedBuffer r !! reliableOrderedNext r) as [m|] eqn:E.
  2:{ exists []. by rewrite app_nil_r. }
  destruct (IH (mkReliableIn (reliableUnorderedReceived r)
    ({[inc_deliveryID m]} ∪ reliableOrderedReceived r) (u64_inc (reliableOrderedNext r))
    (delete (reliableOrderedNext r) (reliableOrderedBuffer r))) (accepted ++ [m]))
    as (released & -> & Hrel).
  { intros k m' Hk. simpl in Hk. apply lookup_delete_Some in Hk as [_ Hk]. by eapply Hb. }
  exists (m :: released). rewrite <- app_assoc. split; [done|]. constructor; [split; eauto|].
  eapply Forall_impl; [exact Hrel|]. intros m' [? [k Hk]]. simpl in Hk.
  apply lookup_delete_Some in Hk as [_ Hk]. eauto.
Qed.

Lemma class_cases (m : udpIncomingMessage) :
  is_unreliable m = true /\ is_unordered m = false /\ is_ordered m = false \/
  is_unreliable m = false /\ is_unordered m = true /\ is_ordered m = false \/
  is_unreliable m = false /\ is_unordered m = false /\ is_ordered m = true \/
  is_unreliable m = false /\ is_unordered m = false /\ is_ordered m = false.
Proof.
  unfold is_unreliable, is_unordered, is_ordered, DeliveryUnreliable, DeliveryReliableUnordered,
    DeliveryReliableOrdered.
  destruct (Z.eqb_spec (inc_delivery m) 0) as [->|]; [by left|].
  destruct (Z.eqb_spec (inc_delivery m) 2) as [->|]; [by right; left|].
  destruct (Z.eqb_spec (inc_delivery m) 1); tauto.
Qed.
(** ** One packet at a time or all at once *)
Definition add_prefix (pre : list udpIncomingMessage) (s : InLoop) : InLoop :=
  mkInLoop (loop_in s) (loop_drops s) (pre ++ loop_accepted s).

Lemma release_buffered_prefix fuel : forall r pre accepted,
  release_buffered fuel r (pre ++ accepted) =
    ((release_buffered fuel r accepted).1, pre ++ (release_buffered fuel r accepted).2).
Proof.
  induction fuel as [|fuel IH]; intros r pre accepted; cbn [release_buffered]; [done|].
  destruct (_ !! _); [|done]. by rewrite <- app_assoc, IH.
Qed.

Lemma accept_incoming_prefix wire pre s m :
  accept_incoming wire (add_prefix pre s) m = add_prefix pre (accept_incoming wire s m).
Proof.
  unfold accept_incoming, drop_reliable, drop_request, add_prefix. cbn [loop_in loop_drops loop_accepted].
  repeat match goal with |- context [if ?b then _ else _] => destruct b end;
    try done; try by rewrite <- app_assoc.
  rewrite <- app_assoc, release_buffered_prefix. by destruct (release_buffered _ _ _).
Qed.

Lemma foldl_accept_prefix wire pre messages : forall s,
  foldl (accept_incoming wire) (add_prefix pre s) messages =
  add_prefix pre (foldl (accept_incoming wire) s messages).
Proof.
  induction messages as [|m l IH]; intros s; cbn [foldl]; [done|].
  by rewrite accept_incoming_prefix, IH.
Qed.

Lemma receive_packets_concat wire packets :
  receive_packets wire packets =
  foldl (accept_incoming wire) (mkInLoop newReliableIn (mkDrops 0 0) []) (concat packets).
Proof.
  unfold receive_packets. generalize (mkInLoop newReliableIn (mkDrops 0 0) []) as s.
  induction packets as [|p packets IH]; intros s; [done|]. cbn [foldl concat].
  rewrite foldl_app, IH. f_equal. unfold acceptReliableIncomingMessages.
  destruct s as [r d acc]. cbn [loop_in loop_drops loop_accepted].
  pose proof (foldl_accept_prefix wire acc p (mkInLoop r d [])) as H.
  unfold add_prefix at 1 in H. cbn [loop_in loop_drops loop_accepted] in H. rewrite app_nil_r in H.
  by rewrite H.
Qed.

(** ** The loop invariant, against everything that arrived *)

(** The messages of one reliable class that the loop takes notice of. *)
Definition arrives (wire : WireState) (which : udpIncomingMessage -> bool) (m : udpIncomingMessage)
    : bool :=
  which m && (clientSupportsReliable (Some wire) (inc_delivery m) && negb (inc_deliveryID m =? 0)).

Definition arrived (wire : WireState) (which : udpIncomingMessage -> bool)
    (history : list udpIncomingMessage) : gset Z :=
  list_to_set (ids_of (arrives wire which) history).

Lemma arrived_snoc wire which history m k :
  k ∈ arrived wire which (history ++ [m]) <->
  k ∈ arrived wire which history \/ (arrives wire which m = true /\ k = inc_deliveryID m).
Proof.
  unfold arrived. rewrite ids_of_snoc, list_to_set_app, elem_of_union, !elem_of_list_to_set.
  destruct (arrives wire which m); [rewrite list_elem_of_singleton; tauto|].
  rewrite elem_of_nil. intuition discriminate.
Qed.

Record loop_ok (wire : WireState) (history : list udpIncomingMessage) (s : InLoop) : Prop := {
  lo_ordered : ordered_ok (arrived wire is_ordered history) (loop_in s) (loop_accepted s);
  lo_unordered : forall k, k ∈ reliableUnorderedReceived (loop_in s) <->
                           k ∈ arrived wire is_unordered history;
  lo_unordered_ids : NoDup (ids_of is_unordered (loop_accepted s)) /\
    forall k, k ∈ ids_of is_unordered (loop_accepted s) <-> k ∈ arrived wire is_unordered history;
  lo_unreliable : List.filter is_unreliable (loop_accepted s) = List.filter is_unreliable history;
  lo_from : forall m, m ∈ loop_accepted s -> m ∈ history;
  lo_buffered : forall k m, reliableOrderedBuffer (loop_in s) !! k = Some m -> m ∈ history
}.

Lemma ordered_ok_ext a1 a2 r accepted accepted' :
  (forall k, k ∈ a1 <-> k ∈ a2) -> ids_of is_ordered accepted' = ids_of is_ordered accepted ->
  ordered_ok a1 r accepted -> ordered_ok a2 r accepted'.
Proof.
  intros Ha Hids [H1 H2 H3 H4 H5 H6 H7]. split; try done.
  - intros k Hk. apply Ha. by apply H2.
  - by rewrite <- Ha.
  - intros k. by rewrite H5, Ha.
  - by rewrite Hids.
Qed.

(** A message that changes nothing but the counters. *)
Lemma loop_ok_dropped wire history s m drops :
  (arrives wire is_ordered m = true -> inc_deliveryID m ∈ arrived wire is_ordered history) ->
  (arrives wire is_unordered m = true -> inc_deliveryID m ∈ arrived wire is_unordered history) ->
  is_unreliable m = false ->
  loop_ok wire history s ->
  loop_ok wire (history ++ [m]) (mkInLoop (loop_in s) drops (loop_accepted s)).
Proof.
  intros Hso Hsu Hu [Ho Hun [Hnd Hids] Hur Hfrom Hbuf].
  assert (forall k, k ∈ arrived wire is_ordered history <-> k ∈ arrived wire is_ordered (history ++ [m]))
    as Heqo.
  { intros k. rewrite arrived_snoc. split; [tauto|]. intros [?|[H ->]]; [done | by apply Hso]. }
  assert (forall k, k ∈ arrived wire is_unordered history <->
    k ∈ arrived wire is_unordered (history ++ [m])) as Heq.
  { intros k. rewrite arrived_snoc. split; [tauto|]. intros [?|[H ->]]; [done | by apply Hsu]. }
  split; cbn [loop_in loop_accepted].
  - by eapply ordered_ok_ext; [apply Heqo | done |].
  - intros k. by rewrite Hun, Heq.
  - split; [done|]. intros k. by rewrite Hids, Heq.
  - rewrite List.filter_app, Hur. simpl. by rewrite Hu, app_nil_r.
  - intros m' Hm'. apply elem_of_app. auto.
  - intros k m' Hm'. apply elem_of_app. left. by eapply Hbuf.
Qed.

Lemma arrives_false wire which m : which m = false -> arrives wire which m = false.
Proof. unfold arrives. by intros ->. Qed.

Lemma arrived_snoc_other wire which history m k :
  which m = false -> k ∈ arrived wire which (history ++ [m]) <-> k ∈ arrived wire which history.
Proof. intros H. rewrite arrived_snoc, arrives_false by done. intuition discriminate. Qed.
Lemma elem_of_snoc (l : list udpIncomingMessage) m m' : m' ∈ l ++ [m] <-> m' ∈ l \/ m' = m.
Proof. by rewrite elem_of_app, list_elem_of_singleton. Qed.

(** A duplicate and an unsupported ordered message only count. *)
Lemma accept_duplicate wire s m :
  arrives wire is_ordered m = true ->
  inc_deliveryID m ∈ reliableOrderedReceived (loop_in s) \/
  is_Some (reliableOrderedBuffer (loop_in s) !! inc_deliveryID m) ->
  accept_incoming wire s m = drop_request s.
Proof.
  unfold arrives. rewrite !andb_true_iff, negb_true_iff. intros (Ho & Hs & H0) Hdup.
  destruct (class_cases m) as [(? & ? & ?)|[(? & ? & ?)|[(Hr & Hu & _)|(? & ? & ?)]]]; try congruence.
  unfold accept_incoming. unfold is_unreliable, is_unordered, is_ordered in *.
  rewrite Hr, Hu, Ho, Hs, H0. cbn [negb]. destruct (decide _) as [|Hn]; [done|].
  rewrite decide_True; [done | tauto].
Qed.

Lemma accept_unsupported wire s m :
  is_ordered m = true -> arrives wire is_ordered m = false -> accept_incoming wire s m = drop_reliable s.
Proof.
  intros Ho Ha. destruct (class_cases m) as [(? & ? & ?)|[(? & ? & ?)|[(Hr & Hu & _)|(? & ? & ?)]]]; try congruence.
  unfold arrives in Ha. rewrite Ho in Ha. cbn [andb] in Ha.
  unfold accept_incoming. unfold is_unreliable, is_unordered, is_ordered in *. rewrite Hr, Hu, Ho.
  destruct (clientSupportsReliable _ _); cbn [negb andb] in *; [|done].
  apply negb_false_iff in Ha. by rewrite Ha.
Qed.

(** The body of an accepted message that is not ordered. *)
Lemma loop_ok_accepted wire history s m unordered :
  is_ordered m = false -> loop_ok wire history s ->
  (forall k, k ∈ unordered <-> k ∈ arrived wire is_unordered (history ++ [m])) ->
  (is_unordered m = true -> inc_deliveryID m ∉ ids_of is_unordered (loop_accepted s)) ->
  (is_unordered m = true -> arrives wire is_unordered m = true) ->
  loop_ok wire (history ++ [m])
    (mkInLoop (mkReliableIn unordered (reliableOrderedReceived (loop_in s))
       (reliableOrderedNext (loop_in s)) (reliableOrderedBuffer (loop_in s)))
       (loop_drops s) (loop_accepted s ++ [m])).
Proof.
  intros Ho [Hok Hun [Hnd Hids] Hur Hfrom Hbuf] Hset Hfresh Harr.
  split; cbn [loop_in loop_accepted reliableOrderedBuffer reliableUnorderedReceived].
  - assert (ordered_ok (arrived wire is_ordered history)
      (mkReliableIn unordered (reliableOrderedReceived (loop_in s))
       (reliableOrderedNext (loop_in s)) (reliableOrderedBuffer (loop_in s))) (loop_accepted s)) as H
      by (by destruct Hok; split).
    eapply ordered_ok_ext; [| |exact H].
    + intros k. symmetry. by apply arrived_snoc_other.
    + by rewrite ids_of_snoc, Ho, app_nil_r.
  - done.
  - rewrite ids_of_snoc. destruct (is_unordered m) eqn:Eu.
    + split.
      * apply NoDup_app. split_and!; [done | | apply NoDup_singleton].
        intros k Hk ->%list_elem_of_singleton. by apply Hfresh.
      * intros k. rewrite elem_of_app, list_elem_of_singleton, Hids, arrived_snoc.
        split; [intros [?|?]; [tauto|]; right; split; [by apply Harr | done] | tauto].
    + rewrite app_nil_r. split; [done|]. intros k. rewrite Hids. symmetry.
      by apply arrived_snoc_other.
  - by rewrite !List.filter_app, Hur.
  - intros m'. rewrite !elem_of_snoc. intros [?|?]; [left; auto | by right].
  - intros k m' Hk. apply elem_of_snoc. left. by eapply Hbuf.
Qed.

Lemma ordered_only m : is_ordered m = true -> is_unordered m = false /\ is_unreliable m = false.
Proof. destruct (class_cases m) as [(? & ? & ?)|[(? & ? & ?)|[(? & ? & _)|(? & ? & ?)]]]; try congruence. done. Qed.

(** *** A new ordered message: it waits, or it is accepted and releases others *)
Section Ordered.
Context (wire : WireState) (history : list udpIncomingMessage) (s : InLoop) (m : udpIncomingMessage).
Context (Hid : id_ok m) (Hhist : Forall id_ok history) (Hord : is_ordered m = true)
  (Harr : arrives wire is_ordered m = true) (Hok : loop_ok wire history s).

Lemma ordered_buffered :
  reliableOrderedNext (loop_in s) < inc_deliveryID m ->
  loop_ok wire (history ++ [m])
    (mkInLoop (mkReliableIn (reliableUnorderedReceived (loop_in s)) (reliableOrderedReceived (loop_in s))
       (reliableOrderedNext (loop_in s)) (<[inc_deliveryID m := m]> (reliableOrderedBuffer (loop_in s))))
       (loop_drops s) (loop_accepted s)).
Proof.
  intros Hlt. destruct (ordered_only m Hord) as [Hun Hur].
  destruct Hok as [[H1 H2 H3 H4 H5 H6 H7] Hu [Hnd Hids] Hrel Hfrom Hbuf].
  split; cbn [loop_in loop_accepted reliableOrderedBuffer reliableUnorderedReceived].
  - split; cbn [reliableOrderedNext reliableOrderedReceived reliableOrderedBuffer]; try done.
    + intros k Hk. apply arrived_snoc. left. by apply H2.
    + rewrite arrived_snoc. intros [?|[_ ?]]; [done | lia].
    + intros k. rewrite arrived_snoc. destruct (Z.eq_dec k (inc_deliveryID m)) as [->|Hne].
      { rewrite lookup_insert_eq. split; [intros; split; [by right | lia] | eauto]. }
      rewrite lookup_insert_ne, H5 by done. split; [tauto|]. intros [[?|[_ ?]] ?]; [done | congruence].
    + intros k m' Hk. apply lookup_insert_Some in Hk as [[<- <-]|[_ Hk]]; [done | by apply H6].
  - intros k. rewrite Hu. symmetry. by apply arrived_snoc_other.
  - split; [done|]. intros k. rewrite Hids. symmetry. by apply arrived_snoc_other.
  - rewrite List.filter_app, Hrel. simpl. by rewrite Hur, app_nil_r.
  - intros m' Hm'. apply elem_of_snoc. left. auto.
  - intros k m' Hk. apply elem_of_snoc. apply lookup_insert_Some in Hk as [[_ <-]|[_ Hk]];
      [by right | left; by eapply Hbuf].
Qed.

Context (Hnext : inc_deliveryID m = reliableOrderedNext (loop_in s)).

(** The state that [release_buffered] starts in. *)
Definition releasing_state : ReliableIn :=
  mkReliableIn (reliableUnorderedReceived (loop_in s))
    ({[inc_deliveryID m]} ∪ reliableOrderedReceived (loop_in s)) (u64_inc (reliableOrderedNext (loop_in s)))
    (reliableOrderedBuffer (loop_in s)).

Lemma ordered_releasing :
  releasing (arrived wire is_ordered (history ++ [m])) releasing_state (loop_accepted s ++ [m]).
Proof.
  destruct (lo_ordered _ _ _ Hok) as [H1 H2 H3 H4 H5 H6 H7].
  assert (u64_inc (reliableOrderedNext (loop_in s)) = reliableOrderedNext (loop_in s) + 1) as Hinc.
  { unfold u64_inc, u64_add. apply wrap_small. unfold id_ok in Hid. unfold in_u. lia. }
  split; unfold releasing_state; cbn [reliableOrderedNext reliableOrderedReceived reliableOrderedBuffer];
    rewrite ?Hinc.
  - lia.
  - intros k Hk. apply arrived_snoc. destruct (Z.eq_dec k (inc_deliveryID m)) as [->|];
      [by right | left; apply H2; lia].
  - intros k. rewrite elem_of_union, elem_of_singleton, H4. lia.
  - intros k. rewrite H5, arrived_snoc. split.
    + intros [? ?]. split; [by left | lia].
    + intros [[?|[_ ?]] ?]; [split; [done | lia] | lia].
  - done.
  - rewrite ids_of_snoc, Hord, H7, Hnext. by apply seqZ_snoc.
Qed.

(** What is released is ordered, and of ids that are in range. *)
Lemma released_ordered released :
  Forall (fun m' : udpIncomingMessage => is_ordered m' = true /\
    exists k, reliableOrderedBuffer releasing_state !! k = Some m') released ->
  List.filter is_unreliable released = [] /\ List.filter is_unordered released = [].
Proof.
  induction 1 as [|m' l [Hm' _] _ [IH1 IH2]]; [done|]. simpl.
  destruct (class_cases m') as [(? & ? & ?)|[(? & ? & ?)|[(-> & -> & _)|(? & ? & ?)]]]; try congruence. done.
Qed.

Lemma arrived_ids k : k ∈ arrived wire is_ordered (history ++ [m]) -> k < 2 ^ 64 - 1.
Proof.
  intros [Hk|[_ ->]]%arrived_snoc; [|by apply Hid].
  unfold arrived in Hk. apply elem_of_list_to_set, list_elem_of_fmap in Hk as (m' & -> & Hm').
  apply list_elem_of_In, filter_In in Hm' as [Hm' _]. apply list_elem_of_In in Hm'.
  rewrite Forall_forall in Hhist. by apply Hhist.
Qed.

Lemma ordered_released fuel :
  (size (reliableOrderedBuffer (loop_in s)) < fuel)%nat ->
  let out := release_buffered fuel releasing_state (loop_accepted s ++ [m]) in
  loop_ok wire (history ++ [m]) (mkInLoop out.1 (loop_drops s) out.2).
Proof.
  intros Hfuel out. subst out. destruct (ordered_only m Hord) as [Hun Hur].
  pose proof (release_buffered_ok fuel _ _ _ ordered_releasing Hfuel arrived_ids) as Hout.
  pose proof (release_buffered_unordered fuel releasing_state (loop_accepted s ++ [m])) as Hru.
  destruct (release_buffered_adds fuel releasing_state (loop_accepted s ++ [m])) as (released & Hacc & Hrel').
  { intros k m' Hk. by apply (oo_entries _ _ _ (lo_ordered _ _ _ Hok)) in Hk as [_ Hk]. }
  pose proof (release_buffered_keeps fuel releasing_state (loop_accepted s ++ [m])) as Hkeep.
  destruct (release_buffered _ _ _) as [r' accepted]. cbn [fst snd] in *. subst accepted.
  destruct (released_ordered released Hrel') as [Hf1 Hf2].
  destruct Hok as [_ Hu [Hnd Hids] Hrel Hfrom Hbuf].
  split; cbn [loop_in loop_accepted]; [done | | | | |].
  - intros k. rewrite Hru. unfold releasing_state. cbn [reliableUnorderedReceived]. rewrite Hu. symmetry. by apply arrived_snoc_other.
  - rewrite ids_of_app, ids_of_snoc, Hun, app_nil_r. unfold ids_of at 2 4. rewrite Hf2. simpl.
    rewrite app_nil_r. split; [done|]. intros k. rewrite Hids. symmetry. by apply arrived_snoc_other.
  - by rewrite !List.filter_app, Hrel, Hf1, app_nil_r.
  - intros m'. rewrite elem_of_app, elem_of_snoc. intros [[Hm'| ->]|Hm']; apply elem_of_snoc; [left; auto | by right | left].
    rewrite Forall_forall in Hrel'. destruct (Hrel' _ Hm') as [_ [k Hk]]. by eapply Hbuf.
  - intros k m' Hk. apply elem_of_snoc. left. eapply Hbuf. apply Hkeep, Hk.
Qed.
End Ordered.

Lemma accept_ordered_ok wire history s m :
  id_ok m -> Forall id_ok history -> is_ordered m = true -> arrives wire is_ordered m = true ->
  loop_ok wire history s ->
  reliableOrderedNext (loop_in s) <= inc_deliveryID m ->
  inc_deliveryID m ∉ reliableOrderedReceived (loop_in s) ->
  ~ is_Some (reliableOrderedBuffer (loop_in s) !! inc_deliveryID m) ->
  loop_ok wire (history ++ [m]) (accept_incoming wire s m).
Proof.
  intros Hid Hhist Hord Harr Hok Hle Hnr Hnb. destruct (ordered_only m Hord) as [Hun Hur].
  assert (Harr' := Harr). unfold arrives in Harr'. rewrite Hord in Harr'.
  apply andb_true_iff in Harr' as [_ [Hsup Hne0]%andb_true_iff]. apply negb_true_iff in Hne0.
  unfold accept_incoming. rewrite Hsup, Hne0. cbn [negb].
  unfold is_unreliable, is_unordered, is_ordered in Hur, Hun. rewrite Hur, Hun.
  assert (Hord' := Hord). unfold is_ordered in Hord'. rewrite Hord'. rewrite !decide_False by done.
  destruct (Z.ltb_spec (reliableOrderedNext (loop_in s)) (inc_deliveryID m)) as [Hlt|Hge];
    [by apply ordered_buffered|].
  rewrite (proj2 (Z.ltb_ge _ _)) by lia.
  pose proof (ordered_released wire history s m Hid Hhist Hord Harr Hok ltac:(lia)
    (S (size (reliableOrderedBuffer (loop_in s)))) ltac:(lia)) as H.
  cbv zeta in H. unfold releasing_state in H. cbn [reliableOrderedBuffer] in *. by destruct (release_buffered _ _ _).
Qed.

Lemma accept_incoming_ok wire history s m :
  id_ok m -> Forall id_ok history -> loop_ok wire history s ->
  loop_ok wire (history ++ [m]) (accept_incoming wire s m).
Proof.
  intros Hid Hhist Hok. destruct (class_cases m) as [(Hr & Hu & Ho)|[(Hr & Hu & Ho)|[(Hr & Hu & Ho)|(Hr & Hu & Ho)]]].
  - unfold accept_incoming. unfold is_unreliable in Hr. rewrite Hr.
    destruct s as [[u o n b] d acc]. apply (loop_ok_accepted wire history (mkInLoop (mkReliableIn u o n b) d acc));
      try done; try congruence.
    intros k. rewrite (lo_unordered _ _ _ Hok). symmetry. by apply arrived_snoc_other.
  - assert (Hc := conj Hr Hu). unfold is_unreliable, is_unordered in Hc. destruct Hc as [Hc1 Hc2].
    unfold accept_incoming. rewrite Hc1, Hc2.
    assert (arrives wire is_ordered m = false) as Hao by by apply arrives_false.
    assert (arrives wire is_unordered m =
      clientSupportsReliable (Some wire) (inc_delivery m) && negb (inc_deliveryID m =? 0)) as Hau
      by (unfold arrives; by rewrite Hu).
    destruct (clientSupportsReliable _ _) eqn:Es; cbn [negb andb] in *;
      [|apply loop_ok_dropped; [congruence.. | done]].
    destruct (inc_deliveryID m =? 0) eqn:E0; cbn [negb] in *; [apply loop_ok_dropped; [congruence.. | done]|].
    destruct (decide _) as [Hdup|Hnew].
    + apply loop_ok_dropped; [congruence | | done | done]. intros _. by apply Hok.
    + apply loop_ok_accepted; try done.
      * intros k. rewrite elem_of_union, elem_of_singleton, (lo_unordered _ _ _ Hok), arrived_snoc. tauto.
      * intros _ Hin. apply Hnew. apply (lo_unordered _ _ _ Hok). by apply (lo_unordered_ids _ _ _ Hok).
  - destruct (arrives wire is_ordered m) eqn:Harr.
    + destruct (Z.lt_ge_cases (inc_deliveryID m) (reliableOrderedNext (loop_in s))) as [Hlt|Hge].
      2:{ destruct (decide (inc_deliveryID m ∈ reliableOrderedReceived (loop_in s))) as [Hin|Hnin].
          { apply (lo_ordered _ _ _ Hok) in Hin. lia. }
          destruct (decide (is_Some (reliableOrderedBuffer (loop_in s) !! inc_deliveryID m))) as [Hb|Hnb];
            [|by apply accept_ordered_ok].
          rewrite (accept_duplicate wire s m) by tauto. apply loop_ok_dropped; try done.
          - intros _. by apply (oo_buffer _ _ _ (lo_ordered _ _ _ Hok)).
          - by rewrite arrives_false. }
      assert (Harr' := Harr). unfold arrives in Harr'. rewrite !andb_true_iff, negb_true_iff, Z.eqb_neq in Harr'.
      destruct Harr' as (_ & _ & Hne0).
      assert (1 <= inc_deliveryID m < reliableOrderedNext (loop_in s)) as Hrange by (unfold id_ok in Hid; lia).
      rewrite (accept_duplicate wire s m); [|done|].
      * apply loop_ok_dropped; try done; [|by rewrite arrives_false].
        intros _. by apply (oo_below _ _ _ (lo_ordered _ _ _ Hok)).
      * left. by apply (oo_received _ _ _ (lo_ordered _ _ _ Hok)).
    + rewrite (accept_unsupported wire s m) by done. apply loop_ok_dropped; try done; [congruence|].
      by rewrite arrives_false.
  - unfold accept_incoming. unfold is_unreliable, is_unordered, is_ordered in *. rewrite Hr, Hu, Ho.
    apply loop_ok_dropped; try done; by rewrite arrives_false.
Qed.
Lemma foldl_accept_ok wire messages : forall history s,
  Forall id_ok history -> Forall id_ok messages -> loop_ok wire history s ->
  loop_ok wire (history ++ messages) (foldl (accept_incoming wire) s messages).
Proof.
  induction messages as [|m l IH]; intros history s Hh Hm Hok; [by rewrite app_nil_r|].
  apply Forall_cons in Hm as [Hm Hl]. cbn [foldl].
  replace (history ++ m :: l) with ((history ++ [m]) ++ l) by by rewrite <- app_assoc.
  apply IH; [by apply Forall_app; split; [|constructor] | done | by apply accept_incoming_ok].
Qed.

Lemma newReliableIn_ok wire : loop_ok wire [] (mkInLoop newReliableIn (mkDrops 0 0) []).
Proof.
  split; cbn; try done.
  - split; cbn; try done; try lia.
    + intros k. rewrite elem_of_empty. lia.
    + intros k. rewrite lookup_empty. split; [by intros [? ?] | by intros [? _]].
  - split; [by apply NoDup_nil|]. intros k. change (k ∈ [] <-> k ∈ (∅ : gset Z)).
    by rewrite elem_of_nil, elem_of_empty.
Qed.

Lemma receive_packets_ok wire packets :
  Forall id_ok (concat packets) -> loop_ok wire (concat packets) (receive_packets wire packets).
Proof.
  intros H. rewrite receive_packets_concat.
  apply (foldl_accept_ok wire (concat packets) []); [constructor | done | apply newReliableIn_ok].
Qed.

(** ** Properties *)

(** C2: reliable ordered delivery.  Whatever the order, repetition and grouping
    into packets in which ordered messages arrive, what is handed on is exactly
    the ids 1, 2, ..., n in this order, each once, where n + 1 is the first id
    that has not arrived: nothing is skipped, repeated or reordered, and nothing
    that can be handed on is held back. *)
Theorem ordered_delivery wire packets :
  Forall id_ok (concat packets) ->
  exists n, 0 <= n /\
    ids_of is_ordered (loop_accepted (receive_packets wire packets)) = seqZ 1 n /\
    (forall k, 1 <= k <= n -> k ∈ arrived wire is_ordered (concat packets)) /\
    n + 1 ∉ arrived wire is_ordered (concat packets).
Proof.
  intros H. pose proof (lo_ordered _ _ _ (receive_packets_ok wire packets H)) as [H1 H2 H3 _ _ _ H7].
  set (next := reliableOrderedNext (loop_in (receive_packets wire packets))) in *.
  exists (next - 1). split_and!; [lia | done | intros; apply H2; lia | ].
  by replace (next - 1 + 1) with next by lia.
Qed.

(** Reliable unordered delivery.  Every supported unordered message with a
    non-zero id is handed on once: the ids handed on are those that arrived,
    without repetition. *)
Theorem unordered_delivery wire packets :
  Forall id_ok (concat packets) ->
  let accepted := loop_accepted (receive_packets wire packets) in
  NoDup (ids_of is_unordered accepted) /\
  (forall k, k ∈ ids_of is_unordered accepted <-> k ∈ arrived wire is_unordered (concat packets)).
Proof. intros H. apply (lo_unordered_ids _ _ _ (receive_packets_ok wire packets H)). Qed.

(** The reliable machinery neither loses, repeats nor reorders unreliable
    messages, and hands on nothing that did not arrive. *)
Theorem unreliable_delivery wire packets :
  Forall id_ok (concat packets) ->
  let accepted := loop_accepted (receive_packets wire packets) in
  List.filter is_unreliable accepted = List.filter is_unreliable (concat packets) /\
  forall m, m ∈ accepted -> m ∈ concat packets.
Proof.
  intros H. pose proof (receive_packets_ok wire packets H) as Hok. split.
  - apply (lo_unreliable _ _ _ Hok).
  - apply (lo_from _ _ _ Hok).
Qed.
End Incoming.

(** ** Witnesses *)
Definition example_wire : WireState := mkWireState true true 1 7 1200.
Definition example_packets : list (list udpIncomingMessage) :=
  let o id := mkIncoming tt DeliveryReliableOrdered id in
  let u id := mkIncoming tt DeliveryReliableUnordered id in
  [[o 3; u 9]; [o 1; mkIncoming tt DeliveryUnreliable 0]; [o 1; u 9]; [o 2; o 5]].

Lemma example_packets_ok : Forall id_ok (concat example_packets).
Proof. repeat (constructor; [split; [discriminate | reflexivity]|]). constructor. Qed.

Lemma ordered_delivery_witness :
  ids_of is_ordered (loop_accepted (receive_packets example_wire example_packets)) = [1; 2; 3] /\
  exists n, 0 <= n /\
    ids_of is_ordered (loop_accepted (receive_packets example_wire example_packets)) = seqZ 1 n.
Proof.
  split; [vm_compute; reflexivity|].
  destruct (ordered_delivery example_wire example_packets example_packets_ok) as (n & Hn & H & _).
  exists n. split; [exact Hn | exact H].
Defined.

Lemma unordered_delivery_witness :
  NoDup (ids_of is_unordered (loop_accepted (receive_packets example_wire example_packets))).
Proof. exact (proj1 (unordered_delivery example_wire example_packets example_packets_ok)). Defined.

Lemma unreliable_delivery_witness :
  List.filter is_unreliable (loop_accepted (receive_packets example_wire example_packets)) =
    [mkIncoming tt DeliveryUnreliable 0].
Proof. exact (proj1 (unreliable_delivery example_wire example_packets example_packets_ok)). Defined.
