(* ===== verification/ReliableOut.v ===== *)
(** * Reliable delivery, sending side

    [network/udp.go]: [prepareReliableMessage], [queueReliableOutbound],
    [removeAckedReliableLocked] and [collectReliableRetransmits].  A Go [range]
    over a map walks it in an unspecified order: where the order can be seen (it
    decides which retransmission gets which sequence number) it is an argument. *)
From S2P Require Import Prelude Messages Packet Config Window ReliableIn.

(** ** State *)
Record udpReliableOutbound := mkOutbound {
  out_message : WireMessage;
  out_attempts : Z;
  out_lastSentAt : Z;
  out_sentSequences : gset Z
}.

(** The fields of [UDPClient] that the sending side owns. *)
Record ReliableOut := mkReliableOut {
  nextReliableID : Z;
  reliableOut : gmap Z udpReliableOutbound
}.

Definition newReliableOut : ReliableOut := mkReliableOut 0 ∅.

(** The server's counters of the sending side, and its packet sequence. *)
Record OutCounters := mkOutCounters {
  oc_reliableQueued : Z;
  oc_reliableRetransmits : Z;
  oc_reliableDrops : Z;
  oc_reliableAckRemovals : Z;
  oc_oversizedOutbound : Z;
  oc_nextSequence : Z
}.

Definition count_drop (c : OutCounters) : OutCounters :=
  mkOutCounters (oc_reliableQueued c) (oc_reliableRetransmits c) (u64_inc (oc_reliableDrops c))
    (oc_reliableAckRemovals c) (oc_oversizedOutbound c) (oc_nextSequence c).

(** [nextOutgoingSequenceLocked]. *)
Definition nextOutgoingSequenceLocked (c : OutCounters) : OutCounters * Z :=
  let sequence := u64_inc (oc_nextSequence c) in
  (mkOutCounters (oc_reliableQueued c) (oc_reliableRetransmits c) (oc_reliableDrops c)
     (oc_reliableAckRemovals c) (oc_oversizedOutbound c) sequence, sequence).

Definition set_delivery (m : WireMessage) (class : DeliveryClass) (id : Z) : WireMessage :=
  mkWireMessage (msg_Type m) (msg_Payload m) class id.

(** ** Operations *)

(** [prepareReliableMessage] for a client that is not nil: the message is updated
    in place. *)
Definition prepareReliableMessage (config : Config) (wire : WireState) (out : ReliableOut)
    (c : OutCounters) (message : WireMessage)
    : ReliableOut * OutCounters * WireMessage * result unit :=
  if negb (delivery_reliable (msg_Delivery message)) then (out, c, message, Ok tt)
  else if negb (clientSupportsReliable (Some wire) (msg_Delivery message)) then
    (out, c, set_delivery message DeliveryUnreliable 0, Ok tt)
  else if ReliableQueueLimit config <=? Z.of_nat (size (reliableOut out)) then
    (out, count_drop c, message, Err ErrReliableQueueFull)
  else
    let id := u64_inc (nextReliableID out) in
    (mkReliableOut id (reliableOut out), c, set_delivery message (msg_Delivery message) id, Ok tt).

(** [queueReliableOutbound] for a client that is not nil. *)
Definition queueReliableOutbound (config : Config) (out : ReliableOut) (c : OutCounters)
    (message : WireMessage) (sequence sentAt : Z) : ReliableOut * OutCounters * result unit :=
  if negb (delivery_reliable (msg_Delivery message)) then (out, c, Ok tt)
  else if msg_DeliveryID message =? 0 then (out, c, Err ErrReliableMessageID)
  else if ReliableQueueLimit config <=? Z.of_nat (size (reliableOut out)) then
    (out, count_drop c, Err ErrReliableQueueFull)
  else
    (mkReliableOut (nextReliableID out)
       (<[msg_DeliveryID message := mkOutbound message 1 sentAt {[sequence]}]> (reliableOut out)),
     mkOutCounters (u64_inc (oc_reliableQueued c)) (oc_reliableRetransmits c) (oc_reliableDrops c)
       (oc_reliableAckRemovals c) (oc_oversizedOutbound c) (oc_nextSequence c),
     Ok tt).

(** [negotiatedMaxPacketSize] for a client that is not nil. *)
Definition negotiatedMaxPacketSize (config : Config) (wire : WireState) : Z :=
  if maxPacketSize wire <=? 0 then MaxUDPPacketSize config
  else if maxPacketSize wire <? MaxUDPPacketSize config then maxPacketSize wire
  else MaxUDPPacketSize config.

(** [validateOutboundPacket] for a client that is not nil, less the log line. *)
Definition validateOutboundPacket (config : Config) (wire : WireState) (c : OutCounters)
    (payload : bytes) : OutCounters * result unit :=
  let limit := MaxUDPPacketSize config in
  let negotiated := negotiatedMaxPacketSize config wire in
  let limit := if (0 <? negotiated) && (negotiated <? limit) then negotiated else limit in
  if zlen payload <=? limit then (c, Ok tt)
  else
    (mkOutCounters (oc_reliableQueued c) (oc_reliableRetransmits c) (oc_reliableDrops c)
       (oc_reliableAckRemovals c) (u64_inc (oc_oversizedOutbound c)) (oc_nextSequence c),
     Err ErrUDPPacketTooLarge).

(** What a send leaves: the queue, the counters, the packet handed to the
    connection, if any, and the error. *)
Record Sent := mkSent {
  sent_out : ReliableOut;
  sent_counters : OutCounters;
  sent_packet : option bytes;
  sent_result : result unit
}.

(** [sendUDPResponse] from the encoded message up to the budget, for a wire client
    that is not nil: the message with its delivery, its sequence and its packet. *)
Definition prepare_send (config : Config) (wire : WireState) (window : RecvWindow)
    (out : ReliableOut) (c : OutCounters) (message : WireMessage)
    : ReliableOut * OutCounters * result (WireMessage * Z * bytes) :=
  let '(out, c, message, r) := prepareReliableMessage config wire out c message in
  match r with
  | Err e => (out, c, Err e)
  | Ok _ =>
      let (c, sequence) := nextOutgoingSequenceLocked c in
      match EncodePacketWithAcks sequence (ack window) (ackBits window) [message] with
      | Err e => (out, c, Err e)
      | Ok payload =>
          let (c, r) := validateOutboundPacket config wire c payload in
          match r with
          | Err e => (out, c, Err e)
          | Ok _ => (out, c, Ok (message, sequence, payload))
          end
      end
  end.

(** The rest of it, up to the connection; [reserved] is the answer of
    [reserveOutboundBudget]. *)
Definition finish_send (config : Config) (out : ReliableOut) (c : OutCounters) (message : WireMessage)
    (sequence : Z) (payload : bytes) (sentAt : Z) (reserved : bool) : Sent :=
  if negb reserved then mkSent out c None (Ok tt)
  else
    let '(out, c, r) :=
      if delivery_reliable (msg_Delivery message)
      then queueReliableOutbound config out c message sequence sentAt
      else (out, c, Ok tt) in
    match r with
    | Err e => mkSent out c None (Err e)
    | Ok _ => mkSent out c (Some payload) (Ok tt)
    end.

Definition sendUDPResponse (config : Config) (wire : WireState) (window : RecvWindow)
    (out : ReliableOut) (c : OutCounters) (message : WireMessage) (sentAt : Z) (reserved : bool)
    : Sent :=
  let '(out, c, r) := prepare_send config wire window out c message in
  match r with
  | Err e => mkSent out c None (Err e)
  | Ok (message, sequence, payload) => finish_send config out c message sequence payload sentAt reserved
  end.

(** Some packet that carried the message is acknowledged. *)
Definition outbound_acked (ack ackBits : Z) (queued : udpReliableOutbound) : bool :=
  existsb (packetSequenceAcked ack ackBits) (elements (out_sentSequences queued)).

(** [removeAckedReliableLocked]. *)
Definition removeAckedReliableLocked (out : ReliableOut) (c : OutCounters) (ack ackBits : Z)
    : ReliableOut * OutCounters :=
  if bool_decide (size (reliableOut out) = 0%nat) then (out, c)
  else
    let kept := filter (fun e => outbound_acked ack ackBits e.2 = false) (reliableOut out) in
    (mkReliableOut (nextReliableID out) kept,
     mkOutCounters (oc_reliableQueued c) (oc_reliableRetransmits c) (oc_reliableDrops c)
       (u64_add (oc_reliableAckRemovals c)
          (Z.of_nat (size (reliableOut out)) - Z.of_nat (size kept)))
       (oc_oversizedOutbound c) (oc_nextSequence c)).

(** What [collectReliableRetransmits] carries through its loops for one client. *)
Record Collect := mkCollect {
  co_out : gmap Z udpReliableOutbound;
  co_counters : OutCounters;
  co_transmits : list bytes
}.

(** One turn of the inner loop. *)
Definition collect_queued (config : Config) (now clientAck clientAckBits : Z) (s : Collect)
    (deliveryID : Z) : Collect :=
  match co_out s !! deliveryID with
  | None => s
  | Some queued =>
      if now - out_lastSentAt queued <? ReliableRetryInterval config then s
      else if ReliableMaxAttempts config <=? out_attempts queued then
        mkCollect (delete deliveryID (co_out s)) (count_drop (co_counters s)) (co_transmits s)
      else
        let (c, sequence) := nextOutgoingSequenceLocked (co_counters s) in
        match EncodePacketWithAcks sequence clientAck clientAckBits [out_message queued] with
        | Err _ =>
            mkCollect (delete deliveryID (co_out s)) (count_drop c) (co_transmits s)
        | Ok payload =>
            mkCollect
              (<[deliveryID := mkOutbound (out_message queued) (out_attempts queued + 1) now
                                 ({[sequence]} ∪ out_sentSequences queued)]> (co_out s))
              (mkOutCounters (oc_reliableQueued c) (u64_inc (oc_reliableRetransmits c))
                 (oc_reliableDrops c) (oc_reliableAckRemovals c) (oc_oversizedOutbound c) (oc_nextSequence c))
              (co_transmits s ++ [payload])
        end
  end.

(** The inner loop: [order] lists the keys of the client's queue. *)
Definition collect_client (config : Config) (now clientAck clientAckBits : Z) (order : list Z)
    (out : ReliableOut) (c : OutCounters) : ReliableOut * OutCounters * list bytes :=
  let s := foldl (collect_queued config now clientAck clientAckBits)
             (mkCollect (reliableOut out) c []) order in
  (mkReliableOut (nextReliableID out) (co_out s), co_counters s, co_transmits s).

(** [collectReliableRetransmits]: [order] lists the clients, each with the keys
    of its queue; a transmission is the client's address and the packet. *)
Definition collectReliableRetransmits (config : Config) (now : Z)
    (order : list (string * list Z)) (clients : gmap string (RecvWindow * ReliableOut))
    (c : OutCounters)
    : gmap string (RecvWindow * ReliableOut) * OutCounters * list (string * bytes) :=
  foldl (fun '(clients, c, transmits) '(addr, ids) =>
    match clients !! addr with
    | None => (clients, c, transmits)
    | Some (window, out) =>
        let '(out', c', packets) :=
          collect_client config now (ack window) (ackBits window) ids out c in
        (<[addr := (window, out')]> clients, c', transmits ++ map (pair addr) packets)
    end) (clients, c, []) order.

(** ** Invariant of the queue *)
Record queue_ok (config : Config) (out : ReliableOut) : Prop := {
  qo_bounded : Z.of_nat (size (reliableOut out)) <= ReliableQueueLimit config;
  qo_next : 0 <= nextReliableID out < 2 ^ 64;
  qo_entries : map_Forall (fun id queued =>
    msg_DeliveryID (out_message queued) = id /\ 1 <= id <= nextReliableID out /\
    delivery_reliable (msg_Delivery (out_message queued)) = true /\
    packet_encodable [out_message queued] = true /\
    1 <= out_attempts queued <= Z.max 1 (ReliableMaxAttempts config)) (reliableOut out)
}.

Lemma newReliableOut_ok config : 0 < ReliableQueueLimit config -> queue_ok config newReliableOut.
Proof. intros H. split; simpl; [rewrite map_size_empty; lia | lia | apply map_Forall_empty]. Qed.

Lemma prepare_ok config wire out c message :
  queue_ok config out -> nextReliableID out < 2 ^ 64 - 1 ->
  queue_ok config (prepareReliableMessage config wire out c message).1.1.1.
Proof.
  intros [Hb Hn He] Hmax. unfold prepareReliableMessage.
  destruct (negb _); [done|]. destruct (negb _); [done|]. destruct (_ <=? _); [done|].
  assert (u64_inc (nextReliableID out) = nextReliableID out + 1) as Hinc.
  { unfold u64_inc, u64_add. apply wrap_small. unfold in_u. lia. }
  split; cbn [fst nextReliableID reliableOut]; [done | lia |].
  rewrite Hinc. eapply map_Forall_impl; [exact He|]. intros id q (? & ? & ? & ? & ?). split_and!; first [done | lia].
Qed.

Lemma queue_message_ok config out c message sequence sentAt :
  queue_ok config out -> 1 <= msg_DeliveryID message <= nextReliableID out ->
  packet_encodable [message] = true ->
  queue_ok config (queueReliableOutbound config out c message sequence sentAt).1.1.
Proof.
  intros [Hb Hn He] Hid Henc. unfold queueReliableOutbound.
  destruct (delivery_reliable (msg_Delivery message)) eqn:Hr; cbn [negb]; [|done].
  destruct (_ =? 0); [done|]. destruct (Z.leb_spec (ReliableQueueLimit config)
    (Z.of_nat (size (reliableOut out)))) as [|Hlt]; [done|].
  split; cbn [fst nextReliableID reliableOut]; [ | done |].
  - pose proof (map_size_insert (msg_DeliveryID message) (mkOutbound message 1 sentAt {[sequence]})
      (reliableOut out)) as Hs. destruct (reliableOut out !! _) in Hs; simpl in Hs; rewrite Hs; lia.
  - apply map_Forall_insert_2; [|done]. cbn [out_message out_attempts]. split_and!; try done; lia.
Qed.

Lemma removeAcked_lookup out c ack bits id :
  reliableOut (removeAckedReliableLocked out c ack bits).1 !! id =
    match reliableOut out !! id with
    | Some q => if outbound_acked ack bits q then None else Some q
    | None => None
    end.
Proof.
  unfold removeAckedReliableLocked. case_bool_decide as Hs; cbn [fst reliableOut].
  - apply map_size_empty_iff in Hs. by rewrite Hs, lookup_empty.
  - rewrite map_lookup_filter. destruct (reliableOut out !! id) as [q|]; simpl; [|done].
    destruct (outbound_acked ack bits q) eqn:E.
    + by rewrite option_guard_False by (simpl; congruence).
    + by rewrite option_guard_True.
Qed.

Lemma removeAcked_ok config out c ack bits :
  queue_ok config out -> queue_ok config (removeAckedReliableLocked out c ack bits).1.
Proof.
  intros [Hb Hn He]. assert (reliableOut (removeAckedReliableLocked out c ack bits).1 ⊆ reliableOut out) as Hsub.
  { apply map_subseteq_spec. intros id q. rewrite removeAcked_lookup.
    destruct (reliableOut out !! id); [|done]. destruct (outbound_acked _ _ _); congruence. }
  assert (nextReliableID (removeAckedReliableLocked out c ack bits).1 = nextReliableID out) as Hnext.
  { unfold removeAckedReliableLocked. by destruct (bool_decide _). }
  split; rewrite ?Hnext; [|done|].
  - apply map_subseteq_size in Hsub. lia.
  - intros id q Hq. apply He. by eapply lookup_weaken.
Qed.

(** *** Retransmission *)
Lemma collect_queued_other config now ack bits s id id' :
  id <> id' -> co_out (collect_queued config now ack bits s id) !! id' = co_out s !! id'.
Proof.
  intros Hne. unfold collect_queued. destruct (co_out s !! id); [|done].
  destruct (_ <? _); [done|]. destruct (_ <=? _); [by apply lookup_delete_ne|].
  destruct (nextOutgoingSequenceLocked _) as [c sequence].
  destruct (EncodePacketWithAcks _ _ _ _); [by apply lookup_insert_ne | by apply lookup_delete_ne].
Qed.

(** What becomes of one queued message. *)
Inductive retransmitted (config : Config) (now : Z) (q : udpReliableOutbound)
    : option udpReliableOutbound -> Prop :=
| retransmit_wait :
    now - out_lastSentAt q < ReliableRetryInterval config -> retransmitted config now q (Some q)
| retransmit_give_up :
    ReliableRetryInterval config <= now - out_lastSentAt q ->
    ReliableMaxAttempts config <= out_attempts q -> retransmitted config now q None
| retransmit_send sequence :
    ReliableRetryInterval config <= now - out_lastSentAt q ->
    out_attempts q < ReliableMaxAttempts config ->
    retransmitted config now q
      (Some (mkOutbound (out_message q) (out_attempts q + 1) now
               ({[sequence]} ∪ out_sentSequences q))).

Lemma collect_queued_same config now ack bits s id q :
  co_out s !! id = Some q -> packet_encodable [out_message q] = true ->
  retransmitted config now q (co_out (collect_queued config now ack bits s id) !! id).
Proof.
  intros Hq He. unfold collect_queued. rewrite Hq.
  destruct (Z.ltb_spec (now - out_lastSentAt q) (ReliableRetryInterval config)).
  { rewrite Hq. by apply retransmit_wait. }
  destruct (Z.leb_spec (ReliableMaxAttempts config) (out_attempts q)).
  { cbn [co_out]. rewrite lookup_delete_eq. by apply retransmit_give_up. }
  unfold nextOutgoingSequenceLocked.
  pose proof (EncodePacketWithAcks_spec (u64_inc (oc_nextSequence (co_counters s))) ack bits
    [out_message q]) as Hs.
  rewrite He in Hs. rewrite Hs. cbn [co_out]. rewrite lookup_insert_eq. by apply retransmit_send.
Qed.

Lemma collect_foldl_other config now ack bits order : forall s id,
  id ∉ order -> co_out (foldl (collect_queued config now ack bits) s order) !! id = co_out s !! id.
Proof.
  induction order as [|i order IH]; intros s id Hid; [done|]. cbn [foldl].
  apply not_elem_of_cons in Hid as [Hne Hid]. rewrite IH by done. by apply collect_queued_other.
Qed.

Lemma collect_foldl_lookup config now ack bits order : forall s id q,
  NoDup order -> id ∈ order -> co_out s !! id = Some q -> packet_encodable [out_message q] = true ->
  retransmitted config now q (co_out (foldl (collect_queued config now ack bits) s order) !! id).
Proof.
  induction order as [|i order IH]; intros s id q Hnd Hid Hq He; [by apply elem_of_nil in Hid|].
  apply NoDup_cons in Hnd as [Hi Hnd]. cbn [foldl]. apply elem_of_cons in Hid as [->|Hid].
  - rewrite collect_foldl_other by done. by apply collect_queued_same.
  - assert (i <> id) by (by intros ->). apply IH; [done | done | | done].
    by rewrite collect_queued_other.
Qed.

Lemma collect_foldl_subset config now ack bits order : forall s id q,
  co_out (foldl (collect_queued config now ack bits) s order) !! id = Some q ->
  is_Some (co_out s !! id).
Proof.
  induction order as [|i order IH]; intros s id q; cbn [foldl]; [by intros ->; eauto|].
  intros H%IH. destruct (Z.eq_dec i id) as [->|Hne]; [|by rewrite collect_queued_other in H].
  destruct (co_out s !! id) eqn:E; [eauto|]. unfold collect_queued in H. by rewrite E, E in H.
Qed.

(** The keys of a queue, in whatever order the walk visits them. *)
Definition walks (order : list Z) (out : ReliableOut) : Prop :=
  NoDup order /\ forall id, id ∈ order <-> is_Some (reliableOut out !! id).

Lemma collect_client_lookup config now ack bits order out c id :
  walks order out -> queue_ok config out ->
  match reliableOut out !! id with
  | None => reliableOut (collect_client config now ack bits order out c).1.1 !! id = None
  | Some q => retransmitted config now q
                (reliableOut (collect_client config now ack bits order out c).1.1 !! id)
  end.
Proof.
  intros [Hnd Hw] He. unfold collect_client. cbn [fst reliableOut].
  destruct (reliableOut out !! id) as [q|] eqn:E.
  - apply (collect_foldl_lookup _ _ _ _ _ (mkCollect (reliableOut out) c [])); try done.
    + apply Hw. by rewrite E.
    + by apply (qo_entries _ _ He id).
  - destruct (co_out _ !! id) as [q|] eqn:Eq; [|done].
    apply collect_foldl_subset in Eq as [q' Hq']. simpl in Hq'. congruence.
Qed.

Lemma collect_client_ok config now ack bits order out c :
  walks order out -> queue_ok config out ->
  queue_ok config (collect_client config now ack bits order out c).1.1.
Proof.
  intros Hw He. pose proof He as [Hb Hn Hent].
  assert (forall id q, reliableOut (collect_client config now ack bits order out c).1.1 !! id = Some q ->
    exists q0, reliableOut out !! id = Some q0 /\ retransmitted config now q0 (Some q)) as Hlook.
  { intros id q Hq. pose proof (collect_client_lookup config now ack bits order out c id Hw He) as H.
    rewrite Hq in H. destruct (reliableOut out !! id); [eauto | done]. }
  split; [| done |].
  - assert (dom (reliableOut (collect_client config now ack bits order out c).1.1) ⊆ dom (reliableOut out)) as Hd.
    { intros id [q Hq]%elem_of_dom. apply Hlook in Hq as (q0 & Hq0 & _). apply elem_of_dom. eauto. }
    apply subseteq_size in Hd. rewrite !size_dom in Hd. lia.
  - intros id q Hq. apply Hlook in Hq as (q0 & Hq0 & Hr). apply Hent in Hq0 as (? & ? & ? & ? & ?).
    assert (nextReliableID (collect_client config now ack bits order out c).1.1 = nextReliableID out) as ->
      by done.
    inversion Hr; subst; cbn [out_message out_attempts]; split_and!; first [done | lia].
Qed.

(** ** A run of the sending side *)
Lemma u64_inc_small n : 0 <= n < 2 ^ 64 - 1 -> u64_inc n = n + 1.
Proof. intros H. unfold u64_inc, u64_add. apply wrap_small. unfold in_u. lia. Qed.

(** [prepareReliableMessage] by cases. *)
Inductive prepared (config : Config) (wire : WireState) (out : ReliableOut) (message : WireMessage)
    : ReliableOut -> WireMessage -> result unit -> Prop :=
| prepared_plain :
    delivery_reliable (msg_Delivery message) = false ->
    prepared config wire out message out message (Ok tt)
| prepared_downgrade :
    clientSupportsReliable (Some wire) (msg_Delivery message) = false ->
    prepared config wire out message out (set_delivery message DeliveryUnreliable 0) (Ok tt)
| prepared_full :
    ReliableQueueLimit config <= Z.of_nat (size (reliableOut out)) ->
    prepared config wire out message out message (Err ErrReliableQueueFull)
| prepared_reliable :
    delivery_reliable (msg_Delivery message) = true ->
    clientSupportsReliable (Some wire) (msg_Delivery message) = true ->
    Z.of_nat (size (reliableOut out)) < ReliableQueueLimit config ->
    prepared config wire out message
      (mkReliableOut (u64_inc (nextReliableID out)) (reliableOut out))
      (set_delivery message (msg_Delivery message) (u64_inc (nextReliableID out))) (Ok tt).

Lemma prepareReliableMessage_spec config wire out c message :
  let '(out', c', message', r) := prepareReliableMessage config wire out c message in
  prepared config wire out message out' message' r /\ oc_nextSequence c' = oc_nextSequence c.
Proof.
  unfold prepareReliableMessage.
  destruct (delivery_reliable (msg_Delivery message)) eqn:Hr; cbn [negb];
    [|split; [by apply prepared_plain | done]].
  destruct (clientSupportsReliable _ _) eqn:Hs; cbn [negb];
    [|split; [by apply prepared_downgrade | done]].
  destruct (Z.leb_spec (ReliableQueueLimit config) (Z.of_nat (size (reliableOut out))));
    (split; [|done]); [by apply prepared_full | by apply prepared_reliable].
Qed.

(** [sendUDPResponse] by cases: [sent] is the queue and the packet that result. *)
Inductive send_outcome (config : Config) (wire : WireState) (window : RecvWindow)
    (out : ReliableOut) (sequence : Z) (message : WireMessage) (sentAt : Z) (reserved : bool)
    : ReliableOut -> option bytes -> Prop :=
| send_nothing out' message' r :
    prepared config wire out message out' message' r ->
    send_outcome config wire window out sequence message sentAt reserved out' None
| send_plain out' message' :
    prepared config wire out message out' message' (Ok tt) -> reserved = true ->
    delivery_reliable (msg_Delivery message') = false -> packet_encodable [message'] = true ->
    send_outcome config wire window out sequence message sentAt reserved out'
      (Some (packet_bytes sequence (ack window) (ackBits window) [message']))
| send_queued out' message' :
    prepared config wire out message out' message' (Ok tt) -> reserved = true ->
    delivery_reliable (msg_Delivery message') = true -> packet_encodable [message'] = true ->
    send_outcome config wire window out sequence message sentAt reserved
      (mkReliableOut (nextReliableID out')
         (<[msg_DeliveryID message' := mkOutbound message' 1 sentAt {[sequence]}]> (reliableOut out')))
      (Some (packet_bytes sequence (ack window) (ackBits window) [message'])).

Lemma sendUDPResponse_spec config wire window out c message sentAt reserved :
  let s := sendUDPResponse config wire window out c message sentAt reserved in
  send_outcome config wire window out (u64_inc (oc_nextSequence c)) message sentAt reserved
    (sent_out s) (sent_packet s).
Proof.
  cbv zeta. unfold sendUDPResponse, prepare_send, finish_send.
  pose proof (prepareReliableMessage_spec config wire out c message) as Hp.
  destruct (prepareReliableMessage config wire out c message) as [[[out' c'] message'] r].
  destruct Hp as [Hp Hseq]. destruct r as [[]|e]; [|by eapply send_nothing].
  unfold nextOutgoingSequenceLocked. rewrite Hseq.
  set (sequence := u64_inc (oc_nextSequence c)).
  pose proof (EncodePacketWithAcks_spec sequence (ack window) (ackBits window) [message']) as Hs.
  destruct (packet_encodable [message']) eqn:Henc; [|destruct Hs as [e ->]; by eapply send_nothing].
  rewrite Hs. unfold validateOutboundPacket.
  destruct (zlen _ <=? _); [|by eapply send_nothing].
  destruct reserved; cbn [negb]; [|by eapply send_nothing].
  destruct (delivery_reliable (msg_Delivery message')) eqn:Hr; [|by eapply send_plain].
  unfold queueReliableOutbound. rewrite Hr. cbn [negb].
  destruct (_ =? 0); [by eapply send_nothing|]. destruct (_ <=? _); [by eapply send_nothing|].
  by apply send_queued.
Qed.

(** The message goes out when it is supported, fits and has its budget. *)
Lemma sendUDPResponse_sends config wire window out c message sentAt :
  let id := u64_inc (nextReliableID out) in
  let sequence := u64_inc (oc_nextSequence c) in
  let message' := set_delivery message (msg_Delivery message) id in
  let packet := packet_bytes sequence (ack window) (ackBits window) [message'] in
  delivery_reliable (msg_Delivery message) = true ->
  clientSupportsReliable (Some wire) (msg_Delivery message) = true ->
  Z.of_nat (size (reliableOut out)) < ReliableQueueLimit config ->
  id <> 0 -> packet_encodable [message'] = true ->
  zlen packet <= negotiatedMaxPacketSize config wire ->
  exists c', oc_nextSequence c' = sequence /\
    sendUDPResponse config wire window out c message sentAt true =
      mkSent (mkReliableOut id (<[id := mkOutbound message' 1 sentAt {[sequence]}]> (reliableOut out)))
        c' (Some packet) (Ok tt).
Proof.
  cbv zeta. intros Hr Hs Hq Hid Henc Hlen.
  unfold sendUDPResponse, prepare_send, finish_send, prepareReliableMessage. rewrite Hr, Hs. cbn [negb].
  rewrite (proj2 (Z.leb_gt _ _)) by done. unfold nextOutgoingSequenceLocked.
  match goal with |- context [EncodePacketWithAcks ?s ?a ?b ?m] =>
    pose proof (EncodePacketWithAcks_spec s a b m) as He end.
  rewrite Henc in He. rewrite He.
  assert (negotiatedMaxPacketSize config wire <= MaxUDPPacketSize config) as Hneg.
  { unfold negotiatedMaxPacketSize. destruct (_ <=? 0); [lia|].
    destruct (Z.ltb_spec (maxPacketSize wire) (MaxUDPPacketSize config)); lia. }
  unfold validateOutboundPacket. rewrite (proj2 (Z.leb_le _ _)) by (destruct (_ && _); lia).
  cbn [negb msg_Delivery set_delivery]. rewrite Hr. unfold queueReliableOutbound.
  cbn [msg_Delivery msg_DeliveryID set_delivery nextReliableID reliableOut]. rewrite Hr.
  cbn [negb]. rewrite (proj2 (Z.eqb_neq _ _)) by done. rewrite (proj2 (Z.leb_gt _ _)) by done.
  eexists. split; [|reflexivity]. done.
Qed.

Lemma send_ok config wire window out c message sentAt reserved :
  queue_ok config out -> nextReliableID out < 2 ^ 64 - 1 ->
  let s := sendUDPResponse config wire window out c message sentAt reserved in
  queue_ok config (sent_out s) /\ nextReliableID (sent_out s) <= nextReliableID out + 1.
Proof.
  intros Hok Hmax. cbv zeta. pose proof (qo_next _ _ Hok) as Hnext.
  pose proof (u64_inc_small (nextReliableID out) ltac:(lia)) as Hinc.
  assert (forall out' message' r, prepared config wire out message out' message' r ->
    queue_ok config out' /\ nextReliableID out' <= nextReliableID out + 1 /\
    (delivery_reliable (msg_Delivery message') = true -> r = Ok tt ->
     1 <= msg_DeliveryID message' <= nextReliableID out' /\
     Z.of_nat (size (reliableOut out')) < ReliableQueueLimit config)) as Hprep.
  { intros out' message' r Hp. pose proof (prepare_ok config wire out c message Hok Hmax) as Hpok.
    destruct Hp as [Hr| |Hfull|Hr Hs Hq].
    - split_and!; [done | lia | congruence].
    - split_and!; [done | lia | done].
    - split_and!; [done | lia | done].
    - unfold prepareReliableMessage in Hpok. rewrite Hr, Hs in Hpok. cbn [negb] in Hpok.
      rewrite (proj2 (Z.leb_gt _ _)) in Hpok by done.
      split_and!; [done | cbn [nextReliableID]; lia |].
      intros _ _. cbn [nextReliableID reliableOut msg_DeliveryID set_delivery]. lia. }
  destruct (sendUDPResponse_spec config wire window out c message sentAt reserved)
    as [out' message' r Hp|out' message' Hp|out' message' Hp _ Hr Henc].
  - by destruct (Hprep _ _ _ Hp) as (? & ? & _).
  - by destruct (Hprep _ _ _ Hp) as (? & ? & _).
  - destruct (Hprep _ _ _ Hp) as (Hok' & Hle & Hid). destruct (Hid Hr eq_refl) as [Hid1 Hsz].
    split; [|done].
    pose proof (queue_message_ok config out' c message' (u64_inc (oc_nextSequence c)) sentAt Hok' Hid1 Henc) as H.
    unfold queueReliableOutbound in H. rewrite Hr in H. cbn [negb] in H.
    rewrite (proj2 (Z.eqb_neq _ _)), (proj2 (Z.leb_gt _ _)) in H by lia. exact H.
Qed.

(** What happens to a client's queue: a send, the acknowledgement state of a
    packet from the client, and a pass of the retransmission timer. *)
Inductive OutEvent :=
| EventSend (wire : WireState) (window : RecvWindow) (message : WireMessage) (sentAt : Z)
    (reserved : bool)
| EventAck (peerAck peerAckBits : Z)
| EventRetransmit (now clientAck clientAckBits : Z) (order : list Z).

Inductive out_step (config : Config)
    : ReliableOut * OutCounters -> OutEvent -> ReliableOut * OutCounters -> Prop :=
| step_send out c wire window message sentAt reserved :
    out_step config (out, c) (EventSend wire window message sentAt reserved)
      (let s := sendUDPResponse config wire window out c message sentAt reserved in
       (sent_out s, sent_counters s))
| step_ack out c peerAck peerAckBits :
    out_step config (out, c) (EventAck peerAck peerAckBits)
      (removeAckedReliableLocked out c peerAck peerAckBits)
| step_retransmit out c now clientAck clientAckBits order :
    walks order out ->
    out_step config (out, c) (EventRetransmit now clientAck clientAckBits order)
      (collect_client config now clientAck clientAckBits order out c).1.

Inductive out_run (config : Config)
    : ReliableOut * OutCounters -> list OutEvent -> ReliableOut * OutCounters -> Prop :=
| run_nil s : out_run config s [] s
| run_cons s e s' events s'' :
    out_step config s e s' -> out_run config s' events s'' -> out_run config s (e :: events) s''.

Lemma out_step_ok config s e s' :
  out_step config s e s' -> queue_ok config s.1 -> nextReliableID s.1 < 2 ^ 64 - 1 ->
  queue_ok config s'.1 /\ nextReliableID s'.1 <= nextReliableID s.1 + 1.
Proof.
  intros Hstep Hok Hmax. destruct Hstep as [out c wire window message sentAt reserved|out c a b|out c now a b order Hw];
    cbn [fst] in *.
  - by apply send_ok.
  - split; [by apply removeAcked_ok|]. unfold removeAckedReliableLocked.
    destruct (bool_decide _); cbn [fst nextReliableID]; lia.
  - split; [by apply collect_client_ok|]. unfold collect_client. cbn [fst nextReliableID]. lia.
Qed.

Lemma out_run_ok config s events s' :
  out_run config s events s' -> queue_ok config s.1 ->
  nextReliableID s.1 + zlen events < 2 ^ 64 - 1 -> queue_ok config s'.1.
Proof.
  intros Hrun. induction Hrun as [s|s e s1 events s2 Hstep _ IH]; intros Hok Hmax; [done|].
  rewrite zlen_cons in Hmax. pose proof (zlen_nonneg events).
  destruct (out_step_ok _ _ _ _ Hstep Hok ltac:(lia)) as [Hok1 Hle].
  apply IH; [done | lia].
Qed.

(** *** The packets of one retransmission pass *)
Definition is_due (config : Config) (now : Z) (q : udpReliableOutbound) : bool :=
  (ReliableRetryInterval config <=? now - out_lastSentAt q) &&
  (out_attempts q <? ReliableMaxAttempts config).

Definition id_due (config : Config) (now : Z) (queue : gmap Z udpReliableOutbound) (id : Z) : bool :=
  match queue !! id with Some q => is_due config now q | None => false end.

(** The retransmission of the message with one id. *)
Definition retransmission (queue : gmap Z udpReliableOutbound) (clientAck clientAckBits : Z)
    (id sequence : Z) : bytes :=
  match queue !! id with
  | Some q => packet_bytes sequence clientAck clientAckBits [out_message q]
  | None => []
  end.

Lemma collect_queued_packets config now a b s id q :
  co_out s !! id = Some q -> packet_encodable [out_message q] = true ->
  let s' := collect_queued config now a b s id in
  let sequence := u64_inc (oc_nextSequence (co_counters s)) in
  if is_due config now q
  then co_transmits s' = co_transmits s ++ [packet_bytes sequence a b [out_message q]] /\
       oc_nextSequence (co_counters s') = sequence
  else co_transmits s' = co_transmits s /\
       oc_nextSequence (co_counters s') = oc_nextSequence (co_counters s).
Proof.
  intros Hq He. cbv zeta. unfold collect_queued, is_due. rewrite Hq.
  destruct (Z.ltb_spec (now - out_lastSentAt q) (ReliableRetryInterval config)).
  { rewrite (proj2 (Z.leb_gt _ _)) by lia. done. }
  rewrite (proj2 (Z.leb_le (ReliableRetryInterval config) _)) by lia. rewrite Z.ltb_antisym.
  destruct (ReliableMaxAttempts config <=? out_attempts q); [done|].
  unfold nextOutgoingSequenceLocked.
  pose proof (EncodePacketWithAcks_spec (u64_inc (oc_nextSequence (co_counters s))) a b
    [out_message q]) as Hs.
  rewrite He in Hs. by rewrite Hs.
Qed.

Lemma seqZ_first x n : 0 <= n -> seqZ x (1 + n) = x :: seqZ (x + 1) n.
Proof.
  intros Hn. rewrite seqZ_cons by lia. by replace (Z.pred (1 + n)) with n by lia.
Qed.

Lemma collect_foldl_packets config now a b (queue : gmap Z udpReliableOutbound) order :
  map_Forall (fun _ q => packet_encodable [out_message q] = true) queue ->
  NoDup order -> (forall id, id ∈ order -> is_Some (queue !! id)) ->
  forall s, (forall id, id ∈ order -> co_out s !! id = queue !! id) ->
  0 <= oc_nextSequence (co_counters s) -> oc_nextSequence (co_counters s) + zlen order < 2 ^ 64 ->
  let s' := foldl (collect_queued config now a b) s order in
  let due := List.filter (id_due config now queue) order in
  co_transmits s' = co_transmits s ++ zip_with (retransmission queue a b) due
    (seqZ (oc_nextSequence (co_counters s) + 1) (zlen due)) /\
  oc_nextSequence (co_counters s') = oc_nextSequence (co_counters s) + zlen due.
Proof.
  intros Henc. induction order as [|id order IH]; intros Hnd Hw s Hsame Hnext Hmax; cbv zeta.
  { simpl. change (zlen (@nil Z)) with 0. rewrite app_nil_r. split; [done | lia]. }
  apply NoDup_cons in Hnd as [Hid Hnd]. rewrite zlen_cons in Hmax. pose proof (zlen_nonneg order).
  destruct (Hw id ltac:(by left)) as [q Hq]. cbn [foldl List.filter].
  assert (id_due config now queue id = is_due config now q) as Hdue by (unfold id_due; by rewrite Hq).
  pose proof (collect_queued_packets config now a b s id q
    ltac:(rewrite Hsame by (by left); done) (Henc _ _ Hq)) as Hstep. cbv zeta in Hstep.
  specialize (IH Hnd ltac:(intros; apply Hw; by right) (collect_queued config now a b s id)).
  cbv zeta in IH. rewrite u64_inc_small in Hstep by lia.
  assert (forall id', id' ∈ order -> co_out (collect_queued config now a b s id) !! id' = queue !! id')
    as Hsame'.
  { intros id' Hid'. rewrite collect_queued_other by (by intros ->). apply Hsame. by right. }
  rewrite Hdue. destruct (is_due config now q); destruct Hstep as [Htr Hseq]; rewrite Hseq in IH.
  - destruct (IH Hsame' ltac:(lia) ltac:(lia)) as [-> ->]. rewrite Htr, zlen_cons.
    pose proof (zlen_nonneg (List.filter (id_due config now queue) order)).
    rewrite seqZ_first by done. cbn [zip_with]. unfold retransmission at 2. rewrite Hq, <- app_assoc.
    split; [done | lia].
  - destruct (IH Hsame' ltac:(lia) ltac:(lia)) as [-> ->]. by rewrite Htr.
Qed.

(** *** Repeated passes *)

(** Passes at the given times, each over the queue that the one before left. *)
Inductive retransmit_passes (config : Config)
    : ReliableOut * OutCounters -> list Z -> ReliableOut * OutCounters -> Prop :=
| passes_nil s : retransmit_passes config s [] s
| passes_cons out c now times a b order s'' :
    walks order out ->
    retransmit_passes config (collect_client config now a b order out c).1 times s'' ->
    retransmit_passes config (out, c) (now :: times) s''.

(** Times that are at least a retry interval apart, the first after [last]. *)
Fixpoint spaced (interval last : Z) (times : list Z) : Prop :=
  match times with
  | [] => True
  | now :: times => interval <= now - last /\ spaced interval now times
  end.

Lemma passes_absent config s times s' id :
  retransmit_passes config s times s' -> queue_ok config s.1 ->
  reliableOut s.1 !! id = None -> reliableOut s'.1 !! id = None.
Proof.
  intros Hp. induction Hp as [s|out c now times a b order s'' Hw _ IH]; intros Hok Hid; [done|].
  apply IH; [by apply collect_client_ok|].
  pose proof (collect_client_lookup config now a b order out c id Hw Hok) as Hl.
  cbn [fst] in Hid. by rewrite Hid in Hl.
Qed.

Lemma passes_give_up config s times s' id q :
  retransmit_passes config s times s' -> queue_ok config s.1 ->
  reliableOut s.1 !! id = Some q ->
  spaced (ReliableRetryInterval config) (out_lastSentAt q) times ->
  ReliableMaxAttempts config - out_attempts q < zlen times ->
  0 < zlen times -> reliableOut s'.1 !! id = None.
Proof.
  intros Hp. revert q. induction Hp as [s|out c now times a b order s'' Hw Hp IH];
    intros q Hok Hid Hsp Hlen Hpos; [by change (@zlen Z []) with 0 in Hpos|].
  cbn [fst] in *. rewrite zlen_cons in Hlen. destruct Hsp as [Hnow Hsp].
  pose proof (collect_client_lookup config now a b order out c id Hw Hok) as Hl.
  rewrite Hid in Hl. pose proof (collect_client_ok config now a b order out c Hw Hok) as Hok'.
  inversion Hl as [Hwait Hq'|Hw1 Hw2 Hq'|sequence Hw1 Hw2 Hq']; [lia | |].
  - by apply (passes_absent _ _ _ _ id Hp).
  - eapply IH; [done | by symmetry | done | cbn [out_attempts]; lia | lia].
Qed.

(** ** Properties *)

(** C32: the send queue of a client.  Whatever a client's queue goes through -
    sends with any outcome of the bandwidth budget, acknowledgements,
    retransmission passes in any map order - it never holds more than
    [ReliableQueueLimit] messages; every message in it is reliable, can be
    encoded, is stored under its own delivery id, which has been given out, and
    has been sent at least once and at most [ReliableMaxAttempts] times. *)
Theorem reliable_queue_invariant config c events s :
  0 < ReliableQueueLimit config -> zlen events < 2 ^ 64 - 1 ->
  out_run config (newReliableOut, c) events s -> queue_ok config s.1.
Proof.
  intros Hl Hn Hrun. eapply out_run_ok; [exact Hrun | by apply newReliableOut_ok | cbn; lia].
Qed.

(** Acknowledgements.  The acknowledgement state of a packet removes exactly
    the messages of which some transmission is acknowledged, counts them, and
    leaves every other message as it is. *)
Theorem ack_removes_exactly out c peerAck peerAckBits :
  let (out', c') := removeAckedReliableLocked out c peerAck peerAckBits in
  (forall id q, reliableOut out' !! id = Some q <->
     reliableOut out !! id = Some q /\
     forall sequence, sequence ∈ out_sentSequences q ->
       packetSequenceAcked peerAck peerAckBits sequence = false) /\
  nextReliableID out' = nextReliableID out /\
  oc_reliableDrops c' = oc_reliableDrops c /\
  wrap 64 (oc_reliableAckRemovals c') = u64_add (oc_reliableAckRemovals c)
    (Z.of_nat (size (reliableOut out)) - Z.of_nat (size (reliableOut out'))).
Proof.
  destruct (removeAckedReliableLocked out c peerAck peerAckBits) as [out' c'] eqn:E.
  assert (forall id, reliableOut out' !! id = reliableOut (removeAckedReliableLocked out c peerAck peerAckBits).1 !! id)
    as Hl by by rewrite E.
  split.
  { intros id q. rewrite Hl, removeAcked_lookup.
    assert (forall q', outbound_acked peerAck peerAckBits q' = false <->
      forall sequence, sequence ∈ out_sentSequences q' ->
        packetSequenceAcked peerAck peerAckBits sequence = false) as Hacked.
    { intros q'. unfold outbound_acked. rewrite <- not_true_iff_false, existsb_exists. split.
      - intros Hn x Hx. apply not_true_iff_false. intros Ht. apply Hn. exists x.
        split; [|done]. by apply list_elem_of_In, elem_of_elements.
      - intros Hn (x & Hx & Ht). apply list_elem_of_In, elem_of_elements in Hx.
        rewrite Hn in Ht; done. }
    destruct (reliableOut out !! id) as [q'|]; [|split; [done | by intros [? _]]].
    destruct (outbound_acked peerAck peerAckBits q') eqn:Ea; (split; [|intros [[= ->] H]]).
    - done.
    - apply Hacked in H. congruence.
    - intros [= ->]. split; [done | by apply Hacked].
    - done. }
  clear Hl. revert E. unfold removeAckedReliableLocked. case_bool_decide as Hs; intros [= <- <-]; (split_and!; [done..|]).
  - unfold u64_add. by rewrite Z.sub_diag, Z.add_0_r.
  - cbn [oc_reliableAckRemovals reliableOut]. unfold u64_add. by rewrite wrap_wrap.
Qed.


(** C33: retransmission terminates.  A message that is never acknowledged leaves
    the queue after at most [ReliableMaxAttempts] passes that are a retry
    interval apart, whatever is queued beside it. *)
Theorem reliable_gives_up config s times s' id q :
  queue_ok config s.1 -> 0 < ReliableMaxAttempts config ->
  reliableOut s.1 !! id = Some q ->
  retransmit_passes config s times s' ->
  spaced (ReliableRetryInterval config) (out_lastSentAt q) times ->
  ReliableMaxAttempts config <= zlen times ->
  reliableOut s'.1 !! id = None.
Proof.
  intros Hok Hmax Hid Hp Hsp Hlen.
  destruct (qo_entries _ _ Hok id q Hid) as (_ & _ & _ & _ & Ha).
  eapply passes_give_up; [done.. | lia | lia].
Qed.

(** ** Witnesses *)
Definition no_counters : OutCounters := mkOutCounters 0 0 0 0 0 0.
Definition example_message (class : DeliveryClass) : WireMessage :=
  mkWireMessage 2 [byte_of_Z 7] class 0.
Definition example_send : OutEvent :=
  EventSend example_wire newWindow (example_message DeliveryReliableOrdered) 0 true.
Definition example_sent : Sent :=
  sendUDPResponse DefaultConfig example_wire newWindow newReliableOut no_counters
    (example_message DeliveryReliableOrdered) 0 true.

Lemma example_sent_ok : queue_ok DefaultConfig (sent_out example_sent).
Proof. apply send_ok; [by apply newReliableOut_ok | done]. Qed.

Lemma walks_check order out :
  bool_decide (NoDup order) && bool_decide (list_to_set order = dom (reliableOut out)) = true ->
  walks order out.
Proof.
  rewrite andb_true_iff, !bool_decide_eq_true. intros [Hnd Hd]. split; [done|].
  intros id. by rewrite <- elem_of_dom, <- Hd, elem_of_list_to_set.
Qed.

Lemma example_walks : walks [1] (sent_out example_sent).
Proof. apply walks_check. vm_compute. reflexivity. Qed.

Lemma reliable_queue_invariant_witness :
  size (reliableOut (sent_out example_sent)) = 1%nat /\
  queue_ok DefaultConfig (sent_out example_sent).
Proof.
  split; [vm_compute; reflexivity|].
  refine (reliable_queue_invariant DefaultConfig no_counters [example_send] 
    (sent_out example_sent, sent_counters example_sent) _ _ _); [reflexivity | reflexivity |].
  eapply run_cons; [apply step_send | apply run_nil].
Defined.


Lemma reliable_gives_up_witness :
  exists s, reliableOut s.1 !! 1 = None /\
    retransmit_passes DefaultConfig (sent_out example_sent, sent_counters example_sent)
      (map (fun k => k * 100 * Millisecond) [1; 2; 3; 4; 5]) s.
Proof.
  assert (exists s, retransmit_passes DefaultConfig (sent_out example_sent, sent_counters example_sent)
      (map (fun k => k * 100 * Millisecond) [1; 2; 3; 4; 5]) s) as [s Hs].
  { eexists. cbn [map].
    do 4 (eapply (passes_cons _ _ _ _ _ 0 0 [1]);
      [apply walks_check; vm_compute; reflexivity|];
      match goal with |- retransmit_passes _ ?s _ _ =>
        let v := eval vm_compute in s in change s with v end).
    eapply (passes_cons _ _ _ _ _ 0 0 [1]); [apply walks_check; vm_compute; reflexivity|].
    apply passes_nil. }
  exists s. split; [|exact Hs].
  eapply (reliable_gives_up DefaultConfig (sent_out example_sent, sent_counters example_sent)
    (map (fun k => k * 100 * Millisecond) [1; 2; 3; 4; 5]) s 1);
    [exact example_sent_ok | reflexivity | vm_compute; reflexivity | exact Hs | | ].
  - vm_compute. intuition discriminate.
  - vm_compute. discriminate.
Defined.
