(* ===== verification/ReliableStream.v ===== *)
(** * Reliable streams end to end

    The sending side ([ReliableOut]), the wire format ([Packet]) and the
    receiving side ([ReliableIn]) composed: what an endpoint hands on of the
    messages that another one sends with [sendUDPResponse], over a network that
    reorders and repeats packets.  A received packet passes the 64-sequence window of
    [acceptClientRequest] before its messages reach the reliable queue. *)
From S2P Require Import Prelude Messages Packet Config Window ReliableIn ReliableOut.

(** ** The composed system *)
Definition Body : Type := WireMessageType * bytes.

Definition incoming_of (m : WireMessage) : udpIncomingMessage (Body := Body) :=
  mkIncoming (msg_Type m, msg_Payload m) (msg_Delivery m) (msg_DeliveryID m).

(** The messages of a received packet; one that cannot be decoded is dropped. *)
Definition decoded_messages (packet : bytes) : list (udpIncomingMessage (Body := Body)) :=
  match DecodePacket packet with
  | Ok p => map incoming_of (pkt_Messages p)
  | Err _ => []
  end.

(** Successive sends, each with the answer of the bandwidth budget, and the
    packets that went out. *)
Fixpoint send_all (config : Config) (wire : WireState) (window : RecvWindow) (sentAt : Z)
    (out : ReliableOut) (c : OutCounters) (sends : list (WireMessage * bool)) : list bytes :=
  match sends with
  | [] => []
  | (message, reserved) :: sends =>
      let s := sendUDPResponse config wire window out c message sentAt reserved in
      option_list (sent_packet s) ++
      send_all config wire window sentAt (sent_out s) (sent_counters s) sends
  end.

(** The packets that are processed of those that arrive: what cannot be decoded is
    dropped, and so is what the receive window refuses ([Window.accept_sequence]). *)
Fixpoint accepted_packets (w : RecvWindow) (packets : list bytes) : list bytes :=
  match packets with
  | [] => []
  | packet :: packets =>
      match DecodePacket packet with
      | Err _ => accepted_packets w packets
      | Ok p =>
          let (w, accepted) := accept_sequence w (pkt_Sequence p) in
          if accepted then packet :: accepted_packets w packets else accepted_packets w packets
      end
  end.

(** What the receiver hands on when the network delivers these packets. *)
Definition delivered (rwire : WireState) (packets : list bytes) :
    list (udpIncomingMessage (Body := Body)) :=
  loop_accepted (receive_packets rwire (map decoded_messages (accepted_packets newWindow packets))).

(** The sequence number of a packet that can be decoded. *)
Definition packet_sequence (packet : bytes) : option Z :=
  match DecodePacket packet with Ok p => Some (pkt_Sequence p) | Err _ => None end.

Lemma accepted_packets_sublist packets : forall w, sublist (accepted_packets w packets) packets.
Proof.
  induction packets as [|packet packets IH]; intros w; cbn [accepted_packets]; [constructor|].
  destruct (DecodePacket packet) as [p|e]; [|by apply sublist_cons].
  destruct (accept_sequence w (pkt_Sequence p)) as [w' []]; [by apply sublist_skip | by apply sublist_cons].
Qed.

Lemma accepted_packets_subset w packets p : p ∈ accepted_packets w packets -> p ∈ packets.
Proof. apply (sublist_subseteq _ _ (accepted_packets_sublist packets w)). Qed.

(** A packet that arrives is processed there or was before, when at that time the newest
    sequence is at most 63 ahead.  [first] numbers the packets that were sent. *)
Lemma window_lets_in (sent : list bytes) first before : forall history w p after j,
  (forall k q, sent !! k = Some q -> packet_sequence q = Some (first + Z.of_nat k)) ->
  1 <= first -> first + zlen sent <= 2 ^ 64 - 64 ->
  window_ok history w -> sent !! j = Some p ->
  (forall s, s ∈ history -> s <= first + Z.of_nat j + 63) ->
  (forall q, q ∈ before -> q ∈ sent) ->
  (forall k q, sent !! k = Some q -> q ∈ before -> (k <= j + 63)%nat) ->
  p ∈ accepted_packets w (before ++ p :: after) \/ first + Z.of_nat j ∈ history.
Proof.
  intros history w p after j Hseq Hf Hmax Hw Hp. revert history w Hw.
  assert (forall k q, sent !! k = Some q -> 1 <= first + Z.of_nat k < 2 ^ 64 - 64) as Hrange.
  { intros k q Hk. apply lookup_lt_Some in Hk. unfold zlen in Hmax. lia. }
  assert (forall k q, sent !! k = Some q -> exists packet,
    DecodePacket q = Ok packet /\ pkt_Sequence packet = first + Z.of_nat k) as Hdec.
  { intros k q Hk%Hseq. unfold packet_sequence in Hk. destruct (DecodePacket q) as [packet|]; [|done].
    exists packet. by injection Hk. }
  induction before as [|q before IH]; intros history w Hw Hhist Hsub Hbound; cbn [app accepted_packets].
  - destruct (Hdec _ _ Hp) as (packet & -> & Es). specialize (Hrange _ _ Hp).
    pose proof (accept_sequence_ok history w (pkt_Sequence packet) Hw ltac:(unfold in_u; lia)) as Ha.
    destruct (accept_sequence w _) as [w' accepted]. destruct Ha as (-> & _). rewrite Es.
    rewrite (proj2 (Z.eqb_neq _ 0)) by lia. cbn [orb].
    destruct (decide (first + Z.of_nat j ∈ history)) as [|Hin]; [by right|left].
    unfold refused. rewrite bool_decide_false by (intros [? _]%(wo_received _ _ Hw); done). cbn [orb].
    assert (ack w <= first + Z.of_nat j + 63).
    { destruct (wo_ack _ _ Hw) as [->|Hack]; [lia | by apply Hhist]. }
    rewrite (proj2 (Z.leb_gt (u64_add _ 64) _)).
    2:{ unfold u64_add. rewrite wrap_small by (unfold in_u; lia). lia. }
    rewrite andb_false_r. left.
  - destruct (proj1 (list_elem_of_lookup _ _) (Hsub q ltac:(left))) as [k Hk].
    destruct (Hdec _ _ Hk) as (packet & -> & Es). pose proof (Hrange _ _ Hk).
    pose proof (accept_sequence_ok history w (pkt_Sequence packet) Hw ltac:(unfold in_u; lia)) as Ha.
    destruct (accept_sequence w _) as [w' accepted]. destruct Ha as (_ & Hw' & _). rewrite Es in Hw'.
    rewrite (proj2 (Z.eqb_neq _ 0)) in Hw' by lia. rewrite andb_true_r in Hw'.
    assert ((k <= j + 63)%nat) as Hkj by (eapply Hbound; [exact Hk | left]).
    destruct accepted.
    + destruct (IH _ _ Hw') as [H'|H'].
      * intros s [->%elem_of_singleton|Hs]%elem_of_union; [lia | by apply Hhist].
      * intros x Hx. apply Hsub. by right.
      * intros k' x Hk' Hx. eapply Hbound; [exact Hk' | by right].
      * left. by right.
      * apply elem_of_union in H' as [E%elem_of_singleton|H']; [|by right].
        left. assert (k = j) as -> by lia. rewrite Hp in Hk. injection Hk as ->. left.
    + apply (IH _ _ Hw' Hhist); [intros x Hx; apply Hsub; by right|].
      intros k' x Hk' Hx. eapply Hbound; [exact Hk' | by right].
Qed.

(** ** One message over the wire *)
Definition window_acks_ok (window : RecvWindow) : Prop := in_u64 (ack window) /\ in_u64 (ackBits window).

Lemma decoded_packet_bytes sequence a b m :
  in_u64 sequence -> in_u64 a -> in_u64 b -> packet_encodable [m] = true -> message_ok m ->
  decoded_messages (packet_bytes sequence a b [m]) =
    if ends_in_empty [m] then [] else [incoming_of (received m)].
Proof.
  intros Hs Ha Hb He Hm. unfold decoded_messages, packet_bytes.
  rewrite decode_packet_bytes; [|by unfold in_u |done..|by constructor].
  by destruct (ends_in_empty [m]).
Qed.

Lemma sequence_in_u64 c : in_u64 (u64_inc (oc_nextSequence c)).
Proof. by apply wrap_range. Qed.

(** The messages that a send can put on the wire. *)
Definition sendable (m : WireMessage) : Prop :=
  in_u16 (msg_Type m) /\ in_u8 (msg_Delivery m) /\ in_u64 (msg_DeliveryID m) /\
  msg_Type m <> WireMessageReliable.

Lemma sendable_prepared config wire out message out' message' r :
  sendable message -> in_u64 (u64_inc (nextReliableID out)) ->
  prepared config wire out message out' message' r -> message_ok message'.
Proof.
  intros (H1 & H2 & H3 & H4) Hid Hp. destruct Hp; try by split_and!.
Qed.

(** What one send puts on the wire: at most one message, and a reliable one has
    the next id and the class of the message that was sent. *)
Lemma sent_decodes config wire window out c message sentAt reserved packet m :
  sendable message -> window_acks_ok window -> 0 <= nextReliableID out < 2 ^ 64 - 1 ->
  let s := sendUDPResponse config wire window out c message sentAt reserved in
  sent_packet s = Some packet -> m ∈ decoded_messages packet ->
  (inc_deliveryID m = 0 /\ is_ordered m = false) \/
  (inc_deliveryID m = nextReliableID out + 1 /\ reserved = true /\
   inc_delivery m = msg_Delivery message).
Proof.
  intros Hm [Ha Hb] Hnext. cbv zeta. intros Hpkt Hin.
  assert (in_u64 (u64_inc (nextReliableID out))) as Hid by by apply wrap_range.
  assert (forall out' message', prepared config wire out message out' message' (Ok tt) ->
    packet_encodable [message'] = true ->
    packet = packet_bytes (u64_inc (oc_nextSequence c)) (ack window) (ackBits window) [message'] ->
    (inc_deliveryID m = 0 /\ is_ordered m = false) \/
    (inc_deliveryID m = nextReliableID out + 1 /\ inc_delivery m = msg_Delivery message)) as Hgen.
  { intros out' message' Hp Henc ->.
    rewrite decoded_packet_bytes in Hin;
      [|by apply sequence_in_u64 |done..|by eapply sendable_prepared].
    destruct (ends_in_empty [message']); [by apply elem_of_nil in Hin|].
    apply list_elem_of_singleton in Hin as ->. unfold is_ordered, received, incoming_of.
    destruct (delivery_reliable (msg_Delivery message')) eqn:Hr; [|by left].
    cbn [inc_delivery inc_deliveryID]. inversion Hp; subst;
      cbn [set_delivery msg_Delivery msg_DeliveryID] in *; try congruence; try discriminate.
    right. by rewrite u64_inc_small by lia. }
  pose proof (sendUDPResponse_spec config wire window out c message sentAt reserved) as Hs.
  cbv zeta in Hs. rewrite Hpkt in Hs.
  inversion Hs; subst; edestruct Hgen as [?|[? ?]]; try done; first [by left | by right].
Qed.

Lemma send_next config wire window out c message sentAt reserved :
  0 <= nextReliableID out < 2 ^ 64 - 1 ->
  let s := sendUDPResponse config wire window out c message sentAt reserved in
  nextReliableID (sent_out s) = nextReliableID out + 1 \/
  (nextReliableID (sent_out s) = nextReliableID out /\
   (delivery_reliable (msg_Delivery message) && clientSupportsReliable (Some wire) (msg_Delivery message)
    && (Z.of_nat (size (reliableOut out)) <? ReliableQueueLimit config) = false)).
Proof.
  intros Hn. cbv zeta.
  assert (forall out' message' r, prepared config wire out message out' message' r ->
    nextReliableID out' = nextReliableID out + 1 \/
    (nextReliableID out' = nextReliableID out /\
     (delivery_reliable (msg_Delivery message) && clientSupportsReliable (Some wire) (msg_Delivery message)
      && (Z.of_nat (size (reliableOut out)) <? ReliableQueueLimit config) = false))) as H.
  { intros out' message' r Hp. destruct Hp as [Hr|Hs|Hf|]; cbn [nextReliableID].
    - right. by rewrite Hr.
    - right. by rewrite Hs, andb_false_r.
    - right. rewrite (proj2 (Z.ltb_ge _ _)) by done. by rewrite andb_false_r.
    - left. apply u64_inc_small. lia. }
  destruct (sendUDPResponse_spec config wire window out c message sentAt reserved);
    cbn [nextReliableID]; by eapply H.
Qed.

(** Every message that a run of sends puts on the wire. *)
Lemma send_all_decodes config wire window sentAt sends : forall out c packet m,
  Forall (fun s => sendable s.1) sends -> window_acks_ok window ->
  0 <= nextReliableID out -> nextReliableID out + zlen sends < 2 ^ 64 - 1 ->
  packet ∈ send_all config wire window sentAt out c sends -> m ∈ decoded_messages packet ->
  (inc_deliveryID m = 0 /\ is_ordered m = false) \/
  nextReliableID out < inc_deliveryID m <= nextReliableID out + zlen sends.
Proof.
  induction sends as [|[message reserved] sends IH]; intros out c packet m Hall Hw Hn Hmax Hp Hm;
    [by apply elem_of_nil in Hp|].
  apply Forall_cons in Hall as [Hs Hall]. rewrite zlen_cons in *. pose proof (zlen_nonneg sends).
  cbn [send_all] in Hp. apply elem_of_app in Hp as [Hp|Hp].
  - destruct (sent_packet _) as [p|] eqn:E; [|by apply elem_of_nil in Hp].
    apply list_elem_of_singleton in Hp as ->.
    destruct (sent_decodes config wire window out c message sentAt reserved p m) as [?|[? _]]; try done;
      [lia | by left | right; lia].
  - destruct (send_next config wire window out c message sentAt reserved ltac:(lia)) as [Hnx|[Hnx _]];
      (edestruct IH as [?|?]; [exact Hall | exact Hw | | | exact Hp | exact Hm | by left |]);
      rewrite ?Hnx in *; first [lia | right; lia].
Qed.

(** The messages of a run of sends, as the network may deliver them. *)
Lemma delivered_messages_ok (config : Config) wire window sentAt out c sends packets :
  Forall (fun s => sendable s.1) sends -> window_acks_ok window ->
  0 <= nextReliableID out -> nextReliableID out + zlen sends < 2 ^ 64 - 1 ->
  (forall p, p ∈ packets -> p ∈ send_all config wire window sentAt out c sends) ->
  Forall id_ok (concat (map decoded_messages packets)).
Proof.
  intros Hall Hw Hn Hmax Hsub. apply Forall_forall. intros m Hm.
  apply list_elem_of_In, in_concat in Hm as (l & Hl & Hm).
  apply in_map_iff in Hl as (p & <- & Hp). apply list_elem_of_In in Hp, Hm.
  destruct (send_all_decodes config wire window sentAt sends out c p m Hall Hw Hn Hmax (Hsub p Hp) Hm)
    as [[H _]|H]; unfold id_ok; lia.
Qed.

Lemma arrived_message rwire (packets : list bytes) k :
  k ∈ arrived rwire is_ordered (concat (map decoded_messages packets)) ->
  exists p m, p ∈ packets /\ m ∈ decoded_messages p /\ is_ordered m = true /\ inc_deliveryID m = k.
Proof.
  unfold arrived. rewrite elem_of_list_to_set. intros (m & -> & Hm)%list_elem_of_fmap.
  apply list_elem_of_In, filter_In in Hm as [Hm Ha]. unfold arrives in Ha.
  apply andb_true_iff in Ha as [Ho _]. apply in_concat in Hm as (l & Hl & Hm).
  apply in_map_iff in Hl as (p & <- & Hp). exists p, m.
  split_and!; [by apply list_elem_of_In | by apply list_elem_of_In | done | done].
Qed.

(** ** An id that is not used by an ordered message *)
Lemma first_missing_stalls rwire (packets : list bytes) :
  let processed := concat (map decoded_messages (accepted_packets newWindow packets)) in
  Forall id_ok processed -> 1 ∉ arrived rwire is_ordered processed ->
  List.filter is_ordered (delivered rwire packets) = [].
Proof.
  cbv zeta.
  intros Hids H1. pose proof (receive_packets_ok rwire _ Hids) as Hok.
  destruct (lo_ordered _ _ _ Hok) as [Hn Hb _ _ _ _ Hacc].
  set (next := reliableOrderedNext _) in *.
  assert (next = 1) as E by (destruct (Z.eq_dec next 1); [done | exfalso; apply H1, Hb; lia]).
  rewrite E in Hacc. change (seqZ 1 (1 - 1)) with (@nil Z) in Hacc. unfold ids_of in Hacc.
  by apply map_eq_nil in Hacc.
Qed.

(** ** Streams that arrive *)

Lemma map_injective_eq {A B} (f : A -> B) (P : A -> Prop) l : forall k,
  (forall x y, P x -> P y -> f x = f y -> x = y) ->
  Forall P l -> Forall P k -> map f l = map f k -> l = k.
Proof.
  induction l as [|x l IH]; intros [|y k] Hinj Hl Hk Heq; try done.
  apply Forall_cons in Hl as [Hx Hl], Hk as [Hy Hk]. injection Heq as Hxy Heq.
  f_equal; [by apply Hinj | by apply IH].
Qed.

(** The [i]-th message of an ordered stream, as it is received. *)
Definition stream_message (id : Z) (m : WireMessage) : udpIncomingMessage (Body := Body) :=
  mkIncoming (msg_Type m, msg_Payload m) DeliveryReliableOrdered id.

Definition stream_from (id : Z) (messages : list WireMessage) :=
  zip_with stream_message (seqZ id (zlen messages)) messages.

Lemma stream_from_cons id m messages :
  stream_from id (m :: messages) = stream_message id m :: stream_from (id + 1) messages.
Proof.
  unfold stream_from. rewrite zlen_cons, seqZ_first by apply zlen_nonneg. done.
Qed.

Lemma stream_ids id messages : map inc_deliveryID (stream_from id messages) = seqZ id (zlen messages).
Proof.
  revert id. induction messages as [|m messages IH]; intros id; [done|].
  rewrite stream_from_cons, zlen_cons, seqZ_first by apply zlen_nonneg. cbn [map]. by rewrite IH.
Qed.

Lemma stream_bodies id messages :
  map inc_Body (stream_from id messages) = map (fun m => (msg_Type m, msg_Payload m)) messages.
Proof.
  revert id. induction messages as [|m messages IH]; intros id; [done|].
  rewrite stream_from_cons. cbn [map]. by rewrite IH.
Qed.

Lemma stream_range id messages m :
  m ∈ stream_from id messages ->
  inc_delivery m = DeliveryReliableOrdered /\ id <= inc_deliveryID m < id + zlen messages.
Proof.
  revert id. induction messages as [|m' messages IH]; intros id Hm; [by apply elem_of_nil in Hm|].
  rewrite stream_from_cons in Hm. rewrite zlen_cons. pose proof (zlen_nonneg messages).
  apply elem_of_cons in Hm as [->|[? ?]%IH]; (split; [done|]); cbn [inc_deliveryID stream_message]; lia.
Qed.

Lemma stream_unique id messages m m' :
  m ∈ stream_from id messages -> m' ∈ stream_from id messages ->
  inc_deliveryID m = inc_deliveryID m' -> m = m'.
Proof.
  revert id. induction messages as [|x messages IH]; intros id Hm Hm' Heq; [by apply elem_of_nil in Hm|].
  rewrite stream_from_cons in Hm, Hm'.
  apply elem_of_cons in Hm as [->|Hm], Hm' as [->|Hm']; [done | | | by eapply IH].
  - apply stream_range in Hm'. cbn [inc_deliveryID stream_message] in Heq. lia.
  - apply stream_range in Hm. cbn [inc_deliveryID stream_message] in Heq. lia.
Qed.

(** A message of an ordered stream that goes out: it fits the packet size that
    was negotiated (36 bytes of packet header, 6 of message header, 15 of
    envelope) and has a payload. *)
Definition streamable (config : Config) (wire : WireState) (m : WireMessage) : Prop :=
  sendable m /\ msg_Delivery m = DeliveryReliableOrdered /\ msg_Payload m <> [] /\
  zlen (msg_Payload m) + 57 <= negotiatedMaxPacketSize config wire /\
  zlen (msg_Payload m) + 15 <= MaxWireMessagePayloadSize.

Lemma zlen_single_packet sequence a b m :
  delivery_reliable (msg_Delivery m) = true ->
  zlen (packet_bytes sequence a b [m]) = zlen (msg_Payload m) + 57.
Proof.
  intros Hr. unfold packet_bytes. rewrite zlen_packet_bytes. unfold payload_bytes. cbn [map concat].
  unfold message_bytes, frame_payload. rewrite Hr, app_nil_r. zlen. rewrite zlen_envelope.
  unfold wirePacketHeaderSize. lia.
Qed.

Lemma streamable_encodable config wire m id :
  streamable config wire m -> id <> 0 ->
  packet_encodable [set_delivery m (msg_Delivery m) id] = true /\
  ends_in_empty [set_delivery m (msg_Delivery m) id] = false.
Proof.
  intros (_ & Hd & Hp & _ & Hl) Hid. unfold packet_encodable, ends_in_empty, message_encodable,
    payload_bytes, message_bytes, empty_reliable, frame_payload.
  cbn [map concat forallb existsb last default set_delivery msg_Delivery msg_Payload msg_DeliveryID].
  rewrite Hd. change (delivery_reliable DeliveryReliableOrdered) with true. cbn [andb orb].
  rewrite (proj2 (Z.eqb_neq _ _)) by done. rewrite (proj2 (Z.leb_le _ MaxWireMessagePayloadSize)) by done.
  rewrite (bool_decide_false _ Hp). rewrite bool_decide_false.
  2:{ intros H. apply (f_equal zlen) in H. rewrite zlen_envelope in H.
      unfold set_delivery in H. cbn [msg_Payload] in H. change (zlen (@nil byte)) with 0 in H.
      pose proof (zlen_nonneg (msg_Payload m)). lia. }
  split; [|done]. rewrite app_nil_r. cbn [negb andb].
  apply Z.leb_le. zlen. rewrite zlen_envelope. unfold set_delivery. cbn [msg_Payload].
  unfold MaxWireMessagePayloadSize in Hl. unfold MaxWirePayloadSize. lia.
Qed.

Lemma send_all_stream config wire window sentAt messages : forall out c,
  Forall (streamable config wire) messages -> window_acks_ok window ->
  clientSupportsReliable (Some wire) DeliveryReliableOrdered = true ->
  Z.of_nat (size (reliableOut out)) + zlen messages <= ReliableQueueLimit config ->
  0 <= nextReliableID out -> nextReliableID out + zlen messages < 2 ^ 64 - 1 ->
  0 <= oc_nextSequence c -> oc_nextSequence c + zlen messages < 2 ^ 64 ->
  let sent := send_all config wire window sentAt out c (map (fun m => (m, true)) messages) in
  map decoded_messages sent = map (fun m => [m]) (stream_from (nextReliableID out + 1) messages) /\
  map packet_sequence sent = map Some (seqZ (oc_nextSequence c + 1) (zlen messages)).
Proof.
  induction messages as [|m messages IH]; intros out c Hall Hw Hs Hq Hn Hmax Hc Hcmax; [done|].
  apply Forall_cons in Hall as [Hm Hall]. rewrite zlen_cons in Hq, Hmax, Hcmax.
  pose proof (zlen_nonneg messages). pose proof Hm as ((Ht & _ & _ & Hne) & Hd & _ & Hlen & _).
  pose proof (u64_inc_small (nextReliableID out) ltac:(lia)) as Hinc.
  pose proof (u64_inc_small (oc_nextSequence c) ltac:(lia)) as Hcinc.
  destruct (streamable_encodable config wire m (nextReliableID out + 1) Hm ltac:(lia)) as [Henc Hend].
  set (m' := set_delivery m (msg_Delivery m) (nextReliableID out + 1)) in *.
  cbn [map send_all].
  destruct (sendUDPResponse_sends config wire window out c m sentAt) as (c' & Hseq & Hsend);
    rewrite ?Hd, ?Hinc; try done; try lia.
  { rewrite <- Hd. exact Henc. }
  { rewrite zlen_single_packet by done. exact Hlen. }
  rewrite Hsend. cbn [sent_packet sent_out sent_counters option_list app map]. rewrite Hinc. fold m'.
  assert (message_ok m') as Hok'.
  { unfold m'. split_and!; cbn [set_delivery msg_Type msg_Delivery msg_DeliveryID]; rewrite ?Hd;
      [done | unfold in_u; vm_compute; intuition discriminate | unfold in_u; lia | done]. }
  destruct (IH (mkReliableOut (nextReliableID out + 1) (<[nextReliableID out + 1 :=
    mkOutbound m' 1 sentAt {[u64_inc (oc_nextSequence c)]}]> (reliableOut out))) c') as [IH1 IH2];
    try done; cbn [nextReliableID reliableOut]; rewrite ?Hseq, ?Hcinc; try lia.
  { etrans; [|exact Hq]. pose proof (map_size_insert (nextReliableID out + 1)
      (mkOutbound m' 1 sentAt {[oc_nextSequence c + 1]}) (reliableOut out)) as Hsz.
    rewrite Hsz. destruct (reliableOut out !! _); simpl; lia. }
  rewrite Hcinc in *. rewrite stream_from_cons, zlen_cons, seqZ_first by lia. cbn [map]. split.
  - refine (f_equal2 cons _ IH1).
    rewrite decoded_packet_bytes, Hend; [|unfold in_u64, in_u; lia |apply Hw..|done|done].
    unfold received, m'. cbn [set_delivery msg_Delivery]. rewrite Hd. done.
  - refine (f_equal2 cons _ _).
    + unfold packet_sequence, packet_bytes.
      rewrite decode_packet_bytes, Hend; [done | done | unfold in_u64, in_u; lia | apply Hw..|done|by constructor].
    + etrans; [exact IH2|]. rewrite Hseq. do 2 f_equal; lia.
Qed.

Lemma concat_singletons {A} (l : list A) : concat (map (fun x => [x]) l) = l.
Proof. induction l as [|x l IH]; [done|]. cbn [map concat app]. by rewrite IH. Qed.

(** A network that delivers every packet of a stream and nothing else, in any order and
    number as long as at one of its arrivals a packet was overtaken by at most 63 later
    ones: no packet before it in [packets] is more than 63 places behind it in [sent]. *)
Definition delivers (sent packets : list bytes) : Prop :=
  (forall p, p ∈ packets -> p ∈ sent) /\
  forall j p, sent !! j = Some p -> exists before after, packets = before ++ p :: after /\
    forall k q, sent !! k = Some q -> q ∈ before -> (k <= j + 63)%nat.

(** The window accepts every packet of such a network once. *)
Lemma delivers_accepted first sent packets p :
  map packet_sequence sent = map Some (seqZ first (zlen sent)) ->
  1 <= first -> first + zlen sent <= 2 ^ 64 - 64 -> delivers sent packets ->
  p ∈ accepted_packets newWindow packets <-> p ∈ sent.
Proof.
  intros Hseq Hf Hmax [Hsub Hall]. split; [intros H; by apply Hsub, (accepted_packets_subset newWindow)|].
  intros [j Hj]%list_elem_of_lookup. destruct (Hall j p Hj) as (before & after & -> & Hb).
  assert (p ∈ accepted_packets newWindow (before ++ p :: after) \/ first + Z.of_nat j ∈ (∅ : gset Z)) as [H|H];
    [|done | by apply elem_of_empty in H].
  eapply window_lets_in; [| exact Hf | exact Hmax | exact newWindow_ok | exact Hj | | | exact Hb].
  - intros k q Hk. apply (f_equal (fun l => l !! k)) in Hseq. rewrite !list_lookup_fmap, Hk in Hseq.
    cbn in Hseq. assert (k < length sent)%nat by (by eapply lookup_lt_Some).
    rewrite (lookup_seqZ_lt first (zlen sent) k) in Hseq by (unfold zlen; lia). by injection Hseq.
  - intros s Hs. by apply elem_of_empty in Hs.
  - intros q Hq. apply Hsub, elem_of_app. by left.
Qed.

Lemma delivers_messages sent packets m :
  (forall p, p ∈ packets <-> p ∈ sent) ->
  m ∈ concat (map decoded_messages packets) <-> m ∈ concat (map decoded_messages sent).
Proof.
  intros Hd. rewrite !list_elem_of_In, !in_concat.
  split; intros (l & Hl & Hm); exists l; (split; [|done]);
    apply in_map_iff in Hl as (p & <- & Hp); apply in_map, list_elem_of_In, Hd, list_elem_of_In, Hp.
Qed.

(** An ordered stream that arrives is handed on as it is. *)
Lemma stream_received rwire (history : list (udpIncomingMessage (Body := Body))) messages s :
  clientSupportsReliable (Some rwire) DeliveryReliableOrdered = true ->
  (forall m, m ∈ history <-> m ∈ stream_from 1 messages) ->
  loop_ok rwire history s -> loop_accepted s = stream_from 1 messages.
Proof.
  intros Hs Hh Hok.
  assert (Forall (fun m => m ∈ stream_from 1 messages) (loop_accepted s)) as Hfrom.
  { apply Forall_forall. intros m Hm. apply Hh. by apply (lo_from _ _ _ Hok). }
  assert (List.filter is_ordered (loop_accepted s) = loop_accepted s) as Hfilter.
  { clear -Hfrom. induction Hfrom as [|m l Hm _ IH]; [done|]. cbn [List.filter].
    apply stream_range in Hm as [Hd _]. unfold is_ordered at 1. rewrite Hd. cbn [Z.eqb]. by rewrite IH. }
  destruct (lo_ordered _ _ _ Hok) as [Hn Hb Hgap _ _ _ Hacc].
  set (next := reliableOrderedNext (loop_in s)) in *.
  assert (forall k, k ∈ arrived rwire is_ordered history <-> 1 <= k < 1 + zlen messages) as Harr.
  { intros k. unfold arrived. rewrite elem_of_list_to_set. unfold ids_of.
    rewrite <- elem_of_seqZ, <- (stream_ids 1 messages), !list_elem_of_fmap.
    assert (forall m, m ∈ List.filter (arrives rwire is_ordered) history <-> m ∈ stream_from 1 messages) as Hfm.
    { intros m. rewrite list_elem_of_In, filter_In, <- list_elem_of_In, Hh. split; [tauto|].
      intros Hm. split; [done|]. apply stream_range in Hm as [Hd Hid]. unfold arrives, is_ordered.
      rewrite Hd, Hs, Z.eqb_refl. cbn [andb]. rewrite (proj2 (Z.eqb_neq (inc_deliveryID m) 0)) by lia. done. }
    split; intros (m & -> & Hm); exists m; (split; [done | by apply Hfm]). }
  pose proof (zlen_nonneg messages).
  assert (next = 1 + zlen messages) as E.
  { destruct (Z.lt_trichotomy next (1 + zlen messages)) as [Hlt|[?|Hgt]]; [|done|].
    - exfalso. apply Hgap, Harr. lia.
    - assert (1 + zlen messages ∈ arrived rwire is_ordered history) as Hin by (apply Hb; lia).
      apply Harr in Hin. lia. }
  unfold ids_of in Hacc. rewrite Hfilter, E in Hacc.
  replace (1 + zlen messages - 1) with (zlen messages) in Hacc by lia.
  eapply (map_injective_eq inc_deliveryID (fun m => m ∈ stream_from 1 messages)).
  - intros x y. apply stream_unique.
  - exact Hfrom.
  - apply Forall_forall. auto.
  - by rewrite stream_ids.
Qed.

(** ** Properties *)

(** C1: an ordered stream end to end.  An endpoint sends a stream of reliable ordered
    messages with [sendUDPResponse] to a client without outbound messages, at most
    [ReliableQueueLimit] of them, none of them acknowledged meanwhile, and each with the
    bandwidth budget granted.  The network delivers their packets in any order, any number
    of times each (retransmitted or duplicated), but at one of its arrivals no packet is
    overtaken by more than 63 later ones, so that the receiver's window does not drop it.
    Then the receiver hands on exactly the messages that were sent, each once and in the
    order in which they were sent. *)
Theorem ordered_stream_end_to_end config wire rwire window sentAt c messages packets :
  Forall (streamable config wire) messages -> window_acks_ok window ->
  clientSupportsReliable (Some wire) DeliveryReliableOrdered = true ->
  clientSupportsReliable (Some rwire) DeliveryReliableOrdered = true ->
  zlen messages <= ReliableQueueLimit config -> zlen messages < 2 ^ 64 - 1 ->
  0 <= oc_nextSequence c -> oc_nextSequence c + zlen messages < 2 ^ 64 - 64 ->
  delivers (send_all config wire window sentAt newReliableOut c (map (fun m => (m, true)) messages))
    packets ->
  map inc_Body (delivered rwire packets) = map (fun m => (msg_Type m, msg_Payload m)) messages.
Proof.
  intros Hall Hw Hs Hrs Hq Hmax Hc Hcmax Hdel.
  destruct (send_all_stream config wire window sentAt messages newReliableOut c Hall Hw Hs
    ltac:(cbn [reliableOut newReliableOut]; rewrite map_size_empty; lia) ltac:(done)
    ltac:(cbn [nextReliableID newReliableOut]; lia) Hc ltac:(lia)) as [Hsent Hseq].
  set (sent := send_all _ _ _ _ _ _ _) in *.
  cbn [nextReliableID newReliableOut] in Hsent. change (0 + 1) with 1 in Hsent.
  assert (zlen sent = zlen messages) as Hlen.
  { apply (f_equal length) in Hseq. rewrite !length_map, length_seqZ in Hseq.
    pose proof (zlen_nonneg messages). unfold zlen at 1. lia. }
  assert (forall m, m ∈ concat (map decoded_messages (accepted_packets newWindow packets)) <->
    m ∈ stream_from 1 messages) as Hmem.
  { intros m. rewrite (delivers_messages sent), Hsent; [by rewrite concat_singletons|].
    intros p. apply (delivers_accepted (oc_nextSequence c + 1)); rewrite ?Hlen; [exact Hseq | lia | lia | exact Hdel]. }
  rewrite <- (stream_bodies 1). f_equal.
  eapply stream_received; [exact Hrs | exact Hmem |]. apply receive_packets_ok.
  apply Forall_forall. intros m [_ Hid]%Hmem%stream_range. unfold id_ok. lia.
Qed.

(** C36: one id sequence for both reliable classes, and ids that are spent on
    messages that do not go out, block the ordered stream.  If the first reliable
    message is an unordered one, or is refused by the bandwidth budget after it
    was given its id, no ordered message is ever handed on, whatever is sent
    afterwards and even if every packet arrives. *)
Theorem missing_ordered_id_stalls config wire rwire window sentAt c message reserved sends packets :
  Forall (fun s => sendable s.1) ((message, reserved) :: sends) -> window_acks_ok window ->
  zlen sends < 2 ^ 64 - 2 -> 0 < ReliableQueueLimit config ->
  delivery_reliable (msg_Delivery message) = true ->
  clientSupportsReliable (Some wire) (msg_Delivery message) = true ->
  msg_Delivery message = DeliveryReliableUnordered \/ reserved = false ->
  (forall p, p ∈ packets ->
     p ∈ send_all config wire window sentAt newReliableOut c ((message, reserved) :: sends)) ->
  List.filter is_ordered (delivered rwire packets) = [].
Proof.
  intros Hall Hw Hmax Hlim Hr Hs Hbad Hsub. apply first_missing_stalls.
  { apply (delivered_messages_ok config wire window sentAt newReliableOut c ((message, reserved) :: sends));
      [exact Hall | exact Hw | by cbn | | intros p Hp; exact (Hsub p (accepted_packets_subset newWindow packets p Hp))].
    rewrite zlen_cons. cbn [nextReliableID newReliableOut]. lia. }
  intros (p & m & Hp%accepted_packets_subset & Hm & Ho & Hid)%arrived_message. apply Hsub in Hp.
  apply Forall_cons in Hall as [Hsend Hall]. cbn [send_all] in Hp. cbn [fst] in Hsend.
  pose proof (zlen_nonneg sends). apply elem_of_app in Hp as [Hp|Hp].
  - destruct (sent_packet _) as [p'|] eqn:E; [|by apply elem_of_nil in Hp].
    apply list_elem_of_singleton in Hp as ->.
    destruct (sent_decodes config wire window newReliableOut c message sentAt reserved p' m)
      as [[_ ?]|(_ & -> & Hd)]; try done; [congruence|].
    destruct Hbad as [Hbad|Hbad]; [|done]. unfold is_ordered in Ho. by rewrite Hd, Hbad in Ho.
  - destruct (send_next config wire window newReliableOut c message sentAt reserved ltac:(done))
      as [Hnx|[_ Hnx]].
    + destruct (send_all_decodes config wire window sentAt sends _ _ p m Hall Hw
        ltac:(by rewrite Hnx) ltac:(rewrite Hnx; cbn [nextReliableID newReliableOut]; lia) Hp Hm)
        as [[_ ?]|H']; [congruence|].
      rewrite Hnx, Hid in H'. cbn in H'. lia.
    + rewrite Hr, Hs in Hnx. cbn [andb] in Hnx. apply Z.ltb_ge in Hnx.
      cbn [reliableOut newReliableOut] in Hnx. rewrite map_size_empty in Hnx. lia.
Qed.

(** ** Witnesses *)
Definition stream_example : list WireMessage :=
  [mkWireMessage 2 [byte_of_Z 7] DeliveryReliableOrdered 0;
   mkWireMessage 3 [byte_of_Z 8; byte_of_Z 9] DeliveryReliableOrdered 0].

Definition stream_packets : list bytes :=
  send_all DefaultConfig example_wire newWindow 0 newReliableOut no_counters
    (map (fun m => (m, true)) stream_example).

Lemma stream_example_ok : Forall (streamable DefaultConfig example_wire) stream_example.
Proof.
  repeat (constructor; [split_and!; try done; unfold sendable, in_u; vm_compute; intuition discriminate|]).
  constructor.
Qed.

(** The two packets arrive swapped, and then once more in order. *)
Lemma ordered_stream_end_to_end_witness :
  map inc_Body (delivered example_wire (rev stream_packets ++ stream_packets)) =
    [(2, [byte_of_Z 7]); (3, [byte_of_Z 8; byte_of_Z 9])].
Proof.
  refine (ordered_stream_end_to_end DefaultConfig example_wire example_wire newWindow 0 no_counters
    stream_example (rev stream_packets ++ stream_packets) stream_example_ok _ eq_refl eq_refl _ eq_refl _ eq_refl _).
  - split; split; [discriminate | reflexivity | discriminate | reflexivity].
  - vm_compute. discriminate.
  - vm_compute. discriminate.
  - fold stream_packets. split.
    + intros p. rewrite elem_of_app, list_elem_of_In, <- in_rev, <- list_elem_of_In. tauto.
    + intros j p Hj. exists (rev stream_packets ++ take j stream_packets), (drop (S j) stream_packets). split.
      * rewrite <- app_assoc. f_equal. symmetry. by apply take_drop_middle.
      * intros k q Hk%lookup_lt_Some _. change (length stream_packets) with 2%nat in Hk. lia.
Defined.

Definition mixed_example : list (WireMessage * bool) :=
  (example_message DeliveryReliableUnordered, true) ::
  map (fun m => (m, true)) stream_example.

Definition mixed_packets : list bytes :=
  send_all DefaultConfig example_wire newWindow 0 newReliableOut no_counters mixed_example.

Lemma missing_ordered_id_stalls_witness :
  length mixed_packets = 3%nat /\
  List.filter is_ordered (delivered example_wire mixed_packets) = [].
Proof.
  split; [vm_compute; reflexivity|].
  refine (missing_ordered_id_stalls DefaultConfig example_wire example_wire newWindow 0 no_counters
    (example_message DeliveryReliableUnordered) true (map (fun m => (m, true)) stream_example)
    mixed_packets _ _ eq_refl eq_refl eq_refl eq_refl (or_introl eq_refl) _).
  - repeat (constructor; [unfold sendable, in_u; vm_compute; intuition discriminate|]). constructor.
  - split; split; [discriminate | reflexivity | discriminate | reflexivity].
  - intros p Hp. exact Hp.
Defined.
