(* ===== verification/UdpClients.v ===== *)
(** * The client table of the UDP server

    [network/udp.go]: the clients by address, their creation, authentication,
    negotiation and timeout, and the snapshot baselines.  The server's mutex makes
    each function one step.  A client is named by the key of the table, its
    address; [Body] is what a received message carries ([UdpIncoming]). *)
From S2P Require Import Prelude Keys Values Snapshot Messages Packet Config Float64 Metrics Budget Window ReliableIn ReliableOut.

Section Clients.
Context {Body : Type}.

Record UDPClient := mkClient {
  cl_connectionID : string;
  cl_id : string;
  cl_authenticated : bool;
  cl_wire : WireState;
  cl_window : RecvWindow;
  cl_peerAck : Z;
  cl_peerAckBits : Z;
  cl_lastHeardAt : Z;
  cl_out : ReliableOut;
  cl_in : ReliableIn (Body := Body);
  cl_budget : Budget
}.

Record udpSnapshotBaseline := mkBaseline {
  base_tick : Z;
  base_snapshot : SnapshotData;
  base_snapshotsSinceFull : Z
}.

Record UDPServer := mkServer {
  clients : gmap string UDPClient;
  snapshotBaselines : gmap string udpSnapshotBaseline;
  sv_counters : OutCounters;
  sv_requestsAccepted : Z;
  sv_requestsDropped : Z;
  sv_clientsCreated : Z;
  sv_clientsRemoved : Z;
  sv_metrics : ServerMetrics
}.

Definition NewUDPServer : UDPServer := mkServer ∅ ∅ (mkOutCounters 0 0 0 0 0 0) 0 0 0 0 newServerMetrics.

Definition set_clients (s : UDPServer) (cs : gmap string UDPClient) : UDPServer :=
  mkServer cs (snapshotBaselines s) (sv_counters s) (sv_requestsAccepted s) (sv_requestsDropped s)
    (sv_clientsCreated s) (sv_clientsRemoved s) (sv_metrics s).
Definition set_baselines (s : UDPServer) (bs : gmap string udpSnapshotBaseline) : UDPServer :=
  mkServer (clients s) bs (sv_counters s) (sv_requestsAccepted s) (sv_requestsDropped s)
    (sv_clientsCreated s) (sv_clientsRemoved s) (sv_metrics s).
Definition set_counters (s : UDPServer) (c : OutCounters) : UDPServer :=
  mkServer (clients s) (snapshotBaselines s) c (sv_requestsAccepted s) (sv_requestsDropped s)
    (sv_clientsCreated s) (sv_clientsRemoved s) (sv_metrics s).
Definition count_request (s : UDPServer) (accepted : bool) : UDPServer :=
  mkServer (clients s) (snapshotBaselines s) (sv_counters s)
    (if accepted then u64_inc (sv_requestsAccepted s) else sv_requestsAccepted s)
    (if accepted then sv_requestsDropped s else u64_inc (sv_requestsDropped s))
    (sv_clientsCreated s) (sv_clientsRemoved s) (sv_metrics s).

Definition set_wire (c : UDPClient) (w : WireState) : UDPClient :=
  mkClient (cl_connectionID c) (cl_id c) (cl_authenticated c) w (cl_window c) (cl_peerAck c)
    (cl_peerAckBits c) (cl_lastHeardAt c) (cl_out c) (cl_in c) (cl_budget c).
Definition set_out (c : UDPClient) (out : ReliableOut) : UDPClient :=
  mkClient (cl_connectionID c) (cl_id c) (cl_authenticated c) (cl_wire c) (cl_window c) (cl_peerAck c)
    (cl_peerAckBits c) (cl_lastHeardAt c) out (cl_in c) (cl_budget c).
Definition set_in (c : UDPClient) (r : ReliableIn) : UDPClient :=
  mkClient (cl_connectionID c) (cl_id c) (cl_authenticated c) (cl_wire c) (cl_window c) (cl_peerAck c)
    (cl_peerAckBits c) (cl_lastHeardAt c) (cl_out c) r (cl_budget c).
Definition set_window (c : UDPClient) (w : RecvWindow) : UDPClient :=
  mkClient (cl_connectionID c) (cl_id c) (cl_authenticated c) (cl_wire c) w (cl_peerAck c)
    (cl_peerAckBits c) (cl_lastHeardAt c) (cl_out c) (cl_in c) (cl_budget c).

Definition set_budget (c : UDPClient) (b : Budget) : UDPClient :=
  mkClient (cl_connectionID c) (cl_id c) (cl_authenticated c) (cl_wire c) (cl_window c) (cl_peerAck c)
    (cl_peerAckBits c) (cl_lastHeardAt c) (cl_out c) (cl_in c) b.
Definition on_metrics (s : UDPServer) (f : ServerMetrics -> ServerMetrics) : UDPServer :=
  mkServer (clients s) (snapshotBaselines s) (sv_counters s) (sv_requestsAccepted s) (sv_requestsDropped s)
    (sv_clientsCreated s) (sv_clientsRemoved s) (f (sv_metrics s)).
Definition update_client (s : UDPServer) (addr : string) (f : UDPClient -> UDPClient) : UDPServer :=
  set_clients s (alter f addr (clients s)).

(** ** Creation *)
Definition connection_of (addr : string) : string := ("udp-" ++ addr)%string.

(** The client that [getOrCreateClientLocked] makes. *)
Definition new_client (config : Config) (addr : string) (now : Z) : UDPClient :=
  mkClient (connection_of addr) (connection_of addr) false
    (mkWireState false false 0 0 (MaxUDPPacketSize config))
    newWindow 0 0 now newReliableOut newReliableIn
    (if EnableBandwidthBudget config
     then set_available newBudget (f_of_Z (ClientBytesPerSecond config)) now else newBudget).

Definition getOrCreateClientLocked (config : Config) (s : UDPServer) (addr : string) (now : Z)
    : UDPServer * UDPClient :=
  match clients s !! addr with
  | Some client => (s, client)
  | None =>
      let client := new_client config addr now in
      (mkServer (<[addr := client]> (clients s)) (snapshotBaselines s) (sv_counters s)
         (sv_requestsAccepted s) (sv_requestsDropped s) (u64_inc (sv_clientsCreated s))
         (sv_clientsRemoved s) (sv_metrics s), client)
  end.

(** [acceptClientRequest]: the boolean says whether the packet is processed. *)
Definition acceptClientRequest (config : Config) (s : UDPServer) (addr : string)
    (sequence ack ackBits now : Z) : UDPServer * bool :=
  if bool_decide (clients s !! addr = None) && (0 <? MaxClients config) &&
     (MaxClients config <=? Z.of_nat (size (clients s)))
  then (count_request s false, false)
  else
    let (s, client) := getOrCreateClientLocked config s addr now in
    let (out, counters) := removeAckedReliableLocked (cl_out client) (sv_counters s) ack ackBits in
    let (window, accepted) := accept_sequence (cl_window client) sequence in
    let client :=
      mkClient (cl_connectionID client) (cl_id client) (cl_authenticated client) (cl_wire client)
        window ack ackBits now out (cl_in client) (cl_budget client) in
    (count_request (set_counters (set_clients s (<[addr := client]> (clients s))) counters) accepted,
     accepted).

(** ** Negotiation *)
Definition mark_wire (config : Config) (w : WireState) : WireState :=
  mkWireState true (wireNegotiated w)
    (if wireVersion w =? 0 then WireProtocolVersion else wireVersion w)
    (if wireCapabilities w =? 0 then DefaultWireCapabilities else wireCapabilities w)
    (if maxPacketSize w =? 0 then MaxUDPPacketSize config else maxPacketSize w).

Definition markWireClient (config : Config) (s : UDPServer) (addr : string) : UDPServer :=
  let s :=
    match clients s !! addr with
    | Some client =>
        if negb (wireProtocol (cl_wire client))
        then set_baselines s (delete (cl_connectionID client) (snapshotBaselines s)) else s
    | None => s
    end in
  update_client s addr (fun client => set_wire client (mark_wire config (cl_wire client))).

Definition negotiated_wire (w : WireState) (welcome : Welcome) : WireState :=
  let negotiated :=
    negb (welcome_ProtocolVersion welcome =? 0) || negb (welcome_Capabilities welcome =? 0) in
  mkWireState (wireProtocol w) negotiated
    (if negb (welcome_ProtocolVersion welcome =? 0) then welcome_ProtocolVersion welcome else wireVersion w)
    (if negotiated then welcome_Capabilities welcome else wireCapabilities w)
    (if 0 <? welcome_MaxPacketSize welcome then welcome_MaxPacketSize welcome else maxPacketSize w).

Definition applyNegotiatedWireState (s : UDPServer) (addr : string) (welcome : Welcome) : UDPServer :=
  update_client s addr (fun client => set_wire client (negotiated_wire (cl_wire client) welcome)).

Definition set_packet_size (w : WireState) (size : Z) : WireState :=
  mkWireState (wireProtocol w) (wireNegotiated w) (wireVersion w) (wireCapabilities w) size.

Definition applyClientPacketSize (config : Config) (s : UDPServer) (addr : string) (packetSize : Z)
    : UDPServer :=
  if packetSize =? 0 then s
  else
    let limit := MaxUDPPacketSize config in
    update_client s addr (fun client =>
      set_wire client (set_packet_size (cl_wire client)
        (if packetSize <? wrap 32 limit then packetSize else limit))).

Definition clientSupportsDeltaSnapshots (w : WireState) : bool :=
  if negb (wireNegotiated w) then true
  else capabilities_Has (wireCapabilities w) WireCapabilityDeltaSnapshots.

(** ** Authentication *)
Definition owned_by_other (s : UDPServer) (addr authenticatedID : string) : bool :=
  existsb (fun e => negb (bool_decide (e.1 = addr)) && cl_authenticated e.2 &&
                    bool_decide (cl_id e.2 = authenticatedID)) (map_to_list (clients s)).

Definition authenticateClient (s : UDPServer) (addr authenticatedID : string) : UDPServer * result unit :=
  let authenticatedID := TrimSpace authenticatedID in
  if decide (authenticatedID = ""%string) then (s, Err ErrMissingAuthenticationID)
  else if owned_by_other s addr authenticatedID then (s, Err ErrAuthenticatedClientIDInUse)
  else
    match clients s !! addr with
    | None => (s, Ok tt)
    | Some client =>
        let s := set_baselines s (delete (cl_connectionID client) (snapshotBaselines s)) in
        (update_client s addr (fun client =>
           mkClient (cl_connectionID client) authenticatedID true (cl_wire client) (cl_window client)
             (cl_peerAck client) (cl_peerAckBits client) (cl_lastHeardAt client) (cl_out client)
             (cl_in client) (cl_budget client)), Ok tt)
    end.

(** ** Timeout *)
Definition is_stale (config : Config) (now : Z) (client : UDPClient) : bool :=
  ClientTimeout config <? now - cl_lastHeardAt client.

(** One turn of the loop of [removeStaleClients]. *)
Definition remove_if_stale (config : Config) (now : Z) (s : UDPServer) (e : string * UDPClient) : UDPServer :=
  if is_stale config now e.2 then
    mkServer (delete e.1 (clients s)) (delete (cl_connectionID e.2) (snapshotBaselines s))
      (sv_counters s) (sv_requestsAccepted s) (sv_requestsDropped s) (sv_clientsCreated s)
      (u64_inc (sv_clientsRemoved s)) (sv_metrics s)
  else s.

Definition removeStaleClients (config : Config) (s : UDPServer) (now : Z) : UDPServer :=
  foldl (remove_if_stale config now) s (map_to_list (clients s)).

(** [snapshotClients]: the clients that get snapshots, by address. *)
Definition snapshotClients (authenticationRequired : bool) (s : UDPServer) : gmap string UDPClient :=
  filter (fun e => authenticationRequired = false \/ cl_authenticated e.2 = true) (clients s).

(** ** Snapshot baselines *)
Definition snapshotBaseline (s : UDPServer) (connectionID : string) : option udpSnapshotBaseline :=
  snapshotBaselines s !! connectionID.

Definition shouldSendFullSnapshot (config : Config) (baseline : udpSnapshotBaseline) : bool :=
  let interval := FullSnapshotEvery config in
  if interval <=? 1 then true
  else interval <=? u64_inc (base_snapshotsSinceFull baseline).

(** The kind that [encodeUDPSnapshot] chooses: [true] for a delta. *)
Definition chooses_delta (config : Config) (s : UDPServer) (client : UDPClient) : bool :=
  match snapshotBaseline s (cl_connectionID client) with
  | Some baseline =>
      EnableDeltaSnapshots config && negb (shouldSendFullSnapshot config baseline) &&
      clientSupportsDeltaSnapshots (cl_wire client)
  | None => false
  end.

(** [roundtrip] is [json.Unmarshal] of [json.Marshal], as in [CloneSnapshotData]. *)
Definition commitSnapshotBaseline (roundtrip : SnapshotData -> option SnapshotData) (config : Config) (s : UDPServer)
    (connectionID : string) (tick : Z) (objects : SnapshotData) (delta : bool) : UDPServer :=
  if negb (EnableDeltaSnapshots config) then s
  else
    let snapshotsSinceFull :=
      if delta then
        match snapshotBaselines s !! connectionID with
        | Some previous => u64_inc (base_snapshotsSinceFull previous)
        | None => 0
        end
      else 0 in
    set_baselines s (<[connectionID := mkBaseline tick (CloneSnapshotData roundtrip (Some objects)) snapshotsSinceFull]>
                       (snapshotBaselines s)).

Definition resetSnapshotBaseline (s : UDPServer) (addr : string) : UDPServer :=
  match clients s !! addr with
  | None => s
  | Some client => set_baselines s (delete (cl_connectionID client) (snapshotBaselines s))
  end.

(** ** Reliable messages of a client *)
Definition receiveReliable (s : UDPServer) (addr : string)
    (messages : list (udpIncomingMessage (Body := Body)))
    : UDPServer * list (udpIncomingMessage (Body := Body)) :=
  match clients s !! addr with
  | None => (s, [])
  | Some client =>
      let c := sv_counters s in
      let '(r, drops, accepted) :=
        acceptReliableIncomingMessages (cl_wire client) (cl_in client)
          (mkDrops (oc_reliableDrops c) (sv_requestsDropped s)) messages in
      (mkServer (<[addr := set_in client r]> (clients s)) (snapshotBaselines s)
         (mkOutCounters (oc_reliableQueued c) (oc_reliableRetransmits c) (reliableDrops drops)
            (oc_reliableAckRemovals c) (oc_oversizedOutbound c) (oc_nextSequence c))
         (sv_requestsAccepted s) (requestsDropped drops) (sv_clientsCreated s) (sv_clientsRemoved s)
         (sv_metrics s),
       accepted)
  end.

(** ** Bandwidth budget *)

(** [None] is the budget of a server that keeps none. *)
Definition outboundBudgetLimit (overflow : f64 -> Z) (config : Config) (s : UDPServer) (addr : string)
    (now : Z) : UDPServer * option Z :=
  if negb (EnableBandwidthBudget config) then (s, None)
  else
    match clients s !! addr with
    | None => (s, Some 0)
    | Some client =>
        let (b, limit) := Budget.outboundBudgetLimit overflow config (cl_budget client) now in
        (update_client s addr (fun client => set_budget client b), limit)
    end.

(** Like the code's, it does not look at the priority. *)
Definition reserveOutboundBudget (config : Config) (s : UDPServer) (addr : string) (bytes : Z)
    (priority : OutboundPriority) (deferrable : bool) (now : Z) : UDPServer * bool :=
  if bytes <=? 0 then (s, true)
  else if negb (EnableBandwidthBudget config) then (s, true)
  else
    match clients s !! addr with
    | None => (s, false)
    | Some client =>
        let (b, reserved) := Budget.reserveOutboundBudget config (cl_budget client) bytes deferrable now in
        let s := update_client s addr (fun client => set_budget client b) in
        (if reserved then s
         else if deferrable then on_metrics s (fun m => count_deferrals m 1)
         else on_metrics s count_budget_drop, reserved)
    end.

Definition recordOutboundBytes (s : UDPServer) (addr : string) (bytes : Z) : UDPServer :=
  if bytes <=? 0 then s
  else
    on_metrics (update_client s addr (fun client =>
                  set_budget client (Budget.recordOutboundBytes (cl_budget client) bytes)))
      (fun m => count_bytes m bytes).

Definition recordBudgetDeferral (s : UDPServer) (addr : string) : UDPServer :=
  on_metrics (update_client s addr (fun client =>
                set_budget client (Budget.recordBudgetDeferral (cl_budget client))))
    (fun m => count_deferrals m 1).

Definition recordSnapshotDeferrals (s : UDPServer) (addr : string) (count : Z) : UDPServer :=
  if count =? 0 then s
  else
    on_metrics (update_client s addr (fun client =>
                  set_budget client (Budget.recordSnapshotDeferrals (cl_budget client) count)))
      (fun m => count_deferrals m count).

Definition recordOversizedOutbound (s : UDPServer) : UDPServer :=
  let c := sv_counters s in
  set_counters s (mkOutCounters (oc_reliableQueued c) (oc_reliableRetransmits c) (oc_reliableDrops c)
    (oc_reliableAckRemovals c) (u64_inc (oc_oversizedOutbound c)) (oc_nextSequence c)).

Definition recordReliableDrop (s : UDPServer) : UDPServer := set_counters s (count_drop (sv_counters s)).

(** ** Sending *)

(** [write] is what the connection makes of a packet for this client. *)
Definition write_packet (write : bytes -> result unit) (s : UDPServer) (addr : string) (payload : bytes)
    : UDPServer * result unit :=
  match write payload with
  | Ok _ => (recordOutboundBytes s addr (zlen payload), Ok tt)
  | Err e => (s, Err e)
  end.

(** [sendUDPResponse] to a wire client, from the encoded message on; the packet
    is the one handed to the connection. *)
Definition sendToClient (config : Config) (write : bytes -> result unit) (s : UDPServer) (addr : string)
    (message : WireMessage) (priority : OutboundPriority) (sentAt : Z)
    : UDPServer * option bytes * result unit :=
  match clients s !! addr with
  | None => (s, None, Ok tt)
  | Some client =>
      let '(out, c, r) := prepare_send config (cl_wire client) (cl_window client) (cl_out client)
                            (sv_counters s) message in
      let s := set_counters (update_client s addr (fun client => set_out client out)) c in
      match r with
      | Err e => (s, None, Err e)
      | Ok (message, sequence, payload) =>
          let (s, reserved) := reserveOutboundBudget config s addr (zlen payload) priority false sentAt in
          let sent := finish_send config out (sv_counters s) message sequence payload sentAt reserved in
          let s := set_counters (update_client s addr (fun client => set_out client (sent_out sent)))
                     (sent_counters sent) in
          match sent_packet sent with
          | None => (s, None, sent_result sent)
          | Some payload =>
              let (s, r) := write_packet write s addr payload in
              (s, Some payload, r)
          end
      end
  end.

(** ** Retransmission *)
Definition collectReliableRetransmits (config : Config) (s : UDPServer) (order : list (string * list Z))
    (now : Z) : UDPServer * list (string * bytes) :=
  let '(sending, c, transmits) :=
    ReliableOut.collectReliableRetransmits config now order
      ((fun client => (cl_window client, cl_out client)) <$> clients s) (sv_counters s) in
  (set_counters
     (set_clients s (map_imap (fun addr client =>
        Some (match sending !! addr with Some (_, out) => set_out client out | None => client end)) (clients s)))
     c, transmits).

(** One turn of the loop of [retransmitReliable]. *)
Definition retransmit_one (config : Config) (write : string -> bytes -> result unit) (now : Z) (s : UDPServer)
    (transmit : string * bytes) : UDPServer :=
  let (addr, payload) := transmit in
  match clients s !! addr with
  | None => s
  | Some client =>
      let (c, r) := validateOutboundPacket config (cl_wire client) (sv_counters s) payload in
      let s := set_counters s c in
      match r with
      | Err _ => recordReliableDrop s
      | Ok _ =>
          let (s, reserved) := reserveOutboundBudget config s addr (zlen payload) OutboundPriorityHigh true now in
          if negb reserved then s
          else
            let (s, r) := write_packet (write addr) s addr payload in
            match r with Err _ => recordReliableDrop s | Ok _ => s end
      end
  end.

(** [retransmitReliable] with a connection. *)
Definition retransmitReliable (config : Config) (write : string -> bytes -> result unit) (s : UDPServer)
    (order : list (string * list Z)) (now : Z) : UDPServer :=
  let (s, transmits) := collectReliableRetransmits config s order now in
  foldl (retransmit_one config write now) s transmits.

(** ** Invariant *)
Record server_ok (config : Config) (s : UDPServer) : Prop := {
  sk_bounded : 0 < MaxClients config -> Z.of_nat (size (clients s)) <= MaxClients config;
  sk_connection addr c : clients s !! addr = Some c -> cl_connectionID c = connection_of addr;
  sk_unauthenticated addr c :
    clients s !! addr = Some c -> cl_authenticated c = false -> cl_id c = cl_connectionID c;
  sk_id addr c : clients s !! addr = Some c -> cl_authenticated c = true ->
    key_normal (cl_id c) /\ cl_id c <> ""%string;
  sk_unique addr1 addr2 c1 c2 :
    clients s !! addr1 = Some c1 -> clients s !! addr2 = Some c2 ->
    cl_authenticated c1 = true -> cl_authenticated c2 = true -> cl_id c1 = cl_id c2 -> addr1 = addr2;
  sk_baseline k b : snapshotBaselines s !! k = Some b ->
    exists addr, is_Some (clients s !! addr) /\ k = connection_of addr
}.

Lemma NewUDPServer_ok config : server_ok config NewUDPServer.
Proof.
  split; simpl.
  - intros. rewrite map_size_empty. lia.
  - intros addr c. by rewrite lookup_empty.
  - intros addr c. by rewrite lookup_empty.
  - intros addr c. by rewrite lookup_empty.
  - intros addr1 addr2 c1 c2. by rewrite lookup_empty.
  - intros k b. by rewrite lookup_empty.
Qed.

(** The parts of a client that the invariant looks at. *)
Definition same_identity (c c' : UDPClient) : Prop :=
  cl_connectionID c' = cl_connectionID c /\ cl_id c' = cl_id c /\
  cl_authenticated c' = cl_authenticated c.

(** The table after a step that keeps the identity of every client. *)
Definition same_table (s s' : UDPServer) : Prop :=
  (forall addr c', clients s' !! addr = Some c' ->
     exists c, clients s !! addr = Some c /\ same_identity c c') /\
  (forall addr, is_Some (clients s !! addr) -> is_Some (clients s' !! addr)).

Lemma same_table_size s s' : same_table s s' -> size (clients s') = size (clients s).
Proof.
  intros [H1 H2]. rewrite <- !size_dom. f_equal. apply leibniz_equiv. intros addr.
  rewrite !elem_of_dom. split; [|apply H2].
  intros [c' Hc']. destruct (H1 _ _ Hc') as (c & Hc & _). by exists c.
Qed.

Lemma same_table_ok config s s' :
  same_table s s' -> (forall k, is_Some (snapshotBaselines s' !! k) -> is_Some (snapshotBaselines s !! k)) ->
  server_ok config s -> server_ok config s'.
Proof.
  intros Ht Hb [K1 K2 K3 K4 K5 K6]. pose proof (same_table_size _ _ Ht) as Hsize. destruct Ht as [H1 H2].
  split.
  - by rewrite Hsize.
  - intros addr c' Hc'. destruct (H1 _ _ Hc') as (c & Hc & -> & _). by apply K2.
  - intros addr c' Hc'. destruct (H1 _ _ Hc') as (c & Hc & -> & -> & ->). by eapply K3.
  - intros addr c' Hc'. destruct (H1 _ _ Hc') as (c & Hc & _ & -> & ->). by eapply K4.
  - intros a1 a2 c1' c2' Hc1' Hc2'. destruct (H1 _ _ Hc1') as (c1 & Hc1 & _ & -> & ->).
    destruct (H1 _ _ Hc2') as (c2 & Hc2 & _ & -> & ->). by eapply K5.
  - intros k b Hk. destruct (Hb k) as [b' Hb']; [by exists b|].
    destruct (K6 _ _ Hb') as (addr & Ha & ->). exists addr. split; [by apply H2 | done].
Qed.

Lemma same_table_refl s s' : clients s' = clients s -> same_table s s'.
Proof. intros E. unfold same_table. rewrite E. split; [|done]. intros addr c Hc. exists c. by repeat split. Qed.

Lemma same_table_alter s addr f :
  (forall c, same_identity c (f c)) -> same_table s (update_client s addr f).
Proof.
  intros Hf. split; cbn [clients update_client set_clients].
  - intros a c' H. apply lookup_alter_Some in H as [(<- & c & Hc & ->)|[_ Hc]];
      [by exists c | exists c'; by repeat split].
  - intros a [c Hc]. destruct (decide (addr = a)) as [->|Hne];
      [rewrite lookup_alter_eq, Hc; by eexists | rewrite lookup_alter_ne by done; by exists c].
Qed.

Lemma same_table_insert s addr c c' cs :
  clients s !! addr = Some c -> same_identity c c' -> clients cs = <[addr := c']> (clients s) ->
  same_table s cs.
Proof.
  intros Hc Hid Hcs. split; rewrite Hcs.
  - intros a x [[<- <-]|[_ Hx]]%lookup_insert_Some; [by exists c | exists x; by repeat split].
  - intros a Ha. destruct (decide (addr = a)) as [->|Hne];
      [rewrite lookup_insert_eq; by eexists | by rewrite lookup_insert_ne].
Qed.

(** *** Every operation preserves it *)
Lemma markWireClient_ok config s addr : server_ok config s -> server_ok config (markWireClient config s addr).
Proof.
  intros Hok. unfold markWireClient.
  set (s1 := match clients s !! addr with Some c => _ | None => s end).
  assert (clients s1 = clients s /\
    forall k, is_Some (snapshotBaselines s1 !! k) -> is_Some (snapshotBaselines s !! k)) as [Hc Hb].
  { unfold s1. destruct (clients s !! addr) as [c|]; [|done]. destruct (negb _); [|done]. split; [done|].
    intros k [b Hk]. cbn [snapshotBaselines set_baselines] in Hk.
  apply lookup_delete_Some in Hk as [_ Hk]. by exists b. }
  eapply (same_table_ok config s1); [by apply same_table_alter | done |].
  eapply (same_table_ok config s); [by apply same_table_refl | done | done].
Qed.

Lemma update_wire_ok config s addr f :
  server_ok config s ->
  server_ok config (update_client s addr (fun client => set_wire client (f (cl_wire client)))).
Proof. intros Hok. eapply (same_table_ok config s); [by apply same_table_alter | done | done]. Qed.

Lemma applyNegotiatedWireState_ok config s addr welcome :
  server_ok config s -> server_ok config (applyNegotiatedWireState s addr welcome).
Proof. apply (update_wire_ok config s addr (fun w => negotiated_wire w welcome)). Qed.

Lemma applyClientPacketSize_ok config s addr packetSize :
  server_ok config s -> server_ok config (applyClientPacketSize config s addr packetSize).
Proof.
  unfold applyClientPacketSize. destruct (_ =? _); [done|].
  apply (update_wire_ok config s addr (fun w => set_packet_size w _)).
Qed.

Lemma resetSnapshotBaseline_ok config s addr :
  server_ok config s -> server_ok config (resetSnapshotBaseline s addr).
Proof.
  intros Hok. unfold resetSnapshotBaseline. destruct (clients s !! addr) as [c|]; [|done].
  eapply (same_table_ok config s); [by apply same_table_refl | | exact Hok].
  intros k [b Hk]. cbn [snapshotBaselines set_baselines] in Hk.
  apply lookup_delete_Some in Hk as [_ Hk]. by exists b.
Qed.

Lemma receiveReliable_ok config s addr messages :
  server_ok config s -> server_ok config (receiveReliable s addr messages).1.
Proof.
  intros Hok. unfold receiveReliable. destruct (clients s !! addr) as [c|] eqn:Hc; [|done].
  destruct (acceptReliableIncomingMessages _ _ _ _) as [[r drops] accepted]. cbn [fst].
  eapply (same_table_ok config s); [eapply (same_table_insert s addr c (set_in c r)); [exact Hc | | reflexivity] | | exact Hok].
  - by repeat split.
  - done.
Qed.

(** *** Steps that keep what the invariant looks at *)
Definition client_view (c : UDPClient) : string * string * bool * RecvWindow :=
  (cl_connectionID c, cl_id c, cl_authenticated c, cl_window c).

Definition keeps (s s' : UDPServer) : Prop :=
  snapshotBaselines s' = snapshotBaselines s /\
  forall addr, client_view <$> clients s' !! addr = client_view <$> clients s !! addr.

#[export] Instance keeps_preorder : PreOrder keeps.
Proof.
  split; [done|]. intros s1 s2 s3 [Hb12 H12] [Hb23 H23]. split; [congruence|].
  intros addr. by rewrite H23, H12.
Qed.

Lemma keeps_ok config s s' : keeps s s' -> server_ok config s -> server_ok config s'.
Proof.
  intros [Hb Hk] Hok. eapply same_table_ok; [| |exact Hok].
  - split.
    + intros addr c' Hc'. specialize (Hk addr). rewrite Hc' in Hk.
      destruct (clients s !! addr) as [c|]; [|done]. exists c. split; [done|]. by injection Hk.
    + intros addr [c Hc]. specialize (Hk addr). rewrite Hc in Hk. by destruct (clients s' !! addr).
  - by rewrite Hb.
Qed.

Lemma keeps_window s s' addr : keeps s s' -> cl_window <$> clients s' !! addr = cl_window <$> clients s !! addr.
Proof.
  intros [_ Hk]. specialize (Hk addr). destruct (clients s' !! addr), (clients s !! addr); try done.
  injection Hk as _ _ _ E. simpl. by f_equal.
Qed.

Lemma keeps_update s addr f : (forall c, client_view (f c) = client_view c) -> keeps s (update_client s addr f).
Proof.
  intros Hf. split; [done|]. intros a. cbn [clients update_client set_clients].
  destruct (decide (addr = a)) as [->|Hne]; [|by rewrite lookup_alter_ne].
  rewrite lookup_alter_eq. destruct (clients s !! a); [|done]. simpl. by rewrite Hf.
Qed.

Lemma keeps_counters s c : keeps s (set_counters s c).
Proof. done. Qed.

Lemma keeps_metrics s f : keeps s (on_metrics s f).
Proof. done. Qed.

Lemma keeps_reserve config s addr bytes priority deferrable now :
  keeps s (reserveOutboundBudget config s addr bytes priority deferrable now).1.
Proof.
  unfold reserveOutboundBudget. destruct (_ <=? 0); [done|]. destruct (negb _); [done|].
  destruct (clients s !! addr) as [client|]; [|done].
  destruct (Budget.reserveOutboundBudget _ _ _ _ _) as [b reserved]. cbn [fst].
  destruct reserved, deferrable; by apply keeps_update.
Qed.

Lemma keeps_limit overflow config s addr now : keeps s (outboundBudgetLimit overflow config s addr now).1.
Proof.
  unfold outboundBudgetLimit. destruct (negb _); [done|]. destruct (clients s !! addr) as [client|]; [|done].
  destruct (Budget.outboundBudgetLimit _ _ _ _) as [b limit]. by apply keeps_update.
Qed.

Lemma keeps_write write s addr payload : keeps s (write_packet write s addr payload).1.
Proof.
  unfold write_packet. destruct (write payload); [|done]. unfold recordOutboundBytes. cbn [fst].
  destruct (_ <=? 0); [done|]. by apply keeps_update.
Qed.

Lemma keeps_deferrals s addr count : keeps s (recordSnapshotDeferrals s addr count).
Proof. unfold recordSnapshotDeferrals. destruct (_ =? 0); [done|]. by apply keeps_update. Qed.

Lemma keeps_send config write s addr message priority sentAt :
  keeps s (sendToClient config write s addr message priority sentAt).1.1.
Proof.
  unfold sendToClient. destruct (clients s !! addr) as [client|]; [|done].
  destruct (prepare_send _ _ _ _ _ _) as [[out c] r].
  set (s1 := set_counters (update_client s addr _) c).
  assert (keeps s s1) as H1 by (etrans; [by apply (keeps_update s addr (fun client => set_out client out)) | done]).
  destruct r as [[[message' sequence] payload]|e]; [|done].
  pose proof (keeps_reserve config s1 addr (zlen payload) priority false sentAt) as H2.
  destruct (reserveOutboundBudget config s1 addr (zlen payload) priority false sentAt) as [s2 reserved].
  set (sent := finish_send _ _ _ _ _ _ _ _). set (s3 := set_counters (update_client s2 addr _) _).
  assert (keeps s s3) as H3.
  { etrans; [exact H1|]. etrans; [exact H2|].
    etrans; [by apply (keeps_update s2 addr (fun client => set_out client (sent_out sent))) | done]. }
  destruct (sent_packet sent) as [packet|]; [|done].
  pose proof (keeps_write write s3 addr packet) as H4.
  destruct (write_packet write s3 addr packet) as [s4 r]. cbn [fst] in *. by etrans.
Qed.

Lemma keeps_collect config s order now : keeps s (collectReliableRetransmits config s order now).1.
Proof.
  unfold collectReliableRetransmits.
  destruct (ReliableOut.collectReliableRetransmits _ _ _ _ _) as [[sending c] transmits]. split; [done|].
  intros addr. cbn [fst clients set_counters set_clients]. rewrite map_lookup_imap.
  destruct (clients s !! addr) as [client|]; [|done]. simpl. by destruct (sending !! addr) as [[w out]|].
Qed.

Lemma keeps_retransmit_one config write now s transmit : keeps s (retransmit_one config write now s transmit).
Proof.
  destruct transmit as [addr payload]. unfold retransmit_one. destruct (clients s !! addr) as [client|]; [|done].
  destruct (validateOutboundPacket _ _ _ _) as [c [[]|e]]; [|done].
  pose proof (keeps_reserve config (set_counters s c) addr (zlen payload) OutboundPriorityHigh true now) as H2.
  destruct (reserveOutboundBudget config (set_counters s c) addr (zlen payload) OutboundPriorityHigh true now) as [s2 reserved].
  cbn [fst] in H2. destruct (negb reserved); [done|].
  pose proof (keeps_write (write addr) s2 addr payload) as H3.
  destruct (write_packet (write addr) s2 addr payload) as [s3 [[]|e]]; cbn [fst] in H3;
    (etrans; [exact H2 | exact H3]).
Qed.

Lemma keeps_foldl {A} (f : UDPServer -> A -> UDPServer) (l : list A) :
  (forall s a, keeps s (f s a)) -> forall s, keeps s (foldl f s l).
Proof.
  intros Hf. induction l as [|a l IH]; intros s; [done|]. cbn [foldl]. etrans; [apply Hf | apply IH].
Qed.

Lemma keeps_retransmit config write s order now : keeps s (retransmitReliable config write s order now).
Proof.
  unfold retransmitReliable. pose proof (keeps_collect config s order now) as H1.
  destruct (collectReliableRetransmits config s order now) as [s1 transmits]. etrans; [exact H1|].
  apply keeps_foldl. apply keeps_retransmit_one.
Qed.

Lemma commitSnapshotBaseline_ok roundtrip config s addr tick objects delta :
  is_Some (clients s !! addr) -> server_ok config s ->
  server_ok config (commitSnapshotBaseline roundtrip config s (connection_of addr) tick objects delta).
Proof.
  intros Ha [K1 K2 K3 K4 K5 K6]. unfold commitSnapshotBaseline. destruct (negb _); [done|].
  split; try done. cbn [snapshotBaselines set_baselines].
  intros k b [[<- _]|[_ Hk]]%lookup_insert_Some; [by exists addr | by eapply K6].
Qed.

Lemma getOrCreate_ok config s addr now :
  (clients s !! addr = None -> 0 < MaxClients config ->
   Z.of_nat (size (clients s)) < MaxClients config) ->
  server_ok config s -> server_ok config (getOrCreateClientLocked config s addr now).1.
Proof.
  intros Hroom Hok. unfold getOrCreateClientLocked. destruct (clients s !! addr) as [c|] eqn:Hc; [done|].
  destruct Hok as [K1 K2 K3 K4 K5 K6]. cbn [fst]. split; cbn [clients snapshotBaselines].
  - intros Hmax. rewrite map_size_insert_None by done. specialize (Hroom eq_refl Hmax). lia.
  - intros a x [[<- <-]|[_ Hx]]%lookup_insert_Some; [done | by apply K2].
  - intros a x [[<- <-]|[_ Hx]]%lookup_insert_Some; [done | by eapply K3].
  - intros a x [[<- <-]|[_ Hx]]%lookup_insert_Some; [done | by eapply K4].
  - intros a1 a2 x1 x2 [[<- <-]|[_ Hx1]]%lookup_insert_Some [[<- <-]|[_ Hx2]]%lookup_insert_Some;
      try done. by eapply K5.
  - intros k b Hk. destruct (K6 _ _ Hk) as (a & Ha & ->). exists a. split; [|done].
    destruct (decide (addr = a)) as [->|Hne]; [rewrite lookup_insert_eq; by eexists | by rewrite lookup_insert_ne].
Qed.

Lemma acceptClientRequest_ok config s addr sequence ack ackBits now :
  server_ok config s ->
  server_ok config (acceptClientRequest config s addr sequence ack ackBits now).1.
Proof.
  intros Hok. unfold acceptClientRequest.
  destruct (_ && _ && _) eqn:Hfull.
  { eapply (same_table_ok config s); [by apply same_table_refl | done | exact Hok]. }
  pose proof (getOrCreate_ok config s addr now) as Hg.
  assert ((getOrCreateClientLocked config s addr now).2 = default (new_client config addr now) (clients s !! addr) /\
    clients (getOrCreateClientLocked config s addr now).1 !! addr =
      Some (getOrCreateClientLocked config s addr now).2) as [_ Hin].
  { unfold getOrCreateClientLocked. destruct (clients s !! addr) as [c|] eqn:Hc; [done|].
    cbn [fst snd clients]. split; [done | by rewrite lookup_insert_eq]. }
  destruct (getOrCreateClientLocked config s addr now) as [s1 client]. cbn [fst snd] in *.
  destruct (removeAckedReliableLocked _ _ _ _) as [out counters].
  destruct (accept_sequence _ _) as [window accepted]. cbn [fst].
  eapply (same_table_ok config s1);
    [eapply (same_table_insert s1 addr client); [exact Hin | | reflexivity] | |].
  - by repeat split.
  - done.
  - apply Hg; [|done]. intros Hnone Hmax. rewrite bool_decide_true in Hfull by done.
    rewrite (proj2 (Z.ltb_lt _ _)) in Hfull by done. cbn [andb] in Hfull. zbool. lia.
Qed.

Lemma owned_by_other_false s addr id :
  owned_by_other s addr id = false <->
  forall a c, clients s !! a = Some c -> cl_authenticated c = true -> cl_id c = id -> a = addr.
Proof.
  unfold owned_by_other. rewrite <- not_true_iff_false, existsb_exists. split.
  - intros H a c Hc Ha Hid. destruct (decide (a = addr)) as [|Hne]; [done|]. exfalso. apply H.
    exists (a, c). split; [by apply list_elem_of_In, elem_of_map_to_list|]. cbn [fst snd].
    by rewrite bool_decide_false, Ha, bool_decide_true.
  - intros H ([a c] & Hin & Hb). apply list_elem_of_In, elem_of_map_to_list in Hin. cbn [fst snd] in Hb.
    rewrite !andb_true_iff, negb_true_iff, bool_decide_eq_false, bool_decide_eq_true in Hb.
    destruct Hb as [[Hne Ha] Hid]. apply Hne. by eapply H.
Qed.

Lemma authenticateClient_ok config s addr id :
  server_ok config s -> server_ok config (authenticateClient s addr id).1.
Proof.
  intros Hok. unfold authenticateClient. destruct (decide (TrimSpace id = ""%string)) as [|Hne]; [done|].
  destruct (owned_by_other s addr (TrimSpace id)) eqn:Hown; [done|].
  destruct (clients s !! addr) as [client|] eqn:Hc; [|done]. cbn [fst].
  rewrite owned_by_other_false in Hown. destruct Hok as [K1 K2 K3 K4 K5 K6].
  assert (forall a x, alter (fun client => mkClient (cl_connectionID client) (TrimSpace id) true
      (cl_wire client) (cl_window client) (cl_peerAck client) (cl_peerAckBits client)
      (cl_lastHeardAt client) (cl_out client) (cl_in client) (cl_budget client)) addr (clients s) !! a = Some x ->
    (a = addr /\ cl_connectionID x = connection_of addr /\ cl_id x = TrimSpace id /\
     cl_authenticated x = true) \/ (a <> addr /\ clients s !! a = Some x)) as Hlook.
  { intros a x H. apply lookup_alter_Some in H as [(<- & c & Hcc & ->)|[Hna Hx]]; [left | right; split; [congruence | done]].
    split_and!; [done | exact (K2 _ _ Hcc) | done | done]. }
  split; cbn [clients snapshotBaselines update_client set_clients set_baselines].
  - intros Hmax. rewrite <- size_dom, dom_alter_L, size_dom. by apply K1.
  - intros a x H. destruct (Hlook _ _ H) as [(-> & -> & _)|[_ Hx]]; [done | by apply K2].
  - intros a x H Hau. destruct (Hlook _ _ H) as [(_ & _ & _ & ?)|[_ Hx]]; [congruence | by eapply K3].
  - intros a x H Hau. destruct (Hlook _ _ H) as [(_ & _ & -> & _)|[_ Hx]]; [|by eapply K4].
    split; [apply normalize_key_normal | done].
  - intros a1 a2 x1 x2 H1 H2 Hau1 Hau2 Heq.
    destruct (Hlook _ _ H1) as [(-> & _ & Hid1 & _)|[Hn1 Hx1]];
      destruct (Hlook _ _ H2) as [(-> & _ & Hid2 & _)|[Hn2 Hx2]]; [done | | | by eapply K5].
    + symmetry. apply (Hown a2 x2); [done | done | congruence].
    + apply (Hown a1 x1); [done | done | congruence].
  - intros k b [_ Hk]%lookup_delete_Some. destruct (K6 _ _ Hk) as (a & [c Ha] & ->). exists a. split; [|done].
    destruct (decide (addr = a)) as [->|Hna]; [rewrite lookup_alter_eq, Ha; by eexists |
      rewrite lookup_alter_ne by done; by exists c].
Qed.

(** *** Timeout *)
Lemma connection_of_inj a b : connection_of a = connection_of b -> a = b.
Proof. unfold connection_of. intros E. by injection E. Qed.

(** What the loop does to the two maps, one client at a time. *)
Lemma remove_loop_clients config now l : forall s,
  clients (foldl (remove_if_stale config now) s l) =
  foldl (fun cs (e : string * UDPClient) => if is_stale config now e.2 then delete e.1 cs else cs)
    (clients s) l.
Proof.
  induction l as [|e l IH]; intros s; [done|]. cbn [foldl]. rewrite IH. unfold remove_if_stale.
  by destruct (is_stale config now e.2).
Qed.

Lemma remove_loop_baselines config now l : forall s,
  snapshotBaselines (foldl (remove_if_stale config now) s l) =
  foldl (fun bs (e : string * UDPClient) =>
    if is_stale config now e.2 then delete (cl_connectionID e.2) bs else bs) (snapshotBaselines s) l.
Proof.
  induction l as [|e l IH]; intros s; [done|]. cbn [foldl]. rewrite IH. unfold remove_if_stale.
  by destruct (is_stale config now e.2).
Qed.

Lemma delete_loop_lookup {V} (keep : UDPClient -> bool) (key : string * UDPClient -> string)
    (l : list (string * UDPClient)) : forall (m : gmap string V) k v,
  foldl (fun m (e : string * UDPClient) => if keep e.2 then delete (key e) m else m) m l !! k = Some v <->
  m !! k = Some v /\ forall e, e ∈ l -> keep e.2 = true -> key e <> k.
Proof.
  induction l as [|e l IH]; intros m k v; cbn [foldl].
  { split; [intros H; split; [done | by intros e ?%elem_of_nil] | tauto]. }
  rewrite IH. destruct (keep e.2) eqn:E.
  - rewrite lookup_delete_Some. split.
    + intros [[Hne Hk] Hl]. split; [done|]. intros e' [->|He']%elem_of_cons Hk'; [done | by apply Hl].
    + intros [Hk Hl]. split_and!; [apply Hl; [by left | done] | done |].
      intros e' He' Hk'. apply Hl; [by right | done].
  - split.
    + intros [Hk Hl]. split; [done|]. intros e' [->|He']%elem_of_cons Hk'; [congruence | by apply Hl].
    + intros [Hk Hl]. split; [done|]. intros e' He' Hk'. apply Hl; [by right | done].
Qed.

Lemma removeStaleClients_lookup config s now a c :
  clients (removeStaleClients config s now) !! a = Some c <->
  clients s !! a = Some c /\ is_stale config now c = false.
Proof.
  unfold removeStaleClients. rewrite remove_loop_clients, (delete_loop_lookup _ fst). split.
  - intros [Hc Hl]. split; [done|]. apply not_true_iff_false. intros Hst.
    by apply (Hl (a, c)); [apply elem_of_map_to_list | |].
  - intros [Hc Hst]. split; [done|]. intros [a' c'] Hin%elem_of_map_to_list Hst' Heq. cbn in *. subst. congruence.
Qed.

Lemma removeStaleClients_baseline config s now k b :
  snapshotBaselines (removeStaleClients config s now) !! k = Some b <->
  snapshotBaselines s !! k = Some b /\
  forall a c, clients s !! a = Some c -> is_stale config now c = true -> cl_connectionID c <> k.
Proof.
  unfold removeStaleClients. rewrite remove_loop_baselines, (delete_loop_lookup _ (fun e => cl_connectionID e.2)).
  split; intros [Hb Hl]; (split; [done|]).
  - intros a c Hc. apply (Hl (a, c)). by apply elem_of_map_to_list.
  - intros [a c] Hin%elem_of_map_to_list. by apply (Hl a).
Qed.

Lemma removeStaleClients_ok config s now :
  server_ok config s -> server_ok config (removeStaleClients config s now).
Proof.
  intros [K1 K2 K3 K4 K5 K6].
  assert (forall a c, clients (removeStaleClients config s now) !! a = Some c -> clients s !! a = Some c) as Hsub.
  { intros a c [H _]%removeStaleClients_lookup. done. }
  split.
  - intros Hmax. etrans; [|by apply K1]. apply inj_le. apply map_subseteq_size, map_subseteq_spec. exact Hsub.
  - intros a c H%Hsub. by apply K2.
  - intros a c H%Hsub. by eapply K3.
  - intros a c H%Hsub. by eapply K4.
  - intros a1 a2 c1 c2 H1%Hsub H2%Hsub. by eapply K5.
  - intros k b [Hb Hl]%removeStaleClients_baseline. destruct (K6 _ _ Hb) as (a & [c Hc] & ->).
    exists a. split; [|done]. exists c. apply removeStaleClients_lookup. split; [done|].
    apply not_true_iff_false. intros Hst. apply (Hl a c Hc Hst). by apply K2.
Qed.

(** ** The server as a transition system *)

(** The steps that neither receive a datagram nor remove a client.  Responses,
    retransmissions, budgets and counters [keep] what matters here (the lemmas
    [keeps_send], [keeps_retransmit], [keeps_reserve], ... above). *)
Inductive quiet_step (config : Config) (roundtrip : SnapshotData -> option SnapshotData)
    : UDPServer -> UDPServer -> Prop :=
| step_markWire s addr : quiet_step config roundtrip s (markWireClient config s addr)
| step_packetSize s addr size : quiet_step config roundtrip s (applyClientPacketSize config s addr size)
| step_negotiate s addr welcome : quiet_step config roundtrip s (applyNegotiatedWireState s addr welcome)
| step_authenticate s addr id : quiet_step config roundtrip s (authenticateClient s addr id).1
| step_receive s addr messages : quiet_step config roundtrip s (receiveReliable s addr messages).1
| step_keeps s s' : keeps s s' -> quiet_step config roundtrip s s'
| step_reset s addr : quiet_step config roundtrip s (resetSnapshotBaseline s addr)
| step_commit s addr tick objects delta :
    is_Some (clients s !! addr) ->
    quiet_step config roundtrip s
      (commitSnapshotBaseline roundtrip config s (connection_of addr) tick objects delta).

(** The reachable states, with the history of each connected client: the
    non-zero sequence numbers of its packets that were processed. *)
Definition history_of (g : gmap string (gset Z)) (addr : string) : gset Z := default ∅ (g !! addr).

Inductive reachable (config : Config) (roundtrip : SnapshotData -> option SnapshotData)
    : UDPServer -> gmap string (gset Z) -> Prop :=
| reach_new : reachable config roundtrip NewUDPServer ∅
| reach_accept s g addr sequence ack ackBits now s' accepted :
    reachable config roundtrip s g -> in_u64 sequence ->
    acceptClientRequest config s addr sequence ack ackBits now = (s', accepted) ->
    reachable config roundtrip s'
      (if accepted && negb (sequence =? 0)
       then <[addr := {[sequence]} ∪ history_of g addr]> g else g)
| reach_stale s g now :
    reachable config roundtrip s g ->
    reachable config roundtrip (removeStaleClients config s now)
      (filter (fun e => is_Some (clients (removeStaleClients config s now) !! e.1)) g)
| reach_quiet s g s' :
    reachable config roundtrip s g -> quiet_step config roundtrip s s' -> reachable config roundtrip s' g.

Lemma quiet_step_ok config roundtrip s s' :
  quiet_step config roundtrip s s' -> server_ok config s -> server_ok config s'.
Proof.
  intros Hstep Hok. destruct Hstep.
  - by apply markWireClient_ok.
  - by apply applyClientPacketSize_ok.
  - by apply applyNegotiatedWireState_ok.
  - by apply authenticateClient_ok.
  - by apply receiveReliable_ok.
  - by eapply keeps_ok.
  - by apply resetSnapshotBaseline_ok.
  - by apply commitSnapshotBaseline_ok.
Qed.

Lemma update_client_window s addr f a :
  (forall c, cl_window (f c) = cl_window c) ->
  cl_window <$> clients (update_client s addr f) !! a = cl_window <$> clients s !! a.
Proof.
  intros Hf. unfold update_client. cbn [clients set_clients].
  destruct (decide (addr = a)) as [->|Hne]; [|by rewrite lookup_alter_ne].
  rewrite lookup_alter_eq. destruct (clients s !! a); [|done]. cbn. by rewrite Hf.
Qed.

Lemma insert_window (cs : gmap string UDPClient) addr c c' a :
  cs !! addr = Some c -> cl_window c' = cl_window c ->
  cl_window <$> <[addr := c']> cs !! a = cl_window <$> cs !! a.
Proof.
  intros Hc Hw. destruct (decide (addr = a)) as [->|Hne]; [|by rewrite lookup_insert_ne].
  rewrite lookup_insert_eq, Hc. cbn. by rewrite Hw.
Qed.

Lemma quiet_step_window config roundtrip s s' a :
  quiet_step config roundtrip s s' -> cl_window <$> clients s' !! a = cl_window <$> clients s !! a.
Proof.
  intros Hstep. destruct Hstep as [s addr|s addr size|s addr welcome|s addr id|s addr ms|s s' Hk|s addr|s addr tick o d _].
  - unfold markWireClient. rewrite update_client_window by done.
    destruct (clients s !! addr) as [c|]; [|done]. by destruct (negb _).
  - unfold applyClientPacketSize. destruct (_ =? _); [done|]. by apply update_client_window.
  - by apply update_client_window.
  - unfold authenticateClient. destruct (decide _); [done|]. destruct (owned_by_other _ _ _); [done|].
    destruct (clients s !! addr); [|done]. cbn [fst]. by rewrite update_client_window.
  - unfold receiveReliable. destruct (clients s !! addr) as [c|] eqn:Hc; [|done].
    destruct (acceptReliableIncomingMessages _ _ _ _) as [[r d] acc]. by apply (insert_window _ _ c).
  - by apply keeps_window.
  - unfold resetSnapshotBaseline. by destruct (clients s !! addr).
  - unfold commitSnapshotBaseline. by destruct (negb _).
Qed.

(** Any number of them. *)
Definition quiets (config : Config) (roundtrip : SnapshotData -> option SnapshotData) : UDPServer -> UDPServer -> Prop :=
  rtc (quiet_step config roundtrip).

Lemma quiets_ok config roundtrip s s' : quiets config roundtrip s s' -> server_ok config s -> server_ok config s'.
Proof. induction 1; [done|]. eauto using quiet_step_ok. Qed.

Lemma quiets_window config roundtrip s s' a :
  quiets config roundtrip s s' -> cl_window <$> clients s' !! a = cl_window <$> clients s !! a.
Proof. induction 1 as [|s1 s2 s3 H _ IH]; [done|]. by rewrite IH, (quiet_step_window _ _ _ _ _ H). Qed.

Lemma quiets_connected config roundtrip s s' a :
  quiets config roundtrip s s' -> is_Some (clients s' !! a) <-> is_Some (clients s !! a).
Proof. intros H. rewrite <- (fmap_is_Some cl_window), (quiets_window _ _ _ _ a H). by rewrite fmap_is_Some. Qed.

Lemma quiet_keeps config roundtrip s s' : keeps s s' -> quiets config roundtrip s s'.
Proof. intros H. by apply rtc_once, step_keeps. Qed.

(** What [acceptClientRequest] does to the clients. *)
Lemma acceptClientRequest_clients config s addr sequence ack ackBits now :
  let (s', accepted) := acceptClientRequest config s addr sequence ack ackBits now in
  (accepted = false /\ clients s' = clients s /\ clients s !! addr = None) \/
  exists c', clients s' = <[addr := c']> (clients s) /\
    (cl_window c', accepted) =
      accept_sequence (cl_window (default (new_client config addr now) (clients s !! addr))) sequence.
Proof.
  unfold acceptClientRequest. destruct (_ && _ && _) eqn:Hfull.
  { left. apply andb_true_iff in Hfull as [[Hn%bool_decide_eq_true _]%andb_true_iff _]. done. }
  unfold getOrCreateClientLocked. destruct (clients s !! addr) as [c|] eqn:Hc; cbn [default from_option id].
  - destruct (removeAckedReliableLocked _ _ _ _) as [out counters].
    destruct (accept_sequence _ _) as [window accepted]. right. by eexists.
  - destruct (removeAckedReliableLocked _ _ _ _) as [out counters].
    change (cl_window (new_client config addr now)) with newWindow.
    destruct (accept_sequence newWindow sequence) as [window accepted].
    cbn [clients set_counters set_clients count_request]. rewrite insert_insert_eq. right. by eexists.
Qed.

(** The windows of the clients agree with their histories. *)
Definition windows_ok (s : UDPServer) (g : gmap string (gset Z)) : Prop :=
  (forall addr c, clients s !! addr = Some c -> window_ok (history_of g addr) (cl_window c)) /\
  (forall addr, clients s !! addr = None -> g !! addr = None).

Lemma accept_windows_ok config s g addr sequence ack ackBits now :
  windows_ok s g -> in_u64 sequence ->
  let (s', accepted) := acceptClientRequest config s addr sequence ack ackBits now in
  windows_ok s' (if accepted && negb (sequence =? 0)
                 then <[addr := {[sequence]} ∪ history_of g addr]> g else g) /\
  (accepted = true -> sequence <> 0 -> sequence ∉ history_of g addr).
Proof.
  intros [Hw Hn] Hs. pose proof (acceptClientRequest_clients config s addr sequence ack ackBits now) as Hc.
  destruct (acceptClientRequest _ _ _ _ _ _ _) as [s' accepted].
  destruct Hc as [(-> & Hcl & _)|(c' & Hcl & Hacc)].
  { split; [|done]. unfold windows_ok. cbn [andb]. by rewrite Hcl. }
  assert (window_ok (history_of g addr)
    (cl_window (default (new_client config addr now) (clients s !! addr)))) as Hok.
  { destruct (clients s !! addr) as [c|] eqn:E; [by apply Hw|].
    unfold history_of. rewrite (Hn _ E). apply newWindow_ok. }
  pose proof (accept_sequence_ok _ _ _ Hok Hs) as Ha. rewrite <- Hacc in Ha.
  destruct Ha as (Hb & Hok' & _). split.
  - split; rewrite Hcl.
    + intros a c [[<- <-]|[Hne Hx]]%lookup_insert_Some.
      * destruct (accepted && negb (sequence =? 0)); [|done]. unfold history_of. by rewrite lookup_insert_eq.
      * destruct (accepted && negb (sequence =? 0)); [|by apply Hw].
        unfold history_of. rewrite lookup_insert_ne by done. by apply Hw.
    + intros a [Hx Hne]%lookup_insert_None. destruct (accepted && negb (sequence =? 0)); [|by apply Hn].
      rewrite lookup_insert_ne by done. by apply Hn.
  - intros -> Hne Hin. symmetry in Hb. apply orb_true_iff in Hb as [Hb|Hb]; zbool; [done|].
    by rewrite (window_refuses _ _ _ Hok Hs Hin) in Hb.
Qed.

(** A sequence number of the history is refused, and the packet only reports
    what the client has received and that it is still there. *)
Lemma accept_replayed config s g addr sequence peerAck peerAckBits now :
  windows_ok s g -> in_u64 sequence -> sequence ∈ history_of g addr ->
  let (s', accepted) := acceptClientRequest config s addr sequence peerAck peerAckBits now in
  accepted = false /\ keeps s s' /\
  exists c c', clients s !! addr = Some c /\ clients s' = <[addr := c']> (clients s) /\
    c' = mkClient (cl_connectionID c) (cl_id c) (cl_authenticated c) (cl_wire c) (cl_window c) peerAck peerAckBits
           now (removeAckedReliableLocked (cl_out c) (sv_counters s) peerAck peerAckBits).1 (cl_in c) (cl_budget c).
Proof.
  intros [Hw Hn] Hs Hin. destruct (clients s !! addr) as [c|] eqn:Hc; cycle 1.
  { exfalso. unfold history_of in Hin. rewrite (Hn _ Hc) in Hin. by apply elem_of_empty in Hin. }
  specialize (Hw _ _ Hc). pose proof (accept_sequence_ok _ _ _ Hw Hs) as Ha.
  pose proof (wo_range _ _ Hw _ Hin) as Hr.
  unfold acceptClientRequest, getOrCreateClientLocked. rewrite Hc. rewrite bool_decide_false by done. cbn [andb].
  destruct (removeAckedReliableLocked _ _ _ _) as [out counters] eqn:Eout.
  destruct (accept_sequence (cl_window c) sequence) as [window accepted]. destruct Ha as (Hb & _ & Hsame & _).
  assert (accepted = false) as ->.
  { rewrite Hb. rewrite (proj2 (Z.eqb_neq sequence 0)) by lia. cbn [orb]. apply negb_false_iff.
    by eapply window_refuses. }
  specialize (Hsame eq_refl) as ->. split; [done|]. split; [|exists c; eexists; split_and!; [done..|]; by rewrite Eout].
  split; [done|]. intros a. cbn [clients set_counters set_clients count_request].
  destruct (decide (addr = a)) as [<-|Hne]; [|by rewrite lookup_insert_ne].
  by rewrite lookup_insert_eq, Hc.
Qed.

Lemma reachable_ok config roundtrip s g :
  reachable config roundtrip s g -> server_ok config s /\ windows_ok s g.
Proof.
  induction 1 as [|s g addr sequence ack ackBits now s' accepted _ [IH1 IH2] Hs Hacc|s g now _ [IH1 [IH2 IH3]]|s g s' _ [IH1 [IH2 IH3]] Hstep].
  - split; [apply NewUDPServer_ok|]. split; intros addr; by rewrite ?lookup_empty.
  - pose proof (acceptClientRequest_ok config s addr sequence ack ackBits now IH1) as H1.
    pose proof (accept_windows_ok config s g addr sequence ack ackBits now IH2 Hs) as H2.
    rewrite Hacc in H1, H2. by destruct H2.
  - split; [by apply removeStaleClients_ok|]. split.
    + intros addr c Hc. assert (Hc' := Hc). apply removeStaleClients_lookup in Hc' as [Hc' _].
      assert (history_of (filter (fun e => is_Some (clients (removeStaleClients config s now) !! e.1)) g) addr
        = history_of g addr) as ->; [|by apply IH2].
      unfold history_of. rewrite map_lookup_filter. destruct (g !! addr); [|done]. simpl.
      rewrite option_guard_True; [done | by exists c].
    + intros addr Hc. apply map_lookup_filter_None. right. intros h _. simpl. rewrite Hc. by intros [? ?].
  - split; [by eapply quiet_step_ok|].
    pose proof (fun a => quiet_step_window _ _ _ _ a Hstep) as Hwin. split.
    + intros addr c Hc. specialize (Hwin addr). rewrite Hc in Hwin.
      destruct (clients s !! addr) as [c0|] eqn:E; [|done]. injection Hwin as ->. by apply IH2.
    + intros addr Hc. specialize (Hwin addr). rewrite Hc in Hwin.
      destruct (clients s !! addr) eqn:E; [done | by apply IH3].
Qed.

Lemma reachable_quiets config roundtrip s s' g :
  reachable config roundtrip s g -> quiets config roundtrip s s' -> reachable config roundtrip s' g.
Proof. intros Hr H. induction H; [done|]. eauto using reach_quiet. Qed.

(** ** Properties *)

(** The invariant of the client table.  In every reachable state there are at
    most [MaxClients] clients (when a limit is set), no two of them are
    authenticated under the same id, an authenticated id is trimmed and not
    empty, a client that is not authenticated goes by its connection id, and
    snapshot baselines are kept for connected clients only. *)
Theorem server_invariant config roundtrip s g : reachable config roundtrip s g -> server_ok config s.
Proof. intros H. apply (reachable_ok _ _ _ _ H). Qed.

(** C23: replay protection at the server.  Whatever happens in between - packets
    of other clients, authentication, negotiation, responses, snapshots - a
    packet with a non-zero sequence number is processed at most once for as long
    as its client stays connected, and what the server acknowledges to a client
    are exactly its processed packets among the last 65. *)
Theorem server_replay_protection config roundtrip s g addr sequence peerAck peerAckBits now :
  reachable config roundtrip s g -> in_u64 sequence -> sequence <> 0 ->
  ((acceptClientRequest config s addr sequence peerAck peerAckBits now).2 = true ->
   sequence ∉ history_of g addr) /\
  (forall c, clients s !! addr = Some c ->
     packetSequenceAcked (ack (cl_window c)) (ackBits (cl_window c)) sequence = true <->
     sequence ∈ history_of g addr /\ ack (cl_window c) - sequence <= 64).
Proof.
  intros Hr Hs Hne. destruct (reachable_ok _ _ _ _ Hr) as [_ Hw]. split.
  - pose proof (accept_windows_ok config s g addr sequence peerAck peerAckBits now Hw Hs) as H.
    destruct (acceptClientRequest _ _ _ _ _ _ _) as [s' accepted]. intros Ha. by apply H.
  - intros c Hc. apply window_acked; [by apply Hw | done | done].
Qed.

(** The timeout removes exactly the clients that were silent for longer than
    [ClientTimeout], together with their baselines, and touches no other. *)
Theorem removeStaleClients_exact config s now :
  server_ok config s ->
  let s' := removeStaleClients config s now in
  (forall addr c, clients s' !! addr = Some c <->
     clients s !! addr = Some c /\ now - cl_lastHeardAt c <= ClientTimeout config) /\
  (forall addr b, snapshotBaselines s' !! connection_of addr = Some b <->
     snapshotBaselines s !! connection_of addr = Some b /\ is_Some (clients s' !! addr)).
Proof.
  intros Hok. cbv zeta. split.
  - intros addr c. rewrite removeStaleClients_lookup. unfold is_stale. by rewrite Z.ltb_ge.
  - intros addr b. rewrite removeStaleClients_baseline. split; intros [Hb H]; (split; [done|]).
    + destruct (sk_baseline _ _ Hok _ _ Hb) as (a & [c Hc] & <-%connection_of_inj).
      exists c. apply removeStaleClients_lookup. split; [done|]. apply not_true_iff_false. intros Hst.
      apply (H addr c Hc Hst). by apply (sk_connection _ _ Hok).
    + destruct H as [c0 [Hc0 Hst0]%removeStaleClients_lookup].
      intros a c Hc Hst Heq. rewrite (sk_connection _ _ Hok _ _ Hc) in Heq.
      apply connection_of_inj in Heq as ->. congruence.
Qed.

(** The outcomes of [authenticateClient].  An id that is blank or that
    another authenticated client owns is refused without any change; otherwise
    the client gets the trimmed id and loses its snapshot baseline, so that it
    starts again from a full snapshot, and no other client changes. *)
Theorem authenticateClient_exact s addr client id :
  clients s !! addr = Some client ->
  match authenticateClient s addr id with
  | (s', Err e) =>
      s' = s /\
      (e = ErrMissingAuthenticationID /\ TrimSpace id = ""%string \/
       e = ErrAuthenticatedClientIDInUse /\
         exists other c, other <> addr /\ clients s !! other = Some c /\
           cl_authenticated c = true /\ cl_id c = TrimSpace id)
  | (s', Ok _) =>
      (exists c, clients s' !! addr = Some c /\ cl_authenticated c = true /\ cl_id c = TrimSpace id /\
                 cl_wire c = cl_wire client) /\
      snapshotBaselines s' !! cl_connectionID client = None /\
      (forall other, other <> addr -> clients s' !! other = clients s !! other)
  end.
Proof.
  intros Hc. unfold authenticateClient.
  destruct (decide (TrimSpace id = ""%string)) as [He|Hne]; [by split; [|left]|].
  destruct (owned_by_other s addr (TrimSpace id)) eqn:Hown.
  - split; [done|]. right. split; [done|]. unfold owned_by_other in Hown.
    apply existsb_exists in Hown as ([a c] & Hin & Hb). apply list_elem_of_In, elem_of_map_to_list in Hin.
    cbn [fst snd] in Hb. rewrite !andb_true_iff, negb_true_iff, bool_decide_eq_false, bool_decide_eq_true in Hb.
    destruct Hb as [[Hna Ha] Hid]. by exists a, c.
  - rewrite Hc. cbn [clients update_client set_clients set_baselines snapshotBaselines]. split_and!.
    + rewrite lookup_alter_eq, Hc. cbn [fmap option_fmap option_map]. by eexists.
    + by rewrite lookup_delete_eq.
    + intros other Hne'. by rewrite lookup_alter_ne by congruence.
Qed.

(** What a handshake leaves for the next packet.  A welcome with a
    capability in common is what the client keeps; when there is none, the next
    wire packet of the client ([markWireClient]) turns the negotiated empty set
    into all the default capabilities, and the client is sent the delta
    snapshots that it had declined. *)
Theorem markWireClient_negotiated config s addr client welcome :
  clients s !! addr = Some client -> welcome_ProtocolVersion welcome <> 0 ->
  let negotiated := applyNegotiatedWireState s addr welcome in
  let next := markWireClient config negotiated addr in
  exists c c', clients negotiated !! addr = Some c /\ clients next !! addr = Some c' /\
    wireNegotiated (cl_wire c') = true /\ wireVersion (cl_wire c') = welcome_ProtocolVersion welcome /\
    wireCapabilities (cl_wire c) = welcome_Capabilities welcome /\
    if welcome_Capabilities welcome =? 0 then
      wireCapabilities (cl_wire c') = DefaultWireCapabilities /\
      clientSupportsDeltaSnapshots (cl_wire c) = false /\
      clientSupportsDeltaSnapshots (cl_wire c') = true
    else wireCapabilities (cl_wire c') = welcome_Capabilities welcome.
Proof.
  intros Hc Hv. cbv zeta. apply Z.eqb_neq in Hv.
  assert (clients (applyNegotiatedWireState s addr welcome) !! addr =
          Some (set_wire client (negotiated_wire (cl_wire client) welcome))) as Hn.
  { unfold applyNegotiatedWireState, update_client. cbn [clients set_clients].
    by rewrite lookup_alter_eq, Hc. }
  eexists _, _. split; [exact Hn|]. split.
  { unfold markWireClient. rewrite Hn. destruct (negb _);
    cbn [update_client clients set_clients set_baselines]; rewrite lookup_alter_eq, Hn; reflexivity. }
  unfold clientSupportsDeltaSnapshots, negotiated_wire.
  cbn [cl_wire set_wire mark_wire wireNegotiated wireVersion wireCapabilities]. rewrite Hv. cbn [negb orb].
  rewrite Hv. destruct (welcome_Capabilities welcome =? 0) eqn:E; [|done].
  apply Z.eqb_eq in E. rewrite E. done.
Qed.
End Clients.

(** ** Witnesses *)
Module Witnesses.
Local Open Scope string_scope.

Definition roundtrip (snapshot : SnapshotData) : option SnapshotData := Some snapshot.

(** Two clients; the first one authenticates as "alice". *)
Definition accept (s : UDPServer (Body := nat)) addr sequence now :=
  (acceptClientRequest DefaultConfig s addr sequence 0 0 now).1.
Definition s1 := accept NewUDPServer "a" 7 0.
Definition s2 := accept s1 "b" 1 Second.
Definition s3 := (authenticateClient s2 "a" " alice").1.
Definition g1 : gmap string (gset Z) := <["a" := {[7]} ∪ history_of ∅ "a"]> ∅.
Definition g2 : gmap string (gset Z) := <["b" := {[1]} ∪ history_of g1 "b"]> g1.

Lemma reachable_s3 : reachable DefaultConfig roundtrip s3 g2.
Proof.
  refine (reach_quiet _ _ s2 g2 s3 _ (step_authenticate _ _ s2 "a" " alice")).
  refine (reach_accept DefaultConfig roundtrip s1 g1 "b" 1 0 0 Second s2 true _ _ _).
  - refine (reach_accept DefaultConfig roundtrip NewUDPServer ∅ "a" 7 0 0 0 s1 true _ _ _).
    + apply reach_new.
    + split; [discriminate | reflexivity].
    + vm_compute. reflexivity.
  - split; [discriminate | reflexivity].
  - vm_compute. reflexivity.
Qed.
End Witnesses.

Lemma server_invariant_witness :
  server_ok DefaultConfig Witnesses.s3 /\
  cl_id <$> clients Witnesses.s3 !! "a"%string = Some "alice"%string.
Proof.
  split; [exact (server_invariant _ _ _ _ Witnesses.reachable_s3) | vm_compute; reflexivity].
Defined.

Lemma server_replay_protection_witness :
  (acceptClientRequest DefaultConfig Witnesses.s3 "a" 8 0 0 0).2 = true /\
  (8 ∉ history_of Witnesses.g2 "a").
Proof.
  assert ((acceptClientRequest DefaultConfig Witnesses.s3 "a" 8 0 0 0).2 = true) as H
    by (vm_compute; reflexivity).
  split; [exact H|].
  refine (proj1 (server_replay_protection DefaultConfig Witnesses.roundtrip Witnesses.s3 Witnesses.g2 "a" 8 0 0 0
    Witnesses.reachable_s3 _ _) H); [split; [discriminate | reflexivity] | discriminate].
Defined.

Lemma removeStaleClients_exact_witness :
  clients (removeStaleClients DefaultConfig Witnesses.s3 (5 * Second + 1)) !! "b"%string =
    clients Witnesses.s3 !! "b"%string /\
  clients (removeStaleClients DefaultConfig Witnesses.s3 (5 * Second + 1)) !! "a"%string = None.
Proof.
  split; [|vm_compute; reflexivity].
  destruct (clients Witnesses.s3 !! "b"%string) as [c|] eqn:E; [|by vm_compute in E].
  apply (proj1 (removeStaleClients_exact DefaultConfig Witnesses.s3 (5 * Second + 1)
    (proj1 (reachable_ok _ _ _ _ Witnesses.reachable_s3))) "b"%string c).
  split; [exact E|]. vm_compute in E. injection E as <-. vm_compute. discriminate.
Defined.

Lemma authenticateClient_exact_witness :
  (authenticateClient Witnesses.s3 "b" "alice").2 = Err ErrAuthenticatedClientIDInUse /\
  (authenticateClient Witnesses.s3 "b" "alice").1 = Witnesses.s3.
Proof.
  destruct (clients Witnesses.s3 !! "b"%string) as [c|] eqn:E; [|by vm_compute in E].
  pose proof (authenticateClient_exact Witnesses.s3 "b" c "alice" E) as H.
  assert ((authenticateClient Witnesses.s3 "b" "alice").2 = Err ErrAuthenticatedClientIDInUse) as H2
    by (vm_compute; reflexivity).
  split; [exact H2|].
  destruct (authenticateClient Witnesses.s3 "b" "alice") as [s' r]. cbn [snd fst] in H2 |- *.
  rewrite H2 in H. exact (proj1 H).
Defined.

Lemma markWireClient_negotiated_witness :
  exists c', clients (markWireClient DefaultConfig
      (applyNegotiatedWireState Witnesses.s3 "a" (mkWelcome "" "" 1 0 1200)) "a") !! "a"%string = Some c' /\
    wireCapabilities (cl_wire c') = DefaultWireCapabilities.
Proof.
  destruct (clients Witnesses.s3 !! "a"%string) as [c0|] eqn:E; [|by vm_compute in E].
  assert (1 <> 0) as Hv by discriminate.
  destruct (markWireClient_negotiated DefaultConfig Witnesses.s3 "a" c0 (mkWelcome "" "" 1 0 1200) E Hv)
    as (c & c' & _ & H & _ & _ & _ & H' & _).
  exists c'. split; [exact H | exact H'].
Defined.
