(* ===== verification/Outbound.v ===== *)
(** * Responses

    [network/udp.go]: [sendUDPResponse], [encodeUDPResponse],
    [encodeUDPWireResponseMessage] and [outboundMessagePriority], and the wrappers
    of [network/reliability.go].  [marshal] is [json.Marshal], [write] what the
    connection makes of a packet. *)
From S2P Require Import Prelude Keys Values Snapshot Messages Packet Config Float64 Metrics Budget Registry.
From S2P Require Import Window ReliableIn ReliableOut UdpClients.

(** ** Wrappers *)
Definition Prioritize (message : GoAny) (priority : OutboundPriority) : GoAny :=
  AnyValue (MWirePriority message priority).
Definition PrioritizeLow (message : GoAny) : GoAny := Prioritize message OutboundPriorityLow.
Definition PrioritizeHigh (message : GoAny) : GoAny := Prioritize message OutboundPriorityHigh.
Definition PrioritizeEssential (message : GoAny) : GoAny := Prioritize message OutboundPriorityEssential.

Definition Deliver (message : GoAny) (class : DeliveryClass) : GoAny :=
  AnyValue (MWireDelivery message class).
Definition DeliverReliableOrdered (message : GoAny) : GoAny := Deliver message DeliveryReliableOrdered.
Definition DeliverReliableUnordered (message : GoAny) : GoAny := Deliver message DeliveryReliableUnordered.
Definition DeliverUnreliable (message : GoAny) : GoAny := Deliver message DeliveryUnreliable.

(** ** Priorities *)
Fixpoint outboundMessagePriority (message : GoAny) : OutboundPriority :=
  match message with
  | AnyValue (MWirePriority _ priority) => priority
  | AnyValue (MWireDelivery message _) => outboundMessagePriority message
  | AnyValue (MAuthenticationResponse _) | AnyValue (MWelcome _) | AnyValue (MErrorMessage _)
  | AnyValue (MDisconnectMessage _) => OutboundPriorityEssential
  | AnyValue (MPong _) => OutboundPriorityHigh
  | AnyValue (MResponseMessage value) =>
      if negb (resp_OK value) then OutboundPriorityEssential else OutboundPriorityHigh
  | _ => OutboundPriorityNormal
  end.

(** ** Encoding *)
Section Responses.
Context {World Body : Type}.
Context (registry : option (WireMessageRegistry (World := World))).
Context (marshal : GoAny -> result bytes).

Definition welcome_response (config : Config) (client : option WireState) (value : AuthenticationResponse)
    : Welcome :=
  match client with
  | Some wire =>
      if wireNegotiated wire ||
         ((0 <? maxPacketSize wire) && negb (maxPacketSize wire =? MaxUDPPacketSize config))
      then mkWelcome (authr_ClientID value) (authr_AuthenticatedID value) (wireVersion wire)
             (wireCapabilities wire) (wrap 32 (negotiatedMaxPacketSize config wire))
      else mkWelcome (authr_ClientID value) (authr_AuthenticatedID value) 0 0 0
  | None => mkWelcome (authr_ClientID value) (authr_AuthenticatedID value) 0 0 0
  end.

(** [None] is the nil client. *)
Fixpoint encodeUDPWireResponseMessage (config : Config) (client : option WireState) (message : GoAny)
    : result WireMessage :=
  match message with
  | AnyValue (MWirePriority message _) => encodeUDPWireResponseMessage config client message
  | AnyValue (MWireDelivery message class) =>
      let! wireMessage := encodeUDPWireResponseMessage config client message in
      let class :=
        if bool_decide (is_Some client) && negb (clientSupportsReliable client class)
        then DeliveryUnreliable else class in
      Ok (set_delivery wireMessage class (msg_DeliveryID wireMessage))
  | AnyValue (MAuthenticationResponse value) =>
      EncodeMessage registry (AnyValue (MWelcome (welcome_response config client value)))
  | AnyValue (MResponseMessage value) =>
      EncodeMessage registry (AnyValue (MErrorMessage
        (if resp_OK value then mkErrorMessage 0 "ok" else mkErrorMessage 1 (resp_Error value))))
  | _ => EncodeMessage registry message
  end.

Fixpoint encodeUDPResponse (config : Config) (message : GoAny) (sequence ack ackBits : Z) (wire : bool)
    : result bytes :=
  match message with
  | AnyValue (MWirePriority message _) => encodeUDPResponse config message sequence ack ackBits wire
  | _ =>
      if negb wire then marshal message
      else
        let! wireMessage := encodeUDPWireResponseMessage config None message in
        EncodePacketWithAcks sequence ack ackBits [wireMessage]
  end.

(** ** Sending *)

(** The JSON branch of [sendUDPResponse], for the client at [addr]. *)
Definition sendJSONResponse (config : Config) (write : bytes -> result unit)
    (s : UDPServer (Body := Body)) (addr : string) (message : GoAny) (sentAt : Z)
    : UDPServer * option bytes * result unit :=
  match clients s !! addr with
  | None => (s, None, Ok tt)
  | Some client =>
      let (c, sequence) := nextOutgoingSequenceLocked (sv_counters s) in
      let s := set_counters s c in
      match encodeUDPResponse config message sequence 0 0 false with
      | Err e => (s, None, Err e)
      | Ok payload =>
          let (c, r) := validateOutboundPacket config (cl_wire client) (sv_counters s) payload in
          let s := set_counters s c in
          match r with
          | Err e => (s, None, Err e)
          | Ok _ =>
              let (s, reserved) :=
                reserveOutboundBudget config s addr (zlen payload) (outboundMessagePriority message) false sentAt in
              if negb reserved then (s, None, Ok tt)
              else
                let (s, r) := write_packet write s addr payload in
                (s, Some payload, r)
          end
      end
  end.

(** [sendUDPResponse] to the client at [addr]; the packet is the one handed to the
    connection. *)
Definition sendUDPResponse (config : Config) (write : bytes -> result unit)
    (s : UDPServer (Body := Body)) (addr : string) (message : GoAny) (wire : bool) (sentAt : Z)
    : UDPServer * option bytes * result unit :=
  if negb wire then sendJSONResponse config write s addr message sentAt
  else
    match clients s !! addr with
    | None => (s, None, Ok tt)
    | Some client =>
        match encodeUDPWireResponseMessage config (Some (cl_wire client)) message with
        | Err e => (s, None, Err e)
        | Ok wireMessage =>
            sendToClient config write s addr wireMessage (outboundMessagePriority message) sentAt
        end
    end.
End Responses.

(** ** Facts *)
Lemma validate_fits config wire c payload :
  (validateOutboundPacket config wire c payload).2 = Ok tt ->
  zlen payload <= negotiatedMaxPacketSize config wire.
Proof.
  unfold validateOutboundPacket, negotiatedMaxPacketSize. set (limit := if _ && _ then _ else _).
  destruct (Z.leb_spec (zlen payload) limit) as [Hle|]; [|done]. intros _. revert Hle. unfold limit.
  destruct (Z.leb_spec (maxPacketSize wire) 0); [by destruct (_ && _)|].
  destruct (Z.ltb_spec (maxPacketSize wire) (MaxUDPPacketSize config)).
  - by rewrite (proj2 (Z.ltb_lt 0 _)), (proj2 (Z.ltb_lt _ _)) by lia.
  - rewrite Z.ltb_irrefl, andb_false_r. done.
Qed.

Lemma prepare_send_fits config wire window out c message :
  match (prepare_send config wire window out c message).2 with
  | Ok (_, _, payload) => zlen payload <= negotiatedMaxPacketSize config wire
  | Err _ => True
  end.
Proof.
  unfold prepare_send. destruct (prepareReliableMessage _ _ _ _ _) as [[[out' c'] message'] [[]|e]]; [|done].
  destruct (nextOutgoingSequenceLocked c') as [c'' sequence].
  destruct (EncodePacketWithAcks _ _ _ _) as [payload|e]; [|done].
  pose proof (validate_fits config wire c'' payload) as H.
  destruct (validateOutboundPacket config wire c'' payload) as [c3 [[]|e]]; [|done]. by apply H.
Qed.

Lemma finish_send_packet config out c message sequence payload sentAt reserved packet :
  sent_packet (finish_send config out c message sequence payload sentAt reserved) = Some packet ->
  packet = payload /\ reserved = true.
Proof.
  unfold finish_send. destruct reserved; [|done]. cbn [negb].
  destruct (if delivery_reliable (msg_Delivery message) then _ else _) as [[out' c'] [[]|e]]; [|done].
  by intros [= <-].
Qed.

Lemma sendToClient_fits {Body : Type} config write (s : UDPServer (Body := Body)) addr client message priority sentAt payload :
  clients s !! addr = Some client ->
  (sendToClient config write s addr message priority sentAt).1.2 = Some payload ->
  zlen payload <= negotiatedMaxPacketSize config (cl_wire client).
Proof.
  intros Hc. unfold sendToClient. rewrite Hc.
  pose proof (prepare_send_fits config (cl_wire client) (cl_window client) (cl_out client) (sv_counters s) message) as Hfit.
  destruct (prepare_send _ _ _ _ _ _) as [[out c] [[[message' sequence] packet]|e]]; [|done]. cbn [snd] in Hfit.
  destruct (reserveOutboundBudget _ _ _ _ _ _ _) as [s2 reserved].
  set (sent := finish_send _ _ _ _ _ _ _ _).
  destruct (sent_packet sent) as [packet'|] eqn:Hs; [|done]. apply finish_send_packet in Hs as [-> _].
  destruct (write_packet _ _ _ _) as [s4 r]. by intros [= <-].
Qed.

Lemma keeps_response {World Body : Type} (registry : option (WireMessageRegistry (World := World))) marshal
    config write (s : UDPServer (Body := Body)) addr message wire sentAt :
  keeps s (sendUDPResponse registry marshal config write s addr message wire sentAt).1.1.
Proof.
  unfold sendUDPResponse. destruct wire; cbn [negb].
  - destruct (clients s !! addr) as [client|]; [|done].
    destruct (encodeUDPWireResponseMessage _ _ _ _); [apply keeps_send | done].
  - unfold sendJSONResponse. destruct (clients s !! addr) as [client|]; [|done].
    destruct (nextOutgoingSequenceLocked _) as [c sequence].
    destruct (encodeUDPResponse _ _ _ _ _ _ _ _) as [packet|e]; [|done].
    destruct (validateOutboundPacket _ _ _ _) as [c' [[]|e]]; [|done].
    set (s1 := set_counters (set_counters s c) c').
    pose proof (keeps_reserve config s1 addr (zlen packet) (outboundMessagePriority message) false sentAt) as H1.
    destruct (reserveOutboundBudget _ _ _ _ _ _ _) as [s2 reserved]. cbn [fst] in H1.
    destruct (negb reserved); [done|]. pose proof (keeps_write write s2 addr packet) as H2.
    destruct (write_packet _ _ _ _) as [s3 r]. cbn [fst] in *. etrans; [exact H1 | exact H2].
Qed.

(** The priority of a response has no effect.  Wrapping a message with
    [Prioritize] changes neither what is sent nor what is dropped nor any counter:
    when the budget is short an essential response is dropped like any other. *)
Lemma response_priority_ignored {World Body : Type} (registry : option (WireMessageRegistry (World := World)))
    marshal config write (s : UDPServer (Body := Body)) addr message priority wire sentAt :
  sendUDPResponse registry marshal config write s addr (Prioritize message priority) wire sentAt =
  sendUDPResponse registry marshal config write s addr message wire sentAt.
Proof. destruct wire; reflexivity. Qed.

(** ** Properties *)

(** C18: no response exceeds the packet size.  A packet that [sendUDPResponse] hands
    to the connection, wire or JSON, wrapped or not, is at most as long as the
    negotiated maximum of its client. *)
Theorem response_fits {World Body : Type} (registry : option (WireMessageRegistry (World := World))) marshal
    config write (s : UDPServer (Body := Body)) addr client message wire sentAt payload :
  clients s !! addr = Some client ->
  (sendUDPResponse registry marshal config write s addr message wire sentAt).1.2 = Some payload ->
  zlen payload <= negotiatedMaxPacketSize config (cl_wire client).
Proof.
  intros Hc. unfold sendUDPResponse. destruct wire; cbn [negb].
  - rewrite Hc. destruct (encodeUDPWireResponseMessage _ _ _ _) as [wireMessage|e]; [|done].
    by apply sendToClient_fits.
  - unfold sendJSONResponse. rewrite Hc. destruct (nextOutgoingSequenceLocked _) as [c sequence].
    destruct (encodeUDPResponse _ _ _ _ _ _ _ _) as [packet|e]; [|done].
    pose proof (validate_fits config (cl_wire client) (sv_counters (set_counters s c)) packet) as Hfit.
    destruct (validateOutboundPacket _ _ _ _) as [c' [[]|e]]; [|done].
    destruct (reserveOutboundBudget _ _ _ _ _ _ _) as [s2 reserved]. destruct reserved; [|done]. cbn [negb].
    destruct (write_packet _ _ _ _) as [s3 r]. intros [= <-]. by apply Hfit.
Qed.

(** ** Witnesses *)

(** A pong to a new client. *)
Lemma response_fits_witness :
  let s := (acceptClientRequest (Body := unit) DefaultConfig NewUDPServer "a" 0 0 0 0).1 in
  let registry := match NewDefaultWireMessageRegistry (World := unit) with Ok r => Some r | Err _ => None end in
  let sent := (sendUDPResponse registry (fun _ => Ok []) DefaultConfig (fun _ => Ok tt) s "a"
                 (PrioritizeLow (AnyValue (MPong (mkPong 7)))) true 0).1.2 in
  exists payload, sent = Some payload /\ zlen payload <= 1200.
Proof.
  intros s registry sent.
  assert (bool_decide (is_Some sent) = true) as Hsent by (vm_compute; reflexivity).
  destruct sent as [payload|] eqn:Hp; [|done]. exists payload. split; [done|].
  assert (negotiatedMaxPacketSize DefaultConfig (cl_wire (new_client (Body := unit) DefaultConfig "a" 0)) = 1200) as <-
    by (vm_compute; reflexivity).
  refine (response_fits registry (fun _ => Ok []) DefaultConfig (fun _ => Ok tt) s "a" _ _ true 0 payload _ Hp).
  vm_compute. reflexivity.
Defined.
