(* ===== verification/UdpSnapshot.v ===== *)
(** * Snapshots to clients

    [network/udp.go]: what each client is sent of the world ([snapshots] and what
    it calls): the choice between a full and a delta snapshot, the encoding, the
    objects that are left out when the packet must fit the remaining budget, and
    the baselines.  The world is an interface here, [SnapshotSource], that
    [Server] implements with the runtime. *)
From S2P Require Import Prelude Keys Values Snapshot Messages Packet Config Float64 Metrics Budget Registry.
From S2P Require Import View Window ReliableIn ReliableOut UdpClients Outbound.

(** ** Data *)

(** What the transport asks of the runtime. *)
Record SnapshotSource := mkSource {
  src_tick : Z;
  src_authenticationRequired : bool;
  src_SnapshotForClient : string -> SnapshotData;
  src_SnapshotPriorities : SnapshotData -> gmap string OutboundPriority
}.

(** The JSON envelopes of [network/protocol.go]. *)
Record SnapshotMessage := mkSnapshotMessage {
  sm_Type : string;
  sm_ClientID : string;
  sm_Tick : Z;
  sm_LastSequence : Z;
  sm_Objects : SnapshotData
}.

Record DeltaSnapshotMessage := mkDeltaSnapshotMessage {
  dm_Type : string;
  dm_ClientID : string;
  dm_Tick : Z;
  dm_LastSequence : Z;
  dm_BaselineTick : Z;
  dm_Spawned : SnapshotData;
  dm_Changed : SnapshotData;
  dm_Despawned : list SnapshotObjectRef
}.

(** A kind is [true] for ["delta"] and [false] for ["full"]. *)
Record udpFilteredSnapshot := mkFiltered {
  fs_payload : option bytes;
  fs_delta : bool;
  fs_objects : SnapshotData;
  fs_dropped : Z;
  fs_err : option GoError
}.

Definition noFiltered : udpFilteredSnapshot := mkFiltered None false ∅ 0 None.

Record udpSnapshotDropCandidate := mkCandidate {
  cand_objectType : string;
  cand_objectID : string;
  cand_priority : OutboundPriority
}.

Section Snapshots.
Context {World Body : Type}.
Abbreviation UDPServer := (UDPServer (Body := Body)).
Abbreviation UDPClient := (UDPClient (Body := Body)).
Implicit Types (s : UDPServer) (client : UDPClient).

(** The registry; [json.Marshal] of the two envelopes, and on a value as
    [BuildSnapshotDelta] uses it, with [reflect.DeepEqual]; the round trip through JSON
    of [CloneSnapshotData]; what the clock measures while a snapshot is encoded; the conversion to [int]
    of a float that does not fit. *)
Context (registry : option (WireMessageRegistry (World := World))).
Context (marshalSnapshot : SnapshotMessage -> result bytes).
Context (marshalDelta : DeltaSnapshotMessage -> result bytes).
Context (Marshal : GoValue -> option string) (DeepEqual : GoValue -> GoValue -> bool).
Context (roundtrip : SnapshotData -> option SnapshotData).
Abbreviation clone objects := (CloneSnapshotData roundtrip (Some objects)).
Context (elapsed : SnapshotData -> Z).
Context (overflow : f64 -> Z).

Definition cl_lastSeq (client : UDPClient) : Z := lastSeq (cl_window client).

(** ** Encoding *)
Definition encodeUDPDeltaSnapshot (client : UDPClient) (sequence tick baselineTick : Z)
    (delta : SnapshotDelta) : result (bytes * bool) :=
  if negb (wireProtocol (cl_wire client)) then
    let! payload := marshalDelta (mkDeltaSnapshotMessage "snapshot.delta" (cl_id client) tick
                      (cl_lastSeq client) baselineTick (Spawned delta) (Changed delta) (Despawned delta)) in
    Ok (payload, true)
  else
    let! message := EncodeMessage registry (AnyValue (MWorldDeltaSnapshot (mkWorldDeltaSnapshot
                      (cl_id client) tick (cl_lastSeq client) baselineTick
                      (Spawned delta) (Changed delta) (Despawned delta)))) in
    let! payload := EncodePacketWithAcks sequence (ack (cl_window client)) (ackBits (cl_window client)) [message] in
    Ok (payload, true).

(** The full branch of [encodeUDPSnapshot]. *)
Definition encodeUDPFullSnapshot (client : UDPClient) (sequence tick : Z) (objects : SnapshotData)
    : result (bytes * bool) :=
  if negb (wireProtocol (cl_wire client)) then
    let! payload := marshalSnapshot (mkSnapshotMessage "snapshot" (cl_id client) tick
                      (cl_lastSeq client) objects) in
    Ok (payload, false)
  else
    let! message := EncodeMessage registry (AnyValue (MWorldSnapshot (mkWorldSnapshot
                      (cl_id client) tick (cl_lastSeq client) objects))) in
    let! payload := EncodePacketWithAcks sequence (ack (cl_window client)) (ackBits (cl_window client)) [message] in
    Ok (payload, false).

Definition encodeUDPSnapshot (config : Config) (s : UDPServer) (client : UDPClient) (sequence tick : Z)
    (objects : SnapshotData) : UDPServer * result (bytes * bool) :=
  let encoded :=
    match snapshotBaseline s (cl_connectionID client) with
    | Some baseline =>
        if chooses_delta config s client
        then encodeUDPDeltaSnapshot client sequence tick (base_tick baseline)
               (BuildSnapshotDelta Marshal DeepEqual (base_snapshot baseline) objects)
        else encodeUDPFullSnapshot client sequence tick objects
    | None => encodeUDPFullSnapshot client sequence tick objects
    end in
  (on_metrics s (fun m => recordSnapshotEncodeDuration m (elapsed objects)), encoded).

(** ** Leaving objects out *)
Definition candidate_less (left right : udpSnapshotDropCandidate) : bool :=
  if decide (cand_priority left = cand_priority right) then
    if decide (cand_objectType left = cand_objectType right)
    then String.ltb (cand_objectID right) (cand_objectID left)
    else String.ltb (cand_objectType right) (cand_objectType left)
  else cand_priority left <? cand_priority right.

Definition candidate_of (config : Config) (priorities : gmap string OutboundPriority) (e : object_entry)
    : udpSnapshotDropCandidate :=
  let '(objectType, objectID, _) := e in
  mkCandidate objectType objectID
    (default (DefaultSnapshotPriority config) (priorities !! snapshotPriorityKey objectType objectID)).

Definition snapshotDropCandidates (config : Config) (source : SnapshotSource) (objects : SnapshotData)
    : list udpSnapshotDropCandidate :=
  go_sort candidate_less
    (map (candidate_of config (src_SnapshotPriorities source objects)) (snapshot_entries objects)).

(** The loop of [filterSnapshotForLimit]: [None] when it ends. *)
Fixpoint drop_candidates (config : Config) (s : UDPServer) (client : UDPClient) (sequence tick limit : Z)
    (filtered : SnapshotData) (dropped : Z) (candidates : list udpSnapshotDropCandidate)
    : UDPServer * (SnapshotData * Z) * option udpFilteredSnapshot :=
  match candidates with
  | [] => (s, (filtered, dropped), None)
  | candidate :: candidates =>
      let filtered := removeSnapshotObject filtered (cand_objectType candidate) (cand_objectID candidate) in
      let dropped := dropped + 1 in
      let (s, encoded) := encodeUDPSnapshot config s client sequence tick filtered in
      match encoded with
      | Err e => (s, (filtered, dropped), Some (mkFiltered None false ∅ 0 (Some e)))
      | Ok (payload, delta) =>
          if zlen payload <=? limit
          then (s, (filtered, dropped), Some (mkFiltered (Some payload) delta filtered dropped None))
          else drop_candidates config s client sequence tick limit filtered dropped candidates
      end
  end.

Definition filterSnapshotForLimit (config : Config) (source : SnapshotSource) (s : UDPServer)
    (client : UDPClient) (sequence tick : Z) (objects : SnapshotData) (limit : Z)
    : UDPServer * udpFilteredSnapshot :=
  if limit <=? 0 then (s, noFiltered)
  else
    let candidates := snapshotDropCandidates config source objects in
    match drop_candidates config s client sequence tick limit (clone objects) 0 candidates with
    | (s, _, Some result) => (s, result)
    | (s, (filtered, dropped), None) =>
        let (s, encoded) := encodeUDPSnapshot config s client sequence tick filtered in
        match encoded with
        | Err e => (s, mkFiltered None false ∅ 0 (Some e))
        | Ok (payload, delta) =>
            if zlen payload <=? limit
            then (s, mkFiltered (Some payload) delta filtered dropped None)
            else (s, mkFiltered None false ∅ dropped None)
        end
    end.

(** ** One snapshot within the budget: [None] when nothing is sent. *)
Definition encodeBudgetedUDPSnapshot (config : Config) (source : SnapshotSource) (s : UDPServer)
    (addr : string) (client : UDPClient) (sequence tick : Z) (objects : SnapshotData) (now : Z)
    : UDPServer * result (option (bytes * bool * SnapshotData)) :=
  let (s, encoded) := encodeUDPSnapshot config s client sequence tick objects in
  match encoded with
  | Err e => (s, Err e)
  | Ok (payload, delta) =>
      let (s, budgetLimit) := outboundBudgetLimit overflow config s addr now in
      match budgetLimit with
      | None => (s, Ok (Some (payload, delta, objects)))
      | Some budgetLimit =>
          let limit := negotiatedMaxPacketSize config (cl_wire client) in
          let limit := if budgetLimit <? limit then budgetLimit else limit in
          let priority := DefaultSnapshotPriority config in
          if zlen payload <=? limit then
            let (s, reserved) := reserveOutboundBudget config s addr (zlen payload) priority true now in
            (s, Ok (if reserved then Some (payload, delta, objects) else None))
          else
            let (s, filtered) := filterSnapshotForLimit config source s client sequence tick objects limit in
            if fs_dropped filtered =? 0 then
              (if negotiatedMaxPacketSize config (cl_wire client) <? zlen payload
               then recordOversizedOutbound s else recordBudgetDeferral s addr, Ok None)
            else
              match fs_payload filtered with
              | None => (s, match fs_err filtered with Some e => Err e | None => Ok None end)
              | Some payload =>
                  let (s, reserved) := reserveOutboundBudget config s addr (zlen payload) priority true now in
                  if negb reserved then (s, Ok None)
                  else
                    (recordSnapshotDeferrals s addr (wrap 64 (fs_dropped filtered)),
                     Ok (Some (payload, fs_delta filtered, fs_objects filtered)))
              end
      end
  end.

(** ** All clients *)

(** A snapshot to write: the address, the packet, the kind. *)
Definition udpSnapshot : Type := string * bytes * bool.

Definition next_sequence (s : UDPServer) : UDPServer * Z :=
  let (c, sequence) := nextOutgoingSequenceLocked (sv_counters s) in (set_counters s c, sequence).

(** One turn of the loop of [snapshots], for the copy of a client that
    [snapshotClients] made, up to [commitSnapshotBaseline]: the snapshot to commit and
    send, if any.  Its reads of the baseline count as one. *)
Definition prepare_snapshot (config : Config) (source : SnapshotSource) (s : UDPServer) (now : Z)
    (addr : string) (client : UDPClient) : UDPServer * result (option (bytes * bool * SnapshotData)) :=
  let objects := src_SnapshotForClient source (cl_id client) in
  let (s, sequence) := next_sequence s in
  let (s, encoded) :=
    encodeBudgetedUDPSnapshot config source s addr client sequence (src_tick source) objects now in
  match encoded with
  | Err e => (s, Err e)
  | Ok None => (s, Ok None)
  | Ok (Some (payload, delta, filteredObjects)) =>
      if zlen payload =? 0 then (s, Ok None)
      else
        let (c, r) := validateOutboundPacket config (cl_wire client) (sv_counters s) payload in
        (set_counters s c,
         match r with Err ErrUDPPacketTooLarge => Ok None | Err e => Err e | Ok _ => encoded end)
  end.

(** The whole turn.  The commit has a critical section of its own: [between] is what
    other goroutines do to the table after the preparation. *)
Definition snapshot_round (between : UDPServer -> UDPServer) (config : Config) (source : SnapshotSource)
    (s : UDPServer) (now : Z) (addr : string) (client : UDPClient)
    : UDPServer * result (option (bytes * bool * SnapshotData)) :=
  let (s, prepared) := prepare_snapshot config source s now addr client in
  match prepared with
  | Ok (Some (payload, delta, filteredObjects)) =>
      (commitSnapshotBaseline roundtrip config (between s) (cl_connectionID client) (src_tick source)
         filteredObjects delta, prepared)
  | _ => (between s, prepared)
  end.

(** The turn when nobody comes in between, as in a whole run of [snapshots]. *)
Definition snapshot_client : Config -> SnapshotSource -> UDPServer -> Z -> string -> UDPClient ->
    UDPServer * result (option (bytes * bool * SnapshotData)) := snapshot_round (fun s => s).

Fixpoint snapshots_loop (config : Config) (source : SnapshotSource) (s : UDPServer) (now : Z)
    (acc : list udpSnapshot) (copies : list (string * UDPClient)) : UDPServer * result (list udpSnapshot) :=
  match copies with
  | [] => (s, Ok acc)
  | (addr, client) :: copies =>
      let (s, sent) := snapshot_client config source s now addr client in
      match sent with
      | Err e => (s, Err e)
      | Ok None => snapshots_loop config source s now acc copies
      | Ok (Some (payload, delta, _)) =>
          snapshots_loop config source s now (acc ++ [(addr, payload, delta)]) copies
      end
  end.

Definition snapshots (config : Config) (source : SnapshotSource) (s : UDPServer) (now : Z)
    : UDPServer * result (list udpSnapshot) :=
  snapshots_loop config source s now []
    (map_to_list (snapshotClients (src_authenticationRequired source) s)).

(** One turn of the writing loop of [advanceAndMaybeBroadcast]. *)
Definition broadcast_one (write : string -> bytes -> result unit) (s : UDPServer) (snapshot : udpSnapshot)
    : UDPServer :=
  let '(addr, payload, delta) := snapshot in
  match write addr payload with
  | Err _ => on_metrics s recordSnapshotError
  | Ok _ =>
      on_metrics (UdpClients.recordOutboundBytes s addr (zlen payload)) (fun m => recordSnapshotSent m delta)
  end.

Definition broadcast (write : string -> bytes -> result unit) (s : UDPServer) (l : list udpSnapshot) : UDPServer :=
  foldl (broadcast_one write) s l.

(** ** What is encoded *)

(** The content of a snapshot: all objects, or the delta from the baseline. *)
Definition snapshot_content (config : Config) (s : UDPServer) (client : UDPClient) (objects : SnapshotData)
    : SnapshotData + SnapshotDelta :=
  match snapshotBaseline s (cl_connectionID client) with
  | Some baseline =>
      if chooses_delta config s client
      then inr (BuildSnapshotDelta Marshal DeepEqual (base_snapshot baseline) objects) else inl objects
  | None => inl objects
  end.

Definition encode_content (client : UDPClient) (sequence tick baselineTick : Z)
    (content : SnapshotData + SnapshotDelta) : result (bytes * bool) :=
  match content with
  | inl objects => encodeUDPFullSnapshot client sequence tick objects
  | inr delta => encodeUDPDeltaSnapshot client sequence tick baselineTick delta
  end.

Definition baseline_tick (s : UDPServer) (client : UDPClient) : Z :=
  match snapshotBaseline s (cl_connectionID client) with Some baseline => base_tick baseline | None => 0 end.

(** What [encodeUDPSnapshot] returns in any server with the baselines of [s]. *)
Definition encoding_of (config : Config) (s : UDPServer) (client : UDPClient) (sequence tick : Z)
    (objects : SnapshotData) : result (bytes * bool) :=
  encode_content client sequence tick (baseline_tick s client) (snapshot_content config s client objects).

Lemma encodeUDPSnapshot_eq config s client sequence tick objects :
  encodeUDPSnapshot config s client sequence tick objects =
    (on_metrics s (fun m => recordSnapshotEncodeDuration m (elapsed objects)),
     encoding_of config s client sequence tick objects).
Proof.
  unfold encodeUDPSnapshot, encoding_of, snapshot_content, baseline_tick. f_equal.
  destruct (snapshotBaseline s (cl_connectionID client)); [|done]. by destruct (chooses_delta config s client).
Qed.

Lemma encoding_of_baselines config s s' client sequence tick objects :
  snapshotBaselines s' = snapshotBaselines s ->
  encoding_of config s' client sequence tick objects = encoding_of config s client sequence tick objects.
Proof.
  unfold encoding_of, snapshot_content, baseline_tick, chooses_delta, snapshotBaseline. by intros ->.
Qed.

Lemma chooses_delta_baselines config s s' client :
  snapshotBaselines s' = snapshotBaselines s -> chooses_delta config s' client = chooses_delta config s client.
Proof. unfold chooses_delta, snapshotBaseline. by intros ->. Qed.

(** The kind of an encoded snapshot. *)
Lemma encoding_kind config s client sequence tick objects payload delta :
  encoding_of config s client sequence tick objects = Ok (payload, delta) ->
  delta = chooses_delta config s client.
Proof.
  assert (forall d, encodeUDPDeltaSnapshot client sequence tick (baseline_tick s client) d = Ok (payload, delta) ->
    delta = true) as Hd.
  { intros d. unfold encodeUDPDeltaSnapshot. destruct (negb _); intros H;
      repeat (apply rbind_ok_inv in H as (? & _ & H)); by injection H. }
  assert (encodeUDPFullSnapshot client sequence tick objects = Ok (payload, delta) -> delta = false) as Hf.
  { unfold encodeUDPFullSnapshot. destruct (negb _); intros H;
      repeat (apply rbind_ok_inv in H as (? & _ & H)); by injection H. }
  unfold encoding_of, snapshot_content, encode_content.
  destruct (snapshotBaseline s (cl_connectionID client)) as [b|] eqn:Hb.
  - destruct (chooses_delta config s client); intros H; [by eapply Hd | by apply Hf].
  - intros H. unfold chooses_delta. rewrite Hb. by apply Hf.
Qed.

(** *** Leaving objects out *)
Definition without (objects : SnapshotData) (candidates : list udpSnapshotDropCandidate) : SnapshotData :=
  foldl (fun objects candidate =>
    removeSnapshotObject objects (cand_objectType candidate) (cand_objectID candidate)) objects candidates.

(** The encoding of these objects exceeds the limit. *)
Definition too_long (config : Config) (s : UDPServer) (client : UDPClient) (sequence tick limit : Z)
    (objects : SnapshotData) : Prop :=
  exists payload delta,
    encoding_of config s client sequence tick objects = Ok (payload, delta) /\ limit < zlen payload.

(** [f] leaves out the first [n] candidates: the shortest prefix after which the
    rest fits, unless its encoding fails. *)
Definition leaves_out (config : Config) (s : UDPServer) (client : UDPClient) (sequence tick limit : Z)
    (objects : SnapshotData) (candidates : list udpSnapshotDropCandidate) (dropped : Z) (n : nat)
    (f : udpFilteredSnapshot) : Prop :=
  (n <= length candidates)%nat /\
  (forall m, (1 <= m < n)%nat ->
     too_long config s client sequence tick limit (without objects (take m candidates))) /\
  match encoding_of config s client sequence tick (without objects (take n candidates)) with
  | Err e => f = mkFiltered None false ∅ 0 (Some e)
  | Ok (payload, delta) =>
      zlen payload <= limit /\
      f = mkFiltered (Some payload) delta (without objects (take n candidates)) (dropped + Z.of_nat n) None
  end.

Lemma keeps_encode config s client sequence tick objects :
  keeps s (encodeUDPSnapshot config s client sequence tick objects).1.
Proof. done. Qed.

Lemma drop_candidates_spec config client sequence tick limit candidates : forall s objects dropped,
  let '(s', (objects', dropped'), r) :=
    drop_candidates config s client sequence tick limit objects dropped candidates in
  keeps s s' /\
  match r with
  | None =>
      objects' = without objects candidates /\ dropped' = dropped + zlen candidates /\
      forall m, (1 <= m <= length candidates)%nat ->
        too_long config s client sequence tick limit (without objects (take m candidates))
  | Some f => exists n, (1 <= n)%nat /\
      leaves_out config s client sequence tick limit objects candidates dropped n f
  end.
Proof.
  induction candidates as [|candidate candidates IH]; intros s objects dropped; cbn [drop_candidates].
  { split_and!; [done | done | by rewrite zlen_nil, Z.add_0_r | cbn; lia]. }
  set (rest := removeSnapshotObject objects _ _). rewrite encodeUDPSnapshot_eq.
  assert (forall m, without objects (take (S m) (candidate :: candidates)) = without rest (take m candidates)) as Hw
    by done.
  destruct (encoding_of config s client sequence tick rest) as [[payload delta]|e] eqn:He.
  - destruct (Z.leb_spec (zlen payload) limit) as [Hle|Hgt].
    + split; [done|]. exists 1%nat. split; [lia|]. split_and!; [cbn; lia | lia |].
      rewrite Hw, take_0. change (without rest []) with rest. by rewrite He.
    + set (s1 := on_metrics s _). specialize (IH s1 rest (dropped + 1)).
      destruct (drop_candidates config s1 client sequence tick limit rest (dropped + 1) candidates)
        as [[s' [objects' dropped']] r]. destruct IH as [Hk IH]. split; [exact Hk|].
      assert (forall m, (1 <= m)%nat ->
        ((2 <= m)%nat -> too_long config s1 client sequence tick limit (without rest (take (pred m) candidates))) ->
        too_long config s client sequence tick limit (without objects (take m (candidate :: candidates)))) as Hstep.
      { intros [|[|m]] H1 H2; [lia | | by apply H2; lia]. rewrite Hw. by exists payload, delta. }
      destruct r as [f|].
      * destruct IH as (n & Hn & Hlen & Hlong & Hf). exists (S n). split; [lia|]. split_and!.
        -- cbn. lia.
        -- intros m Hm. apply Hstep; [lia|]. intros H2. apply Hlong. lia.
        -- rewrite Hw. change (encoding_of config s1) with (encoding_of config s) in Hf.
           destruct (encoding_of _ _ _ _ _ _) as [[p d]|e]; [|done]. destruct Hf as [Hle ->].
           split; [done|]. f_equal. lia.
      * destruct IH as (-> & -> & Hlong). split_and!; [done | rewrite zlen_cons; lia |].
        intros m Hm. apply Hstep; [lia|]. intros H2. apply Hlong. cbn in Hm. lia.
  - split; [done|]. exists 1%nat. split; [lia|]. split_and!; [cbn; lia | lia |].
    rewrite Hw, take_0. change (without rest []) with rest. by rewrite He.
Qed.

(** What a filtered snapshot with a packet is. *)
Lemma filter_spec config source s client sequence tick objects limit :
  let (s', f) := filterSnapshotForLimit config source s client sequence tick objects limit in
  keeps s s' /\
  match fs_payload f with
  | Some _ =>
      fs_dropped f = 0 \/ exists n, (1 <= n)%nat /\
        leaves_out config s client sequence tick limit (clone objects)
          (snapshotDropCandidates config source objects) 0 n f
  | None => fs_dropped f = 0 \/ fs_err f = None
  end.
Proof.
  unfold filterSnapshotForLimit. destruct (limit <=? 0); [split; [done | by left]|].
  set (candidates := snapshotDropCandidates _ _ _).
  pose proof (drop_candidates_spec config client sequence tick limit candidates s (clone objects) 0) as Hd.
  destruct (drop_candidates _ _ _ _ _ _ _ _ _) as [[s' [objects' dropped']] [f|]]; destruct Hd as [Hk Hd].
  - split; [exact Hk|]. destruct Hd as (n & Hn & Hlen & Hlong & Hf).
    destruct (encoding_of _ _ _ _ _ _) as [[p d]|e] eqn:He.
    + destruct Hf as [Hle ->]. cbn [fs_payload]. right. exists n. split; [done|]. unfold leaves_out. by rewrite He.
    + subst f. by left.
  - rewrite encodeUDPSnapshot_eq. destruct Hd as (-> & -> & Hlong).
    set (s1 := on_metrics s' _).
    assert (keeps s s1) as Hk1 by (etrans; [exact Hk | apply keeps_metrics]).
    rewrite (encoding_of_baselines config s s') by apply Hk.
    destruct (encoding_of config s client sequence tick (without (clone objects) candidates)) as [[p d]|e] eqn:He.
    + destruct (Z.leb_spec (zlen p) limit) as [Hle|Hgt].
      * split; [exact Hk1|]. cbn [fs_payload fs_dropped]. left.
        destruct candidates as [|c l] eqn:Ec; [done|]. exfalso.
        destruct (Hlong (length (c :: l))) as (p' & d' & He' & Hp'); [cbn; lia|].
        rewrite firstn_all in He'. rewrite He in He'. injection He' as -> ->. lia.
      * split; [exact Hk1|]. by right.
    + split; [exact Hk1|]. by left.
Qed.

(** *** The order of the candidates *)
Definition string_gtb : string -> string -> bool := flip_less String.ltb.

#[local] Instance string_gtb_total : StrictTotal string_gtb.
Proof. apply strict_total_flip. apply _. Qed.

#[export] Instance candidate_less_total : StrictTotal candidate_less.
Proof.
  apply (strict_total_lex cand_priority Z.ltb
    (fun l r => if decide (cand_objectType l = cand_objectType r)
                then string_gtb (cand_objectID l) (cand_objectID r)
                else string_gtb (cand_objectType l) (cand_objectType r))); [apply _ | |].
  - apply (strict_weak_lex cand_objectType string_gtb
      (fun l r => string_gtb (cand_objectID l) (cand_objectID r))); [apply _|].
    apply (strict_weak_key cand_objectID string_gtb). apply _.
  - intros [t i p] [t' i' p'] H1 H2 H3. cbn in *. destruct (decide (t = t')) as [<-|Hne].
    + rewrite decide_True in H3 by done. f_equal; [by apply st_total | done].
    + rewrite decide_False in H3 by done. destruct Hne. by apply st_total.
Qed.

(** The priority that orders an object. *)
Definition priority_of (config : Config) (source : SnapshotSource) (objects : SnapshotData) (t i : string)
    : OutboundPriority :=
  default (DefaultSnapshotPriority config)
    (src_SnapshotPriorities source objects !! snapshotPriorityKey t i).

Lemma elem_of_candidates config source objects c :
  c ∈ snapshotDropCandidates config source objects <->
  is_Some (lookup_object objects (cand_objectType c) (cand_objectID c)) /\
  cand_priority c = priority_of config source objects (cand_objectType c) (cand_objectID c).
Proof.
  unfold snapshotDropCandidates. rewrite go_sort_perm, list_elem_of_fmap. split.
  - intros ([[t i] v] & -> & Hin). apply elem_of_snapshot_entries in Hin. cbn. split; [by exists v | done].
  - destruct c as [t i p]. cbn. intros [[v Hv] ->]. exists (t, i, v). split; [done|].
    by apply elem_of_snapshot_entries.
Qed.

(** *** What is left *)
Definition names (t i : string) (c : udpSnapshotDropCandidate) : bool :=
  bool_decide (cand_objectType c = t) && bool_decide (cand_objectID c = i).

Lemma lookup_without candidates : forall objects t i,
  lookup_object (without objects candidates) t i =
    if existsb (names t i) candidates then None else lookup_object objects t i.
Proof.
  induction candidates as [|c candidates IH]; intros objects t i; [done|].
  cbn [without foldl existsb]. fold (without (removeSnapshotObject objects (cand_objectType c) (cand_objectID c)) candidates).
  rewrite IH, lookup_removeSnapshotObject. unfold names at 2.
  destruct (existsb (names t i) candidates); [by rewrite orb_true_r|]. rewrite orb_false_r.
  case_decide as H.
  - destruct H as [-> ->]. by rewrite !bool_decide_true.
  - destruct (bool_decide _ && bool_decide _) eqn:E; [|done].
    apply andb_true_iff in E as [Et%bool_decide_eq_true Ei%bool_decide_eq_true]. by destruct H.
Qed.

(** An object that is left has at least the priority of each one that was left out. *)
Lemma kept_priority config source objects n t i t' i' :
  keeps_names roundtrip objects ->
  let left := without (clone objects) (take n (snapshotDropCandidates config source objects)) in
  is_Some (lookup_object left t i) ->
  is_Some (lookup_object objects t' i') -> lookup_object left t' i' = None ->
  priority_of config source objects t' i' <= priority_of config source objects t i.
Proof.
  intros Hclone%CloneSnapshotData_names left Hkept Hin Hout. unfold left in *.
  pose proof (go_sort_sorted candidate_less (map (candidate_of config (src_SnapshotPriorities source objects))
    (snapshot_entries objects))) as Hsorted.
  fold (snapshotDropCandidates config source objects) in Hsorted.
  rewrite <- (take_drop n (snapshotDropCandidates config source objects)) in Hsorted.
  rewrite lookup_without in Hkept, Hout.
  destruct (existsb (names t i) _) eqn:Ht; [by destruct Hkept|].
  destruct (existsb (names t' i') _) eqn:Ht'.
  2:{ destruct (proj2 (Hclone t' i') Hin) as [v Hv]. congruence. }
  apply existsb_exists in Ht' as (c' & Hc'%list_elem_of_In & [Et'%bool_decide_eq_true Ei'%bool_decide_eq_true]%andb_true_iff).
  assert (exists c, c ∈ drop n (snapshotDropCandidates config source objects) /\
    cand_objectType c = t /\ cand_objectID c = i) as (c & Hc & Et & Ei).
  { set (c := mkCandidate t i (priority_of config source objects t i)).
    assert (c ∈ snapshotDropCandidates config source objects) as Hc.
    { apply elem_of_candidates. split; [by apply Hclone | done]. }
    rewrite <- (take_drop n (snapshotDropCandidates config source objects)) in Hc.
    apply elem_of_app in Hc as [Hc|Hc]; [exfalso | by exists c].
    apply not_true_iff_false in Ht. apply Ht, existsb_exists. exists c.
    split; [by apply list_elem_of_In | unfold names; by rewrite !bool_decide_true]. }
  assert (c' ∈ snapshotDropCandidates config source objects /\ c ∈ snapshotDropCandidates config source objects)
    as [Hm' Hm].
  { split; rewrite <- (take_drop n (snapshotDropCandidates config source objects)); apply elem_of_app; auto. }
  apply elem_of_candidates in Hm' as [_ Hp'], Hm as [_ Hp]. rewrite Et', Ei' in Hp'. rewrite Et, Ei in Hp.
  assert (not_after candidate_less c' c) as Hafter by (by eapply StronglySorted_app_1_elem_of).
  unfold not_after, candidate_less in Hafter. case_decide as Heq; [lia|]. apply Z.ltb_ge in Hafter. lia.
Qed.

(** ** One client *)

(** What is sent of [objects]: all of them, or what is left after the shortest
    prefix of the candidates that makes the packet fit. *)
Inductive sent_of (config : Config) (source : SnapshotSource) (s : UDPServer) (client : UDPClient)
    (sequence : Z) (objects : SnapshotData) : SnapshotData -> bytes -> bool -> Prop :=
| sent_all payload delta :
    encoding_of config s client sequence (src_tick source) objects = Ok (payload, delta) ->
    sent_of config source s client sequence objects objects payload delta
| sent_filtered limit n payload delta :
    (1 <= n)%nat -> limit <= negotiatedMaxPacketSize config (cl_wire client) ->
    (let candidates := snapshotDropCandidates config source objects in
     let sent := without (clone objects) (take n candidates) in
     encoding_of config s client sequence (src_tick source) sent = Ok (payload, delta) ->
     zlen payload <= limit ->
     (n <= length candidates)%nat ->
     (forall m, (1 <= m < n)%nat ->
        too_long config s client sequence (src_tick source) limit
          (without (clone objects) (take m candidates))) ->
     sent_of config source s client sequence objects sent payload delta).

Lemma sent_of_encoding config source s client sequence objects sent payload delta :
  sent_of config source s client sequence objects sent payload delta ->
  encoding_of config s client sequence (src_tick source) sent = Ok (payload, delta).
Proof. by destruct 1. Qed.

Lemma budgeted_spec config source s addr client sequence objects now :
  let (s', r) :=
    encodeBudgetedUDPSnapshot config source s addr client sequence (src_tick source) objects now in
  keeps s s' /\
  match r with
  | Ok (Some (payload, delta, sent)) => sent_of config source s client sequence objects sent payload delta
  | _ => True
  end.
Proof.
  unfold encodeBudgetedUDPSnapshot. rewrite encodeUDPSnapshot_eq. set (tick := src_tick source).
  destruct (encoding_of config s client sequence tick objects) as [[payload delta]|e] eqn:He; [|done].
  set (s1 := on_metrics s _).
  pose proof (keeps_limit overflow config s1 addr now) as Hk2.
  destruct (outboundBudgetLimit overflow config s1 addr now) as [s2 [budgetLimit|]]; cbn [fst] in Hk2;
    [|split; [exact Hk2 | by apply sent_all]].
  assert (keeps s s2) as Hk by exact Hk2.
  set (negotiated := negotiatedMaxPacketSize config (cl_wire client)).
  set (limit := if budgetLimit <? negotiated then budgetLimit else negotiated).
  assert (limit <= negotiated) as Hlimit.
  { unfold limit. destruct (Z.ltb_spec budgetLimit negotiated); lia. }
  destruct (zlen payload <=? limit).
  { pose proof (keeps_reserve config s2 addr (zlen payload) (DefaultSnapshotPriority config) true now) as Hk3.
    destruct (reserveOutboundBudget _ _ _ _ _ _ _) as [s3 reserved]. cbn [fst] in Hk3.
    split; [by etrans|]. destruct reserved; [by apply sent_all | done]. }
  pose proof (filter_spec config source s2 client sequence tick objects limit) as Hf.
  destruct (filterSnapshotForLimit _ _ _ _ _ _ _ _) as [s3 f]. destruct Hf as [Hk3 Hf].
  assert (keeps s s3) as Hk' by (by etrans).
  destruct (Z.eqb_spec (fs_dropped f) 0) as [Hz|Hnz].
  { split; [|done]. etrans; [exact Hk'|]. destruct (negotiated <? zlen payload); [done|]. by apply keeps_update. }
  destruct (fs_payload f) as [packet|] eqn:Hp; [|by destruct (fs_err f)].
  destruct Hf as [?|(n & Hn & Hlen & Hlong & Hsent)]; [done|].
  pose proof (keeps_reserve config s3 addr (zlen packet) (DefaultSnapshotPriority config) true now) as Hk4.
  destruct (reserveOutboundBudget _ _ _ _ _ _ _) as [s4 reserved]. cbn [fst] in Hk4.
  destruct reserved; cbn [negb]; [|split; [by etrans | done]].
  split; [etrans; [exact Hk'|]; etrans; [exact Hk4 | apply keeps_deferrals]|].
  assert (snapshotBaselines s2 = snapshotBaselines s) as Hb by apply Hk.
  rewrite (encoding_of_baselines config s s2) in Hsent by done.
  destruct (encoding_of config s client sequence tick
    (without (clone objects) (take n (snapshotDropCandidates config source objects)))) as [[p d]|e] eqn:He2;
    [|by subst f].
  destruct Hsent as [Hle Hf]. subst f. cbn [fs_payload fs_delta fs_objects] in *. injection Hp as ->.
  apply (sent_filtered config source s client sequence objects limit n); try done.
  intros m Hm. destruct (Hlong m Hm) as (p' & d' & He3 & Hgt). exists p', d'.
  by rewrite (encoding_of_baselines config s s2) in He3.
Qed.

(** The baseline that a sent snapshot leaves. *)
Definition next_baseline (s : UDPServer) (client : UDPClient) (tick : Z) (sent : SnapshotData) (delta : bool)
    : udpSnapshotBaseline :=
  mkBaseline tick (clone sent)
    (if delta then
       match snapshotBaseline s (cl_connectionID client) with
       | Some previous => u64_inc (base_snapshotsSinceFull previous)
       | None => 0
       end
     else 0).

Definition same_clients (s s' : UDPServer) : Prop :=
  forall addr, client_view <$> clients s' !! addr = client_view <$> clients s !! addr.

Lemma prepare_snapshot_spec config source s now addr client :
  let (s', r) := prepare_snapshot config source s now addr client in
  keeps s s' /\
  match r with
  | Ok (Some (payload, delta, sent)) =>
      (exists sequence, sent_of config source s client sequence (src_SnapshotForClient source (cl_id client))
                          sent payload delta) /\
      delta = chooses_delta config s client /\
      zlen payload <= negotiatedMaxPacketSize config (cl_wire client)
  | _ => True
  end.
Proof.
  unfold prepare_snapshot. set (objects := src_SnapshotForClient source (cl_id client)).
  destruct (next_sequence s) as [s1 sequence] eqn:Hs1.
  assert (keeps s s1) as Hk1 by (unfold next_sequence in Hs1; by injection Hs1 as <- _).
  pose proof (budgeted_spec config source s1 addr client sequence objects now) as Hb.
  destruct (encodeBudgetedUDPSnapshot _ _ _ _ _ _ _ _ _) as [s2 encoded]. destruct Hb as [Hk2 Hb].
  assert (keeps s s2) as Hk by (by etrans).
  assert (snapshotBaselines s1 = snapshotBaselines s) as Hb1 by apply Hk1.
  destruct encoded as [[[[payload delta] sent]|]|e]; [|by split..].
  destruct (zlen payload =? 0); [by split|].
  pose proof (validate_fits config (cl_wire client) (sv_counters s2) payload) as Hfit.
  destruct (validateOutboundPacket _ _ _ _) as [c [[]|e]].
  2:{ split; [exact Hk|]. by destruct e. }
  assert (sent_of config source s client sequence objects sent payload delta) as Hsent.
  { destruct Hb as [p d He|limit n p d Hn Hlim cands sent He Hle Hlen Hlong].
    - apply sent_all. by rewrite <- (encoding_of_baselines config s s1).
    - apply (sent_filtered config source s client sequence objects limit n); try done.
      + by rewrite <- (encoding_of_baselines config s s1).
      + intros m Hm. destruct (Hlong m Hm) as (p' & d' & He3 & Hgt). exists p', d'.
        by rewrite <- (encoding_of_baselines config s s1). }
  split; [exact Hk|]. split_and!.
  - by exists sequence.
  - eapply encoding_kind. by eapply sent_of_encoding.
  - by apply Hfit.
Qed.

Lemma commit_clients config s connectionID tick objects delta :
  clients (commitSnapshotBaseline roundtrip config s connectionID tick objects delta) = clients s.
Proof. unfold commitSnapshotBaseline. by destruct (negb _). Qed.

(** A turn of [snapshots] with anything in between. *)
Lemma snapshot_round_spec between config source s now addr client :
  exists s1, keeps s s1 /\
  let (s', r) := snapshot_round between config source s now addr client in
  clients s' = clients (between s1) /\
  match r with
  | Ok (Some (payload, delta, sent)) =>
      (exists sequence, sent_of config source s client sequence (src_SnapshotForClient source (cl_id client))
                          sent payload delta) /\
      delta = chooses_delta config s client /\
      zlen payload <= negotiatedMaxPacketSize config (cl_wire client) /\
      snapshotBaselines s' =
        (if EnableDeltaSnapshots config
         then <[cl_connectionID client := next_baseline (between s1) client (src_tick source) sent delta]>
                (snapshotBaselines (between s1))
         else snapshotBaselines (between s1))
  | _ => snapshotBaselines s' = snapshotBaselines (between s1)
  end.
Proof.
  pose proof (prepare_snapshot_spec config source s now addr client) as H. unfold snapshot_round.
  destruct (prepare_snapshot config source s now addr client) as [s1 r]. destruct H as [Hk H].
  exists s1. split; [exact Hk|]. destruct r as [[[[payload delta] sent]|]|e]; [|done..].
  destruct H as (Hsent & Hd & Hfit). split; [apply commit_clients|]. split_and!; [done..|].
  unfold commitSnapshotBaseline, next_baseline, snapshotBaseline. by destruct (EnableDeltaSnapshots config).
Qed.

Lemma snapshot_client_spec config source s now addr client :
  let (s', r) := snapshot_client config source s now addr client in
  same_clients s s' /\
  match r with
  | Ok (Some (payload, delta, sent)) =>
      (exists sequence, sent_of config source s client sequence (src_SnapshotForClient source (cl_id client))
                          sent payload delta) /\
      delta = chooses_delta config s client /\
      zlen payload <= negotiatedMaxPacketSize config (cl_wire client) /\
      snapshotBaselines s' =
        (if EnableDeltaSnapshots config
         then <[cl_connectionID client := next_baseline s client (src_tick source) sent delta]> (snapshotBaselines s)
         else snapshotBaselines s)
  | _ => snapshotBaselines s' = snapshotBaselines s
  end.
Proof.
  unfold snapshot_client.
  destruct (snapshot_round_spec (fun s => s) config source s now addr client) as (s1 & [Hb Hv] & H).
  destruct (snapshot_round _ config source s now addr client) as [s' r]. destruct H as [Hc H].
  unfold next_baseline, snapshotBaseline in *. rewrite Hb in H.
  split; [intros a; rewrite Hc; apply Hv | exact H].
Qed.

(** ** All clients *)
Lemma snapshot_client_quiet config source s now addr client :
  is_Some (clients s !! addr) -> cl_connectionID client = connection_of addr ->
  quiets config roundtrip s (snapshot_client config source s now addr client).1.
Proof.
  intros Hin Hid. pose proof (snapshot_client_spec config source s now addr client) as H.
  destruct (snapshot_client config source s now addr client) as [s' r]. destruct H as [Hc Hb]. cbn [fst].
  destruct r as [[[[payload delta] sent]|]|e]; [|by apply quiet_keeps..].
  destruct Hb as (_ & _ & _ & Hb).
  set (s1 := commitSnapshotBaseline roundtrip config s (connection_of addr) (src_tick source) sent delta).
  apply (rtc_l _ _ s1); [by apply step_commit|]. apply quiet_keeps. unfold s1, commitSnapshotBaseline.
  rewrite Hid in Hb. unfold next_baseline, snapshotBaseline in Hb. rewrite Hid in Hb.
  destruct (EnableDeltaSnapshots config); (split; [exact Hb | exact Hc]).
Qed.

Lemma snapshots_loop_spec config source now copies : forall s acc,
  (forall addr client, (addr, client) ∈ copies ->
     is_Some (clients s !! addr) /\ cl_connectionID client = connection_of addr) ->
  let (s', r) := snapshots_loop config source s now acc copies in
  quiets config roundtrip s s' /\
  match r with
  | Ok l => exists l', l = acc ++ l' /\ sublist (map (fun x => x.1.1) l') (map fst copies) /\
      forall addr payload delta, (addr, payload, delta) ∈ l' -> exists client, (addr, client) ∈ copies /\
        zlen payload <= negotiatedMaxPacketSize config (cl_wire client)
  | Err _ => True
  end.
Proof.
  induction copies as [|[addr client] copies IH]; intros s acc Hin; cbn [snapshots_loop].
  { split; [reflexivity|]. exists []. rewrite app_nil_r. split_and!; [done | done |]. by intros ? ? ? ?%elem_of_nil. }
  destruct (Hin addr client) as [Hs Hid]; [by left|].
  pose proof (snapshot_client_quiet config source s now addr client Hs Hid) as Hq.
  pose proof (snapshot_client_spec config source s now addr client) as Hsent.
  destruct (snapshot_client config source s now addr client) as [s1 sent]. destruct Hsent as [_ Hsent].
  cbn [fst] in Hq.
  assert (forall a c, (a, c) ∈ copies -> is_Some (clients s1 !! a) /\ cl_connectionID c = connection_of a) as Hin1.
  { intros a c Hac. destruct (Hin a c) as [Ha Hc]; [by right|]. split; [|done].
    by apply (quiets_connected _ _ _ _ a Hq). }
  destruct sent as [[[[payload delta] sent]|]|e]; [| |done].
  - specialize (IH s1 (acc ++ [(addr, payload, delta)]) Hin1).
    destruct (snapshots_loop _ _ _ _ _ _) as [s' [l|e]]; destruct IH as [Hq1 IH];
      (split; [etrans; [exact Hq | exact Hq1]|]); [|done].
    destruct IH as (l' & -> & Hsub & Hl). exists ((addr, payload, delta) :: l').
    rewrite <- app_assoc. split_and!; [done | by apply sublist_skip |].
    intros a p d [[= -> -> ->]|Hp]%elem_of_cons.
    + exists client. split; [by left|]. by apply Hsent.
    + destruct (Hl a p d Hp) as (c & Hc & Hle). exists c. split; [by right | done].
  - specialize (IH s1 acc Hin1).
    destruct (snapshots_loop _ _ _ _ _ _) as [s' [l|e]]; destruct IH as [Hq1 IH];
      (split; [etrans; [exact Hq | exact Hq1]|]); [|done].
    destruct IH as (l' & -> & Hsub & Hl). exists l'. split_and!; [done | by apply sublist_cons |].
    intros a p d Hp. destruct (Hl a p d Hp) as (c & Hc & Hle). exists c. split; [by right | done].
Qed.

(** The clients that one round of snapshots goes to. *)
Lemma snapshots_spec config source s now :
  server_ok config s ->
  let (s', r) := snapshots config source s now in
  quiets config roundtrip s s' /\
  match r with
  | Ok l => NoDup (map (fun x => x.1.1) l) /\
      forall addr payload delta, (addr, payload, delta) ∈ l -> exists client, clients s !! addr = Some client /\
        (src_authenticationRequired source = true -> cl_authenticated client = true) /\
        zlen payload <= negotiatedMaxPacketSize config (cl_wire client)
  | Err _ => True
  end.
Proof.
  intros Hok. unfold snapshots.
  assert (forall addr client,
    (addr, client) ∈ map_to_list (snapshotClients (src_authenticationRequired source) s) ->
    clients s !! addr = Some client /\
    (src_authenticationRequired source = true -> cl_authenticated client = true)) as Hin.
  { intros addr client [Hc Ha]%elem_of_map_to_list%map_lookup_filter_Some. split; [done|].
    intros Hr. destruct Ha as [Ha|Ha]; [congruence | done]. }
  pose proof (snapshots_loop_spec config source now
    (map_to_list (snapshotClients (src_authenticationRequired source) s)) s []) as H.
  destruct (snapshots_loop _ _ _ _ _ _) as [s' r]. destruct H as [Hq H].
  { intros addr client [Hc _]%Hin. split; [by exists client | by apply (sk_connection _ _ Hok)]. }
  split; [done|]. destruct r as [l|e]; [|done]. destruct H as (l' & -> & Hsub & Hl). split.
  - refine (sublist_NoDup _ _ _ Hsub). apply NoDup_fst_map_to_list.
  - intros addr payload delta Hp. destruct (Hl _ _ _ Hp) as (client & Hc & Hle).
    apply Hin in Hc as [Hc Ha]. by exists client.
Qed.

Lemma keeps_broadcast write s l : keeps s (broadcast write s l).
Proof.
  apply keeps_foldl. intros s0 [[addr payload] delta]. unfold broadcast_one.
  destruct (write addr payload); [|done]. unfold UdpClients.recordOutboundBytes.
  destruct (_ <=? 0); [done|]. by apply keeps_update.
Qed.

(** Sections that keep the baseline of a connection or forget it: all but the commits. *)
Definition keeps_or_resets (connection : string) (s s' : UDPServer) : Prop :=
  snapshotBaseline s' connection = snapshotBaseline s connection \/ snapshotBaseline s' connection = None.

(** ** The views of a client over a network *)
Section Views.
Context (parse : string -> option GoValue) {laws : JSONLaws Marshal DeepEqual parse roundtrip}.
Abbreviation same := (same_value Marshal DeepEqual parse).

(** A snapshot message: its tick, its content and the tick of its baseline. *)
Definition snapshot_message : Type := Z * (SnapshotData + SnapshotDelta) * Z.

(** A client keeps the tick and the objects of the last snapshot it took: every
    full snapshot, and a delta when it is relative to the snapshot it has. *)
Definition receive (view : option (Z * SnapshotData)) (m : snapshot_message) : option (Z * SnapshotData) :=
  let '(tick, content, baselineTick) := m in
  match content with
  | inl objects => Some (tick, objects)
  | inr delta =>
      match view with
      | Some (t, objects) => if t =? baselineTick then Some (tick, apply_delta objects delta) else view
      | None => None
      end
  end.

(** The server sends snapshots to one client over a network that may lose,
    repeat, delay and reorder them; between the snapshots, and between the two
    sections of one, the server may do anything that keeps or forgets the client's
    baseline.  [history] is what was sent. *)
Inductive exchange (config : Config) (connection : string)
    : UDPServer -> option (Z * SnapshotData) -> list snapshot_message -> list (Z * SnapshotData) -> Prop :=
| exchange_start s :
    snapshotBaseline s connection = None -> exchange config connection s None [] []
| exchange_other s s' view network history :
    exchange config connection s view network history -> keeps_or_resets connection s s' ->
    exchange config connection s' view network history
| exchange_send s s' view network history between source now addr client payload delta sent :
    exchange config connection s view network history ->
    cl_connectionID client = connection -> (forall n, keeps_or_resets connection n (between n)) ->
    Forall (fun e => e.1 < src_tick source) history -> keeps_names roundtrip sent ->
    snapshot_round between config source s now addr client = (s', Ok (Some (payload, delta, sent))) ->
    exchange config connection s' view
      ((src_tick source, snapshot_content config s client sent, baseline_tick s client) :: network)
      ((src_tick source, sent) :: history)
| exchange_deliver s view network history m :
    exchange config connection s view network history -> m ∈ network ->
    exchange config connection s (receive view m) network history.

(** [objects] are those that were sent at [tick], up to values that deltas may not tell apart. *)
Definition sent_at (history : list (Z * SnapshotData)) (tick : Z) (objects : SnapshotData) : Prop :=
  exists sent, (tick, sent) ∈ history /\ agree same objects sent.

Definition message_ok (history : list (Z * SnapshotData)) (m : snapshot_message) : Prop :=
  let '(tick, content, baselineTick) := m in
  match content with
  | inl objects => sent_at history tick objects
  | inr delta => exists baseline current,
      sent_at history baselineTick baseline /\ sent_at history tick current /\
      delta = BuildSnapshotDelta Marshal DeepEqual baseline current
  end.

Lemma sent_at_weaken history e tick objects : sent_at history tick objects -> sent_at (e :: history) tick objects.
Proof. intros (sent & Hin & Ha). exists sent. split; [by right | done]. Qed.

Lemma message_ok_weaken history e m : message_ok history m -> message_ok (e :: history) m.
Proof.
  destruct m as [[tick [objects|delta]] baselineTick]; cbn [message_ok].
  - apply sent_at_weaken.
  - intros (b & c & Hb & Hc & Hd). exists b, c. split_and!; [by apply sent_at_weaken.. | done].
Qed.

Lemma sent_at_unique history tick o1 o2 :
  NoDup history.*1 -> sent_at history tick o1 -> sent_at history tick o2 -> agree same o1 o2.
Proof.
  intros Hnd (s1 & H1 & A1) (s2 & H2 & A2).
  assert (s1 = s2) as ->.
  { apply list_elem_of_lookup in H1 as [i Hi], H2 as [j Hj].
    assert (i = j) as ->; [|congruence].
    eapply (NoDup_lookup _ _ _ tick Hnd); rewrite list_lookup_fmap; [by rewrite Hi | by rewrite Hj]. }
  etrans; [exact A1 | by symmetry].
Qed.

Lemma sent_message_ok config s client tick sent history :
  (forall b, snapshotBaseline s (cl_connectionID client) = Some b ->
     sent_at history (base_tick b) (base_snapshot b)) ->
  message_ok ((tick, sent) :: history)
    (tick, snapshot_content config s client sent, baseline_tick s client).
Proof.
  intros Hb. assert (sent_at ((tick, sent) :: history) tick sent) as Hsent.
  { exists sent. split; [left | reflexivity]. }
  unfold message_ok, snapshot_content, baseline_tick.
  destruct (snapshotBaseline s (cl_connectionID client)) as [b|] eqn:Eb; [|done].
  destruct (chooses_delta config s client); [|done]. exists (base_snapshot b), sent.
  split_and!; [by apply sent_at_weaken, Hb | done | done].
Qed.

Lemma receive_ok history view m :
  NoDup history.*1 -> message_ok history m ->
  (forall t o, view = Some (t, o) -> sent_at history t o) ->
  forall t o, receive view m = Some (t, o) -> sent_at history t o.
Proof.
  destruct m as [[tick [objects|delta]] baselineTick]; cbn [message_ok receive]; intros Hnd Hm Hv t o.
  - by intros [= <- <-].
  - destruct view as [[t' v]|]; [|done]. destruct (Z.eqb_spec t' baselineTick) as [->|]; [|by apply Hv].
    intros [= <- <-]. destruct Hm as (b & c & Hb & Hc & ->).
    destruct Hc as (sent & Hin & Hagree). exists sent. split; [done|].
    etrans; [|exact Hagree]. apply (apply_delta_agree Marshal DeepEqual parse roundtrip).
    by eapply sent_at_unique; [exact Hnd | apply Hv |].
Qed.

Lemma exchange_ok config connection s view network history :
  exchange config connection s view network history ->
  NoDup history.*1 /\ (forall m, m ∈ network -> message_ok history m) /\
  (forall t o, view = Some (t, o) -> sent_at history t o) /\
  (forall b, snapshotBaseline s connection = Some b -> sent_at history (base_tick b) (base_snapshot b)).
Proof.
  induction 1 as [s Hs|s s' view network history _ (Hnd & Hn & Hv & Hb) Hs'
    |s s' view network history between source now addr client payload delta sent _ (Hnd & Hn & Hv & Hb) <- Hbet Hticks Hnames Hsend
    |s view network history m _ (Hnd & Hn & Hv & Hb) Hm].
  - split_and!; [constructor | by intros m ?%elem_of_nil | done | congruence].
  - split_and!; try done. intros b Hs. destruct Hs' as [E|E]; [|congruence]. apply Hb. congruence.
  - destruct (snapshot_round_spec between config source s now addr client) as (s1 & [Hs1 _] & Hspec).
    rewrite Hsend in Hspec. destruct Hspec as (_ & _ & _ & _ & Hbase). split_and!.
    + cbn. constructor; [|done]. intros Hin. apply list_elem_of_fmap in Hin as ([t o] & Ht & Hin).
      rewrite Forall_forall in Hticks. apply Hticks in Hin. cbn in *. lia.
    + intros m [->|Hm]%elem_of_cons; [by apply sent_message_ok|]. by apply message_ok_weaken, Hn.
    + intros t o E. by apply sent_at_weaken, Hv.
    + intros b. unfold snapshotBaseline. rewrite Hbase. destruct (EnableDeltaSnapshots config).
      * rewrite lookup_insert_eq. intros [= <-]. cbn. exists sent.
        split; [left | by apply CloneSnapshotData_agrees].
      * intros E. apply sent_at_weaken, Hb. destruct (Hbet s1) as [E'|E']; unfold snapshotBaseline in *; congruence.
  - split_and!; try done. apply receive_ok; [done | by apply Hn | done].
Qed.
End Views.

(** ** Cadence

    [paced s k n]: on the connection [k] deltas were sent since the last full snapshot,
    [n] of them with their commit overtaken by a reset, whatever else the server did. *)
Definition is_reset (s : UDPServer) (connection : string) : bool :=
  bool_decide (snapshotBaseline s connection = None).

Inductive paced (config : Config) (connection : string) : UDPServer -> Z -> Z -> Prop :=
| paced_start s : snapshotBaseline s connection = None -> paced config connection s 0 0
| paced_other s s' k n :
    paced config connection s k n -> keeps_or_resets connection s s' -> paced config connection s' k n
| paced_full s s' k n between source now addr client payload sent :
    paced config connection s k n ->
    cl_connectionID client = connection -> (forall m, keeps_or_resets connection m (between m)) ->
    snapshot_round between config source s now addr client = (s', Ok (Some (payload, false, sent))) ->
    paced config connection s' 0 0
| paced_delta s s1 s' k n between source now addr client prepared payload sent :
    paced config connection s k n ->
    cl_connectionID client = connection -> (forall m, keeps_or_resets connection m (between m)) ->
    prepare_snapshot config source s now addr client = (s1, prepared) ->
    snapshot_round between config source s now addr client = (s', Ok (Some (payload, true, sent))) ->
    paced config connection s' (k + 1) (if is_reset (between s1) connection then n + 1 else n).

(** A delta was allowed by the baseline. *)
Lemma chooses_delta_inv config s client :
  chooses_delta config s client = true -> exists b, snapshotBaseline s (cl_connectionID client) = Some b /\
    EnableDeltaSnapshots config = true /\ shouldSendFullSnapshot config b = false.
Proof.
  unfold chooses_delta. destruct (snapshotBaseline _ _) as [b|]; [|done]. intros H. zbool.
  exists b. split; [done|]. by destruct (shouldSendFullSnapshot config b).
Qed.

(** The deltas since the last full snapshot, against the count that the baseline has. *)
Definition pace_ok (config : Config) (connection : string) (s : UDPServer) (k n : Z) : Prop :=
  0 <= n /\ 0 <= k <= (n + 1) * (FullSnapshotEvery config - 1) /\
  (EnableDeltaSnapshots config = false -> k = 0) /\
  forall b, snapshotBaseline s connection = Some b -> EnableDeltaSnapshots config = true ->
    0 <= base_snapshotsSinceFull b < FullSnapshotEvery config /\
    k <= n * (FullSnapshotEvery config - 1) + base_snapshotsSinceFull b.

Lemma paced_ok config connection s k n :
  in_i64 (FullSnapshotInterval config) -> paced config connection s k n -> pace_ok config connection s k n.
Proof.
  intros Hint. pose proof (FullSnapshotEvery_bounds config Hint) as Hevery. unfold pace_ok.
  induction 1 as [s Hs|s s' k n _ (Hn & Hk & Hoff & Hb) Hs'
    |s s' k n between source now addr client payload sent _ _ <- Hbet Hsend
    |s s1 s' k n between source now addr client prepared payload sent _ (Hn & Hk & Hoff & Hb) <- Hbet Hprep Hsend].
  - split_and!; [lia | lia | lia | done | congruence].
  - split_and!; [lia | lia | lia | done |]. intros b Hs. destruct Hs' as [E|E]; [|congruence]. apply Hb. congruence.
  - destruct (snapshot_round_spec between config source s now addr client) as (s1 & _ & Hspec).
    rewrite Hsend in Hspec. destruct Hspec as (_ & _ & _ & _ & Hbase).
    split_and!; [lia | lia | lia | done |]. intros b Hs He. unfold snapshotBaseline in Hs.
    rewrite Hbase, He, lookup_insert_eq in Hs. injection Hs as <-. cbn. lia.
  - pose proof (prepare_snapshot_spec config source s now addr client) as Hspec. rewrite Hprep in Hspec.
    unfold snapshot_round in Hsend. rewrite Hprep in Hsend. destruct Hspec as [[Hs1 _] Hspec].
    destruct prepared as [[[[p d] o]|]|e]; [|done..]. injection Hsend as <- -> -> ->.
    destruct Hspec as (_ & Hd & _). symmetry in Hd. apply chooses_delta_inv in Hd as (b & Eb & He & Hfull).
    destruct (Hb b Eb He) as [Hc Hkc]. unfold shouldSendFullSnapshot in Hfull.
    destruct (Z.leb_spec (FullSnapshotEvery config) 1); [done|]. rewrite u64_inc_small in Hfull by lia.
    apply Z.leb_gt in Hfull. unfold commitSnapshotBaseline. rewrite He. cbn [negb].
    unfold is_reset. destruct (Hbet s1) as [E|E]; unfold snapshotBaseline in *.
    + rewrite E, Hs1, Eb. rewrite bool_decide_false by done. cbn [snapshotBaselines set_baselines].
      split_and!; [lia | lia | lia | congruence |]. rewrite lookup_insert_eq. intros b' [= <-] _.
      cbn [base_snapshotsSinceFull]. rewrite u64_inc_small by lia. lia.
    + rewrite E. rewrite bool_decide_true by done. cbn [snapshotBaselines set_baselines].
      split_and!; [lia | lia | lia | congruence |]. rewrite lookup_insert_eq. intros b' [= <-] _.
      cbn [base_snapshotsSinceFull]. lia.
Qed.

(** ** Properties *)

(** C9: what is left out of a snapshot.  A snapshot that is sent fits the packet
    size of its client; when objects were left out to fit the budget, it holds
    only objects that the client may see, and none of those left out has a higher
    priority than one that was sent.  (A left-out object that the client already
    has is then listed as despawned, although it is still visible.)  JSON keeps the names
    of the client's objects, that is, they are valid UTF-8. *)
Theorem snapshot_priority config source s now addr client :
  keeps_names roundtrip (src_SnapshotForClient source (cl_id client)) ->
  let (_, r) := snapshot_client config source s now addr client in
  match r with
  | Ok (Some (payload, delta, sent)) =>
      let objects := src_SnapshotForClient source (cl_id client) in
      let left_out t i := is_Some (lookup_object objects t i) /\ lookup_object sent t i = None in
      zlen payload <= negotiatedMaxPacketSize config (cl_wire client) /\
      (forall t i, is_Some (lookup_object sent t i) -> is_Some (lookup_object objects t i)) /\
      (forall t i t' i', is_Some (lookup_object sent t i) -> left_out t' i' ->
         priority_of config source objects t' i' <= priority_of config source objects t i) /\
      (forall t i, delta = true -> left_out t i ->
         exists d, snapshot_content config s client sent = inr d /\
           (is_Some (lookup_object (default ∅ (base_snapshot <$> snapshotBaseline s (cl_connectionID client))) t i) ->
            mkRef t i ∈ Despawned d))
  | _ => True
  end.
Proof.
  intros Hclone. pose proof (snapshot_client_spec config source s now addr client) as Hspec.
  destruct (snapshot_client config source s now addr client) as [s' [[[[payload delta] sent]|]|e]]; [|done..].
  destruct Hspec as (_ & [sequence Hsent] & Hdelta & Hfit & _). set (objects := src_SnapshotForClient _ _) in *.
  cbv zeta. split; [exact Hfit|].
  assert ((forall t i, is_Some (lookup_object sent t i) -> is_Some (lookup_object objects t i)) /\
    (forall t i t' i', is_Some (lookup_object sent t i) ->
       is_Some (lookup_object objects t' i') /\ lookup_object sent t' i' = None ->
       priority_of config source objects t' i' <= priority_of config source objects t i)) as [H1 H2].
  { destruct Hsent as [p d He|limit n p d Hn Hlim candidates sent He Hle Hlen Hlong].
    - split; [done|]. intros t i t' i' _ [[v Hv] Hnone]. congruence.
    - split.
      + intros t i. unfold sent. rewrite lookup_without. destruct (existsb _ _); [by intros [? ?]|].
        by apply CloneSnapshotData_names.
      + intros t i t' i' Hkept [Hin Hout]. by eapply kept_priority. }
  split_and!; [exact H1 | exact H2 |].
  intros t i -> [_ Hout]. unfold snapshot_content. symmetry in Hdelta. rewrite Hdelta.
  unfold chooses_delta in Hdelta. destruct (snapshotBaseline s (cl_connectionID client)) as [b|]; [|done].
  eexists. split; [reflexivity|]. cbn. intros Hbase.
  destruct (BuildSnapshotDelta_exact Marshal DeepEqual (base_snapshot b) sent) as (Hexact & _).
  destruct (Hexact t i) as (_ & _ & Hgone). by apply Hgone.
Qed.


(** C11: the cadence of full snapshots.  On every connection fewer than
    [FullSnapshotEvery] deltas follow each other without a full snapshot, as long as no
    reset of the baseline comes between the preparation of a delta and its commit.  A
    reset that does is lost and starts the count again: with [n] of them at most
    (n + 1) (FullSnapshotEvery - 1) deltas follow each other.  There are none at all when
    delta snapshots are disabled. *)
Theorem full_snapshot_cadence config connection s k n :
  in_i64 (FullSnapshotInterval config) -> paced config connection s k n ->
  0 <= k <= (n + 1) * (FullSnapshotEvery config - 1) /\ (EnableDeltaSnapshots config = false -> k = 0).
Proof. intros Hint Hp. destruct (paced_ok _ _ _ _ _ Hint Hp) as (_ & Hk & Hoff & _). by split. Qed.

(** C10: who gets snapshots.  One round of snapshots has at most one packet per
    client, for connected clients only, none longer than the client's negotiated
    packet size; when an authentication handler is registered, none for a client
    that has not authenticated. *)
Theorem snapshot_recipients config source s now s' l :
  server_ok config s -> snapshots config source s now = (s', Ok l) ->
  NoDup (map (fun x => x.1.1) l) /\
  forall addr payload delta, (addr, payload, delta) ∈ l -> exists client, clients s !! addr = Some client /\
    (src_authenticationRequired source = true -> cl_authenticated client = true) /\
    zlen payload <= negotiatedMaxPacketSize config (cl_wire client).
Proof.
  intros Hok E. pose proof (snapshots_spec config source s now Hok) as H. rewrite E in H. by destruct H.
Qed.
End Snapshots.

(** ** Witnesses *)
Module Witnesses.
Local Open Scope string_scope.

(** Three objects of 100 bytes for a JSON client with 250 bytes a second: the one
    with the lowest priority is left out. *)
Definition config : Config := {|
  UDPAddress := ":9000"; TickRate := 128; SnapshotRate := 20; EnableDeltaSnapshots := true;
  SupportedWireCapabilities := 7; FullSnapshotInterval := 3; ClientTimeout := 5 * Second; MaxClients := 0;
  MaxUDPPacketSize := 1200; EnableBandwidthBudget := true; ClientBytesPerSecond := 250;
  DefaultSnapshotPriority := OutboundPriorityNormal; ReliableRetryInterval := Second; ReliableMaxAttempts := 5;
  ReliableQueueLimit := 16; MaxInputFutureTicks := 8; MaxInputPastTicks := 8; InputBufferLimit := 64;
  DebugEnabled := false; DebugAddress := "" |}.

(** The int 1, which comes back from JSON as the float64 1. *)
Definition one : GoValue := VFloat64 0x3ff0000000000000.
Definition objects : SnapshotData := {["npc" := {["a" := VBool true; "b" := VBool true; "c" := VInt 1]}]}.
Definition source (tick : Z) : SnapshotSource :=
  mkSource tick false (fun _ => objects)
    (fun _ => {[snapshotPriorityKey "npc" "b" := OutboundPriorityLow]}).

Definition size_of (s : SnapshotData) : nat := (100 * length (snapshot_entries s))%nat.
Definition marshalSnapshot (m : SnapshotMessage) : result bytes := Ok (repeat x00 (size_of (sm_Objects m))).
Definition marshalDelta (m : DeltaSnapshotMessage) : result bytes :=
  Ok (repeat x00 (size_of (dm_Spawned m) + size_of (dm_Changed m) + 1)).
Definition Marshal (v : GoValue) : option string :=
  match v with
  | VNil => Some "null"
  | VBool true => Some "true"
  | VBool false => Some "false"
  | VInt 1 | VUint 1 => Some "1"
  | VFloat64 bits => if Z.eqb bits 0x3ff0000000000000 then Some "1" else None
  | _ => None
  end.
Definition parse (text : string) : option GoValue :=
  if String.eqb text "null" then Some VNil
  else if String.eqb text "true" then Some (VBool true)
  else if String.eqb text "false" then Some (VBool false)
  else if String.eqb text "1" then Some one
  else None.
Definition DeepEqual (a c : GoValue) : bool :=
  match a, c with VFloat64 x, VFloat64 y => Z.eqb x y && Z.eqb x 0x7ff0000000000000 | _, _ => false end.
Definition from_json := json_value Marshal parse.
Definition roundtrip (s : SnapshotData) : option SnapshotData :=
  if forallb (fun e : object_entry => bool_decide (is_Some (from_json e.2))) (snapshot_entries s)
  then Some ((fun o : SnapshotObjects => omap from_json o) <$> s) else None.

Definition send := snapshot_client (World := unit) (Body := unit) None marshalSnapshot marshalDelta Marshal DeepEqual
  roundtrip (fun _ => 1) (fun _ => 0) config.

Definition s0 : UDPServer (Body := unit) := (acceptClientRequest config NewUDPServer "a" 1 0 0 Second).1.
Definition client : UDPClient (Body := unit) := new_client config "a" Second.
Definition sent1 := send (source 6) s0 Second "a" client.
Definition s1 := sent1.1.
Definition sent2 := send (source 12) s1 (2 * Second) "a" client.

Definition left1 : SnapshotData := {["npc" := {["a" := VBool true; "c" := one]}]}.

(** The second snapshot, when the baseline is reset before its commit. *)
Definition overtaken (s : UDPServer (Body := unit)) : UDPServer (Body := unit) := resetSnapshotBaseline s "a".
Definition prepare2 := prepare_snapshot (World := unit) (Body := unit) None marshalSnapshot marshalDelta Marshal
  DeepEqual roundtrip (fun _ => 1) (fun _ => 0) config (source 12) s1 (2 * Second) "a" client.
Definition round2 (between : UDPServer (Body := unit) -> UDPServer (Body := unit)) :=
  snapshot_round (World := unit) (Body := unit) None marshalSnapshot marshalDelta Marshal
    DeepEqual roundtrip (fun _ => 1) (fun _ => 0) between config (source 12) s1 (2 * Second) "a" client.

Lemma overtaken_resets s : keeps_or_resets "udp-a" s (overtaken s).
Proof.
  unfold keeps_or_resets, overtaken, resetSnapshotBaseline. destruct (clients s !! "a") as [c|]; [|by left].
  unfold snapshotBaseline. cbn [snapshotBaselines set_baselines].
  destruct (decide (cl_connectionID c = "udp-a")) as [->|Hne];
    [right; apply lookup_delete_eq | left; by apply lookup_delete_ne].
Qed.

Lemma sent1_eq : sent1 = (s1, Ok (Some (repeat x00 200, false, left1))).
Proof. vm_compute. reflexivity. Qed.
Lemma sent2_eq : sent2 = (sent2.1, Ok (Some (repeat x00 101, true, objects))).
Proof. vm_compute. reflexivity. Qed.

(** The two messages. *)
Definition m1 : snapshot_message := (6, inl left1, 0).
Definition m2 : snapshot_message := (12, inr (BuildSnapshotDelta Marshal DeepEqual left1 objects), 6).
Lemma m1_eq : (src_tick (source 6), snapshot_content Marshal DeepEqual config s0 client left1,
  baseline_tick s0 client) = m1.
Proof. vm_compute. reflexivity. Qed.
Lemma m2_eq : (src_tick (source 12), snapshot_content Marshal DeepEqual config s1 client objects,
  baseline_tick s1 client) = m2.
Proof. vm_compute. reflexivity. Qed.
Definition view2 : SnapshotData := apply_delta left1 (BuildSnapshotDelta Marshal DeepEqual left1 objects).

(** Of two clients the one that authenticated gets a snapshot. *)
Definition two : UDPServer :=
  (authenticateClient (acceptClientRequest config s0 "b" 1 0 0 Second).1 "a" "alice").1.
Definition authenticated : SnapshotSource := mkSource 6 true (fun _ => left1) (fun _ => ∅).
Abbreviation round := (snapshots (World := unit) (Body := unit) None marshalSnapshot marshalDelta Marshal DeepEqual
  roundtrip (fun _ => 1) (fun _ => 0) config authenticated two Second).

Lemma sent_list (addrs : list string) (x : UDPServer (Body := unit) * result (list udpSnapshot)) :
  match x.2 with Ok l => map (fun x => x.1.1) l = addrs | Err _ => False end ->
  exists l, x = (x.1, Ok l) /\ map (fun x => x.1.1) l = addrs.
Proof. destruct x as [s' [l|e]]; [|done]. intros H. by exists l. Qed.
Lemma round_eq : exists l, round = (round.1, Ok l) /\ map (fun x => x.1.1) l = ["a"].
Proof. apply sent_list. vm_compute. reflexivity. Qed.

Lemma from_json_eq v :
  from_json v = match v with
    | VNil => Some VNil
    | VBool b => Some (VBool b)
    | VInt 1 | VUint 1 => Some one
    | VFloat64 bits => if Z.eqb bits 0x3ff0000000000000 then Some one else None
    | _ => None
    end.
Proof.
  unfold from_json, json_value. destruct v; try done; cbn [Marshal mbind option_bind].
  - by destruct b.
  - by destruct z as [|[]|].
  - by destruct z as [|[]|].
  - by destruct (Z.eqb _ _).
Qed.

Lemma lookup_roundtrip s copy t i :
  roundtrip s = Some copy -> lookup_object copy t i = lookup_object s t i ≫= from_json.
Proof.
  unfold roundtrip. destruct (forallb _ _); [|done]. intros [= <-]. unfold lookup_object.
  rewrite lookup_fmap. destruct (s !! t) as [o|]; [|done]. cbn. by rewrite lookup_omap.
Qed.

Lemma all_keep_names s : keeps_names roundtrip s.
Proof.
  intros copy E t i. rewrite (lookup_roundtrip s copy t i E). destruct (lookup_object s t i) as [v|] eqn:Ev; [|done].
  split; [by exists v|]. intros _. unfold roundtrip in E. destruct (forallb _ _) eqn:Hall; [|done].
  rewrite forallb_forall in Hall. assert ((t, i, v) ∈ snapshot_entries s) as Hin by (by apply elem_of_snapshot_entries).
  specialize (Hall (t, i, v) (proj1 (list_elem_of_In _ _) Hin)). by apply bool_decide_eq_true in Hall.
Qed.

Lemma json_laws : JSONLaws Marshal DeepEqual parse roundtrip.
Proof.
  split.
  - intros v j. fold (from_json v) (from_json j). rewrite (from_json_eq v). intros H.
    destruct v; try done; repeat case_match; simplify_eq; first [reflexivity | by rewrite from_json_eq].
  - intros s copy t i v E _ Ev. rewrite (lookup_roundtrip s copy t i E), Ev. reflexivity.
  - intros a c. destruct a, c; try done. cbn. rewrite !andb_true_iff, !Z.eqb_eq. lia.
  - intros a b c. destruct a, b, c; try done. cbn. rewrite !andb_true_iff, !Z.eqb_eq. lia.
  - intros a c. destruct a, c; try done. cbn. intros H. zbool. by subst.
Qed.
End Witnesses.

Lemma snapshot_recipients_witness :
  exists l, Witnesses.round = (Witnesses.round.1, Ok l) /\
    map (fun x => x.1.1) l = ["a"%string] /\ NoDup (map (fun x => x.1.1) l).
Proof.
  destruct Witnesses.round_eq as (l & E & Hl). exists l. split; [exact E|]. split; [exact Hl|].
  refine (proj1 (snapshot_recipients None Witnesses.marshalSnapshot Witnesses.marshalDelta Witnesses.Marshal
    Witnesses.DeepEqual Witnesses.roundtrip (fun _ => 1) (fun _ => 0) Witnesses.config Witnesses.authenticated
    Witnesses.two Second Witnesses.round.1 l _ E)).
  apply authenticateClient_ok, acceptClientRequest_ok, acceptClientRequest_ok, NewUDPServer_ok.
Defined.

Lemma snapshot_priority_witness :
  Witnesses.sent1.2 = Ok (Some (repeat x00 200, false, Witnesses.left1)) /\
  priority_of Witnesses.config (Witnesses.source 6) Witnesses.objects "npc" "b" <=
  priority_of Witnesses.config (Witnesses.source 6) Witnesses.objects "npc" "c".
Proof.
  split; [rewrite Witnesses.sent1_eq; reflexivity|].
  pose proof (snapshot_priority (World := unit) (Body := unit) None Witnesses.marshalSnapshot Witnesses.marshalDelta
    Witnesses.Marshal Witnesses.DeepEqual Witnesses.roundtrip (fun _ => 1) (fun _ => 0) Witnesses.config
    (Witnesses.source 6) Witnesses.s0 Second "a" Witnesses.client (Witnesses.all_keep_names _)) as H.
  fold Witnesses.send in H. fold Witnesses.sent1 in H. rewrite Witnesses.sent1_eq in H.
  destruct H as (_ & _ & H & _). apply (H "npc"%string "c"%string "npc"%string "b"%string).
  - exists (Witnesses.one). vm_compute. reflexivity.
  - split; [exists (VBool true); vm_compute; reflexivity | vm_compute; reflexivity].
Defined.


Lemma full_snapshot_cadence_witness :
  exists s, paced (World := unit) (Body := unit) None Witnesses.marshalSnapshot Witnesses.marshalDelta Witnesses.Marshal
      Witnesses.DeepEqual Witnesses.roundtrip (fun _ => 1) (fun _ => 0) Witnesses.config "udp-a" s 1 1 /\
    0 <= 1 <= (1 + 1) * (FullSnapshotEvery Witnesses.config - 1).
Proof.
  pose proof (paced_start (World := unit) (Body := unit) None Witnesses.marshalSnapshot Witnesses.marshalDelta
    Witnesses.Marshal Witnesses.DeepEqual Witnesses.roundtrip (fun _ => 1) (fun _ => 0) Witnesses.config "udp-a"
    Witnesses.s0 eq_refl) as H0.
  pose proof (paced_full (World := unit) (Body := unit) None Witnesses.marshalSnapshot Witnesses.marshalDelta
    Witnesses.Marshal Witnesses.DeepEqual Witnesses.roundtrip (fun _ => 1) (fun _ => 0) Witnesses.config "udp-a"
    Witnesses.s0 Witnesses.s1 0 0 (fun s => s) (Witnesses.source 6) Second "a" Witnesses.client _ _ H0 eq_refl
    (fun n => or_introl eq_refl) Witnesses.sent1_eq) as H1.
  assert (exists s1 prepared s', Witnesses.prepare2 = (s1, prepared) /\
    Witnesses.round2 Witnesses.overtaken = (s', Ok (Some (repeat x00 101, true, Witnesses.objects))) /\
    is_reset (Witnesses.overtaken s1) "udp-a" = true) as (s1 & prepared & s' & E1 & E2 & E3).
  { exists Witnesses.prepare2.1, Witnesses.prepare2.2, (Witnesses.round2 Witnesses.overtaken).1.
    split; [apply surjective_pairing | split; vm_compute; reflexivity]. }
  pose proof (paced_delta (World := unit) (Body := unit) None Witnesses.marshalSnapshot Witnesses.marshalDelta
    Witnesses.Marshal Witnesses.DeepEqual Witnesses.roundtrip (fun _ => 1) (fun _ => 0) Witnesses.config "udp-a"
    Witnesses.s1 s1 s' 0 0 Witnesses.overtaken (Witnesses.source 12) (2 * Second) "a" Witnesses.client prepared _ _ H1 eq_refl
    Witnesses.overtaken_resets E1 E2) as H2.
  rewrite E3 in H2. exists s'. split; [exact H2|].
  apply (full_snapshot_cadence (World := unit) (Body := unit) None Witnesses.marshalSnapshot Witnesses.marshalDelta
    Witnesses.Marshal Witnesses.DeepEqual Witnesses.roundtrip (fun _ => 1) (fun _ => 0) Witnesses.config "udp-a" s' 1 1);
    [split; [discriminate | reflexivity] | exact H2].
Defined.
