(* ===== verification/Server.v ===== *)
(** * The UDP server as a whole

    [network/udp.go]: [handleMessage] and [advanceAndMaybeBroadcast], the two
    entry points of the server, over the runtime, the game and the client table
    together.  The state of the server is one world: the runtime and, as the
    state that hooks and response writers may touch, the game's own state with the
    client table.  The socket is the function [conn], the clock an argument, and a
    handler runs from start to end (the loop that reads the socket is one
    goroutine; the ticks of the other one interleave between handlers). *)
From S2P Require Import Prelude Keys Values Snapshot Messages Packet Config InputBuffer Registry Scenes Float64.
From S2P Require Import Interest Metrics Runtime View Budget Window ReliableIn ReliableOut UdpClients Outbound UdpSnapshot.
From S2P Require Import Payload Decode.

(** ** Data *)

(** The payload of a [ClientInput]: the [PlayerInput] or a copy of the bytes. *)
Inductive InputPayload :=
| InputPlayer (input : PlayerInput)
| InputBytes (payload : bytes).

(** [udpIncomingMessage], the delivery aside. *)
Record IncomingBody := mkBody {
  ib_messageType : WireMessageType;
  ib_request : RequestMessage;
  ib_payload : GoAny
}.

Abbreviation incoming := (udpIncomingMessage (Body := IncomingBody)).
Abbreviation Net := (UDPServer (Body := IncomingBody)).

Record udpIncomingPacket := mkIncomingPacket {
  ip_sequence : Z;
  ip_ack : Z;
  ip_ackBits : Z;
  ip_wire : bool;
  ip_version : Z;
  ip_messages : list incoming
}.

Definition no_request : RequestMessage := mkRequest "" 0 "" "" "" [].

Definition emptyRequestMessage (request : RequestMessage) : bool :=
  bool_decide (rm_Type request = ""%string) && (rm_Sequence request =? 0) &&
  bool_decide (rm_ObjectType request = ""%string) && bool_decide (rm_ObjectID request = ""%string) &&
  bool_decide (rm_Action request = ""%string) && (zlen (rm_Data request) =? 0).

Definition isAuthenticationRequest (request : RequestMessage) : bool :=
  let messageType := ToLower (TrimSpace (rm_Type request)) in
  bool_decide (messageType = "auth"%string) || bool_decide (messageType = "authentication"%string).

(** What the server calls outside the repository: [json.Unmarshal] into a
    [RequestMessage]; [json.Marshal] of a response and of the snapshot envelopes;
    [json.Marshal] of a payload with [json.Unmarshal] into a [SceneSwitchRequest], and
    [json.Unmarshal] of request data into one; [Error], the text of an error;
    reflection, as in [Decode]; the rest is as in [Interest] and [UdpSnapshot]. *)
Class Libraries := {
  unmarshalRequest : bytes -> result RequestMessage;
  marshal : GoAny -> result bytes;
  remarshalScene : GoAny -> SceneSwitchRequest -> result SceneSwitchRequest;
  Unmarshal : bytes -> result SceneID;
  error_text : GoError -> string;
  EqualFold : string -> string -> bool;
  ParseFloat : string -> option f64;
  library_reflection :: Reflection;
  marshalSnapshot : SnapshotMessage -> result bytes;
  marshalDelta : DeltaSnapshotMessage -> result bytes;
  Marshal : GoValue -> option string;
  DeepEqual : GoValue -> GoValue -> bool;
  roundtrip : SnapshotData -> option SnapshotData;
  elapsed : SnapshotData -> Z
}.

(** [decodePayload] of a [SceneSwitchRequest]: the scene it names. *)
Definition decodeScenePayload {libraries : Libraries} (payload : GoAny) : result SceneID :=
  let! request := decode_as remarshalScene (mkSceneSwitchRequest "") payload in Ok (ssr_TargetScene request).

Section Server.
Context {Obj Factory G : Type} {libraries : Libraries}.
Abbreviation Game := (G * Net)%type.
Abbreviation World := (World Obj Factory InputPayload Game).
Abbreviation Runtime := (Runtime Obj Factory InputPayload).
Context `{!GameCode Obj Factory InputPayload Game}.

(** The registry of the runtime. *)
Context (registry : option (WireMessageRegistry (World := World))).

(** The connection: what [WriteToUDP] answers; [None] is the nil connection. *)
Abbreviation Conn := (option (string -> bytes -> result unit)).

(** ** The client table inside the world *)
Definition net (w : World) : Net := w.2.2.
Definition on_net (w : World) (f : Net -> Net) : World := (w.1, (w.2.1, f w.2.2)).

Definition client_at (w : World) (addr : string) : option (UDPClient (Body := IncomingBody)) :=
  clients (net w) !! addr.
Definition client_id (w : World) (addr : string) : string :=
  default ""%string (cl_id <$> client_at w addr).
Definition is_authenticated (w : World) (addr : string) : bool :=
  default false (cl_authenticated <$> client_at w addr).
Definition connection_id (w : World) (addr : string) : string :=
  default ""%string (cl_connectionID <$> client_at w addr).

(** ** Decoding *)
Definition request_of (sequence : Z) (decoded : GoAny) : RequestMessage :=
  match decoded with
  | AnyValue (MClientHello _) => mkRequest "auth" sequence "" "" "" []
  | AnyValue (MObjectRequest value) =>
      mkRequest "" sequence (req_ObjectType value) (req_ObjectID value) (req_Action value) (req_Data value)
  | AnyValue (MPlayerInput value) => mkRequest "" sequence "player" (pin_ObjectID value) "input" []
  | _ => no_request
  end.

Definition payload_of (decoded : GoAny) : GoAny :=
  match decoded with AnyValue (MObjectRequest _) => AnyNil | _ => decoded end.

(** The loop of [decodeUDPWirePacket]. *)
Fixpoint decode_messages (sequence : Z) (messages : list WireMessage) : result (list incoming) :=
  match messages with
  | [] => Ok []
  | message :: messages =>
      let! decoded := DecodeMessage registry message in
      let! rest := decode_messages sequence messages in
      Ok (mkIncoming (mkBody (msg_Type message) (request_of sequence decoded) (payload_of decoded))
            (msg_Delivery message) (msg_DeliveryID message) :: rest)
  end.

Definition decodeUDPWirePacket (payload : bytes) : result udpIncomingPacket :=
  let! packet := DecodePacket payload in
  let! messages := decode_messages (pkt_Sequence packet) (pkt_Messages packet) in
  Ok (mkIncomingPacket (pkt_Sequence packet) (pkt_Ack packet) (pkt_AckBits packet) true
        (pkt_Version packet) messages).

Definition decodeUDPIncomingPacket (payload : bytes) : result udpIncomingPacket :=
  if isWirePacket payload then decodeUDPWirePacket payload
  else
    let! request := unmarshalRequest payload in
    Ok (mkIncomingPacket (rm_Sequence request) 0 0 false 0
          [mkIncoming (mkBody WireMessageUnknown request AnyNil) DeliveryUnreliable 0]).

(** ** Inputs *)
Definition bufferDecodedInput (addr : string) (packetSequence now : Z) (payload : GoAny) (w : World)
    : World * (bool * result unit) :=
  match payload with
  | AnyValue (MPlayerInput input) =>
      let sequence := if pin_Sequence input =? 0 then packetSequence else pin_Sequence input in
      let (r, e) := BufferClientInput w.1
        (mkInput (client_id w addr) sequence (pin_Tick input) "player" (pin_ObjectID input)
           (pin_ObjectID input) (InputPlayer input) now) now in
      ((r, w.2), (negb (pin_Tick input =? 0), e))
  | AnyValue (MGenericClientInput input) =>
      let sequence := if gci_Sequence input =? 0 then packetSequence else gci_Sequence input in
      let (r, e) := BufferClientInput w.1
        (mkInput (client_id w addr) sequence (gci_Tick input) (gci_ObjectType input) (gci_ObjectID input)
           (gci_TargetID input) (InputBytes (gci_Payload input)) now) now in
      ((r, w.2), (true, e))
  | _ => (w, (false, Ok tt))
  end.

(** ** Responses *)

(** The writer that [handleMessage] makes. *)
Definition writer (conn : Conn) (addr : string) (wire : bool) (now : Z) : ResponseWriter (World := World) :=
  Some (fun message w =>
    match conn with
    | None => (w, Err ErrResponsesUnsupported)
    | Some write =>
        let '(n, _, r) :=
          sendUDPResponse registry marshal (config w.1) (write addr) (net w) addr message wire now in
        (on_net w (fun _ => n), r)
    end).

Definition error_response (request : RequestMessage) (e : GoError) : GoAny :=
  AnyValue (MResponseMessage (mkResponse "error" (rm_Sequence request) false (error_text e) VNil)).

(** [_ = response.Respond(...)] of an error, which is then returned. *)
Definition fail_with (response : ResponseWriter (World := World)) (request : RequestMessage) (e : GoError)
    (w : World) : World * result unit :=
  ((Respond response (error_response request e) w).1, Err e).

(** ** Authentication *)
Definition authentication_failed (response : ResponseWriter (World := World)) (request : RequestMessage)
    (e : GoError) (w : World) : World * result unit :=
  fail_with response request e (on_net w (fun n => on_metrics n recordAuthFailure)).

(** The negotiation block of [handleAuthenticationAttempt]. *)
Definition negotiate (addr : string) (payload : GoAny) (w : World) : World * result unit :=
  match payload with
  | AnyValue (MClientHello hello) =>
      match NegotiateClientHello (config w.1) hello with
      | Err e => (w, Err e)
      | Ok welcome =>
          let w :=
            if 0 <? hello_MaxPacketSize hello
            then on_net w (fun n => applyClientPacketSize (config w.1) n addr (hello_MaxPacketSize hello)) else w in
          (on_net w (fun n => applyNegotiatedWireState n addr welcome), Ok tt)
      end
  | _ => (w, Ok tt)
  end.

Definition handleAuthenticationAttempt (addr : string) (request : RequestMessage) (payload : GoAny)
    (response : ResponseWriter (World := World)) (now : Z) (w : World) : World * result unit :=
  let w := on_net w (fun n => on_metrics n recordAuthAttempt) in
  match negotiate addr payload w with
  | (w, Err e) => authentication_failed response request e w
  | (w, Ok _) =>
      let (w, attempt) :=
        HandleAuthenticationAttempt
          (mkAuthentication "udp" (connection_id w addr) (client_id w addr) 0 now request payload) now w in
      match attempt with
      | Err e => authentication_failed response request e w
      | Ok authenticatedID =>
          let (n, r) := authenticateClient (net w) addr authenticatedID in
          let w := on_net w (fun _ => n) in
          match r with
          | Err e => authentication_failed response request e w
          | Ok _ =>
              let w := on_net w (fun n => on_metrics n recordAuthSuccess) in
              let (w, r) :=
                Respond response (AnyValue (MAuthenticationResponse
                  (mkAuthResponse "auth" (rm_Sequence request) true (client_id w addr) authenticatedID))) w in
              (w, match r with Err ErrResponsesUnsupported => Ok tt | _ => r end)
          end
      end
  end.

(** ** Requests *)
Definition handleDecodedRequest (addr : string) (request : RequestMessage) (payload : GoAny)
    (response : ResponseWriter (World := World)) (now : Z) (w : World) : World * result unit :=
  if isAuthenticationRequest request then handleAuthenticationAttempt addr request payload response now w
  else if AuthenticationRequired w.1 && negb (is_authenticated w addr)
  then fail_with response request ErrAuthenticationRequired w
  else
    let (w, r) :=
      HandleRequest decodeScenePayload Unmarshal
        (mkRequestContext "udp" (client_id w addr) 0 now request payload None response) now w in
    match r with
    | Err e => fail_with response request e (on_net w (fun n => on_metrics n recordRequestError))
    | Ok _ =>
        (if isSceneSwitchAction (rm_Action request)
         then on_net w (fun n => resetSnapshotBaseline n addr) else w, Ok tt)
    end.

(** ** Datagrams *)
Definition first_error (firstErr r : result unit) : result unit :=
  match firstErr with Ok _ => r | Err _ => firstErr end.

(** What the loop of [handleMessage] does with a message that no handler of the
    registry took. *)
Definition handle_undispatched (addr : string) (packet : udpIncomingPacket)
    (response : ResponseWriter (World := World)) (now : Z) (message : incoming) (w : World)
    (firstErr : result unit) : World * result unit :=
  let body := inc_Body message in
  let '(w, (handledInput, e)) := bufferDecodedInput addr (ip_sequence packet) now (ib_payload body) w in
  let firstErr := first_error firstErr e in
  if handledInput then (w, firstErr)
  else if emptyRequestMessage (ib_request body) then (w, firstErr)
  else
    let (w, e) := handleDecodedRequest addr (ib_request body) (ib_payload body) response now w in
    (w, first_error firstErr e).

Definition is_unknown (payload : GoAny) : bool :=
  match payload with AnyValue (MUnknownWireMessage _) => true | _ => false end.

(** The context of a registered handler. *)
Definition message_context (addr : string) (packet : udpIncomingPacket)
    (response : ResponseWriter (World := World)) (now : Z) (message : incoming) (w : World)
    : WireMessageContext (World := World) :=
  mkContext "udp" (client_id w addr) (ip_sequence packet) (ip_ack packet) (ip_ackBits packet) now
    (ib_messageType (inc_Body message)) (ib_payload (inc_Body message)) response.

(** One turn of the loop of [handleMessage]. *)
Definition handle_incoming (addr : string) (packet : udpIncomingPacket)
    (response : ResponseWriter (World := World)) (now : Z) (acc : World * result unit) (message : incoming)
    : World * result unit :=
  let (w, firstErr) := acc in
  if is_unknown (ib_payload (inc_Body message)) then (w, firstErr)
  else if ip_wire packet then
    let '(w, handled, e) := Dispatch registry (message_context addr packet response now message w) w in
    let firstErr := first_error firstErr e in
    if handled then (w, firstErr)
    else handle_undispatched addr packet response now message w firstErr
  else handle_undispatched addr packet response now message w firstErr.

Definition handleMessage (conn : Conn) (addr : string) (message : bytes) (now : Z) (w : World)
    : World * result unit :=
  let w := on_net w (fun n => on_metrics n recordDatagram) in
  match decodeUDPIncomingPacket message with
  | Err e => (on_net w (fun n => on_metrics n recordRequestError), Err e)
  | Ok packet =>
      let (n, accepted) :=
        acceptClientRequest (config w.1) (net w) addr (ip_sequence packet) (ip_ack packet)
          (ip_ackBits packet) now in
      let w := on_net w (fun _ => n) in
      if negb accepted then (w, Ok tt)
      else
        let w := if ip_wire packet then on_net w (fun n => markWireClient (config w.1) n addr) else w in
        let (n, messages) := receiveReliable (net w) addr (ip_messages packet) in
        let w := on_net w (fun _ => n) in
        foldl (handle_incoming addr packet (writer conn addr (ip_wire packet) now) now) (w, Ok tt) messages
  end.

(** ** Ticks *)
Definition runtime_source (w : World) : SnapshotSource :=
  mkSource (tick w.1) (AuthenticationRequired w.1)
    (SnapshotForClient EqualFold ParseFloat int_overflow w.1 w.2) (SnapshotPriorities w.1 w.2).

(** [order] is the order in which the retransmission walks the clients and their
    queues, [duration] what the clock measured for the tick. *)
Definition advanceAndMaybeBroadcast (conn : Conn) (order : list (string * list Z)) (duration now : Z) (w : World)
    : World * result unit :=
  let (w, t) := Advance duration w in
  let w := on_net w (fun n => removeStaleClients (config w.1) n now) in
  let w :=
    match conn with
    | None => w
    | Some write => on_net w (fun n => retransmitReliable (config w.1) write n order now)
    end in
  if negb (t mod SnapshotEvery (config w.1) =? 0) then (w, Ok tt)
  else
    let (n, r) :=
      snapshots registry marshalSnapshot marshalDelta Marshal DeepEqual roundtrip elapsed int_overflow
        (config w.1) (runtime_source w) (net w) now in
    let w := on_net w (fun _ => n) in
    match r with
    | Err e => (w, Err e)
    | Ok l =>
        match conn with
        | None => if decide (l = []) then (w, Ok tt) else (w, Err ErrPanic)
        | Some write => (on_net w (fun n => broadcast write n l), Ok tt)
        end
    end.

(** ** Laws *)

(** What a hook does to the world: it calls the methods of the runtime, and it
    reaches the client table through the writer that it is given, only. *)
Definition world_step (w w' : World) : Prop := api_steps w.1 w'.1 /\ keeps (net w) (net w').

Definition safe_writer (response : ResponseWriter (World := World)) : Prop :=
  forall message w, world_step w (Respond response message w).1.

Class ServerLaws : Prop := {
  server_game :: GameLaws (Obj := Obj) (Factory := Factory) (Payload := InputPayload) (Game := Game);
  server_tick o hook ctx w : OnTick o = Some hook -> keeps (net w) (net (hook ctx w));
  server_full_tick o hook ctx w : OnFullTick o = Some hook -> keeps (net w) (net (hook ctx w));
  server_request o hook ctx w :
    OnRequest o = Some hook -> safe_writer (rc_Response ctx) -> keeps (net w) (net (hook ctx w).1);
  server_authentication o hook ctx w :
    OnAuthenticationAttempt o = Some hook -> keeps (net w) (net (hook ctx w).1);
  server_scene o hook ctx w :
    OnSceneSwitchRequest o = Some hook -> safe_writer (sc_Response ctx) -> keeps (net w) (net (hook ctx w).1);
  server_handler id definition handler ctx w :
    Definition_ registry id = Some definition -> def_Handler definition = Some handler ->
    safe_writer (ctx_Response ctx) -> world_step w (handler ctx w).1;
  server_json payload request : unmarshalRequest payload = Ok request -> in_u64 (rm_Sequence request)
}.

#[export] Instance world_step_preorder : PreOrder world_step.
Proof.
  split; [by split|]. intros w1 w2 w3 [H1 H2] [H3 H4]. split; by etrans.
Qed.

Lemma safe_writer_ok response : safe_writer response -> writer_ok response.
Proof. intros H m w. apply H. Qed.

Lemma writer_safe conn addr wire now : safe_writer (writer conn addr wire now).
Proof.
  intros message w. unfold writer. cbn [Respond]. destruct conn as [write|]; [|reflexivity].
  pose proof (keeps_response registry marshal (config w.1) (write addr) (net w) addr message wire now) as H.
  destruct (Outbound.sendUDPResponse _ _ _ _ _ _ _ _ _) as [[n p] r]. by split.
Qed.

(** ** The runtime's operations, in the world of the server *)
Section Laws.
Context `{laws : !ServerLaws}.

Lemma foldl_net {A} (f : World -> A -> World) l :
  (forall w a, keeps (net w) (net (f w a))) -> forall w, keeps (net w) (net (foldl f w l)).
Proof. intros Hf. induction l as [|a l IH]; intros w; [done|]. cbn [foldl]. etrans; [apply Hf | apply IH]. Qed.

Lemma Advance_net duration w : keeps (net w) (net (Advance duration w).1).
Proof.
  unfold Advance. cbn [fst]. set (w1 := on_runtime w _). set (ctx := mkTick _ _ _).
  assert (keeps (net w) (net (foldl (tick_one ctx) w1 (objectList w1.1)))) as H1.
  { change (net w) with (net w1). apply foldl_net. intros w0 o. unfold tick_one.
    destruct (OnTick o) as [hook|] eqn:E; [exact (server_tick o hook ctx w0 E) | done]. }
  destruct (_ =? 0); [|exact H1]. etrans; [exact H1|].
  apply foldl_net. intros w0 o. unfold full_tick_one.
  destruct (OnFullTick o) as [hook|] eqn:E; [exact (server_full_tick o hook ctx w0 E) | done].
Qed.

Lemma requestSceneSwitch_net ctx now w :
  safe_writer (sc_Response ctx) -> keeps (net w) (net (requestSceneSwitch ctx now w).1).
Proof.
  intros Hw. unfold requestSceneSwitch. destruct (empty_key _); [done|].
  destruct (switch_key ctx w.2) as [[t i]|e]; [|done].
  destruct (match sc_Object ctx with Some o => Some o | None => _ end) as [object|]; [|done].
  destruct (OnSceneSwitchRequest object) as [hook|] eqn:Eh; [|done].
  match goal with |- context [hook ?c w] => pose proof (server_scene object hook c w Eh Hw) as Hs;
    destruct (hook c w) as [w1 [decision e]] end.
  cbn [fst] in Hs. destruct e as [[]|e]; [|done]. by destruct (negb (Allowed decision)).
Qed.

Lemma handleSceneSwitchRequest_net ctx now w :
  safe_writer (rc_Response ctx) ->
  keeps (net w) (net (handleSceneSwitchRequest decodeScenePayload Unmarshal ctx now w).1).
Proof.
  intros Hw. unfold handleSceneSwitchRequest. destruct (decodeSceneSwitch _ _ _) as [scene|e]; [|done].
  pose proof (requestSceneSwitch_net (scene_context ctx scene) now w Hw) as Hs.
  destruct (requestSceneSwitch _ now w) as [w1 [decision e]]. cbn [fst] in Hs. destruct e as [[]|e]; [|done].
  destruct (rc_Response ctx) as [respond|]; [|done]. etrans; [exact Hs | apply Hw].
Qed.

Lemma HandleRequest_net ctx now w :
  safe_writer (rc_Response ctx) -> keeps (net w) (net (HandleRequest decodeScenePayload Unmarshal ctx now w).1).
Proof.
  intros Hw. unfold HandleRequest. destruct (empty_key _); [done|]. destruct (empty_key _); [done|].
  destruct (GetObject w.1 _ _) as [object|]; [|done].
  destruct (isSceneSwitchAction _); [by apply handleSceneSwitchRequest_net|].
  destruct (OnRequest object) as [hook|] eqn:E; [by apply (server_request object) | done].
Qed.

Lemma HandleAuthenticationAttempt_net ctx now w :
  keeps (net w) (net (HandleAuthenticationAttempt ctx now w).1).
Proof.
  unfold HandleAuthenticationAttempt. destruct (authenticationHandler w.1) as [o|]; [|done].
  destruct (OnAuthenticationAttempt o) as [hook|] eqn:E; [|done].
  match goal with |- context [hook ?c w] => pose proof (server_authentication o hook c w E) as Hs;
    destruct (hook c w) as [w1 attempt] end.
  cbn [fst] in Hs. destruct attempt; [|done]. by destruct (empty_key _).
Qed.

(** ** Evolution of the world inside a handler *)

(** The runtime's methods are called, and the client table takes quiet steps. *)
Definition evolves (w w' : World) : Prop :=
  api_steps w.1 w'.1 /\ quiets (config w.1) roundtrip (net w) (net w').

#[local] Instance evolves_preorder : PreOrder evolves.
Proof.
  split; [intros w; split; reflexivity|]. intros w1 w2 w3 [H1 H2] [H3 H4].
  rewrite (proj1 (api_steps_frame _ _ H1)) in H4. split; [etrans; [exact H1 | exact H3] | etrans; [exact H2 | exact H4]].
Qed.

Lemma world_step_evolves w w' : world_step w w' -> evolves w w'.
Proof. intros [H1 H2]. split; [exact H1 | by apply quiet_keeps]. Qed.

Lemma evolves_quiets w n : quiets (config w.1) roundtrip (net w) n -> evolves w (on_net w (fun _ => n)).
Proof. intros H. split; [reflexivity | exact H]. Qed.

Lemma evolves_quiet w n : quiet_step (config w.1) roundtrip (net w) n -> evolves w (on_net w (fun _ => n)).
Proof. intros H. by apply evolves_quiets, rtc_once. Qed.

Lemma evolves_metrics w f : evolves w (on_net w (fun n => on_metrics n f)).
Proof. apply (evolves_quiet w). by apply step_keeps. Qed.

Lemma evolves_respond response message w :
  safe_writer response -> evolves w (Respond response message w).1.
Proof. intros H. apply world_step_evolves, H. Qed.

Lemma fail_with_evolves response request e w :
  safe_writer response -> evolves w (fail_with response request e w).1.
Proof. apply evolves_respond. Qed.

Lemma authentication_failed_evolves response request e w :
  safe_writer response -> evolves w (authentication_failed response request e w).1.
Proof. intros H. etrans; [apply evolves_metrics | by apply fail_with_evolves]. Qed.

Lemma negotiate_evolves addr payload w : evolves w (negotiate addr payload w).1.
Proof.
  unfold negotiate. destruct payload as [|[]| |]; try done.
  destruct (NegotiateClientHello _ _) as [welcome|e]; [|done]. cbn [fst].
  match goal with |- evolves w (on_net ?w1 _) => assert (evolves w w1) as H end.
  { destruct (0 <? _); [|done]. apply (evolves_quiet w), step_packetSize. }
  etrans; [exact H|]. apply (evolves_quiet (if 0 <? _ then _ else _)), step_negotiate.
Qed.

Lemma bufferDecodedInput_evolves addr packetSequence now payload w :
  evolves w (bufferDecodedInput addr packetSequence now payload w).1.
Proof.
  unfold bufferDecodedInput. destruct payload as [|[]| |]; try reflexivity;
    match goal with |- context [BufferClientInput ?r ?i now] =>
      pose proof (api_input r i now) as H; destruct (BufferClientInput r i now) as [r' e] end;
    (apply world_step_evolves; split; [by apply rtc_once | done]).
Qed.

Lemma handleAuthenticationAttempt_evolves addr request payload response now w :
  safe_writer response -> evolves w (handleAuthenticationAttempt addr request payload response now w).1.
Proof.
  intros Hw. unfold handleAuthenticationAttempt. set (w1 := on_net w _).
  assert (evolves w w1) as H1 by apply evolves_metrics.
  pose proof (negotiate_evolves addr payload w1) as H2.
  destruct (negotiate addr payload w1) as [w2 [[]|e]]; cbn [fst] in H2;
    [|etrans; [exact H1|]; etrans; [exact H2 | by apply authentication_failed_evolves]].
  set (ctx := mkAuthentication _ _ _ _ _ _ _).
  assert (evolves w2 (HandleAuthenticationAttempt ctx now w2).1) as H3.
  { apply world_step_evolves. split; [apply HandleAuthenticationAttempt_steps | apply HandleAuthenticationAttempt_net]. }
  destruct (HandleAuthenticationAttempt ctx now w2) as [w3 attempt]. cbn [fst] in H3.
  assert (evolves w w3) as H by (etrans; [exact H1|]; etrans; [exact H2 | exact H3]).
  destruct attempt as [authenticatedID|e]; [|etrans; [exact H | by apply authentication_failed_evolves]].
  pose proof (evolves_quiet w3 _ (step_authenticate _ roundtrip (net w3) addr authenticatedID)) as H4.
  destruct (authenticateClient (net w3) addr authenticatedID) as [n [[]|e]]; cbn [fst] in H4;
    [|etrans; [exact H|]; etrans; [exact H4 | by apply authentication_failed_evolves]].
  set (w4 := on_net (on_net w3 (fun _ => n)) _).
  assert (evolves w w4) as H5 by (etrans; [exact H|]; etrans; [exact H4 | apply evolves_metrics]).
  set (answer := AnyValue _). pose proof (evolves_respond response answer w4 Hw) as H6.
  destruct (Respond response answer w4) as [w5 r]. etrans; [exact H5 | exact H6].
Qed.

Lemma handleDecodedRequest_evolves addr request payload response now w :
  safe_writer response -> evolves w (handleDecodedRequest addr request payload response now w).1.
Proof.
  intros Hw. unfold handleDecodedRequest.
  destruct (isAuthenticationRequest request); [by apply handleAuthenticationAttempt_evolves|].
  destruct (AuthenticationRequired w.1 && negb (is_authenticated w addr)); [by apply fail_with_evolves|].
  set (ctx := mkRequestContext _ _ _ _ _ _ _ _).
  assert (evolves w (HandleRequest decodeScenePayload Unmarshal ctx now w).1) as H1.
  { apply world_step_evolves. split; [by apply HandleRequest_steps, safe_writer_ok | by apply HandleRequest_net]. }
  destruct (HandleRequest decodeScenePayload Unmarshal ctx now w) as [w1 [[]|e]]; cbn [fst] in *.
  - destruct (isSceneSwitchAction _); [|exact H1].
    etrans; [exact H1 | apply (evolves_quiet w1), step_reset].
  - etrans; [exact H1|]. etrans; [apply evolves_metrics | by apply fail_with_evolves].
Qed.

Lemma Dispatch_evolves ctx w :
  safe_writer (ctx_Response ctx) -> evolves w (Dispatch registry ctx w).1.1.
Proof.
  intros Hw. apply world_step_evolves. unfold Dispatch. generalize (server_handler (ctx_MessageID ctx)) as H.
  destruct registry as [r|]; [|done]. intros H.
  destruct (Definition_ (Some r) (ctx_MessageID ctx)) as [d|] eqn:Ed; [|done].
  destruct (def_Handler d) as [handler|] eqn:Eh; [|done].
  specialize (H d handler ctx w eq_refl Eh Hw).
  by destruct (handler ctx w) as [w1 e].
Qed.

Lemma handle_undispatched_evolves addr packet response now message w firstErr :
  safe_writer response -> evolves w (handle_undispatched addr packet response now message w firstErr).1.
Proof.
  intros Hw. unfold handle_undispatched. set (payload := ib_payload (inc_Body message)).
  pose proof (bufferDecodedInput_evolves addr (ip_sequence packet) now payload w) as H1.
  destruct (bufferDecodedInput _ _ _ _ _) as [w1 [handledInput e1]]. cbn [fst] in H1.
  destruct handledInput; [done|]. destruct (emptyRequestMessage _); [done|].
  pose proof (handleDecodedRequest_evolves addr (ib_request (inc_Body message)) payload response now w1 Hw) as H2.
  destruct (handleDecodedRequest _ _ _ _ _ _) as [w2 e2]. etrans; [exact H1 | exact H2].
Qed.

Lemma handle_incoming_evolves addr packet response now acc message :
  safe_writer response -> evolves acc.1 (handle_incoming addr packet response now acc message).1.
Proof.
  intros Hw. destruct acc as [w firstErr]. cbn [fst]. unfold handle_incoming.
  destruct (is_unknown _); [done|]. destruct (ip_wire packet); [|by apply handle_undispatched_evolves].
  pose proof (Dispatch_evolves (message_context addr packet response now message w) w Hw) as H1.
  destruct (Dispatch _ _ _) as [[w1 handled] e]. cbn [fst] in H1. destruct handled; [done|].
  etrans; [exact H1 | by apply handle_undispatched_evolves].
Qed.

Lemma handle_messages_evolves addr packet response now messages acc :
  safe_writer response -> evolves acc.1 (foldl (handle_incoming addr packet response now) acc messages).1.
Proof.
  intros Hw. revert acc. induction messages as [|m messages IH]; intros acc; [done|]. cbn [foldl].
  etrans; [exact (handle_incoming_evolves addr packet response now acc m Hw) | apply IH].
Qed.

(** ** The server as a transition system *)
Definition received (w : World) : World := on_net w (fun n => on_metrics n recordDatagram).

(** Whether [handleMessage] goes on with a packet. *)
Definition processes (addr : string) (packet : udpIncomingPacket) (now : Z) (w : World) : bool :=
  (acceptClientRequest (config w.1) (net (received w)) addr (ip_sequence packet) (ip_ack packet)
     (ip_ackBits packet) now).2.

(** The histories of the connected clients, as in [UdpClients.reachable]. *)
Definition remember (addr : string) (message : bytes) (now : Z) (w : World) (h : gmap string (gset Z))
    : gmap string (gset Z) :=
  match decodeUDPIncomingPacket message with
  | Ok packet =>
      if processes addr packet now w && negb (ip_sequence packet =? 0)
      then <[addr := {[ip_sequence packet]} ∪ history_of h addr]> h else h
  | Err _ => h
  end.

Definition forget (w : World) (h : gmap string (gset Z)) : gmap string (gset Z) :=
  filter (fun e => is_Some (clients (net w) !! e.1)) h.

(** The runs of a server: datagrams, ticks, and in between whatever the process
    does with the runtime's methods and with the game's own state. *)
Inductive server_run (c : Config) (g : G) : World -> gmap string (gset Z) -> Prop :=
| run_start : server_run c g (NewRuntime c, (g, NewUDPServer)) ∅
| run_call w h w' : server_run c g w h -> world_step w w' -> server_run c g w' h
| run_message w h conn addr message now :
    server_run c g w h ->
    server_run c g (handleMessage conn addr message now w).1 (remember addr message now w h)
| run_tick w h conn order duration now :
    server_run c g w h ->
    server_run c g (advanceAndMaybeBroadcast conn order duration now w).1
      (forget (advanceAndMaybeBroadcast conn order duration now w).1 h).

Definition run_ok (w : World) (h : gmap string (gset Z)) : Prop :=
  runtime_ok w.1 /\ reachable (config w.1) roundtrip (net w) h.

(** The configuration and the tick. *)
Definition same_time (w w' : World) : Prop := config w'.1 = config w.1 /\ tick w'.1 = tick w.1.

Lemma evolves_ok w w' h : evolves w w' -> run_ok w h -> run_ok w' h /\ same_time w w'.
Proof.
  intros [H1 H2] [H3 H4]. destruct (api_steps_frame _ _ H1) as [Hc Ht]. split; [|by split].
  split; [by apply (api_steps_ok w.1) | rewrite Hc; by eapply reachable_quiets].
Qed.

Lemma decode_sequence message packet :
  decodeUDPIncomingPacket message = Ok packet -> in_u64 (ip_sequence packet).
Proof.
  unfold decodeUDPIncomingPacket. destruct (isWirePacket message).
  - unfold decodeUDPWirePacket. intros H. go_inv. by apply DecodePacket_inv in Hv as (r & _ & Hs & _).
  - intros H. go_inv. by eapply server_json.
Qed.

(** The state in which [handleMessage] goes on with a packet, or stops. *)
Definition accepted_world (addr : string) (packet : udpIncomingPacket) (now : Z) (w : World) : World :=
  on_net (received w) (fun n =>
    (acceptClientRequest (config w.1) n addr (ip_sequence packet) (ip_ack packet) (ip_ackBits packet) now).1).

(** [handleMessage] admits the packet, and then evolves. *)
Lemma handleMessage_split conn addr message now w :
  let w' := (handleMessage conn addr message now w).1 in
  match decodeUDPIncomingPacket message with
  | Ok packet => evolves (accepted_world addr packet now w) w'
  | Err _ => evolves w w'
  end.
Proof.
  cbv zeta. unfold handleMessage, accepted_world. fold (received w).
  destruct (decodeUDPIncomingPacket message) as [packet|e]; [|etrans; apply evolves_metrics].
  change (config (received w).1) with (config w.1). cbn [net on_net]. unfold on_net at 1.
  destruct (acceptClientRequest _ _ _ _ _ _ _) as [n accepted]. cbn [fst]. fold (on_net (received w) (fun _ => n)).
  set (w1 := on_net (received w) (fun _ => n)). destruct accepted; cbn [negb]; [|reflexivity].
  set (w2 := if ip_wire packet then _ else w1).
  assert (evolves w1 w2) as H2.
  { unfold w2. destruct (ip_wire packet); [|reflexivity]. apply (evolves_quiet w1), step_markWire. }
  pose proof (step_receive (config w2.1) roundtrip (net w2) addr (ip_messages packet)) as H3.
  destruct (receiveReliable (net w2) addr (ip_messages packet)) as [n3 messages]. cbn [fst] in H3.
  pose proof (handle_messages_evolves addr packet (writer conn addr (ip_wire packet) now) now messages
    (on_net w2 (fun _ => n3), Ok tt) (writer_safe _ _ _ _)) as H4.
  etrans; [exact H2|]. etrans; [apply (evolves_quiet w2); exact H3 | exact H4].
Qed.

Lemma accepted_world_ok addr message packet now w h :
  decodeUDPIncomingPacket message = Ok packet -> run_ok w h ->
  run_ok (accepted_world addr packet now w) (remember addr message now w h).
Proof.
  intros Hd Hok. unfold remember, processes, accepted_world. rewrite Hd.
  destruct (evolves_ok w (received w) h (evolves_metrics _ _) Hok) as [[Hr Hreach] _]. split; [exact Hr|].
  pose proof (fun s' a => reach_accept _ roundtrip _ h addr (ip_sequence packet) (ip_ack packet) (ip_ackBits packet) now s' a
    Hreach (decode_sequence _ _ Hd)) as Haccept.
  change (config (received w).1) with (config w.1) in *. cbn [net on_net snd].
  destruct (acceptClientRequest _ _ _ _ _ _ _) as [n accepted]. exact (Haccept n accepted eq_refl).
Qed.

Lemma handleMessage_ok conn addr message now w h :
  run_ok w h ->
  run_ok (handleMessage conn addr message now w).1 (remember addr message now w h) /\
  same_time w (handleMessage conn addr message now w).1.
Proof.
  intros Hok. pose proof (handleMessage_split conn addr message now w) as H. cbv zeta in H.
  destruct (decodeUDPIncomingPacket message) as [packet|e] eqn:Hd.
  - by apply (evolves_ok _ _ _ H), accepted_world_ok.
  - unfold remember. rewrite Hd. by apply evolves_ok.
Qed.

(** ** Ticks *)
Lemma Advance_ok duration w h :
  run_ok w h ->
  let w' := (Advance duration w).1 in
  run_ok w' h /\ config w'.1 = config w.1 /\ tick w'.1 = u64_inc (tick w.1).
Proof.
  intros [Hr Hreach]. cbv zeta.
  pose proof (operation_spec decodeScenePayload Unmarshal w _ (op_advance _ _ duration w)) as (H1 & H2 & _).
  split_and!; [split; [by apply H1|] | done |].
  - rewrite H2. eapply reachable_quiets; [exact Hreach | apply quiet_keeps, Advance_net].
  - pose proof (Advance_steps duration w) as H. destruct (Advance duration w) as [w' t]. destruct H as (_ & r & Hs & Hw).
    cbn [fst]. rewrite Hw, (proj2 (record_frame r duration)). by apply api_steps_frame in Hs as [_ ->].
Qed.

Lemma retransmit_evolves conn order now w :
  evolves w
    match conn with
    | None => w
    | Some write => on_net w (fun n => retransmitReliable (config w.1) write n order now)
    end.
Proof.
  destruct conn as [write|]; [|done].
  apply (evolves_quiet w (retransmitReliable (config w.1) write (net w) order now)), step_keeps, keeps_retransmit.
Qed.

Lemma forget_evolves w w' h : evolves w w' -> forget w' h = forget w h.
Proof.
  intros [_ H]. apply map_filter_ext. intros a s _. cbn [fst]. by apply quiets_connected with (1 := H).
Qed.

(** The state after the tick and the timeouts. *)
Definition advanced_world (duration now : Z) (w : World) : World :=
  let w := (Advance duration w).1 in on_net w (fun n => removeStaleClients (config w.1) n now).

(** [advanceAndMaybeBroadcast] advances, removes the silent clients, and then evolves. *)
Lemma advanceAndMaybeBroadcast_split conn order duration now w :
  let w1 := advanced_world duration now w in
  server_ok (config w1.1) (net w1) ->
  evolves w1 (advanceAndMaybeBroadcast conn order duration now w).1.
Proof.
  cbv zeta. unfold advanced_world, advanceAndMaybeBroadcast. destruct (Advance duration w) as [w1 t]. cbn [fst].
  set (w2 := on_net w1 (fun n => removeStaleClients (config w1.1) n now)). change (config w1.1) with (config w2.1). intros Hok.
  pose proof (retransmit_evolves conn order now w2) as H3.
  set (w3 := match conn with None => w2 | Some _ => _ end) in *. destruct (negb _); [exact H3|]. etrans; [exact H3|].
  assert (server_ok (config w3.1) (net w3)) as Hok3.
  { destruct H3 as [Ha Hq]. rewrite (proj1 (api_steps_frame _ _ Ha)). by apply (quiets_ok _ _ _ _ Hq). }
  pose proof (snapshots_spec registry marshalSnapshot marshalDelta Marshal DeepEqual roundtrip elapsed int_overflow
    (config w3.1) (runtime_source w3) (net w3) now Hok3) as H4.
  destruct (snapshots _ _ _ _ _ _ _ _ _ _ _ _) as [n r]. destruct H4 as [H4 _].
  assert (evolves w3 (on_net w3 (fun _ => n))) as H5 by (by apply evolves_quiets).
  destruct r as [l|e]; [|exact H5]. destruct conn as [write|]; [|by destruct (decide _)].
  etrans; [exact H5|].
  apply (evolves_quiet (on_net w3 (fun _ => n)) (broadcast write n l)), step_keeps, keeps_broadcast.
Qed.

Lemma advanced_world_ok duration now w h :
  run_ok w h ->
  let w' := advanced_world duration now w in
  run_ok w' (forget w' h) /\ config w'.1 = config w.1 /\ tick w'.1 = u64_inc (tick w.1).
Proof.
  intros Hok. destruct (Advance_ok duration w h Hok) as ([Hr Hreach] & Hc & Ht). cbv zeta. unfold advanced_world.
  split_and!; [|done..]. split; [exact Hr | exact (reach_stale _ roundtrip _ h now Hreach)].
Qed.

Lemma advanceAndMaybeBroadcast_ok conn order duration now w h :
  run_ok w h ->
  let w' := (advanceAndMaybeBroadcast conn order duration now w).1 in
  run_ok w' (forget w' h) /\ config w'.1 = config w.1 /\ tick w'.1 = u64_inc (tick w.1).
Proof.
  intros Hok. cbv zeta. destruct (advanced_world_ok duration now w h Hok) as (Hok' & Hc & Ht).
  pose proof (advanceAndMaybeBroadcast_split conn order duration now w (proj1 (reachable_ok _ _ _ _ (proj2 Hok')))) as H.
  rewrite (forget_evolves _ _ _ H), <- Hc, <- Ht. by apply evolves_ok.
Qed.

Lemma server_run_ok c g w h : server_run c g w h -> run_ok w h /\ config w.1 = Normalized c.
Proof.
  induction 1 as [|w h w' _ [IH1 IH2] H|w h conn addr message now _ [IH1 IH2]|w h conn order duration now _ [IH1 IH2]].
  - split; [|done]. split; [apply NewRuntime_ok | apply reach_new].
  - destruct (evolves_ok _ _ h (world_step_evolves _ _ H) IH1) as [Hok [-> _]]. done.
  - destruct (handleMessage_ok conn addr message now w h IH1) as [Hok [-> _]]. done.
  - destruct (advanceAndMaybeBroadcast_ok conn order duration now w h IH1) as (Hok & -> & _). done.
Qed.

(** ** What a message of an unauthenticated client can do *)

(** The input buffer aside, nothing of the runtime and nothing of the game. *)
Definition gated (w w' : World) : Prop :=
  w'.1 = set_inputs w.1 (inputs w'.1) /\ w'.2.1 = w.2.1 /\ keeps (net w) (net w').

#[export] Instance gated_preorder : PreOrder gated.
Proof.
  split.
  - intros [r g]. split_and!; [by destruct r | done | done].
  - intros w1 w2 w3 (H1 & H2 & H3) (H4 & H5 & H6). unfold gated.
    split_and!; [by rewrite H4, H1 | congruence | by etrans].
Qed.

Lemma gated_authenticated w w' addr :
  gated w w' ->
  AuthenticationRequired w'.1 = AuthenticationRequired w.1 /\ is_authenticated w' addr = is_authenticated w addr.
Proof.
  intros (H1 & _ & _ & H3). split; [by rewrite H1|]. unfold is_authenticated, client_at. specialize (H3 addr).
  destruct (clients (net w') !! addr), (clients (net w) !! addr); try done.
  injection H3 as _ _ E _. cbn. by rewrite E.
Qed.

Lemma respond_gated conn addr wire now message w :
  gated w (Respond (writer conn addr wire now) message w).1.
Proof.
  destruct (writer_safe conn addr wire now message w) as [_ H]. unfold gated. split_and!; [| |exact H].
  - destruct w as [[] game]. unfold writer. cbn [Respond]. destruct conn; [|done].
    by destruct (Outbound.sendUDPResponse _ _ _ _ _ _ _ _ _) as [[n p] r0].
  - unfold writer. cbn [Respond]. destruct conn; [|done].
    by destruct (Outbound.sendUDPResponse _ _ _ _ _ _ _ _ _) as [[n p] r0].
Qed.

Lemma bufferDecodedInput_gated addr packetSequence now payload w :
  gated w (bufferDecodedInput addr packetSequence now payload w).1.
Proof.
  unfold bufferDecodedInput. destruct payload as [|[]| |]; try reflexivity;
    unfold BufferClientInput;
    match goal with |- context [add ?b ?i ?t ?c ?n] => destruct (add b i t c n) as [b' e] end;
    unfold gated; by split_and!.
Qed.

(** A message that the game would have to be asked about. *)
Definition is_request (message : incoming) : bool :=
  negb (is_unknown (ib_payload (inc_Body message))) && negb (emptyRequestMessage (ib_request (inc_Body message))) &&
  match ib_payload (inc_Body message) with
  | AnyValue (MPlayerInput input) => pin_Tick input =? 0
  | AnyValue (MGenericClientInput _) => false
  | _ => true
  end.

Definition no_handler (message : incoming) : Prop :=
  forall definition, Definition_ registry (ib_messageType (inc_Body message)) = Some definition ->
    def_Handler definition = None.

Lemma first_error_err e1 e2 : is_ok (first_error e1 e2) = is_ok e1 && is_ok e2.
Proof. by destruct e1, e2. Qed.

Lemma handle_undispatched_gated conn addr packet now message (w : World) firstErr :
  AuthenticationRequired w.1 = true -> is_authenticated w addr = false ->
  isAuthenticationRequest (ib_request (inc_Body message)) = false ->
  let (w', r) :=
    handle_undispatched addr packet (writer conn addr (ip_wire packet) now) now message w firstErr in
  gated w w' /\
  (is_ok r = true -> is_ok firstErr = true /\ (is_unknown (ib_payload (inc_Body message)) || negb (is_request message) = true)).
Proof.
  intros Hreq Hauth Hno. unfold handle_undispatched, is_request.
  set (payload := ib_payload (inc_Body message)).
  pose proof (bufferDecodedInput_gated addr (ip_sequence packet) now payload w) as H1.
  assert ((bufferDecodedInput addr (ip_sequence packet) now payload w).2.1 =
    negb match payload with
         | AnyValue (MPlayerInput input) => pin_Tick input =? 0
         | AnyValue (MGenericClientInput _) => false
         | _ => true
         end) as Hinput.
  { unfold bufferDecodedInput. destruct payload as [|[]| |]; try done; by destruct (BufferClientInput _ _ _). }
  destruct (bufferDecodedInput _ _ _ _ _) as [w1 [handledInput e1]]. cbn [fst snd] in H1, Hinput.
  destruct handledInput.
  { split; [done|]. rewrite first_error_err. intros [? ?]%andb_true_iff. split; [done|].
    destruct (match payload with AnyValue _ => _ | _ => _ end); [done|]. by rewrite !andb_false_r, orb_true_r. }
  destruct (emptyRequestMessage _).
  { split; [done|]. rewrite first_error_err. intros [? ?]%andb_true_iff. split; [done|].
    cbn [negb]. by rewrite andb_false_r, orb_true_r. }
  destruct (gated_authenticated _ _ addr H1) as [H2 H3]. unfold handleDecodedRequest.
  rewrite Hno, H2, H3, Hreq, Hauth. cbn [andb negb]. unfold fail_with. split.
  - etrans; [exact H1 | apply respond_gated].
  - rewrite !first_error_err. cbn [is_ok]. by rewrite andb_false_r.
Qed.

Lemma handle_incoming_gated conn addr packet now message (w : World) firstErr :
  AuthenticationRequired w.1 = true -> is_authenticated w addr = false ->
  isAuthenticationRequest (ib_request (inc_Body message)) = false -> no_handler message ->
  let (w', r) :=
    handle_incoming addr packet (writer conn addr (ip_wire packet) now) now (w, firstErr) message in
  gated w w' /\ (is_ok r = true -> is_ok firstErr = true /\ is_request message = false).
Proof.
  intros Hreq Hauth Hno Hnone. unfold handle_incoming.
  destruct (is_unknown (ib_payload (inc_Body message))) eqn:Hu.
  { split; [reflexivity|]. unfold is_request. by rewrite Hu. }
  assert (forall e, let (w', r) :=
      handle_undispatched addr packet (writer conn addr (ip_wire packet) now) now message w (first_error firstErr e) in
      gated w w' /\ (is_ok r = true -> is_ok firstErr = true /\ is_request message = false)) as H.
  { intros e. pose proof (handle_undispatched_gated conn addr packet now message w (first_error firstErr e) Hreq Hauth Hno) as H.
    destruct (handle_undispatched _ _ _ _ _ _ _) as [w' r]. destruct H as [H1 H2]. split; [done|].
    intros Hr. destruct (H2 Hr) as [H3 H4]. rewrite first_error_err in H3. rewrite Hu in H4.
    cbn [orb] in H4. apply negb_true_iff in H4. apply andb_true_iff in H3. tauto. }
  destruct (ip_wire packet).
  - unfold Dispatch. destruct registry as [r|] eqn:Er; [|exact (H _)]. rewrite <- Er in *.
    cbn [message_context ctx_MessageID]. destruct (Definition_ registry _) as [d|] eqn:Ed; [|exact (H (Ok tt))].
    rewrite (Hnone d Ed). exact (H (Ok tt)).
  - specialize (H (Ok tt)). by replace (first_error firstErr (Ok tt)) with firstErr in H by (by destruct firstErr as [[]|]).
Qed.

(** ** Properties *)

(** The whole server implements the client table's transition system.
    However datagrams, ticks and calls of the process follow each other, with
    any game, handler and writer that reach the server through its interfaces only, the
    runtime keeps its invariant and its configuration, and the client table
    together with the set of packets that were processed for each client is a
    reachable state of [UdpClients]: at most [MaxClients] clients, no
    authenticated id used twice, baselines for connected clients only, and no
    packet processed twice. *)
Theorem server_refines c g w h :
  server_run c g w h ->
  runtime_ok w.1 /\ config w.1 = Normalized c /\ reachable (config w.1) roundtrip (net w) h /\
  server_ok (config w.1) (net w) /\ windows_ok (net w) h.
Proof.
  intros H. destruct (server_run_ok _ _ _ _ H) as [[Hr Hreach] Hc].
  by destruct (reachable_ok _ _ _ _ Hreach).
Qed.

(** C5: a replayed datagram is not processed again.  When a datagram carries a sequence
    number that the server has processed for a client which is still connected,
    whatever else is in it, it is answered with success and without any effect on the
    runtime, the game, the other clients or what the client has received: no hook runs.
    Of the client itself only this changes: it was heard of now, and the
    acknowledgements that the datagram carries are taken and remove the reliable messages
    they acknowledge from its outbound queue, before the sequence number is looked at. *)
Theorem datagram_replayed c g w h conn addr message packet now :
  server_run c g w h -> decodeUDPIncomingPacket message = Ok packet ->
  ip_sequence packet ∈ history_of h addr ->
  let (w', r) := handleMessage conn addr message now w in
  r = Ok tt /\ w'.1 = w.1 /\ w'.2.1 = w.2.1 /\ keeps (net w) (net w') /\
  (forall other, other <> addr -> client_at w' other = client_at w other) /\
  exists client, client_at w addr = Some client /\
    client_at w' addr = Some (mkClient (cl_connectionID client) (cl_id client) (cl_authenticated client)
      (cl_wire client) (cl_window client) (ip_ack packet) (ip_ackBits packet) now
      (removeAckedReliableLocked (cl_out client) (sv_counters (net w)) (ip_ack packet) (ip_ackBits packet)).1
      (cl_in client) (cl_budget client)).
Proof.
  intros Hrun Hd Hin. destruct (server_run_ok _ _ _ _ Hrun) as [[_ Hreach] _].
  destruct (reachable_ok _ _ _ _ Hreach) as [_ Hw]. unfold handleMessage. rewrite Hd. fold (received w).
  pose proof (accept_replayed (config (received w).1) (net (received w)) h addr (ip_sequence packet) (ip_ack packet)
    (ip_ackBits packet) now Hw (decode_sequence _ _ Hd) Hin) as H.
  destruct (acceptClientRequest _ _ _ _ _ _ _) as [n accepted].
  destruct H as (-> & Hk & old & new & Hold & Hnew & ->). cbn [negb]. split_and!; try done.
  - intros other Hne. unfold client_at. cbn [net on_net snd]. by rewrite Hnew, lookup_insert_ne.
  - exists old. split; [exact Hold|]. unfold client_at. cbn [net on_net snd]. by rewrite Hnew, lookup_insert_eq.
Qed.

(** C6: the authentication gate.  While an authentication handler is registered, the
    messages that a client sends before it has authenticated - authentication
    requests aside, and messages for which the game registered a handler of its own -
    reach nothing of the game: no hook runs, and of the runtime only the input buffer
    changes.  No client's identity, authentication, receive window or baseline changes
    either; what the refusals that are sent back do to counters, budgets and outbound
    queues is left open.  Any request among the messages makes the datagram fail. *)
Theorem authentication_gate conn addr packet now messages (w : World) :
  AuthenticationRequired w.1 = true -> is_authenticated w addr = false ->
  Forall (fun m => isAuthenticationRequest (ib_request (inc_Body m)) = false /\ no_handler m) messages ->
  let (w', r) :=
    foldl (handle_incoming addr packet (writer conn addr (ip_wire packet) now) now) (w, Ok tt) messages in
  w'.1 = set_inputs w.1 (inputs w'.1) /\ w'.2.1 = w.2.1 /\ keeps (net w) (net w') /\
  is_authenticated w' addr = false /\
  (existsb is_request messages = true -> is_ok r = false).
Proof.
  intros Hreq Hauth Hall.
  assert (forall w1 e, gated w w1 ->
    let (w', r) :=
      foldl (handle_incoming addr packet (writer conn addr (ip_wire packet) now) now) (w1, e) messages in
    gated w w' /\ (is_ok r = true -> is_ok e = true /\ existsb is_request messages = false)) as H.
  { induction Hall as [|m messages [Hm1 Hm2] _ IH]; intros w1 e H1; [by split|]. cbn [foldl].
    destruct (gated_authenticated _ _ addr H1) as [H2 H3].
    pose proof (handle_incoming_gated conn addr packet now m w1 e) as Hstep. rewrite H2, H3 in Hstep.
    specialize (Hstep Hreq Hauth Hm1 Hm2). 
    destruct (handle_incoming addr packet (writer conn addr (ip_wire packet) now) now (w1, e) m) as [w2 e2].
    destruct Hstep as [Hg He]. assert (gated w w2) as H4 by (by etrans). specialize (IH w2 e2 H4).
    destruct (foldl _ _ _) as [w' r]. destruct IH as [IH1 IH2]. split; [done|]. intros Hr.
    destruct (IH2 Hr) as [H5 H6]. destruct (He H5) as [H7 H8]. cbn [existsb]. by rewrite H8, H6. }
  specialize (H w (Ok tt) ltac:(reflexivity)).
  destruct (foldl _ _ _) as [w' r]. destruct H as [H1 H2]. destruct (gated_authenticated _ _ addr H1) as [_ H3].
  destruct H1 as (H4 & H5 & H6). split_and!; [done | done | done | congruence|].
  intros Hex. apply not_true_iff_false. intros Hr. destruct (H2 Hr) as [_ H7]. congruence.
Qed.

(** C19: a scene switch that a wire client asks for is carried out and reported as a
    failure.  The request changes the object's scene, but the response is a
    [SceneSwitchResponse], which is no registered wire message: the client gets the
    error of an unsupported message in its place, and since the request counts as failed
    its snapshot baseline is not reset. *)
Theorem wire_scene_switch_fails r write addr request payload now w object target w1 decision :
  registry = Some r -> byType r !! ("network.SceneSwitchResponse"%string, 0%nat) = None ->
  isAuthenticationRequest request = false ->
  AuthenticationRequired w.1 && negb (is_authenticated w addr) = false ->
  isSceneSwitchAction (rm_Action request) = true ->
  let t := normalizeObjectKey (rm_ObjectType request) in
  let i := normalizeObjectKey (rm_ObjectID request) in
  empty_key t = false -> empty_key i = false -> GetObject w.1 t i = Some object ->
  let response := writer (Some write) addr true now in
  let ctx := resolved_context
    (mkRequestContext "udp" (client_id w addr) 0 now request payload None response) t i object now w in
  decodeSceneSwitch decodeScenePayload Unmarshal ctx = Ok target ->
  requestSceneSwitch (scene_context ctx target) now w = (w1, (decision, Ok tt)) ->
  is_Some (client_at w1 addr) ->
  let (w', result) := handleDecodedRequest addr request payload response now w in
  result = Err ErrUnsupportedWireMessage /\ w'.1 = w1.1 /\ w'.2.1 = w1.2.1 /\
  snapshotBaselines (net w') = snapshotBaselines (net w1).
Proof.
  intros Hreg Htype Hauth Hgate Haction t i Ht Hi Hobject response ctx Hdecode Hswitch [client Hclient].
  unfold handleDecodedRequest. rewrite Hauth, Hgate.
  assert (HandleRequest decodeScenePayload Unmarshal
    (mkRequestContext "udp" (client_id w addr) 0 now request payload None response) now w =
    (w1, Err ErrUnsupportedWireMessage)) as ->.
  { unfold HandleRequest. cbn [rc_Request]. fold t i. rewrite Ht, Hi, Hobject, Haction. fold ctx.
    unfold handleSceneSwitchRequest. rewrite Hdecode, Hswitch. change (rc_Response ctx) with response.
    unfold response, writer. cbn [Respond]. unfold Outbound.sendUDPResponse. cbn [negb].
    unfold client_at in Hclient. rewrite Hclient. cbn [SceneSwitchResponse encodeUDPWireResponseMessage].
    rewrite Hreg. cbn [EncodeMessage TypeOf type_name].
    match goal with |- context [byType r !! ?k] => assert (byType r !! k = None) as -> by exact Htype end. by destruct w1 as [r1 [g1 n1]]. }
  pose proof (respond_gated (Some write) addr true now (error_response request ErrUnsupportedWireMessage)
    (on_net w1 (fun n => on_metrics n recordRequestError))) as (H1 & H2 & [H3 _]).
  unfold fail_with. split_and!; [done | | done | exact H3].
  unfold response, writer. cbn [Respond].
  by destruct (Outbound.sendUDPResponse _ _ _ _ _ _ _ _ _) as [[n p] e].
Qed.
End Laws.
End Server.

(** The handler of the default registry, which answers a ping, through the writer. *)
Lemma default_handler_step {Obj Factory G} `{!GameCode Obj Factory InputPayload (G * Net)}
    (r : WireMessageRegistry (World := World Obj Factory InputPayload (G * Net))) id d handler ctx w :
  NewDefaultWireMessageRegistry = Ok r -> Definition_ (Some r) id = Some d -> def_Handler d = Some handler ->
  safe_writer (ctx_Response ctx) -> world_step w (handler ctx w).1.
Proof.
  intros E Hd Hh Hw. rewrite (default_handler r id d handler E Hd Hh).
  unfold handleWirePing. destruct (ctx_Message ctx) as [|[]| |]; try reflexivity.
  unfold safe_writer, Respond in Hw. destruct (ctx_Response ctx); [apply Hw | reflexivity].
Qed.

(** ** Witnesses *)

(** A game with an authenticator and a door that leads to another scene. *)
Module Arena.
Local Open Scope string_scope.

Inductive thing := Keeper | Door.
Abbreviation Game := (Z * Net)%type.
Abbreviation World := (World thing unit InputPayload Game).

Definition knock (ctx : RequestContext thing unit InputPayload Game) (w : World) : World * result unit :=
  ((w.1, (w.2.1 + 1, w.2.2)), Ok tt).

#[global] Instance arena : GameCode thing unit InputPayload Game := {
  ObjectType o _ := match o with Keeper => "keeper" | Door => "door" end;
  ObjectID o _ := "1";
  ObjectSnapshot o _ := VNil;
  OnInit _ := None;
  OnTick _ := None;
  OnFullTick _ := None;
  OnRequest o := match o with Door => Some knock | _ => None end;
  OnAuthenticationAttempt o := match o with Keeper => Some (fun _ w => (w, Ok "alice")) | _ => None end;
  OnSceneSwitchRequest o :=
    match o with Door => Some (fun _ w => (w, (SceneSwitchAllowedTo "cellar", Ok tt))) | _ => None end;
  SnapshotVisible _ := None;
  SnapshotPriority _ := None;
  FactoryCreate _ ctx w := (w, Err ErrObjectNotFound)
}.

#[global] Instance arena_game : GameLaws (GameCode0 := arena).
Proof.
  split; try (by intros [] hook ctx w [= <-]).
  intros f ctx w _. reflexivity.
Qed.

Definition default_registry : WireMessageRegistry (World := World) :=
  match NewDefaultWireMessageRegistry with Ok r => r | Err _ => NewWireMessageRegistry end.
Definition registry : option WireMessageRegistry := Some default_registry.

#[global] Instance arena_libraries : Libraries := {
  unmarshalRequest payload := Ok (mkRequest "" 0 "door" "1" "knock" payload);
  marshal _ := Ok [];
  remarshalScene _ r := Ok r;
  Unmarshal _ := Ok "cellar";
  error_text _ := "error";
  EqualFold a b := bool_decide (a = b);
  ParseFloat _ := None;
  library_reflection := no_reflection;
  marshalSnapshot _ := Ok [];
  marshalDelta _ := Ok [];
  Marshal _ := None;
  DeepEqual _ _ := false;
  roundtrip s := Some s;
  elapsed _ := 1
}.

#[global] Instance arena_laws : ServerLaws registry.
Proof.
  split; try (by intros [] hook ctx w [= <-]).
  - exact arena_game.
  - intros id d handler ctx w Hd Hh Hw. unfold registry, default_registry in Hd.
    destruct NewDefaultWireMessageRegistry as [r|] eqn:E; [|cbn [Definition_ byID NewWireMessageRegistry] in Hd; by rewrite lookup_empty in Hd].
    by apply (default_handler_step r id d).
  - by intros payload request [= <-].
Qed.

Definition message (m : GoMessage) : WireMessage :=
  match EncodeMessage registry (AnyValue m) with
  | Ok w => w
  | Err _ => mkWireMessage 0 [] DeliveryUnreliable 0
  end.
Definition datagram (sequence : Z) (m : GoMessage) : bytes :=
  match EncodePacketWithAcks sequence 0 0 [message m] with Ok payload => payload | Err _ => [] end.

Definition hello : bytes := datagram 1 (MClientHello (mkClientHello "client" "token" 1 0 0)).

Definition start : World := (NewRuntime DefaultConfig, (0, NewUDPServer)).
Definition ready : World :=
  (RegisterObject (Some Door) (RegisterAuthenticationObject (Some Keeper) start).1).1.

Definition conn : option (string -> bytes -> result unit) := Some (fun _ _ => Ok tt).

(** The client "a" says hello and becomes "alice". *)
Definition joined : World := (handleMessage registry conn "a" hello 7 ready).1.
Definition history : gmap string (gset Z) := remember registry "a" hello 7 ready ∅.

Lemma joined_run : server_run registry DefaultConfig 0 joined history.
Proof.
  apply run_message. apply (run_call _ _ _ start); [apply run_start|]. split.
  - etrans; [apply RegisterAuthenticationObject_steps | apply RegisterObject_steps].
  - reflexivity.
Qed.

Lemma joined_eq : client_id joined "a" = "alice" /\ history_of history "a" = {[1]}.
Proof. vm_compute. done. Qed.
End Arena.

Lemma server_refines_witness :
  runtime_ok Arena.joined.1 /\ server_ok (Normalized DefaultConfig) (net Arena.joined) /\
  client_id Arena.joined "a" = "alice"%string.
Proof.
  destruct (server_refines Arena.registry DefaultConfig 0 _ _ Arena.joined_run) as (H1 & H2 & _ & H3 & _).
  split_and!; [exact H1 | | exact (proj1 Arena.joined_eq)].
  rewrite <- H2. exact H3.
Defined.

Lemma datagram_replayed_witness :
  (handleMessage Arena.registry Arena.conn "a" Arena.hello 9 Arena.joined).2 = Ok tt /\
  (handleMessage Arena.registry Arena.conn "a" Arena.hello 9 Arena.joined).1.1 = Arena.joined.1.
Proof.
  destruct (decodeUDPIncomingPacket Arena.registry Arena.hello) as [packet|e] eqn:Hd; [|by vm_compute in Hd].
  assert (ip_sequence packet = 1) as Hs by (vm_compute in Hd; by injection Hd as <-).
  assert (ip_sequence packet ∈ history_of Arena.history "a") as Hin
    by (rewrite Hs, (proj2 Arena.joined_eq); by apply elem_of_singleton).
  pose proof (datagram_replayed Arena.registry DefaultConfig 0 _ _ Arena.conn "a" Arena.hello packet 9
    Arena.joined_run Hd Hin) as H.
  destruct (handleMessage _ _ _ _ _ _) as [w' r]. split; [exact (proj1 H) | exact (proj1 (proj2 H))].
Defined.

(** A stranger knocks at the door. *)
Lemma authentication_gate_witness :
  let packet := mkIncomingPacket 5 0 0 false 0 [] in
  let message := mkIncoming (mkBody WireMessageUnknown (mkRequest "" 5 "door" "1" "knock" []) AnyNil)
                   DeliveryUnreliable 0 in
  let (w', r) :=
    foldl (handle_incoming Arena.registry "b" packet (writer Arena.registry Arena.conn "b" false 9) 9)
      (Arena.ready, Ok tt) [message] in
  w'.2.1 = 0 /\ is_ok r = false.
Proof.
  cbv zeta. set (packet := mkIncomingPacket 5 0 0 false 0 []). set (message := mkIncoming _ _ _).
  pose proof (authentication_gate Arena.registry Arena.conn "b" packet 9 [message] Arena.ready) as H.
  specialize (H ltac:(vm_compute; reflexivity) ltac:(vm_compute; reflexivity)).
  assert (Forall (fun m => isAuthenticationRequest (ib_request (inc_Body m)) = false /\
    no_handler Arena.registry m) [message]) as Hall.
  { apply Forall_singleton. split; [vm_compute; reflexivity|]. intros d Hd. by vm_compute in Hd. }
  specialize (H Hall). change (ip_wire packet) with false in H.
  destruct (foldl _ _ [message]) as [w' r]. destruct H as (_ & H1 & _ & _ & H2).
  split; [exact H1 | apply H2; vm_compute; reflexivity].
Defined.

(** "alice" leaves through the door. *)
Lemma wire_scene_switch_fails_witness :
  let request := mkRequest "" 2 "door" "1" "scene.switch" [x00] in
  let (w', r) :=
    handleDecodedRequest "a" request AnyNil
      (writer Arena.registry Arena.conn "a" true 9) 9 Arena.joined in
  r = Err ErrUnsupportedWireMessage /\
  ObjectScene (scenes (features w'.1)) "door" "1" = Some "cellar"%string.
Proof.
  cbv zeta. set (request := mkRequest _ _ _ _ _ _).
  set (response := writer Arena.registry Arena.conn "a" true 9).
  set (ctx := resolved_context (mkRequestContext "udp" (client_id Arena.joined "a") 0 9 request AnyNil None response)
    "door" "1" Arena.Door 9 Arena.joined).
  set (switched := requestSceneSwitch (scene_context ctx "cellar") 9 Arena.joined).
  assert (switched = (switched.1, (switched.2.1, Ok tt))) as Hswitch by (vm_compute; reflexivity).
  pose proof (wire_scene_switch_fails Arena.registry Arena.default_registry (fun _ _ => Ok tt) "a" request AnyNil 9
    Arena.joined Arena.Door "cellar" switched.1 switched.2.1 eq_refl) as H.
  specialize (H ltac:(vm_compute; reflexivity) eq_refl ltac:(vm_compute; reflexivity) eq_refl eq_refl eq_refl
    ltac:(vm_compute; reflexivity) eq_refl Hswitch ltac:(vm_compute; by eexists)).
  change (writer Arena.registry (Some (fun _ _ => Ok tt)) "a" true 9) with response in H.
  destruct (handleDecodedRequest _ _ _ _ _ _) as [w' r]. destruct H as (H1 & H2 & _).
  split; [exact H1|]. rewrite H2. vm_compute. reflexivity.
Defined.
