(* ===== verification/Interleaving.v ===== *)
(** * The goroutines of the server

    [ListenAndServe] runs the receive loop and [runTickLoop] in two goroutines, and game
    code may call the runtime from others.  What one of them does under a lock is one
    step here, a run is any interleaving of such steps, and the handlers of [Server] are
    the runs in which nobody else comes in between. *)
From S2P Require Import Prelude Keys Values Snapshot Messages Config InputBuffer Registry Payload Decode Scenes Float64 Interest Metrics Runtime View.
From S2P Require Import Budget Window ReliableIn ReliableOut ReliableStream UdpClients Outbound UdpSnapshot Server.
#[local] Open Scope string_scope.
#[local] Open Scope Z_scope.

Section Interleaving.
Context {Obj Factory G : Type} {libraries : Libraries}.
Abbreviation Game := (G * Net)%type.
Abbreviation World := (World Obj Factory InputPayload Game).
Abbreviation Runtime := (Runtime Obj Factory InputPayload).
Context `{!GameCode Obj Factory InputPayload Game}.

(** ** The critical sections of the runtime

    [runtime.mu] guards the tables of the objects and the factories, the
    authentication handler and the tick, [buffer.mu] the inputs, [features.mu] the two
    features and [metricsMu] the metrics.  [BufferClientInput] reads the tick before it
    takes [buffer.mu], so that the tick of [OpAdd] may be an old one. *)
Inductive critical : Runtime -> Runtime -> Prop :=
| crit_store r t i o : key_ok t -> key_ok i -> critical r (store r t i o)
| crit_authentication r t i o :
    key_ok t -> key_ok i -> authenticationHandler r = None ->
    is_Some (OnAuthenticationAttempt (Game := Game) (Factory := Factory) (Payload := InputPayload) o) ->
    critical r (set_authentication (store r t i o) (Some o) t i)
| crit_remove r t i : critical r (RemoveObject r t i)
| crit_factory r t f : critical r (RegisterFactory r t f).1
| crit_inputs EqualFold r op : critical r (set_inputs r (buffer_step EqualFold (config r) (inputs r) op))
| crit_interest r op : critical r (on_interest r (fun m => interest_step m op))
| crit_scene r op : critical r (on_scenes r (fun m => scene_step m op))
| crit_tick r : critical r (set_tick r (u64_inc (tick r)))
| crit_metrics r duration : critical r (recordTickDuration r duration).

(** ** The steps of the server *)
Definition State : Type := World * gmap string (gset Z).

(** The history of processed packets, as in [Server.remember]. *)
Definition remember_accept (addr : string) (sequence : Z) (accepted : bool) (h : gmap string (gset Z))
    : gmap string (gset Z) :=
  if accepted && negb (sequence =? 0) then <[addr := {[sequence]} ∪ history_of h addr]> h else h.

(** Game code runs between the sections and changes its own state; [quiet_step] lists
    the sections of [server.mu] other than admission and timeout. *)
Inductive atomic : State -> State -> Prop :=
| at_runtime w h r : critical w.1 r -> atomic (w, h) ((r, w.2), h)
| at_game w h g : atomic (w, h) ((w.1, (g, w.2.2)), h)
| at_net w h n : quiet_step (config w.1) roundtrip (net w) n -> atomic (w, h) (on_net w (fun _ => n), h)
| at_accept w h addr sequence ack ackBits now :
    in_u64 sequence ->
    let admitted := acceptClientRequest (config w.1) (net w) addr sequence ack ackBits now in
    atomic (w, h) (on_net w (fun _ => admitted.1), remember_accept addr sequence admitted.2 h)
| at_stale w h now :
    let w' := on_net w (fun n => removeStaleClients (config w.1) n now) in
    atomic (w, h) (w', forget w' h).

(** Any interleaving. *)
Definition interleaved : State -> State -> Prop := rtc atomic.

Definition started (c : Config) (g : G) : State := ((NewRuntime c, (g, NewUDPServer)), ∅).

(** ** Every step keeps the invariants *)
Lemma critical_ok r r' :
  critical r r' -> runtime_ok r -> runtime_ok r' /\ config r' = config r.
Proof.
  intros H Hok. pose proof (api_step_ok (Game := Game) r r') as Hapi. pose proof (api_step_frame (Game := Game) r r') as Hframe.
  destruct H as [r t i o Ht Hi|r t i o Ht Hi Hn Ho|r t i|r t f|EqualFold r op|r op|r op|r|r duration].
  - split; [by apply store_ok | done].
  - split; [|done]. destruct (store_ok r t i o Ht Hi Hok) as []. split; try done. split_and!; [done | | done | done].
    change (GetObject (set_authentication ?r _ _ _)) with (GetObject r).
    cbn [set_authentication authenticationObjectType authenticationObjectID].
    rewrite GetObject_store by done. destruct Ht as [-> _], Hi as [-> _]. by rewrite decide_True.
  - assert (api_step r (RemoveObject r t i)) as Hs by constructor. split; [by apply Hapi | by apply Hframe].
  - assert (api_step r (RegisterFactory r t f).1) as Hs by constructor. split; [by apply Hapi | by apply Hframe].
  - split; [|done]. pose proof (input_step_ok EqualFold r op Hok) as Hb. by destruct Hok.
  - assert (api_step r (on_interest r (fun m => interest_step m op))) as Hs by constructor. split; [by apply Hapi | done].
  - assert (api_step r (on_scenes r (fun m => scene_step m op))) as Hs by constructor. split; [by apply Hapi | done].
  - split; [|done]. destruct Hok. split; try done. by apply wrap_range.
  - split; [by apply record_ok | apply record_frame].
Qed.

Lemma atomic_ok x y :
  atomic x y -> run_ok x.1 x.2 -> run_ok y.1 y.2 /\ config y.1.1 = config x.1.1.
Proof.
  intros H [Hr Hreach]. destruct H as [w h r H|w h g|w h n H|w h addr sequence ack ackBits now Hs admitted|w h now w'];
    cbn [fst snd] in *.
  - destruct (critical_ok _ _ H Hr) as [Hr' Hc]. split; [|exact Hc]. split; [exact Hr'|]. cbn [fst]. by rewrite Hc.
  - by split.
  - split; [|done]. split; [exact Hr | by eapply reach_quiet].
  - split; [|done]. split; [exact Hr|]. eapply reach_accept; [exact Hreach | exact Hs | by apply surjective_pairing].
  - split; [|done]. split; [exact Hr | exact (reach_stale _ roundtrip _ h now Hreach)].
Qed.

Lemma interleaved_ok x y :
  interleaved x y -> run_ok x.1 x.2 -> run_ok y.1 y.2 /\ config y.1.1 = config x.1.1.
Proof.
  induction 1 as [|x y z H _ IH]; [done|]. intros Hok. destruct (atomic_ok _ _ H Hok) as [Hok' <-]. by apply IH.
Qed.

(** A client is lost by the timeout only. *)
Lemma atomic_connected x y addr client :
  atomic x y -> clients (net x.1) !! addr = Some client -> clients (net y.1) !! addr = None ->
  exists now, y.1 = on_net x.1 (fun n => removeStaleClients (config x.1.1) n now) /\ is_stale (config x.1.1) now client = true.
Proof.
  intros H Hc Hn. destruct H as [w h r H|w h g|w h n H|w h addr' sequence ack ackBits now Hs admitted|w h now w'];
    cbn [fst snd net on_net] in *.
  - unfold net in *. cbn in *. congruence.
  - unfold net in *. cbn in *. congruence.
  - assert (is_Some (clients n !! addr)) as [c' Hc'] by (apply (quiets_connected _ _ _ _ addr (rtc_once _ _ H)); by exists client).
    unfold net in *. cbn in *. congruence.
  - exfalso. pose proof (acceptClientRequest_clients (config w.1) (net w) addr' sequence ack ackBits now) as H.
    subst admitted. destruct (acceptClientRequest _ _ _ _ _ _ _) as [n accepted]. unfold net in *. cbn in *.
    destruct H as [(_ & Hn' & _)|(c' & Hn' & _)]; rewrite Hn' in Hn; [congruence|].
    apply lookup_insert_None in Hn as [Hn _]. congruence.
  - exists now. split; [done|]. apply not_false_iff_true. intros Hst.
    assert (clients (removeStaleClients (config w.1) (net w) now) !! addr = Some client) as Hc'
      by (by apply removeStaleClients_lookup).
    unfold w', net in *. cbn in *. congruence.
Qed.

(** ** The handlers are runs of such steps *)
Lemma api_step_critical r r' : api_step (Game := Game) r r' -> rtc critical r r'.
Proof.
  assert (forall r t i, rtc critical r (disable_features r t i)) as Hd.
  { intros r0 t i. unfold disable_features. eapply rtc_l; [exact (crit_interest r0 (OpDisable t i))|].
    apply rtc_once. exact (crit_scene _ (OpClearObject t i)). }
  intros H. destruct H as [r t i o Ht Hi|r t i o Ht Hi Hn Ho|r t i|r t f|r input now|r c t|EqualFold r c t ot oi|r op|r op].
  - apply (rtc_l _ _ (store r t i o)); [by apply crit_store | apply Hd].
  - apply (rtc_l _ _ (set_authentication (store r t i o) (Some o) t i)); [by apply crit_authentication | apply Hd].
  - apply rtc_once, crit_remove.
  - apply rtc_once, crit_factory.
  - apply rtc_once. pose proof (crit_inputs (fun _ _ => false) r (OpAdd input (tick r) now)) as H.
    unfold BufferClientInput. cbn [buffer_step] in H. by destruct (add _ _ _ _ _).
  - apply rtc_once. pose proof (crit_inputs (fun _ _ => false) r (OpConsume c t)) as H.
    unfold ConsumeClientInputsForTick. cbn [buffer_step] in H. by destruct (InputBuffer.consume _ _ _).
  - apply rtc_once. pose proof (crit_inputs EqualFold r (OpConsumeForObject c t ot oi)) as H.
    unfold ConsumeClientInputsForObjectAtTick. cbn [buffer_step] in H. by destruct (consumeForObject _ _ _ _ _ _).
  - apply rtc_once, crit_interest.
  - apply rtc_once, crit_scene.
Qed.

Lemma api_steps_critical r r' : api_steps (Game := Game) r r' -> rtc critical r r'.
Proof. induction 1 as [|r1 r2 r3 H _ IH]; [reflexivity|]. etrans; [by apply api_step_critical | exact IH]. Qed.

Lemma interleaved_runtime r r' g h : rtc critical r r' -> interleaved ((r, g), h) ((r', g), h).
Proof.
  induction 1 as [|r1 r2 r3 H _ IH]; [reflexivity|]. eapply rtc_l; [|exact IH]. exact (at_runtime (r1, g) h r2 H).
Qed.

Lemma interleaved_net r g n n' h : quiets (config r) roundtrip n n' -> interleaved ((r, (g, n)), h) ((r, (g, n')), h).
Proof.
  induction 1 as [|n1 n2 n3 H _ IH]; [reflexivity|]. eapply rtc_l; [|exact IH]. exact (at_net (r, (g, n1)) h n2 H).
Qed.

Lemma interleaved_game r g g' n h : interleaved ((r, (g, n)), h) ((r, (g', n)), h).
Proof. apply rtc_once. exact (at_game (r, (g, n)) h g'). Qed.

Lemma evolves_interleaved (w w' : World) h : evolves w w' -> interleaved (w, h) (w', h).
Proof.
  destruct w as [r [g n]], w' as [r' [g' n']]. intros [H1 H2].
  etrans; [exact (interleaved_net r g n n' h H2)|]. etrans; [apply (interleaved_game r g g')|].
  by apply interleaved_runtime, api_steps_critical.
Qed.

Context (registry : option (WireMessageRegistry (World := World))).
Context {laws : ServerLaws registry}.

Lemma handleMessage_interleaved conn addr message now (w : World) h :
  interleaved (w, h) ((handleMessage registry conn addr message now w).1, remember registry addr message now w h).
Proof.
  pose proof (handleMessage_split registry conn addr message now w) as H. cbv zeta in H. unfold remember.
  destruct (decodeUDPIncomingPacket registry message) as [packet|e] eqn:Hd; [|by apply evolves_interleaved].
  etrans; [apply (evolves_interleaved w (received w)), evolves_metrics|].
  etrans; [|apply evolves_interleaved, H]. apply rtc_once.
  exact (at_accept (received w) h addr (ip_sequence packet) (ip_ack packet) (ip_ackBits packet) now (decode_sequence _ _ _ Hd)).
Qed.

Lemma Advance_interleaved duration (w : World) h : interleaved (w, h) ((Advance duration w).1, h).
Proof.
  pose proof (Advance_steps duration w) as H. pose proof (Advance_net registry duration w) as Hn.
  destruct (Advance duration w) as [w' t]. destruct H as (_ & r1 & H & Hr). cbn [fst] in Hn.
  destruct w as [r [g n]], w' as [r' [g' n']]. cbn [fst snd] in *. subst r'.
  etrans; [apply (interleaved_net r g n n'), quiet_keeps, Hn|]. etrans; [apply (interleaved_game r g g')|].
  apply interleaved_runtime. eapply rtc_l; [apply crit_tick|].
  etrans; [by apply api_steps_critical | apply rtc_once, crit_metrics].
Qed.

Lemma advanceAndMaybeBroadcast_interleaved conn order duration now (w : World) h :
  run_ok w h ->
  let w' := (advanceAndMaybeBroadcast registry conn order duration now w).1 in
  interleaved (w, h) (w', forget w' h).
Proof.
  intros Hok. destruct (advanced_world_ok registry duration now w h Hok) as ([_ Hreach] & _). cbv zeta.
  pose proof (advanceAndMaybeBroadcast_split registry conn order duration now w (proj1 (reachable_ok _ _ _ _ Hreach))) as H.
  rewrite (forget_evolves _ _ _ H).
  etrans; [apply (Advance_interleaved duration w h)|]. etrans; [|apply evolves_interleaved, H].
  apply rtc_once. exact (at_stale (Advance duration w).1 h now).
Qed.

Lemma server_run_interleaved c g (w : World) h : server_run registry c g w h -> interleaved (started c g) (w, h).
Proof.
  induction 1 as [|w h w' _ IH H|w h conn addr message now _ IH|w h conn order duration now Hrun IH].
  - reflexivity.
  - etrans; [exact IH|]. by apply evolves_interleaved, world_step_evolves.
  - etrans; [exact IH | apply handleMessage_interleaved].
  - etrans; [exact IH|]. apply advanceAndMaybeBroadcast_interleaved. by apply (server_run_ok registry c g).
Qed.
End Interleaving.

(** ** A reset between the sections of a snapshot

    [snapshots] takes [server.mu] to read a baseline and again to store the next one. *)
Section Reset.
Context {libraries : Libraries} {World : Type} (registry : option (WireMessageRegistry (World := World))).
Abbreviation prepare_section :=
  (prepare_snapshot registry marshalSnapshot marshalDelta Marshal DeepEqual roundtrip elapsed int_overflow).
Implicit Types (s : Net) (client : UDPClient (Body := IncomingBody)).

(** The sections before the commit keep the connection. *)
Lemma prepare_connected config source s now addr client s1 sent :
  server_ok config s -> clients s !! addr = Some client ->
  prepare_section config source s now addr client = (s1, Ok (Some sent)) ->
  exists c, clients s1 !! addr = Some c /\ cl_connectionID c = connection_of addr.
Proof.
  intros Hok Hc E.
  pose proof (prepare_snapshot_spec registry marshalSnapshot marshalDelta Marshal DeepEqual roundtrip elapsed int_overflow
    config source s now addr client) as H.
  rewrite E in H. destruct H as [[_ Hv] _]. specialize (Hv addr). rewrite Hc in Hv.
  destruct (clients s1 !! addr) as [c|]; [|done]. exists c. split; [done|]. injection Hv as -> _ _ _.
  apply (sk_connection _ _ Hok _ _ Hc).
Qed.

Lemma reset_baseline s addr c :
  clients s !! addr = Some c -> snapshotBaseline (resetSnapshotBaseline s addr) (cl_connectionID c) = None.
Proof. intros Hc. unfold resetSnapshotBaseline. rewrite Hc. apply lookup_delete_eq. Qed.

(** The kind of the next snapshot of a connection, by its baseline. *)
Lemma next_full config s client :
  snapshotBaseline s (cl_connectionID client) = None -> chooses_delta config s client = false.
Proof. intros H. unfold chooses_delta. by rewrite H. Qed.

Lemma next_delta config s client connectionID t objects delta :
  EnableDeltaSnapshots config = true -> 1 < FullSnapshotEvery config ->
  clientSupportsDeltaSnapshots (cl_wire client) = true -> snapshotBaseline s connectionID = None ->
  cl_connectionID client = connectionID ->
  chooses_delta config (commitSnapshotBaseline roundtrip config s connectionID t objects delta) client = true.
Proof.
  intros He Hi Hw Hn <-. unfold chooses_delta, commitSnapshotBaseline, snapshotBaseline in *. rewrite He. cbn [negb].
  cbn [snapshotBaselines set_baselines]. rewrite lookup_insert_eq, Hn, Hw. unfold shouldSendFullSnapshot.
  cbn [base_snapshotsSinceFull].
  assert (u64_inc (if delta then 0 else 0) = 1) as E by (by destruct delta).
  rewrite E. rewrite (proj2 (Z.leb_gt _ _) Hi). reflexivity.
Qed.
End Reset.

(** ** Properties *)

(** C3: the invariants hold under every interleaving.  However the receive loop, the tick
    loop and other goroutines of the process take turns between their critical
    sections, the runtime keeps its invariant and its configuration, and the client
    table its own: at most [MaxClients] clients, no authenticated id twice, baselines
    of connected clients only; no packet is processed twice, and the acknowledgements
    are those of the processed packets.  The next section of any of them ends a
    connection only if it is the timeout and the client was silent for too long. *)
Theorem interleaving_safe {Obj Factory G} {libraries : Libraries}
    `{!GameCode Obj Factory InputPayload (G * Net)} c g (w : World Obj Factory InputPayload (G * Net)) h :
  interleaved (started c g) (w, h) ->
  runtime_ok w.1 /\ config w.1 = Normalized c /\ server_ok (config w.1) (net w) /\ windows_ok (net w) h /\
  forall w' h' addr client, atomic (w, h) (w', h') ->
    clients (net w) !! addr = Some client -> clients (net w') !! addr = None ->
    exists now, ClientTimeout (config w.1) < now - cl_lastHeardAt client.
Proof.
  intros H. destruct (interleaved_ok _ _ H) as [[Hr Hreach] Hc]; [split; [apply NewRuntime_ok | apply reach_new]|].
  cbn [fst snd started] in *. destruct (reachable_ok _ _ _ _ Hreach) as [Hok Hw]. split_and!; try done.
  intros w' h' addr client Hstep Hin Hout.
  destruct (atomic_connected _ _ addr client Hstep Hin Hout) as (now & _ & Hst). exists now. by apply Z.ltb_lt.
Qed.

(** C4: the handlers implement the interleaved system.  Every run of the server as
    [Server] has it, a sequence of whole datagrams, whole ticks and calls of the process,
    is a run of the critical sections, with the same history of processed packets. *)
Theorem handlers_interleave {Obj Factory G} {libraries : Libraries}
    `{!GameCode Obj Factory InputPayload (G * Net)} registry {laws : ServerLaws registry} c g
    (w : World Obj Factory InputPayload (G * Net)) h :
  server_run registry c g w h -> interleaved (started c g) (w, h).
Proof. intros H. by apply (server_run_interleaved registry). Qed.

(** C8: a reset between the sections of a snapshot is lost.  Authentication and scene
    switches reset the baseline of a client, so that its next snapshot is a full one: so it
    is when the reset comes after a snapshot of the tick loop.  When it comes between the
    two sections of that snapshot, then the snapshot's own commit undoes it: the next
    snapshot is a delta, to objects of the time before the reset. *)
Theorem reset_overtaken {libraries : Libraries} {World : Type} (registry : option (WireMessageRegistry (World := World)))
    config source (s s1 : Net) now addr (client next : UDPClient (Body := IncomingBody)) sent :
  server_ok config s -> clients s !! addr = Some client ->
  EnableDeltaSnapshots config = true -> 1 < FullSnapshotEvery config ->
  prepare_snapshot registry marshalSnapshot marshalDelta Marshal DeepEqual roundtrip elapsed int_overflow config source s now addr client = (s1, Ok (Some sent)) ->
  cl_connectionID next = connection_of addr -> clientSupportsDeltaSnapshots (cl_wire next) = true ->
  let reset s := resetSnapshotBaseline s addr in
  let round between :=
    snapshot_round registry marshalSnapshot marshalDelta Marshal DeepEqual roundtrip elapsed int_overflow
      between config source s now addr client in
  let kind s sequence tick objects :=
    match (encodeUDPSnapshot registry marshalSnapshot marshalDelta Marshal DeepEqual elapsed config s next
             sequence tick objects).2 with Ok (_, delta) => Some delta | Err _ => None end in
  (forall sequence tick objects delta,
     kind (reset (round (fun s => s)).1) sequence tick objects = Some delta ->
     delta = false) /\
  (forall sequence tick objects delta,
     kind (round reset).1 sequence tick objects = Some delta ->
     delta = true).
Proof.
  intros Hok Hc He Hi Hp Hn Hw reset round kind.
  destruct (prepare_connected registry config source s now addr client s1 sent Hok Hc Hp) as (c & Hc1 & Hid).
  assert (forall s sequence tick objects delta, kind s sequence tick objects = Some delta ->
    delta = chooses_delta config s next) as Hkind.
  { intros s' sequence t objects delta. unfold kind. rewrite encodeUDPSnapshot_eq. cbn [snd].
    destruct (encoding_of _ _ _ _ _ _ _ _ _ _ _) as [[payload d]|e] eqn:E; [|done]. intros [= <-].
    by eapply encoding_kind. }
  destruct sent as [[payload delta] sent].
  split; intros sequence t objects d Hd; apply Hkind in Hd as ->; unfold round, snapshot_round; rewrite Hp; cbn [fst].
  - apply next_full. unfold reset. rewrite Hn, <- Hid. apply reset_baseline. by rewrite commit_clients.
  - apply next_delta; try done; unfold reset; rewrite (sk_connection _ _ Hok _ _ Hc); [|done].
    rewrite <- Hid. by apply reset_baseline.
Qed.

(** ** Witnesses *)

(** A client is admitted while a tick is under way. *)
Lemma interleaving_safe_witness :
  exists w : World Arena.thing unit InputPayload (Z * Net),
    interleaved (GameCode0 := Arena.arena) (started DefaultConfig 0) (w, {["a" := {[1]}]}) /\
    tick w.1 = 1 /\ server_ok (config w.1) (net w) /\ windows_ok (net w) {["a" := {[1]}]}.
Proof.
  set (r1 := set_tick (NewRuntime DefaultConfig) 1 : Runtime Arena.thing unit InputPayload).
  set (w1 := (r1, (0, NewUDPServer)) : World Arena.thing unit InputPayload (Z * Net)).
  set (w2 := on_net w1 (fun _ => (acceptClientRequest (config r1) NewUDPServer "a" 1 0 0 Second).1)).
  assert (interleaved (GameCode0 := Arena.arena) (started DefaultConfig 0)
    ((recordTickDuration r1 5, w2.2), {["a" := {[1]}]})) as H.
  { apply (rtc_l _ _ (w1, ∅)).
    { exact (at_runtime (GameCode0 := Arena.arena) (NewRuntime DefaultConfig, (0, NewUDPServer)) ∅ r1 (crit_tick _)). }
    apply (rtc_l _ _ (w2, {["a" := {[1]}]})).
    { exact (at_accept (GameCode0 := Arena.arena) w1 ∅ "a" 1 0 0 Second (conj (Z.le_0_1) eq_refl)). }
    apply rtc_once. exact (at_runtime (GameCode0 := Arena.arena) w2 _ (recordTickDuration r1 5) (crit_metrics r1 5)). }
  exists (recordTickDuration r1 5, w2.2). split; [exact H|].
  destruct (interleaving_safe DefaultConfig 0 _ _ H) as (_ & _ & Hok & Hw & _). split; [reflexivity | split; [exact Hok | exact Hw]].
Defined.

Lemma handlers_interleave_witness :
  interleaved (GameCode0 := Arena.arena) (started DefaultConfig 0) (Arena.joined, Arena.history).
Proof. exact (handlers_interleave Arena.registry DefaultConfig 0 _ _ Arena.joined_run). Defined.

Module Overtaken.
Definition libraries : Libraries := {|
  unmarshalRequest := unmarshalRequest (Libraries := Arena.arena_libraries);
  marshal := marshal (Libraries := Arena.arena_libraries);
  remarshalScene := remarshalScene (Libraries := Arena.arena_libraries);
  Unmarshal := Unmarshal (Libraries := Arena.arena_libraries);
  error_text := error_text (Libraries := Arena.arena_libraries);
  EqualFold := EqualFold (Libraries := Arena.arena_libraries);
  ParseFloat := ParseFloat (Libraries := Arena.arena_libraries);
  library_reflection := no_reflection;
  marshalSnapshot := UdpSnapshot.Witnesses.marshalSnapshot;
  marshalDelta := UdpSnapshot.Witnesses.marshalDelta;
  Marshal := UdpSnapshot.Witnesses.Marshal;
  DeepEqual := UdpSnapshot.Witnesses.DeepEqual;
  roundtrip := UdpSnapshot.Witnesses.roundtrip;
  elapsed _ := 1
|}.
Abbreviation config := UdpSnapshot.Witnesses.config.
Definition table : Net := (acceptClientRequest config NewUDPServer "a" 1 0 0 Second).1.
Definition client : UDPClient (Body := IncomingBody) := default (new_client config "a" Second) (clients table !! "a").

Lemma table_ok : server_ok config table.
Proof. apply acceptClientRequest_ok, NewUDPServer_ok. Qed.
Lemma client_eq : clients table !! "a" = Some client.
Proof. vm_compute. reflexivity. Qed.

(** The first snapshot of the client, and the state after it with what comes in between. *)
Abbreviation prepared := (prepare_snapshot (World := unit) None UdpSnapshot.Witnesses.marshalSnapshot
  UdpSnapshot.Witnesses.marshalDelta UdpSnapshot.Witnesses.Marshal UdpSnapshot.Witnesses.DeepEqual
  UdpSnapshot.Witnesses.roundtrip (fun _ => 1) int_overflow config
  (UdpSnapshot.Witnesses.source 6) table Second "a" client).
Lemma prepared_eq : exists s sent, prepared = (s, Ok (Some sent)).
Proof.
  assert (match prepared.2 with Ok (Some _) => True | _ => False end) as H by (vm_compute; exact I).
  destruct prepared as [s [[sent|]|e]]; [by exists s, sent | done..].
Qed.
Abbreviation after between := (snapshot_round (World := unit) None UdpSnapshot.Witnesses.marshalSnapshot
  UdpSnapshot.Witnesses.marshalDelta UdpSnapshot.Witnesses.Marshal UdpSnapshot.Witnesses.DeepEqual
  UdpSnapshot.Witnesses.roundtrip (fun _ => 1) int_overflow between config
  (UdpSnapshot.Witnesses.source 6) table Second "a" client).1.
Abbreviation next s := (encodeUDPSnapshot (World := unit) None UdpSnapshot.Witnesses.marshalSnapshot
  UdpSnapshot.Witnesses.marshalDelta UdpSnapshot.Witnesses.Marshal UdpSnapshot.Witnesses.DeepEqual (fun _ => 1)
  config s client 2 12 UdpSnapshot.Witnesses.objects).2.
End Overtaken.

Lemma reset_overtaken_witness :
  let reset s := resetSnapshotBaseline s "a" in
  exists payload, Overtaken.next (Overtaken.after reset) = Ok (payload, true).
Proof.
  intros reset. destruct Overtaken.prepared_eq as (s1 & sent & E).
  pose proof (reset_overtaken (libraries := Overtaken.libraries) (World := unit) None Overtaken.config
    (UdpSnapshot.Witnesses.source 6) Overtaken.table s1 Second "a" Overtaken.client Overtaken.client sent
    Overtaken.table_ok Overtaken.client_eq eq_refl eq_refl E eq_refl eq_refl) as [_ H].
  specialize (H 2 12 UdpSnapshot.Witnesses.objects).
  assert (exists payload delta, Overtaken.next (Overtaken.after reset) = Ok (payload, delta)) as (payload & delta & En)
    by (eexists _, _; vm_compute; reflexivity).
  exists payload. rewrite En. rewrite (H delta); [reflexivity|].
  exact (f_equal (fun r => match r with Ok (_, delta) => Some delta | Err _ => None end) En).
Defined.
