(* ===== verification/Handshake.v ===== *)
(** * The first datagram of a client

    The way of a [ClientHello] from the encoder that a client calls to the authentication
    of the server: the packet decodes to one authentication request, which no handler
    takes, and [handleMessage] is [handleAuthenticationAttempt] on the client that it
    admits. *)
From S2P Require Import Prelude Keys Buffer Values Snapshot Messages Packet Config InputBuffer Registry Payload Decode Scenes Float64 Interest Metrics Runtime View.
From S2P Require Import Budget Window ReliableIn ReliableOut ReliableStream UdpClients Outbound UdpSnapshot Server.
#[local] Open Scope string_scope.
#[local] Open Scope Z_scope.

(** ** Sections of the server that are about one client *)
(** A section of the server that is about one client leaves the others, and keeps it. *)
Definition about (addr : string) (n n' : Net) : Prop :=
  (is_Some (clients n !! addr) -> is_Some (clients n' !! addr)) /\
  forall a, a <> addr -> clients n' !! a = clients n !! a.

#[local] Instance about_preorder addr : PreOrder (about addr).
Proof. split; [by intros n|]. intros n1 n2 n3 [H1 H2] [H3 H4]. split; [tauto | intros a Ha; by rewrite H4, H2]. Qed.

Lemma update_about n addr f : about addr n (update_client n addr f).
Proof.
  unfold update_client. split; cbn [clients set_clients].
  - intros [c Hc]. rewrite lookup_alter_eq, Hc. by eexists.
  - intros a Ha. by rewrite lookup_alter_ne.
Qed.

Lemma accept_about config n addr sequence ack ackBits now :
  let (n', accepted) := acceptClientRequest config n addr sequence ack ackBits now in
  about addr n n' /\ (accepted = true -> is_Some (clients n' !! addr)).
Proof.
  pose proof (acceptClientRequest_clients config n addr sequence ack ackBits now) as H.
  destruct (acceptClientRequest _ _ _ _ _ _ _) as [n' accepted].
  destruct H as [(-> & Hn & _)|(c & Hn & _)].
  - split; [|done]. split; [by rewrite Hn | intros a _; by rewrite Hn].
  - assert (clients n' !! addr = Some c) as Hc by (by rewrite Hn, lookup_insert_eq). split; [|by eexists].
    split; [by eexists | intros a Ha; by rewrite Hn, lookup_insert_ne].
Qed.

Lemma markWire_about config n addr : about addr n (markWireClient config n addr).
Proof.
  unfold markWireClient. etrans; [|apply update_about].
  destruct (clients n !! addr) as [c|]; [|reflexivity]. by destruct (negb _).
Qed.

(** An unreliable message is handed on at once. *)
Lemma receive_unreliable n addr (message : incoming) :
  is_Some (clients n !! addr) -> inc_delivery message = DeliveryUnreliable ->
  (receiveReliable n addr [message]).2 = [message] /\ about addr n (receiveReliable n addr [message]).1.
Proof.
  intros [c Hc] Hm. unfold receiveReliable, acceptReliableIncomingMessages. rewrite Hc. cbn [foldl].
  unfold accept_incoming. rewrite Hm. split; [done|]. split; cbn [fst clients].
  - intros _. rewrite lookup_insert_eq. by eexists.
  - intros a Ha. by rewrite lookup_insert_ne.
Qed.

Section Handshake.
Context {Obj Factory G : Type} {libraries : Libraries}.
Abbreviation World := (World Obj Factory InputPayload (G * Net)).
Context `{!GameCode Obj Factory InputPayload (G * Net)}.
Context (r : WireMessageRegistry (World := World)).
Hypothesis default_registry : NewDefaultWireMessageRegistry = Ok r.

(** What a client sends: a packet of one [ClientHello], made with the package's encoders. *)
Definition hello_datagram (sequence ack ackBits : Z) (hello : ClientHello) : result bytes :=
  let! message := EncodeMessage (Some r) (AnyValue (MClientHello hello)) in
  EncodePacketWithAcks sequence ack ackBits [message].

(** What the server makes of it. *)
Definition hello_request (sequence : Z) : RequestMessage := mkRequest "auth" sequence "" "" "" [].
Definition hello_message (sequence : Z) (hello : ClientHello) : incoming :=
  mkIncoming (mkBody WireMessageClientHello (hello_request sequence) (AnyValue (MClientHello hello))) DeliveryUnreliable 0.
Definition hello_packet (sequence ack ackBits : Z) (hello : ClientHello) : udpIncomingPacket :=
  mkIncomingPacket sequence ack ackBits true WireProtocolVersion [hello_message sequence hello].

Lemma hello_definition :
  registry_ok r /\ exists d, byID r !! WireMessageClientHello = Some d /\ def_ID d = WireMessageClientHello /\
    carries d ClientHello /\ def_Handler d = None /\ def_Validate d = Some validateClientHello.
Proof.
  assert (runtime_registry [] = Ok r) as [Hok Hdef]%runtime_registry_inv by (unfold runtime_registry; by rewrite default_registry).
  split; [exact Hok|]. assert (exists d, nth_error default_definitions 0 = Some d /\ byID r !! def_ID d = Some d) as (d & Hd & Hr)
    by (eexists; split; [reflexivity | apply Hdef; by left]).
  injection Hd as <-. eexists.
  split_and!; [exact Hr | done | by split | done | done].
Qed.

Lemma hello_encoded hello message :
  EncodeMessage (Some r) (AnyValue (MClientHello hello)) = Ok message ->
  message = mkWireMessage WireMessageClientHello (wc_bytes hello) DeliveryUnreliable 0.
Proof.
  destruct hello_definition as (Hok & d & Hd & Hid & Hc & _). rewrite <- Hid in Hd.
  change (MClientHello hello) with (gs_in hello). rewrite (EncodeMessage_carried r d hello Hok Hd Hc).
  destruct (validateWireMessage _ _); [|done]. cbn [rbind]. destruct (wc_encode hello) as [bs|] eqn:E; [|done].
  intros [= <-]. apply wc_encode_inv in E as [_ ->]. by rewrite Hid.
Qed.

(** The encoders take every hello whose strings are not too long. *)
Lemma hello_made hello bs :
  validateClientHello (AnyValue (MClientHello hello)) = Ok tt -> wc_encode hello = Ok bs ->
  EncodeMessage (Some r) (AnyValue (MClientHello hello)) =
    Ok (mkWireMessage WireMessageClientHello bs DeliveryUnreliable 0).
Proof.
  intros Hv He. destruct hello_definition as (Hok & d & Hd & Hid & Hc & _ & Hval). rewrite <- Hid in Hd.
  change (MClientHello hello) with (gs_in hello). rewrite (EncodeMessage_carried r d hello Hok Hd Hc).
  unfold validateWireMessage. rewrite Hval. change (gs_in hello) with (MClientHello hello).
  rewrite Hv. cbn [rbind]. rewrite He. cbn [rbind]. by rewrite Hid.
Qed.

Lemma hello_datagram_decoded sequence ack ackBits hello bs :
  in_u64 sequence -> in_u64 ack -> in_u64 ackBits -> wc_typed hello -> wc_ends_empty hello = false ->
  hello_datagram sequence ack ackBits hello = Ok bs ->
  decodeUDPIncomingPacket (Some r) bs = Ok (hello_packet sequence ack ackBits hello).
Proof.
  intros Hs Ha Hb Ht He H. unfold hello_datagram in H.
  destruct (EncodeMessage (Some r) (AnyValue (MClientHello hello))) as [message|] eqn:Em; [|done]. cbn [rbind] in H.
  assert (DecodeMessage (Some r) message = Ok (AnyValue (MClientHello hello))) as Hdec.
  { assert (runtime_registry [] = Ok r) as Hr by (unfold runtime_registry; by rewrite default_registry).
    pose proof (builtin_roundtrip_spec [] r (MClientHello hello) message Hr Ht Em) as H'.
    cbn [builtin_ends_empty builtin_canon] in H'. rewrite He in H'. exact H'. }
  apply hello_encoded in Em. apply EncodePacketWithAcks_inv in H as [Henc ->].
  unfold decodeUDPIncomingPacket. change (isWirePacket (packet_bytes _ _ _ _)) with true. unfold decodeUDPWirePacket.
  assert (Forall Packet.message_ok [message]) as Hm.
  { rewrite Em. constructor; [|constructor]. unfold Packet.message_ok, in_u16, in_u8, in_u64, in_u. cbn. split_and!; (lia || done). }
  assert (in_u32 0) as H0 by (unfold in_u32, in_u; lia).
  pose proof (decode_packet_bytes 0 sequence ack ackBits [message] H0 Hs Ha Hb Henc Hm) as Hp.
  assert (ends_in_empty [message] = false) as E by (rewrite Em; by destruct hello as [[] t v c m]).
  rewrite E in Hp. unfold packet_bytes. rewrite Hp. cbn [rbind pkt_Sequence pkt_Messages map].
  assert (Packet.received message = message) as -> by (by rewrite Em). cbn [decode_messages]. rewrite Hdec, Em. reflexivity.
Qed.

(** ** What the server does with it *)

(** No handler of the default registry takes it, and it is not an input. *)
Lemma hello_dispatched conn addr sequence ack ackBits now hello (w : World) :
  handle_incoming (Some r) addr (hello_packet sequence ack ackBits hello) (writer (Some r) conn addr true now) now
    (w, Ok tt) (hello_message sequence hello) =
  let (w', e) := handleAuthenticationAttempt addr (hello_request sequence) (AnyValue (MClientHello hello))
                   (writer (Some r) conn addr true now) now w in (w', first_error (Ok tt) e).
Proof.
  destruct hello_definition as (_ & d & Hd & _ & _ & Hh & _). clear default_registry.
  unfold handle_incoming. change (is_unknown _) with false. cbn [ip_wire hello_packet]. unfold Dispatch.
  change (Definition_ (Some r) (ctx_MessageID _)) with (byID r !! WireMessageClientHello). rewrite Hd, Hh.
  reflexivity.
Qed.

Lemma hello_handled conn addr bs sequence ack ackBits now hello (w : World) :
  decodeUDPIncomingPacket (Some r) bs = Ok (hello_packet sequence ack ackBits hello) ->
  processes addr (hello_packet sequence ack ackBits hello) now w = true ->
  exists w0,
    (handleMessage (Some r) conn addr bs now w).1 =
      (handleAuthenticationAttempt addr (hello_request sequence) (AnyValue (MClientHello hello))
         (writer (Some r) conn addr true now) now w0).1 /\
    w0.1 = w.1 /\ w0.2.1 = w.2.1 /\ is_Some (clients (net w0) !! addr) /\ about addr (net w) (net w0).
Proof.
  intros Hd Hp. pose proof (hello_dispatched conn addr sequence ack ackBits now hello) as Hin. clear default_registry.
  unfold handleMessage. fold (received w). rewrite Hd. unfold processes in Hp.
  change (config (received w).1) with (config w.1) in *.
  pose proof (accept_about (config w.1) (net (received w)) addr (ip_sequence (hello_packet sequence ack ackBits hello))
    (ip_ack (hello_packet sequence ack ackBits hello)) (ip_ackBits (hello_packet sequence ack ackBits hello)) now) as Ha.
  destruct (acceptClientRequest _ _ _ _ _ _ _) as [n accepted]. cbn [snd] in Hp. subst accepted.
  destruct Ha as [Ha Hc]. specialize (Hc eq_refl). cbn [negb ip_wire hello_packet].
  set (w1 := on_net (received w) (fun _ => n)). set (w2 := on_net w1 (fun n => markWireClient (config w1.1) n addr)).
  pose proof (markWire_about (config w1.1) n addr) as Hm.
  pose proof (receive_unreliable (net w2) addr (hello_message sequence hello) (proj1 Hm Hc) eq_refl) as [Hl Hr].
  cbn [ip_messages hello_packet]. destruct (receiveReliable (net w2) addr [hello_message sequence hello]) as [n3 messages].
  cbn [fst snd] in Hl, Hr. subst messages. cbn [foldl]. rewrite Hin.
  exists (on_net w2 (fun _ => n3)). split_and!.
  - by destruct (handleAuthenticationAttempt _ _ _ _ _ _).
  - reflexivity.
  - reflexivity.
  - apply Hr, Hm, Hc.
  - etrans; [exact Ha|]. etrans; [exact Hm | exact Hr].
Qed.
End Handshake.
