(* ===== verification/NetObjects.v ===== *)
(** * The sample game objects

    [netObjects/]: players, buildings and the authenticator that makes a player for
    every login, as an instance of [GameCode].  Go compares and stores these objects
    as pointers: a [NetObject] is the dynamic type with a pointer, and the structs are
    in a [Heap], which is part of the game's state.  A pointer of the program always
    leads to a struct; a step through any other does nothing here. *)
From S2P Require Import Prelude Keys Values Snapshot Messages Packet Config InputBuffer Registry Scenes Float64.
From S2P Require Import Interest Metrics Runtime UdpClients Payload Decode Server.
From stdpp Require Import pretty.
#[local] Open Scope Z_scope.

(** ** Data *)
Record PlayerAuthenticator := mkAuthenticator { pa_ID : string; pa_NextPlayerID : Z }.

Record Player := mkPlayer {
  pl_ID : string;
  pl_X : f64;
  pl_Y : f64;
  pl_Z : f64;
  pl_VelocityX : f64;
  pl_VelocityY : f64;
  pl_VelocityZ : f64;
  pl_Speed : f64;
  pl_Requests : Z;
  pl_Seconds : Z;
  pl_LastClient : string;
  pl_OwnerClientID : string
}.

Record PlayerRequest := mkPlayerRequest { pr_X : f64; pr_Y : f64; pr_Z : f64; pr_Speed : f64 }.

Record Building := mkBuilding {
  bd_ID : string;
  bd_Kind : string;
  bd_X : f64;
  bd_Y : f64;
  bd_Z : f64;
  bd_Health : Z;
  bd_Requests : Z;
  bd_Seconds : Z;
  bd_LastClient : string
}.

Record BuildingRequest := mkBuildingRequest {
  br_Kind : string;
  br_X : f64;
  br_Y : f64;
  br_Z : f64;
  br_Health : Z;
  br_Amount : Z
}.

Definition zero_player_request : PlayerRequest := mkPlayerRequest f_zero f_zero f_zero f_zero.
Definition zero_building_request : BuildingRequest := mkBuildingRequest "" f_zero f_zero f_zero 0 0.

(** The request structs as [Decode] sees them. *)
#[export] Instance PlayerRequest_reflect : Reflect PlayerRequest := {
  type_of := TStruct "netobjects.PlayerRequest" [
    tagged "X" "x" tFloat64; tagged "Y" "y" tFloat64; tagged "Z" "z,omitempty" tFloat64;
    tagged "Speed" "speed,omitempty" tFloat64];
  to_val r := GStruct [GFloat (pr_X r); GFloat (pr_Y r); GFloat (pr_Z r); GFloat (pr_Speed r)];
  of_val v :=
    match v with
    | GStruct [GFloat x; GFloat y; GFloat z; GFloat speed] => Some (mkPlayerRequest x y z speed)
    | _ => None
    end
}.

#[export] Instance BuildingRequest_reflect : Reflect BuildingRequest := {
  type_of := TStruct "netobjects.BuildingRequest" [
    tagged "Kind" "kind,omitempty" tString; tagged "X" "x" tFloat64; tagged "Y" "y" tFloat64;
    tagged "Z" "z,omitempty" tFloat64; tagged "Health" "health,omitempty" tInt;
    tagged "Amount" "amount,omitempty" tInt];
  to_val r := GStruct [GString (br_Kind r); GFloat (br_X r); GFloat (br_Y r); GFloat (br_Z r);
    GInt (br_Health r); GInt (br_Amount r)];
  of_val v :=
    match v with
    | GStruct [GString kind; GFloat x; GFloat y; GFloat z; GInt health; GInt amount] =>
        Some (mkBuildingRequest kind x y z health amount)
    | _ => None
    end
}.

Inductive NetObject := PlayerPtr (p : nat) | BuildingPtr (p : nat) | AuthenticatorPtr (p : nat).

Record Heap := mkHeap {
  players : gmap nat Player;
  buildings : gmap nat Building;
  authenticators : gmap nat PlayerAuthenticator
}.

Inductive SampleFactory := PlayerFactory | BuildingFactory.

Definition ErrUnauthorizedPlayerClient : GoError := ErrOther "client is not authorized for player".
Definition ErrUnsupportedPlayerAction : GoError := ErrOther "unsupported player action".

Definition defaultPlayerSpeed : f64 := f_of_Z 180.
Definition defaultInterestRadius : f64 := f_of_Z 750.
Definition defaultPlayerScene : SceneID := "default".

(** ** Players *)
Definition NewPlayerAuthenticator (id : string) : PlayerAuthenticator := mkAuthenticator id 0.

Definition NewPlayer (id : string) : Player :=
  mkPlayer id f_zero f_zero f_zero f_zero f_zero f_zero defaultPlayerSpeed 0 0 "" "".

Definition AssignClient (player : Player) (clientID : string) : Player :=
  mkPlayer (pl_ID player) (pl_X player) (pl_Y player) (pl_Z player) (pl_VelocityX player) (pl_VelocityY player)
    (pl_VelocityZ player) (pl_Speed player) (pl_Requests player) (pl_Seconds player) (pl_LastClient player)
    (TrimSpace clientID).

Definition SetSpeed (player : Player) (speed : f64) : Player :=
  if f_lt f_zero speed then
    mkPlayer (pl_ID player) (pl_X player) (pl_Y player) (pl_Z player) (pl_VelocityX player) (pl_VelocityY player)
      (pl_VelocityZ player) speed (pl_Requests player) (pl_Seconds player) (pl_LastClient player)
      (pl_OwnerClientID player)
  else player.

Definition Teleport (player : Player) (x y z : f64) : Player :=
  mkPlayer (pl_ID player) x y z (pl_VelocityX player) (pl_VelocityY player)
    (pl_VelocityZ player) (pl_Speed player) (pl_Requests player) (pl_Seconds player) (pl_LastClient player)
    (pl_OwnerClientID player).

Definition clamp (value min max : f64) : f64 :=
  if f_lt value min then min
  else if f_lt max value then max
  else value.

(** One coordinate of [OnTick]. *)
Definition moved (position velocity speed deltaSeconds : f64) : f64 :=
  f_add position (f_mul (f_mul velocity speed) deltaSeconds).

Definition player_OnTick (player : Player) (deltaSeconds : f64) : Player :=
  mkPlayer (pl_ID player)
    (moved (pl_X player) (pl_VelocityX player) (pl_Speed player) deltaSeconds)
    (moved (pl_Y player) (pl_VelocityY player) (pl_Speed player) deltaSeconds)
    (moved (pl_Z player) (pl_VelocityZ player) (pl_Speed player) deltaSeconds)
    (pl_VelocityX player) (pl_VelocityY player) (pl_VelocityZ player) (pl_Speed player)
    (pl_Requests player) (pl_Seconds player) (pl_LastClient player) (pl_OwnerClientID player).

Definition player_OnFullTick (player : Player) : Player :=
  mkPlayer (pl_ID player) (pl_X player) (pl_Y player) (pl_Z player) (pl_VelocityX player) (pl_VelocityY player)
    (pl_VelocityZ player) (pl_Speed player) (pl_Requests player) (u64_inc (pl_Seconds player))
    (pl_LastClient player) (pl_OwnerClientID player).

Definition authorized (player : Player) (clientID : string) : bool :=
  bool_decide (pl_OwnerClientID player = ""%string) || bool_decide (clientID = pl_OwnerClientID player).

Definition is_move (action : string) : bool :=
  bool_decide (ToLower (TrimSpace action) ∈ [""%string; "input"%string; "move"%string]).

(** [OnRequest] on the player's struct; [decoded] is what [Decode] gives. *)
Definition player_OnRequest (player : Player) (clientID action : string) (decoded : result PlayerRequest)
    : Player * result unit :=
  if negb (authorized player clientID) then (player, Err ErrUnauthorizedPlayerClient)
  else
    match decoded with
    | Err e => (player, Err e)
    | Ok request =>
        if is_move action then
          let one := f_of_Z 1 in
          let minus_one := f_of_Z (-1) in
          (mkPlayer (pl_ID player) (pl_X player) (pl_Y player) (pl_Z player)
             (clamp (pr_X request) minus_one one) (clamp (pr_Y request) minus_one one)
             (clamp (pr_Z request) minus_one one) (pl_Speed player) (u64_inc (pl_Requests player))
             (pl_Seconds player) clientID (pl_OwnerClientID player), Ok tt)
        else (player, Err ErrUnsupportedPlayerAction)
    end.

(** ** Buildings *)
Definition NewBuilding (id : string) : Building :=
  mkBuilding id "building" f_zero f_zero f_zero 100 0 0 "".

Definition building_OnFullTick (building : Building) : Building :=
  mkBuilding (bd_ID building) (bd_Kind building) (bd_X building) (bd_Y building) (bd_Z building)
    (bd_Health building) (bd_Requests building) (u64_inc (bd_Seconds building)) (bd_LastClient building).

Definition set_health (building : Building) (health : Z) : Building :=
  mkBuilding (bd_ID building) (bd_Kind building) (bd_X building) (bd_Y building) (bd_Z building)
    health (bd_Requests building) (bd_Seconds building) (bd_LastClient building).

(** The switch of [OnRequest]; Go's [int] has 64 bits. *)
Definition building_action (building : Building) (action : string) (request : BuildingRequest) : Building :=
  let action := ToLower (TrimSpace action) in
  if bool_decide (action ∈ [""%string; "set"%string; "place"%string]) then
    mkBuilding (bd_ID building)
      (if bool_decide (br_Kind request = ""%string) then bd_Kind building else br_Kind request)
      (br_X request) (br_Y request) (br_Z request)
      (if 0 <? br_Health request then br_Health request else bd_Health building)
      (bd_Requests building) (bd_Seconds building) (bd_LastClient building)
  else if bool_decide (action = "damage"%string) then
    let health := to_i64 (wrap 64 (bd_Health building - br_Amount request)) in
    set_health building (if health <? 0 then 0 else health)
  else if bool_decide (action = "repair"%string) then
    set_health building (to_i64 (wrap 64 (bd_Health building + br_Amount request)))
  else building.

Definition building_OnRequest (building : Building) (clientID action : string) (decoded : result BuildingRequest)
    : Building * result unit :=
  match decoded with
  | Err e => (building, Err e)
  | Ok request =>
      let building := building_action building action request in
      (mkBuilding (bd_ID building) (bd_Kind building) (bd_X building) (bd_Y building) (bd_Z building)
         (bd_Health building) (u64_inc (bd_Requests building)) (bd_Seconds building) clientID, Ok tt)
  end.

(** ** Snapshots: the structs as reflection sees them *)
Definition exported (name tag : string) (value : GoValue) : StructField * GoValue :=
  (mkStructField name "" tag, value).
Definition VFloat (x : f64) : GoValue := VFloat64 (f_bits x).

Definition player_value (player : Player) : GoValue := VStruct [
  exported "ID" "id" (VString (pl_ID player));
  exported "X" "x" (VFloat (pl_X player));
  exported "Y" "y" (VFloat (pl_Y player));
  exported "Z" "z,omitempty" (VFloat (pl_Z player));
  exported "VelocityX" "velocityX" (VFloat (pl_VelocityX player));
  exported "VelocityY" "velocityY" (VFloat (pl_VelocityY player));
  exported "VelocityZ" "velocityZ,omitempty" (VFloat (pl_VelocityZ player));
  exported "Speed" "speed" (VFloat (pl_Speed player));
  exported "Requests" "requests" (VUint (pl_Requests player));
  exported "Seconds" "seconds" (VUint (pl_Seconds player));
  exported "LastClient" "lastClient,omitempty" (VString (pl_LastClient player));
  exported "OwnerClientID" "-" (VString (pl_OwnerClientID player))]%string.

Definition building_value (building : Building) : GoValue := VStruct [
  exported "ID" "id" (VString (bd_ID building));
  exported "Kind" "kind" (VString (bd_Kind building));
  exported "X" "x" (VFloat (bd_X building));
  exported "Y" "y" (VFloat (bd_Y building));
  exported "Z" "z,omitempty" (VFloat (bd_Z building));
  exported "Health" "health" (VInt (bd_Health building));
  exported "Requests" "requests" (VUint (bd_Requests building));
  exported "Seconds" "seconds" (VUint (bd_Seconds building));
  exported "LastClient" "lastClient,omitempty" (VString (bd_LastClient building))]%string.

(** ** The heap *)
Definition on_players (h : Heap) (f : gmap nat Player -> gmap nat Player) : Heap :=
  mkHeap (f (players h)) (buildings h) (authenticators h).
Definition on_buildings (h : Heap) (f : gmap nat Building -> gmap nat Building) : Heap :=
  mkHeap (players h) (f (buildings h)) (authenticators h).
Definition on_authenticators (h : Heap) (f : gmap nat PlayerAuthenticator -> gmap nat PlayerAuthenticator) : Heap :=
  mkHeap (players h) (buildings h) (f (authenticators h)).

(** [&Player{...}] and the like: a new pointer. *)
Definition new_player (h : Heap) (player : Player) : Heap * NetObject :=
  let p := fresh (dom (players h)) in (on_players h (<[p := player]>), PlayerPtr p).
Definition new_building (h : Heap) (building : Building) : Heap * NetObject :=
  let p := fresh (dom (buildings h)) in (on_buildings h (<[p := building]>), BuildingPtr p).
Definition new_authenticator (h : Heap) (authenticator : PlayerAuthenticator) : Heap * NetObject :=
  let p := fresh (dom (authenticators h)) in (on_authenticators h (<[p := authenticator]>), AuthenticatorPtr p).

Definition net_ObjectType (o : NetObject) : string :=
  match o with
  | PlayerPtr _ => "player"
  | BuildingPtr _ => "building"
  | AuthenticatorPtr _ => "player-auth"
  end.

Definition net_ObjectID (o : NetObject) (h : Heap) : string :=
  default ""%string
    match o with
    | PlayerPtr p => pl_ID <$> players h !! p
    | BuildingPtr p => bd_ID <$> buildings h !! p
    | AuthenticatorPtr p => pa_ID <$> authenticators h !! p
    end.

Definition net_Snapshot (o : NetObject) (h : Heap) : GoValue :=
  default VNil
    match o with
    | PlayerPtr p => player_value <$> players h !! p
    | BuildingPtr p => building_value <$> buildings h !! p
    | AuthenticatorPtr _ => None
    end.

(** [fmt.Sprintf("player-%d", n)]. *)
Definition player_id (n : Z) : string := "player-" +:+ pretty (Z.to_N n).

(** ** Facts about players *)

(** What happens to a player: its hooks, and the methods that the game may call. *)
Inductive hook_step : Player -> Player -> Prop :=
| step_request player clientID action decoded :
    hook_step player (player_OnRequest player clientID action decoded).1
| step_tick player deltaSeconds : hook_step player (player_OnTick player deltaSeconds)
| step_full_tick player : hook_step player (player_OnFullTick player).

Inductive player_step : Player -> Player -> Prop :=
| step_hook player player' : hook_step player player' -> player_step player player'
| step_assign player clientID : player_step player (AssignClient player clientID)
| step_speed player speed : player_step player (SetSpeed player speed)
| step_teleport player x y z : player_step player (Teleport player x y z).

Definition unit_velocity (v : f64) : Prop :=
  v = NaN \/ f_le (f_of_Z (-1)) v = true /\ f_le v (f_of_Z 1) = true.

Record player_ok (player : Player) : Prop := {
  ok_VelocityX : unit_velocity (pl_VelocityX player);
  ok_VelocityY : unit_velocity (pl_VelocityY player);
  ok_VelocityZ : unit_velocity (pl_VelocityZ player);
  ok_Speed : f_lt f_zero (pl_Speed player) = true
}.

Lemma f_lt_false x y : x <> NaN -> y <> NaN -> f_lt x y = false -> f_le y x = true.
Proof. destruct x, y; try done; intros _ _; unfold f_lt; by intros ?%negb_false_iff. Qed.

Lemma unit_bounds :
  f_le (f_of_Z (-1)) (f_of_Z (-1)) = true /\ f_le (f_of_Z (-1)) (f_of_Z 1) = true /\
  f_le (f_of_Z 1) (f_of_Z 1) = true /\ is_nan (f_of_Z (-1)) = false /\ is_nan (f_of_Z 1) = false.
Proof. vm_compute. repeat split. Qed.

Lemma clamp_unit x : unit_velocity (clamp x (f_of_Z (-1)) (f_of_Z 1)).
Proof.
  destruct unit_bounds as (H1 & H2 & H3 & H4 & H5). revert H1 H2 H3 H4 H5.
  unfold clamp, unit_velocity. generalize (f_of_Z (-1)) (f_of_Z 1). intros lo hi H1 H2 H3 H4 H5.
  destruct (f_lt x lo) eqn:E1; [by right|]. destruct (f_lt hi x) eqn:E2; [by right|].
  destruct (decide (x = NaN)) as [->|Hn]; [by left | right].
  split; (apply f_lt_false; [| |done]); congruence || (by intros ->).
Qed.

Lemma player_step_ok player player' : player_step player player' -> player_ok player -> player_ok player'.
Proof.
  intros Hstep [H1 H2 H3 H4]. destruct Hstep as [pl pl' Hhook| | |]; try by split.
  - destruct Hhook as [pl clientID action decoded| |]; [|by split..].
    unfold player_OnRequest. destruct (negb _); [by split|]. destruct decoded as [request|e]; [|by split].
    destruct (is_move action); [|by split]. split; cbn; try apply clamp_unit. done.
  - unfold SetSpeed. destruct (f_lt f_zero speed) eqn:E; by split.
Qed.

Lemma nan_add x : f_add NaN x = NaN.
Proof. done. Qed.

Lemma nan_add_r x : f_add x NaN = NaN.
Proof. by destruct x. Qed.

Lemma hook_step_nan player player' : hook_step player player' -> pl_X player = NaN -> pl_X player' = NaN.
Proof.
  intros Hstep. destruct Hstep as [pl clientID action decoded|pl dt|pl]; [|cbn; unfold moved; by intros ->|done].
  unfold player_OnRequest. destruct (negb _); [done|]. destruct decoded; [|done]. by destruct (is_move action).
Qed.

(** ** Facts about requests *)
Ltac typed_fields :=
  repeat match goal with
  | H : Forall2 _ ?vs (_ :: _) |- _ => inversion H as [|? ? ? ? ?]; subst; clear H
  | H : Forall2 _ ?vs [] |- _ => inversion H; subst; clear H
  end.

Ltac reflect_laws :=
  split; [|by intros []]; intros v Hv; destruct v as [| | | |vs| | | | |]; try done;
  apply typed_struct in Hv; cbn in Hv; typed_fields;
  repeat match goal with H : typed ?v _ = true |- _ => destruct v; try done; clear H end; try by eexists.

#[export] Instance PlayerRequest_laws : ReflectLaws PlayerRequest.
Proof. reflect_laws. Qed.

#[export] Instance BuildingRequest_laws : ReflectLaws BuildingRequest.
Proof. reflect_laws. Qed.

(** A [PlayerInput] that arrives as a request sets the direction; the speed stays 0. *)
Lemma player_input_decoded {reflection : Reflection} json input :
  decode_as json zero_player_request (AnyValue (MPlayerInput input)) =
    Ok (mkPlayerRequest (f32_of_bits (pin_X input)) (f32_of_bits (pin_Y input)) (f32_of_bits (pin_Z input)) f_zero).
Proof.
  destruct input as [sequence tick id x y z]. unfold decode_as.
  change (payload_val _ _ _) with (Some (struct "network.PlayerInput" [f_uint "Sequence" tUint64 sequence;
    f_uint "Tick" tUint64 tick; f_string "ObjectID" id;
    (plain "X" tFloat32, GFloat (f32_of_bits x)); (plain "Y" tFloat32, GFloat (f32_of_bits y));
    (plain "Z" tFloat32, GFloat (f32_of_bits z))])).
  cbn [pin_X pin_Y pin_Z]. generalize (f32_of_bits x) (f32_of_bits y) (f32_of_bits z). intros a b c.
  vm_compute. reflexivity.
Qed.

(** ** Facts about identifiers *)
Lemma pretty_N_plain (n : N) : Forall (fun b => plain_byte b = true) (bytes_of_string (pretty n)).
Proof.
  assert (forall n s, Forall (fun b => plain_byte b = true) (bytes_of_string s) ->
    Forall (fun b => plain_byte b = true) (bytes_of_string (pretty_N_go n s))) as H.
  { clear n. intros n. induction (N.lt_wf_0 n) as [n _ IH]. intros s Hs.
    destruct (decide (0 < n)%N) as [Hn|Hn]; [|replace n with 0%N by lia; by rewrite pretty_N_go_0].
    rewrite pretty_N_go_step by done. apply IH; [by apply N.div_lt|]. cbn [String.list_byte_of_string].
    constructor; [|done]. unfold pretty_N_char. by repeat case_match. }
  unfold pretty, pretty_N. destruct (decide _); [by repeat constructor | apply H; constructor].
Qed.

Lemma player_id_key n : key_ok (player_id n).
Proof.
  split; [|done]. apply key_normal_plain. unfold player_id.
  assert (forall s, bytes_of_string ("player-" +:+ s) = bytes_of_string "player-" ++ bytes_of_string s) as -> by done.
  apply Forall_app. split; [by repeat constructor | apply pretty_N_plain].
Qed.

Lemma player_id_inj n m : 0 <= n -> 0 <= m -> player_id n = player_id m -> n = m.
Proof.
  unfold player_id. intros Hn Hm H. apply (inj (String.append "player-")) in H. apply (inj pretty) in H. lia.
Qed.

(** ** The objects as game code

    [X] is what the game's state has beside the heap, [Payload] the payloads of
    inputs; the objects touch neither. *)
Section Instance.
Context {X Payload : Type}.
Abbreviation Game := (Heap * X)%type.
Abbreviation Runtime := (Runtime NetObject SampleFactory Payload).
Abbreviation World := (World NetObject SampleFactory Payload Game).
Abbreviation RequestContext := (RequestContext NetObject SampleFactory Payload Game).

(** JSON at the two request types: of a payload that is marshalled first, and of the
    data of a request. *)
Context {reflection : Reflection}.
Context (remarshalPlayer : GoAny -> PlayerRequest -> result PlayerRequest).
Context (unmarshalPlayer : bytes -> result PlayerRequest).
Context (remarshalBuilding : GoAny -> BuildingRequest -> result BuildingRequest).
Context (unmarshalBuilding : bytes -> result BuildingRequest).

Definition heap (w : World) : Heap := w.2.1.
Definition on_heap (w : World) (f : Heap -> Heap) : World := (w.1, (f w.2.1, w.2.2)).

(** The identity of an object, by the methods [ObjectType] and [ObjectID] alone. *)
Definition net_identity (o : NetObject) (h : Heap) : result (string * string) :=
  let objectType := normalizeObjectKey (net_ObjectType o) in
  if empty_key objectType then Err ErrMissingObjectType
  else
    let objectID := normalizeObjectKey (net_ObjectID o h) in
    if empty_key objectID then Err ErrMissingObjectID else Ok (objectType, objectID).

Definition EnableInterest (config : InterestManagementConfig) (w : World) : World :=
  on_runtime w (fun r => on_interest r (fun m => EnableInterestManagement m config)).

Definition SetScene (o : NetObject) (scene : SceneID) (w : World) : World :=
  let identity := net_identity o (heap w) in
  on_runtime w (fun r => on_scenes r (fun m => (SetObjectSceneForObject m identity scene).1)).

Definition SetClient (clientID : string) (scene : SceneID) (w : World) : World :=
  on_runtime w (fun r => on_scenes r (fun m => (SetClientScene m clientID scene).1)).

Definition net_OnInit (o : NetObject) (ctx : InitContext NetObject) (w : World) : World :=
  match o with
  | PlayerPtr _ =>
      let w := EnableInterest (PlayerInterest (net_identity o (heap w)) "x" "y" "z" defaultInterestRadius) w in
      SetScene o defaultPlayerScene w
  | BuildingPtr _ => EnableInterest (GameObjectInterest (net_identity o (heap w)) "x" "y" "z") w
  | AuthenticatorPtr _ => w
  end.

Definition net_OnTick (o : NetObject) (ctx : TickContext) (w : World) : World :=
  match o with
  | PlayerPtr p => on_heap w (fun h => on_players h (alter (fun pl => player_OnTick pl (tk_DeltaSeconds ctx)) p))
  | _ => w
  end.

Definition net_OnFullTick (o : NetObject) (ctx : TickContext) (w : World) : World :=
  match o with
  | PlayerPtr p => on_heap w (fun h => on_players h (alter player_OnFullTick p))
  | BuildingPtr p => on_heap w (fun h => on_buildings h (alter building_OnFullTick p))
  | AuthenticatorPtr _ => w
  end.

Definition net_OnRequest (o : NetObject) (ctx : RequestContext) (w : World) : World * result unit :=
  match o with
  | PlayerPtr p =>
      match players (heap w) !! p with
      | Some player =>
          let (player, r) := player_OnRequest player (rc_ClientID ctx) (rm_Action (rc_Request ctx))
                               (Decode (decode_as remarshalPlayer zero_player_request) unmarshalPlayer zero_player_request ctx) in
          (on_heap w (fun h => on_players h (<[p := player]>)), r)
      | None => (w, Err ErrPanic)
      end
  | BuildingPtr p =>
      match buildings (heap w) !! p with
      | Some building =>
          let (building, r) := building_OnRequest building (rc_ClientID ctx) (rm_Action (rc_Request ctx))
                                 (Decode (decode_as remarshalBuilding zero_building_request) unmarshalBuilding zero_building_request ctx) in
          (on_heap w (fun h => on_buildings h (<[p := building]>)), r)
      | None => (w, Err ErrPanic)
      end
  | AuthenticatorPtr _ => (w, Ok tt)
  end.

Definition net_OnSceneSwitchRequest (o : NetObject) (ctx : SceneSwitchContext NetObject SampleFactory Payload Game)
    (w : World) : World * (SceneSwitchDecision * result unit) :=
  match o with
  | PlayerPtr p =>
      match players (heap w) !! p with
      | Some player =>
          if negb (authorized player (sc_ClientID ctx))
          then (w, (no_decision, Err ErrUnauthorizedPlayerClient))
          else (w, (SceneSwitchAllowed, Ok tt))
      | None => (w, (no_decision, Err ErrPanic))
      end
  | _ => (w, (no_decision, Ok tt))
  end.

Definition net_FactoryCreate (factory : SampleFactory) (ctx : RequestContext) (w : World)
    : World * result (option NetObject) :=
  let id := rm_ObjectID (rc_Request ctx) in
  let (h, o) :=
    match factory with
    | PlayerFactory => new_player (heap w) (NewPlayer id)
    | BuildingFactory => new_building (heap w) (NewBuilding id)
    end in
  (on_heap w (fun _ => h), Ok (Some o)).

(** The objects without the authenticator's hook, which registers objects itself. *)
#[local] Instance net_objects_base : GameCode NetObject SampleFactory Payload Game := {
  ObjectType o _ := net_ObjectType o;
  ObjectID o g := net_ObjectID o g.1;
  ObjectSnapshot o g := net_Snapshot o g.1;
  OnInit o := match o with AuthenticatorPtr _ => None | _ => Some (fun ctx => net_OnInit o ctx) end;
  OnTick o := match o with PlayerPtr _ => Some (fun ctx => net_OnTick o ctx) | _ => None end;
  OnFullTick o := match o with AuthenticatorPtr _ => None | _ => Some (fun ctx => net_OnFullTick o ctx) end;
  OnRequest o := match o with AuthenticatorPtr _ => None | _ => Some (fun ctx => net_OnRequest o ctx) end;
  OnAuthenticationAttempt _ := None;
  OnSceneSwitchRequest o :=
    match o with PlayerPtr _ => Some (fun ctx => net_OnSceneSwitchRequest o ctx) | _ => None end;
  SnapshotVisible o := match o with AuthenticatorPtr _ => Some (fun _ => false) | _ => None end;
  SnapshotPriority _ := None;
  FactoryCreate := net_FactoryCreate
}.

(** [PlayerAuthenticator.OnAuthenticationAttempt]; [ctx.Runtime] is never nil here. *)
Definition net_OnAuthenticationAttempt (p : nat) (ctx : AuthenticationContext) (w : World) : World * result string :=
  match authenticators (heap w) !! p with
  | None => (w, Err ErrPanic)
  | Some authenticator =>
      let next := u64_inc (pa_NextPlayerID authenticator) in
      let playerID := player_id next in
      let w := on_heap w (fun h => on_authenticators h (<[p := mkAuthenticator (pa_ID authenticator) next]>)) in
      let (h, player) := new_player (heap w) (AssignClient (NewPlayer playerID) playerID) in
      let w := on_heap w (fun _ => h) in
      let (w, registered) := RegisterObject (Some player) w in
      match registered with
      | Err e => (w, Err e)
      | Ok _ =>
          let w := SetScene player defaultPlayerScene w in
          (SetClient playerID defaultPlayerScene w, Ok playerID)
      end
  end.

Definition net_objects : GameCode NetObject SampleFactory Payload Game := {|
  ObjectType o (_ : Game) := net_ObjectType o;
  ObjectID o g := net_ObjectID o g.1;
  ObjectSnapshot o g := net_Snapshot o g.1;
  OnInit := OnInit (GameCode := net_objects_base);
  OnTick := OnTick (GameCode := net_objects_base);
  OnFullTick := OnFullTick (GameCode := net_objects_base);
  OnRequest := OnRequest (GameCode := net_objects_base);
  OnAuthenticationAttempt o :=
    match o with AuthenticatorPtr p => Some (net_OnAuthenticationAttempt p) | _ => None end;
  OnSceneSwitchRequest := OnSceneSwitchRequest (GameCode := net_objects_base);
  SnapshotVisible := SnapshotVisible (GameCode := net_objects_base);
  SnapshotPriority _ := None;
  FactoryCreate := net_FactoryCreate
|}.

(** [Register], with the server's methods that it calls. *)
Definition Register (w : World) : World * result unit :=
  let (h, authenticator) := new_authenticator (heap w) (NewPlayerAuthenticator "default") in
  let w := on_heap w (fun _ => h) in
  let (w, r) := RegisterAuthenticationObject (GameCode0 := net_objects) (Some authenticator) w in
  match r with
  | Err e => (w, Err e)
  | Ok _ =>
      let (runtime, r) := RegisterFactory w.1 "player" (Some PlayerFactory) in
      let w := (runtime, w.2) in
      match r with
      | Err e => (w, Err e)
      | Ok _ =>
          let (runtime, r) := RegisterFactory w.1 "building" (Some BuildingFactory) in
          ((runtime, w.2), r)
      end
  end.

(** ** The objects reach the runtime through its methods *)
Lemma net_identity_eq (gc : GameCode NetObject SampleFactory Payload Game) o (g : Game) :
  ObjectType o g = net_ObjectType o -> ObjectID o g = net_ObjectID o g.1 ->
  objectIdentity (Some o) g = net_identity o g.1.
Proof. intros H1 H2. unfold objectIdentity, net_identity. by rewrite H1, H2. Qed.

Section Steps.
Context (gc : GameCode NetObject SampleFactory Payload Game).
Abbreviation steps := (api_steps (GameCode0 := gc)).

Lemma EnableInterest_steps config (w : World) : steps w.1 (EnableInterest config w).1.
Proof. apply rtc_once. exact (api_interest w.1 (OpEnable config)). Qed.

Lemma SetScene_steps o scene (w : World) : steps w.1 (SetScene o scene w).1.
Proof.
  unfold SetScene. destruct (net_identity o (heap w)) as [[t i]|e].
  - apply rtc_once. exact (api_scene w.1 (OpSetObject t i scene)).
  - destruct w as [[c t os fs i m a [f1 f2] t1 t2] g]. reflexivity.
Qed.

Lemma SetClient_steps clientID scene (w : World) : steps w.1 (SetClient clientID scene w).1.
Proof. apply rtc_once. exact (api_scene w.1 (OpSetClient clientID scene)). Qed.

Lemma net_OnInit_steps o ctx (w : World) : steps w.1 (net_OnInit o ctx w).1.
Proof.
  destruct o; [|apply EnableInterest_steps | reflexivity].
  etrans; [apply EnableInterest_steps | apply SetScene_steps].
Qed.

(** The other hooks work on the heap. *)
Lemma net_OnTick_runtime o ctx (w : World) : (net_OnTick o ctx w).1 = w.1 /\ (net_OnTick o ctx w).2.2 = w.2.2.
Proof. by destruct o. Qed.

Lemma net_OnFullTick_runtime o ctx (w : World) :
  (net_OnFullTick o ctx w).1 = w.1 /\ (net_OnFullTick o ctx w).2.2 = w.2.2.
Proof. by destruct o. Qed.

Lemma net_OnRequest_runtime o ctx (w : World) :
  (net_OnRequest o ctx w).1.1 = w.1 /\ (net_OnRequest o ctx w).1.2.2 = w.2.2.
Proof.
  destruct o as [p|p|p]; cbn [net_OnRequest]; [| |done].
  - destruct (players (heap w) !! p); [|done]. by destruct (player_OnRequest _ _ _ _).
  - destruct (buildings (heap w) !! p); [|done]. by destruct (building_OnRequest _ _ _ _).
Qed.

Lemma net_OnSceneSwitchRequest_world o ctx (w : World) : (net_OnSceneSwitchRequest o ctx w).1 = w.
Proof.
  destruct o as [p|p|p]; cbn [net_OnSceneSwitchRequest]; [|done..].
  destruct (players (heap w) !! p); [|done]. by destruct (negb _).
Qed.

Lemma net_FactoryCreate_runtime factory ctx (w : World) :
  (net_FactoryCreate factory ctx w).1.1 = w.1 /\ (net_FactoryCreate factory ctx w).1.2.2 = w.2.2.
Proof. by destruct factory. Qed.
End Steps.

#[local] Instance base_laws : GameLaws (GameCode0 := net_objects_base).
Proof.
  split.
  - intros [p|p|p] hook ctx w [= <-]; apply net_OnInit_steps.
  - intros [p|p|p] hook ctx w [= <-]. rewrite (proj1 (net_OnTick_runtime (PlayerPtr p) ctx w)). reflexivity.
  - intros [p|p|p] hook ctx w [= <-];
      [rewrite (proj1 (net_OnFullTick_runtime (PlayerPtr p) ctx w)) |
       rewrite (proj1 (net_OnFullTick_runtime (BuildingPtr p) ctx w))]; reflexivity.
  - intros [p|p|p] hook ctx w [= <-] _;
      [rewrite (proj1 (net_OnRequest_runtime (PlayerPtr p) ctx w)) |
       rewrite (proj1 (net_OnRequest_runtime (BuildingPtr p) ctx w))]; reflexivity.
  - intros o hook ctx w [=].
  - intros [p|p|p] hook ctx w [= <-] _. rewrite (net_OnSceneSwitchRequest_world (PlayerPtr p) ctx w). reflexivity.
  - intros f ctx w _. cbn [FactoryCreate net_objects_base].
    rewrite (proj1 (net_FactoryCreate_runtime f ctx w)). reflexivity.
Qed.

(** No base object authenticates, so that every step of the base objects is one of all. *)
Lemma base_steps r r' :
  api_steps (GameCode0 := net_objects_base) r r' -> api_steps (GameCode0 := net_objects) r r'.
Proof.
  apply rtc_subrel. intros r1 r2 H. destruct H; try (by constructor).
  by destruct H2.
Qed.

Lemma net_OnAuthenticationAttempt_steps p ctx (w : World) :
  api_steps (GameCode0 := net_objects) w.1 (net_OnAuthenticationAttempt p ctx w).1.1.
Proof.
  unfold net_OnAuthenticationAttempt. destruct (authenticators (heap w) !! p) as [a|]; [|reflexivity].
  destruct (new_player _ _) as [h player].
  match goal with |- context [RegisterObject (Some player) ?w1] =>
    pose proof (RegisterObject_steps (GameCode0 := net_objects_base) (Some player) w1) as H;
    destruct (RegisterObject (Some player) w1) as [w2 [[]|e]] end;
    cbn [fst] in *; apply base_steps in H; [|exact H].
  etrans; [exact H|]. etrans; [apply SetScene_steps | apply SetClient_steps].
Qed.

Lemma net_objects_lawful : GameLaws (GameCode0 := net_objects).
Proof.
  split.
  - intros o hook ctx w H. apply base_steps. exact (law_init (GameCode0 := net_objects_base) o hook ctx w H).
  - intros o hook ctx w H. apply base_steps. exact (law_tick (GameCode0 := net_objects_base) o hook ctx w H).
  - intros o hook ctx w H. apply base_steps. exact (law_full_tick (GameCode0 := net_objects_base) o hook ctx w H).
  - intros [p|p|p] hook ctx w [= <-] _;
      [rewrite (proj1 (net_OnRequest_runtime (PlayerPtr p) ctx w)) |
       rewrite (proj1 (net_OnRequest_runtime (BuildingPtr p) ctx w))]; reflexivity.
  - intros [p|p|p] hook ctx w [= <-]. apply net_OnAuthenticationAttempt_steps.
  - intros [p|p|p] hook ctx w [= <-] _. rewrite (net_OnSceneSwitchRequest_world (PlayerPtr p) ctx w). reflexivity.
  - intros f ctx w _. change (FactoryCreate f ctx w) with (net_FactoryCreate f ctx w). rewrite (proj1 (net_FactoryCreate_runtime f ctx w)). reflexivity.
Qed.

(** ** Logins *)
Lemma net_identity_player h q player :
  players h !! q = Some player -> key_ok (pl_ID player) ->
  net_identity (PlayerPtr q) h = Ok ("player"%string, pl_ID player).
Proof.
  intros Hq [Hk Hne]%key_ok_eq. unfold net_identity.
  assert (net_ObjectID (PlayerPtr q) h = pl_ID player) as -> by (cbn; by rewrite Hq).
  change (normalizeObjectKey (net_ObjectType (PlayerPtr q))) with "player"%string. by rewrite Hk, Hne.
Qed.

Lemma SetScene_sets o scene t i (w : World) :
  net_identity o (heap w) = Ok (t, i) -> key_ok t -> key_ok i -> key_ok scene ->
  ObjectScene (scenes (features (SetScene o scene w).1)) t i = Some scene.
Proof.
  intros Hid Ht Hi Hs. unfold SetScene. rewrite Hid.
  exact (ObjectScene_set (scenes (features w.1)) t i scene Ht Hi Hs).
Qed.

(** Registration gives the object's key to the object; interest and scene follow
    from [OnInit], and the game's state stays. *)
Lemma RegisterObject_player (w : World) q player :
  players (heap w) !! q = Some player -> key_ok (pl_ID player) ->
  let (w', r) := RegisterObject (GameCode0 := net_objects_base) (Some (PlayerPtr q)) w in
  r = Ok tt /\ w'.2 = w.2 /\ objects w'.1 = objects (store w.1 "player" (pl_ID player) (PlayerPtr q)) /\
  ObjectScene (scenes (features w'.1)) "player" (pl_ID player) = Some defaultPlayerScene.
Proof.
  intros Hq Hk. pose proof (net_identity_player _ _ _ Hq Hk) as Hid.
  unfold RegisterObject. rewrite (net_identity_eq net_objects_base) by done.
  change (w.2.1) with (heap w). rewrite Hid. split_and!; try done.
  apply SetScene_sets; [exact Hid | by split | done | by split].
Qed.

Lemma login_spec p authenticator ctx (w : World) :
  authenticators (heap w) !! p = Some authenticator ->
  let next := u64_inc (pa_NextPlayerID authenticator) in
  let id := player_id next in
  exists q, players (heap w) !! q = None /\
  let (w', r) := net_OnAuthenticationAttempt p ctx w in
  r = Ok id /\
  authenticators (heap w') = <[p := mkAuthenticator (pa_ID authenticator) next]> (authenticators (heap w)) /\
  players (heap w') = <[q := AssignClient (NewPlayer id) id]> (players (heap w)) /\
  pl_OwnerClientID (AssignClient (NewPlayer id) id) = id /\
  buildings (heap w') = buildings (heap w) /\ w'.2.2 = w.2.2 /\
  objects w'.1 = objects (store w.1 "player" id (PlayerPtr q)) /\
  ObjectScene (scenes (features w'.1)) "player" id = Some defaultPlayerScene /\
  ClientScene (scenes (features w'.1)) id = Some defaultPlayerScene.
Proof.
  intros Hp next id. pose proof (player_id_key next) as Hk. fold id in Hk.
  exists (fresh (dom (players (heap w)))). split; [apply not_elem_of_dom, is_fresh|].
  unfold net_OnAuthenticationAttempt. rewrite Hp. fold next. fold id. cbn [new_player].
  set (q := fresh _). set (player := AssignClient _ _).
  match goal with |- context [RegisterObject _ ?w1] =>
    pose proof (RegisterObject_player w1 q player ltac:(apply lookup_insert_eq) Hk) as H;
    destruct (RegisterObject _ w1) as [w2 r] end.
  destruct H as (-> & H2 & H3 & H4).
  change (heap (SetClient _ _ _)) with w2.2.1. change ((SetClient _ _ _).2.2) with w2.2.2. rewrite H2.
  assert (net_identity (PlayerPtr q) (heap w2) = Ok ("player"%string, id)) as Hid.
  { apply (net_identity_player _ _ player); [|done]. unfold heap. rewrite H2. apply lookup_insert_eq. }
  split_and!; try done.
  - cbn. apply (proj1 Hk).
  - unfold SetClient. etrans; [apply ObjectScene_client|]. apply SetScene_sets; [done.. | by split].
  - apply ClientScene_set; [done | by split].
Qed.
End Instance.

(** ** The sample game on the server *)
Section SampleServer.
Context {libraries : Libraries}.
Context (remarshalPlayer : GoAny -> PlayerRequest -> result PlayerRequest).
Context (unmarshalPlayer : bytes -> result PlayerRequest).
Context (remarshalBuilding : GoAny -> BuildingRequest -> result BuildingRequest).
Context (unmarshalBuilding : bytes -> result BuildingRequest).
Abbreviation World := (World NetObject SampleFactory InputPayload (Heap * Net)).
Abbreviation login p := (net_OnAuthenticationAttempt (X := Net) (Payload := InputPayload)
  remarshalPlayer unmarshalPlayer remarshalBuilding unmarshalBuilding p).
#[local] Instance sample_game : GameCode NetObject SampleFactory InputPayload (Heap * Net) :=
  net_objects remarshalPlayer unmarshalPlayer remarshalBuilding unmarshalBuilding.

Lemma login_net p ctx (w : World) : (login p ctx w).1.2.2 = w.2.2.
Proof.
  destruct (authenticators (heap w) !! p) as [a|] eqn:Hp; [|by unfold net_OnAuthenticationAttempt; rewrite Hp].
  destruct (login_spec remarshalPlayer unmarshalPlayer remarshalBuilding unmarshalBuilding p a ctx w Hp) as (q & _ & H).
  destruct (net_OnAuthenticationAttempt _ _ _ _ _ _ _) as [w' r]. by destruct H as (_ & _ & _ & _ & _ & H & _).
Qed.

(** The sample objects keep every law that the server asks of a game: their hooks change
    the runtime through its methods only, and none of them reaches the client table. *)
Lemma sample_laws r :
  NewDefaultWireMessageRegistry = Ok r ->
  (forall payload request, unmarshalRequest payload = Ok request -> in_u64 (rm_Sequence request)) ->
  ServerLaws (GameCode0 := sample_game) (Some r).
Proof.
  intros Hr Hjson. assert (forall w w' : World, w'.2.2 = w.2.2 -> keeps (net w) (net w')) as Hkeep.
  { intros w w' H. unfold net. by rewrite H. }
  split.
  - apply net_objects_lawful.
  - intros [p|p|p] hook ctx w [= <-]. apply Hkeep. 
    exact (proj2 (net_OnTick_runtime (PlayerPtr p) ctx w)).
  - intros [p|p|p] hook ctx w [= <-]; apply Hkeep;
      [exact (proj2 (net_OnFullTick_runtime (PlayerPtr p) ctx w)) |
       exact (proj2 (net_OnFullTick_runtime (BuildingPtr p) ctx w))].
  - intros [p|p|p] hook ctx w [= <-] _; apply Hkeep;
      [exact (proj2 (net_OnRequest_runtime _ _ _ _ (PlayerPtr p) ctx w)) |
       exact (proj2 (net_OnRequest_runtime _ _ _ _ (BuildingPtr p) ctx w))].
  - intros [p|p|p] hook ctx w [= <-]. apply Hkeep, login_net.
  - intros [p|p|p] hook ctx w [= <-] _. by rewrite (net_OnSceneSwitchRequest_world (PlayerPtr p) ctx w).
  - intros id d handler ctx w. exact (default_handler_step r id d handler ctx w Hr).
  - exact Hjson.
Qed.
End SampleServer.

(** ** What the objects do *)

(** C15: a login of the sample game counts the attempt, makes a player of the next
    number, owned by the client of that name, registers it under the name and puts
    both into the default scene.  No other number has the name; the other players
    and objects and the rest of the game's state stay as they are. *)
Theorem login_exact {X Payload : Type} {reflection : Reflection} remarshalPlayer unmarshalPlayer remarshalBuilding
    unmarshalBuilding p authenticator ctx (w : World NetObject SampleFactory Payload (Heap * X)) :
  authenticators (heap w) !! p = Some authenticator ->
  let next := u64_inc (pa_NextPlayerID authenticator) in
  let id := player_id next in
  (forall n, 0 <= n -> player_id n = id -> n = next) /\
  exists q, players (heap w) !! q = None /\
  let (w', r) :=
    net_OnAuthenticationAttempt remarshalPlayer unmarshalPlayer remarshalBuilding unmarshalBuilding p ctx w in
  r = Ok id /\
  authenticators (heap w') = <[p := mkAuthenticator (pa_ID authenticator) next]> (authenticators (heap w)) /\
  players (heap w') = <[q := AssignClient (NewPlayer id) id]> (players (heap w)) /\
  pl_OwnerClientID (AssignClient (NewPlayer id) id) = id /\
  buildings (heap w') = buildings (heap w) /\ w'.2.2 = w.2.2 /\
  objects w'.1 = objects (store w.1 "player" id (PlayerPtr q)) /\
  ObjectScene (scenes (features w'.1)) "player" id = Some defaultPlayerScene /\
  ClientScene (scenes (features w'.1)) id = Some defaultPlayerScene.
Proof.
  intros Hp next id. split; [|by apply login_spec].
  intros n Hn Hid. apply player_id_inj; [done | | exact Hid]. unfold next, u64_inc. apply wrap_range. lia.
Qed.

(** What the runtime and the game do to a player, from its creation on, keeps its
    velocity within -1 and 1 in every direction (or not a number) and its speed positive. *)
Theorem player_velocity id player : rtc player_step (NewPlayer id) player -> player_ok player.
Proof.
  intros H. assert (player_ok (NewPlayer id)) as Hnew.
  { split; [right; split; vm_compute; reflexivity .. | vm_compute; reflexivity]. }
  revert Hnew. induction H as [|pl pl' pl'' Hstep _ IH]; [done|]. intros Hok. by apply IH, (player_step_ok pl).
Qed.

Lemma clamp_nan min max : clamp NaN min max = NaN.
Proof. by destruct min, max. Qed.

Lemma hook_steps_nan player player' : rtc hook_step player player' -> pl_X player = NaN -> pl_X player' = NaN.
Proof. induction 1 as [|pl pl' pl'' Hstep _ IH]; [done|]. intros H. by apply IH, (hook_step_nan pl). Qed.

(** C17: one input that is not a number loses the player's position for good.  A
    [PlayerInput] whose X is a NaN passes the validation of its message, [Decode] and
    [clamp], so that the next tick makes X of the player a NaN; no request and no
    tick ever makes it a number again. *)
Theorem nan_input_sticks {reflection : Reflection} json player clientID action input deltaSeconds :
  authorized player clientID = true -> is_move action = true ->
  pin_ObjectID input <> ""%string -> f32_of_bits (pin_X input) = NaN ->
  validatePlayerInput (AnyValue (MPlayerInput input)) = Ok tt /\
  let (player1, r) :=
    player_OnRequest player clientID action (decode_as json zero_player_request (AnyValue (MPlayerInput input))) in
  r = Ok tt /\ pl_VelocityX player1 = NaN /\
  forall player2, rtc hook_step (player_OnTick player1 deltaSeconds) player2 -> pl_X player2 = NaN.
Proof.
  intros Ha Hm Hid Hx. split.
  { cbn. by destruct (decide (pin_ObjectID input = ""%string)). }
  rewrite player_input_decoded. unfold player_OnRequest. rewrite Ha, Hm. cbn [negb pr_X]. rewrite Hx.
  split_and!; [done | apply clamp_nan |]. intros player2 H. apply (hook_steps_nan _ _ H).
  cbn [pl_X player_OnTick pl_VelocityX]. rewrite clamp_nan. apply nan_add_r.
Qed.

(** The owner alone moves a player; what is refused leaves it as it is. *)
Theorem player_refuses player clientID action decoded :
  pl_OwnerClientID player <> ""%string -> clientID <> pl_OwnerClientID player ->
  player_OnRequest player clientID action decoded = (player, Err ErrUnauthorizedPlayerClient).
Proof.
  intros H1 H2. unfold player_OnRequest, authorized.
  by rewrite (bool_decide_eq_false_2 _ H1), (bool_decide_eq_false_2 _ H2).
Qed.

(** Damage never leaves a building below zero, a repair of a negative amount does. *)
Theorem building_health building clientID request :
  0 <= bd_Health (building_OnRequest building clientID "damage" (Ok request)).1 /\
  (in_i64 (bd_Health building + br_Amount request) ->
   bd_Health (building_OnRequest building clientID "repair" (Ok request)).1 = bd_Health building + br_Amount request).
Proof.
  split.
  - set (health := to_i64 (wrap 64 (bd_Health building - br_Amount request))).
    change (0 <= (if health <? 0 then 0 else health)). destruct (Z.ltb_spec health 0); lia.
  - intros H. transitivity (to_i64 (wrap 64 (bd_Health building + br_Amount request))); [reflexivity | by apply to_i64_wrap].
Qed.

(** ** Witnesses *)
Lemma login_exact_witness :
  let w := ((NewRuntime DefaultConfig, (mkHeap ∅ ∅ {[0%nat := NewPlayerAuthenticator "default"]}, tt)) :
    World NetObject SampleFactory unit (Heap * unit)) in
  let ctx := mkAuthentication "udp" "" "" 0 0 (mkRequest "" 0 "" "" "" []) AnyNil in
  (net_OnAuthenticationAttempt (reflection := no_reflection) (fun _ r => Ok r) (fun _ => Ok zero_player_request)
     (fun _ r => Ok r) (fun _ => Ok zero_building_request) 0%nat ctx w).2 = Ok "player-1"%string.
Proof.
  intros w ctx.
  destruct (login_exact (reflection := no_reflection) (fun _ r => Ok r) (fun _ => Ok zero_player_request)
    (fun _ r => Ok r) (fun _ => Ok zero_building_request) 0%nat (NewPlayerAuthenticator "default") ctx w eq_refl)
    as (_ & q & _ & H).
  destruct (net_OnAuthenticationAttempt _ _ _ _ _ _ _) as [w' r]. exact (proj1 H).
Defined.

Lemma nan_input_sticks_witness :
  let input := mkPlayerInput 1 0 "player-1" 0x7fc00000 0 0 in
  let player := AssignClient (NewPlayer "player-1") "player-1" in
  let (player1, r) := player_OnRequest player "player-1" "input"
    (decode_as (reflection := no_reflection) (fun _ r => Ok r) zero_player_request (AnyValue (MPlayerInput input))) in
  r = Ok tt /\ pl_X (player_OnTick (player_OnTick player1 (f_of_Z 1)) (f_of_Z 1)) = NaN.
Proof.
  intros input player.
  destruct (nan_input_sticks (reflection := no_reflection) (fun _ r => Ok r) player "player-1" "input" input (f_of_Z 1))
    as [_ H]; [by vm_compute | by vm_compute | done | by vm_compute |].
  destruct (player_OnRequest _ _ _ _) as [player1 r]. destruct H as (H1 & _ & H2). split; [exact H1|].
  apply H2. apply rtc_once. constructor.
Defined.
