(* ===== verification/Session.v ===== *)
(** * A client of the sample game

    What the parts mean together for one client: it logs in with the authenticator of
    [netObjects/player.go], the runtime registers its player and sets up interest and
    scene, and the snapshot that [network/runtime.go] makes for it shows it its player. *)
From S2P Require Import Prelude Keys Values Snapshot Messages Config InputBuffer Registry Payload Decode Scenes Float64 Interest Metrics Runtime View.
From S2P Require Import Budget Window ReliableIn ReliableOut ReliableStream UdpClients Outbound UdpSnapshot Server NetObjects.
#[local] Open Scope string_scope.
#[local] Open Scope Z_scope.

Section Session.
Context {X Payload : Type} {reflection : Reflection}.
Context (remarshalPlayer : GoAny -> PlayerRequest -> result PlayerRequest).
Context (unmarshalPlayer : bytes -> result PlayerRequest).
Context (remarshalBuilding : GoAny -> BuildingRequest -> result BuildingRequest).
Context (unmarshalBuilding : bytes -> result BuildingRequest).
Context (EqualFold : string -> string -> bool) (ParseFloat : string -> option f64) (overflow : f64 -> Z).
Abbreviation World := (World NetObject SampleFactory Payload (Heap * X)).
#[local] Instance game : GameCode NetObject SampleFactory Payload (Heap * X) :=
  net_objects remarshalPlayer unmarshalPlayer remarshalBuilding unmarshalBuilding.
Abbreviation login p := (net_OnAuthenticationAttempt (X := X) (Payload := Payload)
  remarshalPlayer unmarshalPlayer remarshalBuilding unmarshalBuilding p).

(** The interest registration of a player. *)
Definition player_interest (id : string) : InterestManagementConfig :=
  mkInterest InterestPlayer "player" id "x" "y" "z" defaultInterestRadius true.

Lemma player_interest_normal id :
  key_ok id -> normalizeInterestConfig (PlayerInterest (Ok ("player", id)) "x" "y" "z" defaultInterestRadius) =
    Some (player_interest id).
Proof.
  intros Hk. destruct (key_ok_eq id Hk) as [Hn He]. unfold normalizeInterestConfig.
  change (ic_ObjectID (PlayerInterest _ _ _ _ _)) with id. rewrite Hn, He. reflexivity.
Qed.

(** The interest registrations after a login: the player's, and the others that were there. *)
Lemma login_interest p authenticator ctx (w : World) :
  authenticators (heap w) !! p = Some authenticator ->
  let id := player_id (u64_inc (pa_NextPlayerID authenticator)) in
  let m := interest_of (interest (features (login p ctx w).1.1)) in
  let key := interestObjectKey "player" id in
  interest (features (login p ctx w).1.1) = Some m /\ interest_enabled m = true /\
  interest_players m !! key = Some (player_interest id) /\
  forall k c, interest_players m !! k = Some c ->
    c = player_interest id \/ interest_players (interest_of (interest (features w.1))) !! k = Some c.
Proof.
  intros Hp id. pose proof (player_id_key (u64_inc (pa_NextPlayerID authenticator))) as Hk. fold id in Hk.
  unfold net_OnAuthenticationAttempt. rewrite Hp. fold id. cbn [new_player].
  set (q := fresh _). set (player := AssignClient _ _).
  unfold RegisterObject. rewrite (net_identity_eq (net_objects_base remarshalPlayer unmarshalPlayer remarshalBuilding unmarshalBuilding)) by done.
  match goal with |- context [net_identity (PlayerPtr q) ?h] => set (h1 := h) end.
  assert (net_identity (PlayerPtr q) h1 = Ok ("player", id)) as Hid
    by (apply (net_identity_player h1 q player); [apply lookup_insert_eq | done]).
  rewrite Hid. cbn [fst].
  match goal with |- context [interest (features (SetClient ?a ?b ?c).1)] =>
    assert (interest (features (SetClient a b c).1) =
      EnableInterestManagement (DisableInterestManagement (interest (features w.1)) "player" id)
        (PlayerInterest (net_identity (PlayerPtr q) h1) "x" "y" "z" defaultInterestRadius)) as -> by reflexivity end.
  rewrite Hid. unfold EnableInterestManagement. rewrite (player_interest_normal id Hk).
  cbn [player_interest SubjectType ic_ObjectType ic_ObjectID]. rewrite decide_True by done.
  cbn [interest_of default from_option Datatypes.id with_players interest_players]. fold (player_interest id).
  split_and!; [done | | apply lookup_insert_eq |].
  - cbn. by rewrite bool_decide_eq_false_2 by (apply map_size_non_empty_iff, insert_non_empty).
  - intros k c [[_ <-]|[_ H]]%lookup_insert_Some; [by left | right].
    revert H. unfold DisableInterestManagement. destruct (_ || _); [done|].
    destruct (interest (features w.1)) as [m|]; [|done]. cbn [interest_of default from_option Datatypes.id with_players interest_players].
    by intros [_ H]%lookup_delete_Some.
Qed.

(** A new player and a counted login leave the identities of all other objects. *)
Lemma identity_kept o k (h h' : Heap) p q authenticator next player :
  authenticators h !! p = Some authenticator -> players h !! q = None ->
  authenticators h' = <[p := mkAuthenticator (pa_ID authenticator) next]> (authenticators h) ->
  players h' = <[q := player]> (players h) -> buildings h' = buildings h ->
  net_identity o h = Ok k -> net_identity o h' = Ok k.
Proof.
  intros Hp Hq Ha Hpl Hb Hk.
  assert (net_ObjectID o h' = net_ObjectID o h \/ net_ObjectID o h = "") as [E|E].
  { destruct o as [p'|p'|p']; unfold net_ObjectID; rewrite ?Hpl, ?Hb, ?Ha; [ | by left | left].
    - destruct (decide (p' = q)) as [->|Hne]; [right; by rewrite Hq | left; by rewrite lookup_insert_ne].
    - destruct (decide (p' = p)) as [->|Hne]; [by rewrite lookup_insert_eq, Hp | by rewrite lookup_insert_ne]. }
  - unfold net_identity in *. by rewrite E.
  - unfold net_identity in Hk. rewrite E in Hk. by destruct (empty_key (normalizeObjectKey (net_ObjectType o))).
Qed.

Lemma at_key_objects (r r' : Runtime NetObject SampleFactory Payload) k : objects r = objects r' -> at_key r k = at_key r' k.
Proof. intros H. unfold at_key. by rewrite H. Qed.

Lemma player_scene_shows (r : Runtime NetObject SampleFactory Payload) id scene :
  key_ok id -> ObjectScene (scenes (features r)) "player" id = Some scene ->
  ClientScene (scenes (features r)) id = Some scene -> scene_shows r id "player" id = true.
Proof.
  intros Hk. destruct (key_ok_eq id Hk) as [Hn He]. unfold scene_shows, ObjectScene, ClientScene, clientScene, objectVisibleToClient, sceneState.
  change (empty_key (normalizeObjectKey "player")) with false. rewrite Hn, He. cbn [orb].
  destruct (scenes (features r)) as [m|]; [|done]. intros Ho Hc.
  destruct (scenes_enabled m) eqn:Em; cbn; rewrite ?Em; [|done]. cbn. rewrite Hn, Hc.
  change (normalizeObjectKey "player") with "player" in Ho. rewrite Ho.
  destruct (decide _); [done|]. by apply bool_decide_eq_true_2.
Qed.

Lemma login_view p authenticator ctx (w : World) :
  authenticators (heap w) !! p = Some authenticator ->
  identities_ok w.1 w.2 -> (forall k o, at_key w.1 k = Some o -> plain_type k.1) ->
  let w' := (login p ctx w).1 in
  identities_ok w'.1 w'.2 /\ (forall k o, at_key w'.1 k = Some o -> plain_type k.1).
Proof.
  intros Hp Hid Hplain w'. subst w'.
  destruct (login_spec remarshalPlayer unmarshalPlayer remarshalBuilding unmarshalBuilding p authenticator ctx w Hp) as (q & Hq & H).
  set (id := player_id _) in *. pose proof (player_id_key (u64_inc (pa_NextPlayerID authenticator))) as Hk. fold id in Hk.
  destruct (login p ctx w) as [w' r]. cbn [fst]. destruct H as (_ & Ha & Hpl & _ & Hb & _ & Ho & _).
  assert (forall k, at_key w'.1 k = if decide (("player", id) = k) then Some (PlayerPtr q) else at_key w.1 k) as Hat
    by (intros k; rewrite (at_key_objects _ _ k Ho); apply at_key_store).
  split; intros k o; rewrite Hat; destruct (decide _) as [<-|Hne].
  - intros [= <-]. rewrite (net_identity_eq game) by done.
    apply (net_identity_player w'.2.1 q (AssignClient (NewPlayer id) id)); [|done].
    change (w'.2.1) with (heap w'). rewrite Hpl. apply lookup_insert_eq.
  - intros H. apply Hid in H. rewrite (net_identity_eq game) in * by done.
    exact (identity_kept o k (heap w) (heap w') p q _ _ _ Hp Hq Ha Hpl Hb H).
  - intros _. reflexivity.
  - apply Hplain.
Qed.

(** The configuration that the filter uses for a client is that of a player of its id. *)
Lemma view_player (w : World) id pc ios player :
  key_ok id -> interest_view EqualFold ParseFloat w.1 w.2 id = Some (pc, ios, player) ->
  ic_ObjectID pc = id /\ exists k, interest_players (interest_of (interest (features w.1))) !! k = Some pc.
Proof.
  intros Hk Ev. destruct (key_ok_eq id Hk) as [Hn He]. unfold interest_view in Ev. rewrite Hn, He in Ev.
  destruct (negb _ || _); [done|]. unfold playerForClient in Ev. rewrite Hn, He in Ev.
  destruct (List.find _ _) as [[k c]|] eqn:Ef; [|done]. cbn [fmap option_fmap option_map snd] in Ev.
  destruct (interestSnapshotObjects _ _ _ _ _ _ _ _) as [[ios' pl]|]; [|done]. injection Ev as -> -> ->.
  apply find_some in Ef as [Hin Hc]. apply bool_decide_eq_true in Hc. split; [exact Hc|]. exists k.
  apply list_elem_of_In, elem_of_map_to_list in Hin. unfold interestState in Hin.
  destruct (interest (features w.1)) as [m|]; [destruct (interest_enabled m); [done|]|];
    unfold newInterestManager in Hin; cbn [interest_players] in Hin; by rewrite lookup_empty in Hin.
Qed.

(** *** A client in the game: its player is registered, with its interest and its scene *)
Record in_game (w : World) (id : string) (q : nat) (player : Player) : Prop := {
  ig_player : players (heap w) !! q = Some player;
  ig_registered : at_key w.1 ("player", id) = Some (PlayerPtr q);
  ig_identities : identities_ok w.1 w.2;
  ig_plain k o : at_key w.1 k = Some o -> plain_type k.1;
  ig_interest : interest (features w.1) = Some (interest_of (interest (features w.1)));
  ig_enabled : interest_enabled (interest_of (interest (features w.1))) = true;
  ig_own : interest_players (interest_of (interest (features w.1))) !! interestObjectKey "player" id =
    Some (player_interest id);
  ig_types k c : interest_players (interest_of (interest (features w.1))) !! k = Some c -> ic_ObjectType c = "player";
  ig_scene : scene_shows w.1 id "player" id = true
}.

Lemma in_game_key w id q player : in_game w id q player -> key_ok id.
Proof. intros H. by destruct (objectIdentity_ok _ _ _ _ (ig_identities _ _ _ _ H _ _ (ig_registered _ _ _ _ H))). Qed.

Lemma own_player_exempt (w : World) id q player pc io :
  in_game w id q player ->
  (ic_ObjectID pc = id /\ exists k, interest_players (interest_of (interest (features w.1))) !! k = Some pc) ->
  interest_object EqualFold ParseFloat w.2 (interestState (interest (features w.1))) pc
    (sceneState (scenes (features w.1))) (clientScene (sceneState (scenes (features w.1))) (normalizeObjectKey id))
    (PlayerPtr q) = Some io ->
  shown_anyway pc io = true.
Proof.
  intros [_ Hat Hid _ Hi He Hown Hplayers Hs] [Hpc [k Hpk]] Eio. unfold interest_object in Eio.
  rewrite (Hid _ _ Hat) in Eio. unfold scene_shows in Hs. injection Eio as <-.
  assert (objectConfig (interestState (interest (features w.1))) "player" id = Some (player_interest id)) as Hcfg.
  { unfold objectConfig, interestState. rewrite Hi, He. cbn [interest_of default from_option Datatypes.id]. by rewrite Hown. }
  unfold shown_anyway, is_player. cbn [io_visible io_managed io_objectType io_objectID io_config].
  rewrite Hcfg, Hs. change (hidden w.2 (PlayerPtr q)) with false. cbn [negb andb default from_option].
  rewrite (Hplayers k pc Hpk), Hpc. rewrite !bool_decide_eq_true_2 by done. reflexivity.
Qed.

(** Such a client sees its player, whatever the positions are. *)
Lemma in_game_sees (w : World) id q player :
  in_game w id q player ->
  lookup_object (SnapshotForClient EqualFold ParseFloat overflow w.1 w.2 id) "player" id = Some (player_value player).
Proof.
  intros H. pose proof (in_game_key _ _ _ _ H) as Hk.
  rewrite (exempt_lookup EqualFold ParseFloat overflow w.1 w.2 id "player" id (PlayerPtr q)).
  - f_equal. change (ObjectSnapshot (PlayerPtr q) w.2) with (net_Snapshot (PlayerPtr q) (heap w)).
    cbn. by rewrite (ig_player _ _ _ _ H).
  - apply (ig_identities _ _ _ _ H).
  - apply (ig_plain _ _ _ _ H).
  - apply (ig_registered _ _ _ _ H).
  - done.
  - apply (ig_scene _ _ _ _ H).
  - intros pc ios pl io Ev Eio _. apply (own_player_exempt w id q player pc io H); [|done].
    by apply (view_player w id pc ios pl).
Qed.

(** The state of the objects may change, not what they are. *)
Lemma identities_keep (w w' : World) :
  objects w'.1 = objects w.1 -> (forall o, net_ObjectID o (heap w') = net_ObjectID o (heap w)) ->
  identities_ok w.1 w.2 -> identities_ok w'.1 w'.2.
Proof.
  intros Ho Hn Hid k o Hk. rewrite (at_key_objects _ _ k Ho) in Hk. apply Hid in Hk.
  rewrite (net_identity_eq game) in * by done. unfold net_identity in *. change (w'.2.1) with (heap w'). by rewrite Hn.
Qed.

Lemma in_game_keeps (w w' : World) id q player player' :
  in_game w id q player -> objects w'.1 = objects w.1 -> features w'.1 = features w.1 ->
  (forall o, net_ObjectID o (heap w') = net_ObjectID o (heap w)) ->
  players (heap w') !! q = Some player' -> in_game w' id q player'.
Proof.
  intros [Hpl Hat Hid Hplain Hi He Hown Hty Hs] Ho Hf Hn Hpl'.
  assert (forall k, at_key w'.1 k = at_key w.1 k) as Hk by (intros k; by apply at_key_objects).
  split; rewrite ?Hf; try done;
    [by rewrite Hk | by apply (identities_keep w) | by setoid_rewrite Hk | unfold scene_shows; by rewrite Hf].
Qed.

(** *** A login puts its client into the game *)
Lemma login_in_game p authenticator ctx (w : World) :
  authenticators (heap w) !! p = Some authenticator ->
  identities_ok w.1 w.2 -> (forall k o, at_key w.1 k = Some o -> plain_type k.1) ->
  (forall k c, interest_players (interest_of (interest (features w.1))) !! k = Some c -> ic_ObjectType c = "player") ->
  let id := player_id (u64_inc (pa_NextPlayerID authenticator)) in
  let (w', r) := login p ctx w in
  r = Ok id /\ exists q, in_game w' id q (AssignClient (NewPlayer id) id).
Proof.
  intros Hp Hid Hplain Hplayers id. pose proof (player_id_key (u64_inc (pa_NextPlayerID authenticator))) as Hk. fold id in Hk.
  pose proof (login_view p authenticator ctx w Hp Hid Hplain) as Hview. cbv zeta in Hview.
  pose proof (login_interest p authenticator ctx w Hp) as Hint. cbv zeta in Hint. fold id in Hint.
  destruct (login_spec remarshalPlayer unmarshalPlayer remarshalBuilding unmarshalBuilding p authenticator ctx w Hp) as (q & Hq & H).
  fold id in H. destruct (login p ctx w) as [w' r]. cbn [fst] in *.
  destruct H as (-> & Ha & Hpl & _ & Hb & _ & Ho & Hos & Hcs). destruct Hview as [Hid' Hplain'].
  destruct Hint as (Hi & He & Hown & Hothers). split; [done|]. exists q. split; try done.
  - rewrite Hpl. apply lookup_insert_eq.
  - rewrite (at_key_objects _ _ _ Ho), at_key_store. by rewrite decide_True.
  - intros k c [->|Hc]%Hothers; [done | by eapply Hplayers].
  - by apply (player_scene_shows _ _ _ Hk Hos).
Qed.

(** *** Ticks keep it there *)
Record advances (w w' : World) : Prop := {
  av_objects : objects w'.1 = objects w.1;
  av_features : features w'.1 = features w.1;
  av_handler : authenticationHandler w'.1 = authenticationHandler w.1;
  av_authenticators : authenticators (heap w') = authenticators (heap w);
  av_ids o : net_ObjectID o (heap w') = net_ObjectID o (heap w);
  av_players q player : players (heap w) !! q = Some player ->
    exists player', players (heap w') !! q = Some player' /\ rtc hook_step player player'
}.

Lemma advances_same (w w' : World) :
  objects w'.1 = objects w.1 -> features w'.1 = features w.1 ->
  authenticationHandler w'.1 = authenticationHandler w.1 -> heap w' = heap w -> advances w w'.
Proof. intros Ho Hf Ha Hh. split; rewrite ?Hh; try done. intros q player H. by exists player. Qed.

#[local] Instance advances_preorder : PreOrder advances.
Proof.
  split; [by intros w; apply advances_same|]. intros w1 w2 w3 [O1 F1 A1 H1 I1 P1] [O2 F2 A2 H2 I2 P2].
  split; [congruence | congruence | congruence | congruence | intros o; by rewrite I2|].
  intros q player (player' & H' & S1)%P1. destruct (P2 _ _ H') as (player'' & H'' & S2).
  exists player''. split; [done | by etrans].
Qed.

Lemma advances_alter p f (w : World) :
  (forall player, hook_step player (f player)) -> (forall player, pl_ID (f player) = pl_ID player) ->
  advances w (on_heap w (fun h => on_players h (alter f p))).
Proof.
  intros Hstep Hid. split; [done | done | done | done | |]; cbn.
  - intros [q|q|q]; cbn; [|done|done]. destruct (decide (p = q)) as [->|Hne]; [|by rewrite lookup_alter_ne].
    rewrite lookup_alter_eq. unfold heap. destruct (players w.2.1 !! q) as [player|]; [|done]. cbn. apply Hid.
  - intros q player Hq. destruct (decide (p = q)) as [->|Hne]; [|rewrite lookup_alter_ne by done; by exists player].
    rewrite lookup_alter_eq. change (w.2.1) with (heap w). rewrite Hq. eexists. split; [done | by apply rtc_once].
Qed.

Lemma advances_buildings p (w : World) :
  advances w (on_heap w (fun h => on_buildings h (alter building_OnFullTick p))).
Proof.
  split; [done | done | done | done | |]; cbn; [|intros q player H; by exists player].
  intros [q|q|q]; cbn; [done | | done]. destruct (decide (p = q)) as [->|Hne]; [|by rewrite lookup_alter_ne].
  rewrite lookup_alter_eq. unfold heap. by destruct (buildings w.2.1 !! q).
Qed.

Lemma tick_one_advances ctx (w : World) o : advances w (tick_one ctx w o).
Proof. destruct o as [p|p|p]; [|done|done]. apply advances_alter; [intros; apply step_tick | done]. Qed.

Lemma full_tick_one_advances ctx (w : World) o : advances w (full_tick_one ctx w o).
Proof.
  destruct o as [p|p|p]; [| |done]; [apply advances_alter; [apply step_full_tick | done] | apply advances_buildings].
Qed.

Lemma foldl_advances (f : World -> NetObject -> World) l :
  (forall w o, advances w (f w o)) -> forall w, advances w (foldl f w l).
Proof. intros Hf. induction l as [|o l IH]; intros w; [done|]. cbn [foldl]. etrans; [apply Hf | apply IH]. Qed.

Lemma Advance_advances duration (w : World) : advances w (Advance duration w).1.
Proof.
  unfold Advance. cbn [fst]. set (w1 := on_runtime w _). set (ctx := mkTick _ _ _).
  assert (advances w w1) as H1 by (by apply advances_same).
  pose proof (foldl_advances (tick_one ctx) (objectList w1.1) (tick_one_advances ctx) w1) as H2.
  set (w2 := foldl (tick_one ctx) w1 _) in *. set (w3 := if _ =? 0 then _ else _).
  assert (advances w2 w3) as H3.
  { unfold w3. destruct (_ =? 0); [|done]. apply foldl_advances. apply full_tick_one_advances. }
  assert (advances w3 (on_runtime w3 (fun r => recordTickDuration r duration))) as H4.
  { unfold recordTickDuration. by destruct (duration <? 0); apply advances_same. }
  etrans; [exact H1|]. etrans; [exact H2|]. by etrans; [exact H3|].
Qed.

(** The world after some ticks. *)
Definition after_ticks (durations : list Z) (w : World) : World := foldl (fun w d => (Advance d w).1) w durations.

Lemma after_ticks_in_game durations : forall (w : World) id q player,
  in_game w id q player ->
  exists player', in_game (after_ticks durations w) id q player' /\ rtc hook_step player player'.
Proof.
  unfold after_ticks. induction durations as [|d durations IH]; intros w id q player H; [by exists player|]. cbn [foldl].
  destruct (Advance_advances d w) as [Ho Hf _ _ Hn Hp]. destruct (Hp q player (ig_player _ _ _ _ H)) as (player1 & H1 & S1).
  destruct (IH _ id q player1 (in_game_keeps w _ id q player player1 H Ho Hf Hn H1)) as (player2 & H2 & S2).
  exists player2. split; [done | by etrans].
Qed.
End Session.

(** ** On the server *)
Section OnServer.
Context {libraries : Libraries}.
Context (remarshalPlayer : GoAny -> PlayerRequest -> result PlayerRequest).
Context (unmarshalPlayer : bytes -> result PlayerRequest).
Context (remarshalBuilding : GoAny -> BuildingRequest -> result BuildingRequest).
Context (unmarshalBuilding : bytes -> result BuildingRequest).
Abbreviation World := (World NetObject SampleFactory InputPayload (Heap * Net)).
#[local] Instance server_game : GameCode NetObject SampleFactory InputPayload (Heap * Net) :=
  sample_game remarshalPlayer unmarshalPlayer remarshalBuilding unmarshalBuilding.
Context (registry : option (WireMessageRegistry (World := World))).
Abbreviation in_game := (in_game (X := Net) (Payload := InputPayload)
  remarshalPlayer unmarshalPlayer remarshalBuilding unmarshalBuilding).

Lemma gated_net (w : World) (f : Net -> Net) : keeps (net w) (f (net w)) -> gated w (on_net w f).
Proof. intros H. destruct w as [[] g]. by split_and!. Qed.

Lemma gated_metrics (w : World) f : gated w (on_net w (fun n => on_metrics n f)).
Proof. apply gated_net, (keeps_metrics (net w) f). Qed.

Lemma negotiate_gated addr payload (w : World) : gated w (negotiate addr payload w).1.
Proof.
  unfold negotiate. destruct payload as [|[]| |]; try done.
  match goal with |- context [NegotiateClientHello ?c ?h] => destruct (NegotiateClientHello c h) as [welcome|e] end; [|done].
  cbn [fst]. etrans; [|by apply gated_net, keeps_update]. destruct (0 <? _); [|done].
  apply gated_net. unfold applyClientPacketSize. destruct (_ =? 0); [done | by apply keeps_update].
Qed.

Lemma gated_same (w w' : World) :
  gated w w' -> objects w'.1 = objects w.1 /\ features w'.1 = features w.1 /\ heap w' = heap w /\
    authenticationHandler w'.1 = authenticationHandler w.1 /\ keeps (net w) (net w').
Proof. intros (H1 & H2 & H3). by rewrite H1. Qed.

(** The client of an address, with the name that it has authenticated under. *)
Definition session (w : World) (addr id : string) : Prop :=
  exists c, clients (net w) !! addr = Some c /\ cl_authenticated c = true /\ cl_id c = id.

Lemma session_keeps (w w' : World) addr id : keeps (net w) (net w') -> session w addr id -> session w' addr id.
Proof.
  intros [_ Hv] (c & Hc & Ha & Hi). specialize (Hv addr). rewrite Hc in Hv.
  destruct (clients (net w') !! addr) as [c'|] eqn:Hc'; [|done]. cbn in Hv. injection Hv as _ Hid Hauth _.
  exists c'. split_and!; [done | congruence | congruence].
Qed.

Lemma authenticate_session (w : World) addr client id :
  key_ok id -> clients (net w) !! addr = Some client ->
  (forall a c, a <> addr -> clients (net w) !! a = Some c -> cl_authenticated c = true -> cl_id c <> id) ->
  let (n, r) := authenticateClient (net w) addr id in
  r = Ok tt /\ session (on_net w (fun _ => n)) addr id.
Proof.
  intros [Hn Hne] Hc Hfree. unfold authenticateClient.
  assert (TrimSpace id = id) as -> by exact Hn. rewrite decide_False by done.
  rewrite (proj2 (owned_by_other_false _ _ _)), Hc; cycle 1.
  { intros a c Ha Hauth Hid. destruct (decide (a = addr)) as [|Hneq]; [done|]. by destruct (Hfree a c Hneq Ha Hauth). }
  split; [done|].
  eexists. split_and!; [cbn [net on_net snd]; unfold update_client; cbn [clients set_clients set_baselines];
    rewrite lookup_alter_eq, Hc; reflexivity | done | done].
Qed.

(** What the sample game asks of a state, so that a login is as it should be. *)
Record ready (w : World) (p : nat) (authenticator : PlayerAuthenticator) : Prop := {
  rd_handler : authenticationHandler w.1 = Some (AuthenticatorPtr p);
  rd_authenticator : authenticators (heap w) !! p = Some authenticator;
  rd_identities : identities_ok w.1 w.2;
  rd_plain k o : at_key w.1 k = Some o -> plain_type k.1;
  rd_types k c : interest_players (interest_of (interest (features w.1))) !! k = Some c -> ic_ObjectType c = "player"
}.

Lemma ready_gated (w w' : World) p authenticator : gated w w' -> ready w p authenticator -> ready w' p authenticator.
Proof.
  intros (Ho & Hf & Hh & Ha & _)%gated_same [H1 H2 H3 H4 H5].
  split; rewrite ?Ha, ?Hh, ?Hf; try done.
  - exact (identities_keep remarshalPlayer unmarshalPlayer remarshalBuilding unmarshalBuilding w w' Ho
      (fun o => f_equal (net_ObjectID o) Hh) H3).
  - intros k o. rewrite (at_key_objects _ _ k Ho). apply H4.
Qed.

(** The attempt of the runtime: it succeeds under the next name. *)
Lemma attempt_in_game ctx now (w : World) p authenticator :
  ready w p authenticator ->
  let id := player_id (u64_inc (pa_NextPlayerID authenticator)) in
  let (w', r) := HandleAuthenticationAttempt ctx now w in
  r = Ok id /\ net w' = net w /\ exists q, in_game w' id q (AssignClient (NewPlayer id) id).
Proof.
  intros [Hh Hp Hid Hplain Hty] id. destruct (key_ok_eq id (player_id_key _)) as [Hn He].
  unfold HandleAuthenticationAttempt. rewrite Hh.
  change (OnAuthenticationAttempt (AuthenticatorPtr p)) with
    (Some (net_OnAuthenticationAttempt (X := Net) (Payload := InputPayload) remarshalPlayer unmarshalPlayer remarshalBuilding unmarshalBuilding p)).
  cbv iota. match goal with |- context [net_OnAuthenticationAttempt _ _ _ _ p ?c w] => generalize c end. intros ctx'.
  pose proof (login_in_game remarshalPlayer unmarshalPlayer remarshalBuilding unmarshalBuilding p authenticator ctx' w
    Hp Hid Hplain Hty) as H. cbv zeta in H. fold id in H.
  pose proof (login_net remarshalPlayer unmarshalPlayer remarshalBuilding unmarshalBuilding p ctx' w) as Hnet.
  destruct (net_OnAuthenticationAttempt _ _ _ _ p ctx' w) as [w' r]. destruct H as (-> & H). rewrite Hn, He. by split_and!.
Qed.

Lemma gated_in_game (w w' : World) id q player : gated w w' -> in_game w id q player -> in_game w' id q player.
Proof.
  intros (Ho & Hf & Hh & _)%gated_same H.
  apply (in_game_keeps remarshalPlayer unmarshalPlayer remarshalBuilding unmarshalBuilding w w' id q player player);
    rewrite ?Hh; try done. apply (ig_player _ _ _ _ _ _ _ _ H).
Qed.

(** The name is free: no other client has authenticated under it. *)
Definition free_name (w : World) (addr id : string) : Prop :=
  forall a c, a <> addr -> clients (net w) !! a = Some c -> cl_authenticated c = true -> cl_id c <> id.

Lemma free_name_keeps (w w' : World) addr id : keeps (net w) (net w') -> free_name w addr id -> free_name w' addr id.
Proof.
  intros [_ Hv] Hf a c' Hne Hc' Hauth. specialize (Hv a). rewrite Hc' in Hv.
  destruct (clients (net w) !! a) as [c|] eqn:Hc; [|done]. cbn in Hv. injection Hv as _ Hid Ha _.
  rewrite Hid. apply (Hf a c Hne Hc). congruence.
Qed.

Lemma session_start conn addr wire now request payload (w : World) p authenticator :
  ready w p authenticator -> is_Some (clients (net w) !! addr) ->
  let id := player_id (u64_inc (pa_NextPlayerID authenticator)) in
  free_name w addr id -> (negotiate addr payload w).2 = Ok tt ->
  let w' := (handleAuthenticationAttempt addr request payload (writer registry conn addr wire now) now w).1 in
  session w' addr id /\ exists q, in_game w' id q (AssignClient (NewPlayer id) id).
Proof.
  intros Hready Hc id Hfree Hneg w'. subst w'. unfold handleAuthenticationAttempt.
  set (w0 := on_net w (fun n => on_metrics n recordAuthAttempt)).
  assert (gated w (negotiate addr payload w0).1) as Hg by (etrans; [apply gated_metrics | apply negotiate_gated]).
  assert ((negotiate addr payload w0).2 = Ok tt) as Hneg0.
  { revert Hneg. unfold negotiate. destruct payload as [|[]| |]; try done. change (config w0.1) with (config w.1).
    match goal with |- context [NegotiateClientHello ?c ?h] => by destruct (NegotiateClientHello c h) end. }
  destruct (negotiate addr payload w0) as [w1 e]. cbn [fst snd] in *. subst e.
  match goal with |- context [HandleAuthenticationAttempt ?c now w1] =>
    pose proof (attempt_in_game c now w1 p authenticator (ready_gated w w1 p authenticator Hg Hready)) as H;
    destruct (HandleAuthenticationAttempt c now w1) as [w2 r] end.
  cbv zeta in H. fold id in H. destruct H as (-> & Hn2 & q & Hin).
  assert (keeps (net w) (net w2)) as Hkeep by (rewrite Hn2; apply gated_same, Hg).
  destruct (clients (net w2) !! addr) as [c|] eqn:Hc2; cycle 1.
  { destruct Hc as [c Hc]. destruct Hkeep as [_ Hv]. specialize (Hv addr). by rewrite Hc, Hc2 in Hv. }
  pose proof (authenticate_session w2 addr c id (player_id_key _) Hc2 (free_name_keeps w w2 addr id Hkeep Hfree)) as H.
  destruct (authenticateClient (net w2) addr id) as [n r]. destruct H as [-> Hs].
  set (w3 := on_net w2 (fun _ => n)) in *. set (w4 := on_net w3 (fun n => on_metrics n recordAuthSuccess)).
  match goal with |- context [Respond ?wr ?m w4] => pose proof (respond_gated registry conn addr wire now m w4) as Hr;
    destruct (Respond wr m w4) as [w5 r5] end.
  cbn [fst] in *. assert (gated w3 w5) as H35 by (etrans; [apply gated_metrics | exact Hr]).
  split; [by apply (session_keeps w3), Hs; apply gated_same, H35|]. exists q. apply (gated_in_game w3 w5); [exact H35|].
  apply (in_game_keeps remarshalPlayer unmarshalPlayer remarshalBuilding unmarshalBuilding w2 w3 id q _ _ Hin); try done.
  apply (ig_player _ _ _ _ _ _ _ _ Hin).
Qed.

(** The client is then among those that snapshots are made for, and its snapshot shows
    its player. *)
Lemma session_shown conn addr wire now request payload (w : World) p authenticator :
  ready w p authenticator -> is_Some (clients (net w) !! addr) ->
  let id := player_id (u64_inc (pa_NextPlayerID authenticator)) in
  free_name w addr id -> (negotiate addr payload w).2 = Ok tt ->
  let w' := (handleAuthenticationAttempt addr request payload (writer registry conn addr wire now) now w).1 in
  (exists client, cl_id client = id /\
     snapshotClients (src_authenticationRequired (runtime_source w')) (net w') !! addr = Some client) /\
  lookup_object (src_SnapshotForClient (runtime_source w') id) "player" id =
    Some (player_value (AssignClient (NewPlayer id) id)).
Proof.
  intros Hready Hc id Hfree Hneg w'.
  destruct (session_start conn addr wire now request payload w p authenticator Hready Hc Hfree Hneg)
    as [(c & Hc' & Ha & Hid) [q Hin]].
  split; [|exact (in_game_sees _ _ _ _ EqualFold ParseFloat int_overflow w' id q _ Hin)].
  exists c. split; [exact Hid|]. apply map_lookup_filter_Some. split; [exact Hc' | by right].
Qed.
End OnServer.

(** ** Properties *)

(** C16: a client that logs in to the sample game sees itself.  In any state whose
    objects have stable identities (with types without a slash), and in which only
    players are registered as players of the interest filter, a login succeeds under
    a new name.  The next snapshot for that name shows the new player, whatever scene and
    interest registrations there were before, whoever else is connected, and wherever
    the objects are; and so does the snapshot after any number of ticks, with the state
    that the hooks of those ticks have given the player. *)
Theorem login_sees_itself {X Payload : Type} {reflection : Reflection} remarshalPlayer unmarshalPlayer remarshalBuilding
    unmarshalBuilding EqualFold ParseFloat overflow p authenticator ctx durations
    (w : World NetObject SampleFactory Payload (Heap * X)) :
  let game := net_objects remarshalPlayer unmarshalPlayer remarshalBuilding unmarshalBuilding in
  authenticators (heap w) !! p = Some authenticator ->
  identities_ok (GameCode0 := game) w.1 w.2 -> (forall k o, at_key w.1 k = Some o -> plain_type k.1) ->
  (forall k c, interest_players (interest_of (interest (features w.1))) !! k = Some c -> ic_ObjectType c = "player") ->
  let id := player_id (u64_inc (pa_NextPlayerID authenticator)) in
  let (w', r) :=
    net_OnAuthenticationAttempt remarshalPlayer unmarshalPlayer remarshalBuilding unmarshalBuilding p ctx w in
  let w'' := foldl (fun w d => (Advance (GameCode0 := game) d w).1) w' durations in
  r = Ok id /\
  exists player, rtc hook_step (AssignClient (NewPlayer id) id) player /\
    lookup_object (SnapshotForClient (GameCode0 := game) EqualFold ParseFloat overflow w''.1 w''.2 id) "player" id =
      Some (player_value player).
Proof.
  intros game Hp Hid Hplain Hty id.
  pose proof (login_in_game remarshalPlayer unmarshalPlayer remarshalBuilding unmarshalBuilding p authenticator ctx w
    Hp Hid Hplain Hty) as H. cbv zeta in H.
  destruct (net_OnAuthenticationAttempt _ _ _ _ _ _ _) as [w' r]. destruct H as (-> & q & H). split; [done|].
  apply (after_ticks_in_game _ _ _ _ durations) in H as (player & H & Hs). exists player. split; [exact Hs|].
  by eapply in_game_sees.
Qed.

(** ** Witnesses *)
Lemma login_sees_itself_witness :
  let game := net_objects (reflection := no_reflection) (X := unit) (Payload := unit) (fun _ r => Ok r)
    (fun _ => Ok zero_player_request) (fun _ r => Ok r) (fun _ => Ok zero_building_request) in
  let w := ((NewRuntime DefaultConfig, (mkHeap ∅ ∅ {[0%nat := mkAuthenticator "default" 6]}, tt)) :
    World NetObject SampleFactory unit (Heap * unit)) in
  let ctx := mkAuthentication "udp" "" "" 0 0 (mkRequest "" 0 "" "" "" []) AnyNil in
  let w' := (net_OnAuthenticationAttempt (reflection := no_reflection) (fun _ r => Ok r) (fun _ => Ok zero_player_request)
    (fun _ r => Ok r) (fun _ => Ok zero_building_request) 0%nat ctx w).1 in
  let w'' := (Advance (GameCode0 := game) 5 w').1 in
  exists player, lookup_object (SnapshotForClient (GameCode0 := game) String.eqb (fun _ => None) (fun _ => 0) w''.1 w''.2 "player-7")
    "player" "player-7" = Some (player_value player).
Proof.
  intros game w ctx w' w''.
  pose proof (login_sees_itself (reflection := no_reflection) (fun _ r => Ok r) (fun _ => Ok zero_player_request)
    (fun _ r => Ok r) (fun _ => Ok zero_building_request) String.eqb (fun _ => None) (fun _ => 0) 0%nat
    (mkAuthenticator "default" 6) ctx [5] w eq_refl) as H.
  assert (forall k, at_key w.1 k = None) as Hempty by (intros k; unfold at_key; cbn [objects NewRuntime w fst]; by rewrite lookup_empty).
  subst w'' w'. destruct (net_OnAuthenticationAttempt _ _ _ _ _ _ _) as [w' r].
  destruct H as (_ & player & _ & H); [| | | by exists player].
  - intros k o Hk. by rewrite Hempty in Hk.
  - intros k o Hk. by rewrite Hempty in Hk.
  - intros k c Hc. cbn in Hc. by rewrite lookup_empty in Hc.
Defined.
