(* ===== verification/GoText.v ===== *)
(** * Durations and addresses as text

    What [network/debug.go] and [main.go] take from Go's standard library to show
    durations and addresses: [Duration.Truncate], [Duration.String],
    [net.SplitHostPort], [net.JoinHostPort], [strings.HasPrefix] and the decimal
    numbers of [fmt.Sprintf].  Strings are lists of characters where they are cut. *)
From Stdlib Require Import Ascii String.
From S2P Require Import Prelude Config.
From stdpp Require Import pretty.
#[local] Open Scope list_scope.
#[local] Open Scope string_scope.
#[local] Open Scope Z_scope.

(** ** Numbers and durations *)

(** [%d] of an integer that is not negative, and of any. *)
Definition decimal (n : Z) : string := pretty (Z.to_N n).
Definition itoa (n : Z) : string := if n <? 0 then "-" ++ decimal (- n) else decimal n.

(** [Duration.Truncate]. *)
Definition Truncate (d m : Z) : Z := if m <=? 0 then d else d - Z.rem d m.

Definition digit_char (d : Z) : ascii := ascii_of_nat (48 + Z.to_nat d).

(** [fmtFrac]: the digits of [v]/10^[prec] after the point, in front of [buf],
    without trailing zeros, and the integer part. *)
Fixpoint fmtFrac (prec : nat) (v : Z) (print : bool) (buf : string) : string * Z :=
  match prec with
  | O => (if print then String "." buf else buf, v)
  | S prec =>
      let digit := v mod 10 in
      let print := print || negb (digit =? 0) in
      fmtFrac prec (v / 10) print (if print then String (digit_char digit) buf else buf)
  end.

(** [Duration.String]. *)
Definition duration_text (d : Z) : string :=
  let u := Z.abs d in
  let sign := if d <? 0 then "-" else "" in
  if u =? 0 then "0s"
  else if u <? Second then
    let (prec, unit) :=
      if u <? 1000 then (0%nat, "ns") else if u <? 1000000 then (3%nat, "µs") else (6%nat, "ms") in
    let (buf, v) := fmtFrac prec u false unit in
    sign ++ decimal v ++ buf
  else
    let (buf, u) := fmtFrac 9 u false "s" in
    let buf := decimal (u mod 60) ++ buf in
    let u := u / 60 in
    if 0 <? u then
      let buf := decimal (u mod 60) ++ "m" ++ buf in
      let u := u / 60 in
      if 0 <? u then sign ++ decimal u ++ "h" ++ buf else sign ++ buf
    else sign ++ buf.

Example duration_text_examples :
  map duration_text [0; 100 * Millisecond; 7812500; 5 * Second; 3661 * Second + 500 * Millisecond; - 1500; 2 ^ 63 - 1] =
    ["0s"; "100ms"; "7.8125ms"; "5s"; "1h1m1.5s"; "-1.5µs"; "2562047h47m16.854775807s"].
Proof. vm_compute. reflexivity. Qed.

(** ** Addresses *)
Definition chars (s : string) : list ascii := list_ascii_of_string s.
Definition text (l : list ascii) : string := string_of_list_ascii l.

(** [strings.HasPrefix]. *)
Definition HasPrefix (s p : string) : bool := String.prefix p s.

Definition index_of (c : ascii) (l : list ascii) : option nat := fst <$> list_find (c =.) l.
Definition last_index (c : ascii) (l : list ascii) : option nat :=
  (fun i => (length l - 1 - i)%nat) <$> index_of c (rev l).
Definition has (c : ascii) (l : list ascii) : bool := bool_decide (c ∈ l).

(** [net.SplitHostPort]; [None] is its error. *)
Definition split_host_port (hostport : list ascii) : option (list ascii * list ascii) :=
  match last_index ":" hostport with
  | None => None
  | Some i =>
      let port := drop (S i) hostport in
      if bool_decide (head hostport = Some "["%char) then
        match index_of "]" hostport with
        | None => None
        | Some close =>
            if bool_decide (S close = i) then
              if has "[" (drop 1 hostport) || has "]" (drop (S close) hostport) then None
              else Some (take (close - 1) (drop 1 hostport), port)
            else None
        end
      else
        let host := take i hostport in
        if has ":" host then None
        else if has "[" hostport || has "]" hostport then None
        else Some (host, port)
  end.

Definition SplitHostPort (hostport : string) : option (string * string) :=
  (fun '(host, port) => (text host, text port)) <$> split_host_port (chars hostport).

(** [net.JoinHostPort]. *)
Definition JoinHostPort (host port : string) : string :=
  if has ":" (chars host) then "[" ++ host ++ "]:" ++ port else host ++ ":" ++ port.

Example SplitHostPort_examples :
  map SplitHostPort [":9100"; "0.0.0.0:80"; "[::1]:53"; "::1:53"; "host"; "[::1]"; "a:b:c"; "[a]b:1"] =
    [Some ("", "9100"); Some ("0.0.0.0", "80"); Some ("::1", "53"); None; None; None; None; None].
Proof. vm_compute. reflexivity. Qed.

(** A host and a port that hold no brackets, nor the port a colon, are joined to an
    address that is split back into them. *)
Definition plain_host (l : list ascii) : Prop := ("["%char ∉ l) /\ ("]"%char ∉ l).

Lemma index_of_app c l k : c ∉ l -> index_of c (l ++ (c :: k))%list = Some (length l).
Proof.
  unfold index_of. induction l as [|x l IH]; cbn; intros Hc.
  - by rewrite decide_True.
  - rewrite decide_False by (intros ->; apply Hc; left).
    assert (c ∉ l) as Hl by (intros H; apply Hc; by right).
    specialize (IH Hl). destruct (list_find _ _) as [[n y]|]; [|done]. cbn in *. by injection IH as ->.
Qed.

Lemma last_index_app c l k : c ∉ k -> last_index c (l ++ (c :: k))%list = Some (length l).
Proof.
  intros Hc. unfold last_index. rewrite rev_app_distr. cbn [rev]. rewrite <- app_assoc. cbn [app].
  rewrite index_of_app by (by rewrite list_elem_of_In, <- in_rev, <- list_elem_of_In).
  cbn. rewrite length_app, length_rev. cbn. f_equal. lia.
Qed.

Lemma has_false c l : c ∉ l -> has c l = false.
Proof. intros H. by apply bool_decide_eq_false_2. Qed.

Lemma split_join_plain host port :
  plain_host host -> plain_host port -> ":"%char ∉ port -> ":"%char ∉ host ->
  split_host_port (host ++ ":"%char :: port)%list = Some (host, port).
Proof.
  intros [H1 H2] [P1 P2] Hp Hh. unfold split_host_port. rewrite last_index_app by done.
  rewrite bool_decide_eq_false_2 by (destruct host as [|c host]; cbn; [done|]; intros [= ->]; apply H1; left).
  rewrite take_app_length, drop_app_ge by lia.
  rewrite !has_false by (rewrite ?elem_of_app, ?elem_of_cons; intuition congruence).
  by replace (S (length host) - length host)%nat with 1%nat by lia.
Qed.

Lemma split_join_bracketed host port :
  plain_host host -> plain_host port -> ":"%char ∉ port ->
  split_host_port ("["%char :: host ++ "]"%char :: ":"%char :: port)%list = Some (host, port).
Proof.
  intros [H1 H2] [P1 P2] Hp. unfold split_host_port.
  change ("["%char :: host ++ "]"%char :: ":"%char :: port)%list with (("["%char :: host) ++ "]"%char :: ":"%char :: port)%list.
  rewrite (index_of_app "]") by (rewrite elem_of_cons; intuition congruence).
  replace (("["%char :: host) ++ "]"%char :: ":"%char :: port)%list with (("["%char :: host ++ ["]"%char]) ++ ":"%char :: port)%list
    by (cbn; by rewrite <- app_assoc).
  rewrite last_index_app by done. cbn [app head length]. rewrite bool_decide_eq_true_2 by done.
  rewrite length_app. cbn [length]. rewrite bool_decide_eq_true_2 by lia.
  cbn [drop]. rewrite <- !app_assoc. cbn [app].
  rewrite !has_false; cycle 1.
  - rewrite drop_app_ge by lia. replace (S (length host) - length host)%nat with 1%nat by lia.
    cbn. rewrite elem_of_cons. intuition congruence.
  - rewrite drop_0, elem_of_app, !elem_of_cons. intuition congruence.
  - rewrite drop_0. cbn. rewrite take_app_length' by lia. do 2 f_equal. rewrite drop_app_ge by lia.
    by replace (S (length host + 1) - length host)%nat with 2%nat by lia.
Qed.

Lemma chars_app s t : chars (s ++ t) = (chars s ++ chars t)%list.
Proof. unfold chars. induction s as [|c s IH]; [done|]. cbn. by rewrite <- IH. Qed.

Lemma SplitHostPort_JoinHostPort host port :
  plain_host (chars host) -> plain_host (chars port) -> ":"%char ∉ chars port ->
  SplitHostPort (JoinHostPort host port) = Some (host, port).
Proof.
  intros Hh Hp Hc. unfold SplitHostPort, JoinHostPort, has. case_bool_decide as H; cycle 1.
  - rewrite !chars_app. change (chars ":" ++ chars port)%list with (":"%char :: chars port).
    rewrite split_join_plain by done. cbn. unfold text, chars. by rewrite !string_of_list_ascii_of_string.
  - rewrite !chars_app. change (chars "[" ++ chars host ++ chars "]:" ++ chars port)%list
      with ("["%char :: chars host ++ "]"%char :: ":"%char :: chars port)%list.
    rewrite split_join_bracketed by done. cbn. unfold text, chars. by rewrite !string_of_list_ascii_of_string.
Qed.
