(* ===== verification/Debug.v ===== *)
(** * The debug report

    [network/debug.go]: the state of the configuration, the runtime, its features and
    the UDP server as the debug endpoint reports it, and the URL that it announces.
    The handlers of the HTTP server answer a request with a status, headers and a
    body; the JSON of the report and the files of the frontend are not modelled. *)
From Stdlib Require Import Ascii.
From S2P Require Import Prelude Keys Values Snapshot Messages Packet Config InputBuffer Registry Scenes Float64 GoText.
From S2P Require Import Interest Metrics Runtime View Budget Window ReliableIn ReliableOut UdpClients.

(** ** Data *)
Record DebugFactoryState := mkDebugFactory { df_ObjectType : string; df_GoType : string }.

Record DebugAuthenticationState := mkDebugAuthentication {
  da_Required : bool;
  da_ObjectType : string;
  da_ObjectID : string;
  da_GoType : string
}.

Record DebugObjectState := mkDebugObject {
  do_ObjectType : string;
  do_ObjectID : string;
  do_GoType : string;
  do_Visible : bool;
  do_Capabilities : list string;
  do_Snapshot : GoValue;
  do_SnapshotError : string
}.

Record DebugObjectTypeState := mkDebugObjectType {
  dt_ObjectType : string;
  dt_Count : Z;
  dt_Objects : list DebugObjectState
}.

Record DebugRuntimeState := mkDebugRuntime {
  dr_Tick : Z;
  dr_ObjectCount : Z;
  dr_ObjectTypes : Z;
  dr_FactoryCount : Z;
  dr_Factories : list DebugFactoryState;
  dr_Authentication : DebugAuthenticationState;
  dr_Metrics : RuntimeMetrics;
  dr_InputBuffer : InputBufferMetrics;
  dr_Objects : list DebugObjectTypeState;
  dr_ObjectsByType : gmap string (gmap string GoValue)
}.

(** The other fields of [DebugInterestConfig] are those of the registration. *)
Record DebugInterestConfig := mkDebugInterestConfig { di_Key : string; di_Config : InterestManagementConfig }.

Record DebugInterestState := mkDebugInterest {
  dis_Configured : bool;
  dis_Enabled : bool;
  dis_PlayerCount : Z;
  dis_ObjectCount : Z;
  dis_Players : list DebugInterestConfig;
  dis_Objects : list DebugInterestConfig
}.

Record DebugSceneEntry := mkDebugSceneEntry { de_Key : string; de_Scene : SceneID }.

Record DebugSceneState := mkDebugScene {
  ds_Configured : bool;
  ds_Enabled : bool;
  ds_ClientCount : Z;
  ds_ObjectCount : Z;
  ds_ClientScenes : list DebugSceneEntry;
  ds_ObjectScenes : list DebugSceneEntry
}.

Record DebugFeatureState := mkDebugFeature {
  dfe_InterestManagement : DebugInterestState;
  dfe_SceneManagement : DebugSceneState
}.

Record DebugUDPClient := mkDebugUDPClient {
  dc_Address : string;
  dc_ConnectionID : string;
  dc_ID : string;
  dc_Authenticated : bool;
  dc_LastSequence : Z;
  dc_ReliableQueued : Z;
  dc_BudgetDrops : Z;
  dc_BudgetDeferrals : Z;
  dc_BytesSent : Z;
  dc_LastHeardAt : Z;
  dc_Idle : string;
  dc_IdleSeconds : f64
}.

(** The counters of the server as they are, and the encoding times in milliseconds. *)
Record DebugUDPCounters := mkDebugCounters {
  dco_RequestsAccepted : Z;
  dco_RequestsDropped : Z;
  dco_Metrics : ServerMetrics;
  dco_Reliable : OutCounters;
  dco_LastSnapshotEncodeDurationMs : f64;
  dco_MaxSnapshotEncodeDurationMs : f64;
  dco_TotalSnapshotEncodeDurationMs : f64;
  dco_AverageSnapshotEncodeDurationMs : f64;
  dco_ClientsCreated : Z;
  dco_ClientsRemoved : Z
}.

Record DebugUDPState := mkDebugUDP {
  du_Address : string;
  du_Started : bool;
  du_StartedAt : option Z;
  du_Uptime : string;
  du_UptimeSeconds : f64;
  du_ClientCount : Z;
  du_AuthenticatedClientCount : Z;
  du_ClientTimeout : string;
  du_Counters : DebugUDPCounters;
  du_Clients : list DebugUDPClient
}.

(** The fields of [DebugConfigState] that are not those of the configuration. *)
Record DebugConfigState := mkDebugConfig {
  dcf_Config : Config;
  dcf_TickInterval : string;
  dcf_TickIntervalMs : f64;
  dcf_SnapshotEvery : Z;
  dcf_ClientTimeout : string;
  dcf_ClientTimeoutMs : Z;
  dcf_ReliableRetryInterval : string;
  dcf_ReliableRetryIntervalMs : f64;
  dcf_DebugURL : string
}.

Record DebugSummary := mkDebugSummary {
  dsu_Tick : Z;
  dsu_ObjectCount : Z;
  dsu_ObjectTypeCount : Z;
  dsu_FactoryCount : Z;
  dsu_UDPClientCount : Z;
  dsu_AuthenticatedUDPClient : Z;
  dsu_AuthenticationRequired : bool;
  dsu_InterestEnabled : bool;
  dsu_ScenesEnabled : bool
}.

Record DebugState := mkDebugState {
  dst_GeneratedAt : Z;
  dst_URL : string;
  dst_Summary : DebugSummary;
  dst_Config : DebugConfigState;
  dst_Runtime : DebugRuntimeState;
  dst_Features : DebugFeatureState;
  dst_UDP : DebugUDPState
}.

(** ** The URL *)
Definition debugHTTPURL (address : string) : string :=
  (let address := TrimSpace address in
   let address := if bool_decide (address = "") then defaultDebugAddress else address in
   if HasPrefix address "http://" || HasPrefix address "https://" then address
   else
     match SplitHostPort address with
     | None => if HasPrefix address ":" then "http://localhost" ++ address else "http://" ++ address
     | Some (host, port) =>
         let host :=
           if bool_decide (host ∈ [""; "0.0.0.0"; "::"; "[::]"]%list) then "localhost" else host in
         "http://" ++ JoinHostPort host port
     end)%string.

(** ** Configuration and features *)
Definition millis (d : Z) : f64 := f_div (f_of_Z d) (f_of_Z Millisecond).

Definition debugConfigState (config : Config) : DebugConfigState :=
  let config := Normalized config in
  let tickInterval := TickInterval config in
  mkDebugConfig config (duration_text tickInterval) (millis tickInterval) (SnapshotEvery config)
    (duration_text (ClientTimeout config)) (Z.quot (ClientTimeout config) Millisecond)
    (duration_text (ReliableRetryInterval config)) (millis (ReliableRetryInterval config))
    (debugHTTPURL (DebugAddress config)).

(** The keys of a map, sorted; the value under each. *)
Definition sorted_map {A B} (f : string -> A -> B) (m : gmap string A) : list B :=
  map (fun e => f e.1 e.2) (sorted_entries m).

Definition debugInterestConfigs (configs : gmap string InterestManagementConfig) : list DebugInterestConfig :=
  sorted_map mkDebugInterestConfig configs.

Definition debugSceneEntries (entries : gmap string SceneID) : list DebugSceneEntry :=
  sorted_map mkDebugSceneEntry entries.

Definition count {K A} `{Countable K} (m : gmap K A) : Z := Z.of_nat (size m).

Definition debugInterestState (features : Features) : DebugInterestState :=
  match interest features with
  | None => mkDebugInterest false false 0 0 [] []
  | Some m =>
      mkDebugInterest true (interest_enabled m) (count (interest_players m)) (count (interest_objects m))
        (debugInterestConfigs (interest_players m)) (debugInterestConfigs (interest_objects m))
  end.

Definition debugSceneState (features : Features) : DebugSceneState :=
  match scenes features with
  | None => mkDebugScene false false 0 0 [] []
  | Some m =>
      mkDebugScene true (scenes_enabled m) (count (scenes_clients m)) (count (scenes_objects m))
        (debugSceneEntries (scenes_clients m)) (debugSceneEntries (scenes_objects m))
  end.

Definition features_DebugState (features : Features) : DebugFeatureState :=
  mkDebugFeature (debugInterestState features) (debugSceneState features).

(** ** The runtime *)

(** What the report takes from outside the repository: the names of Go types,
    [json.Marshal] and [json.Unmarshal] of a snapshot, the text of an error, and
    the text of a panic of an object's [Snapshot] or [SnapshotVisible]. *)
Class Diagnostics (Obj Factory Game : Type) := {
  object_GoType : Obj -> string;
  factory_GoType : Factory -> string;
  json_marshal : GoValue -> result bytes;
  json_unmarshal : bytes -> result GoValue;
  text_of : GoError -> string;
  snapshot_panic : Obj -> Game -> option string;
  visible_panic : Obj -> Game -> option string
}.

Section RuntimeState.
Context {Obj Factory Payload Game : Type} `{!GameCode Obj Factory Payload Game} {diagnostics : Diagnostics Obj Factory Game}.
Abbreviation Runtime := (Runtime Obj Factory Payload).

Definition debugFactoryStates (factories : gmap string Factory) : list DebugFactoryState :=
  sorted_map (fun objectType factory => mkDebugFactory objectType (factory_GoType factory)) factories.

Definition debugJSONValue (value : GoValue) : GoValue * string :=
  match json_marshal value with
  | Err e => (VNil, text_of e)
  | Ok payload =>
      match json_unmarshal payload with
      | Err e => (VNil, text_of e)
      | Ok decoded => (decoded, ""%string)
      end
  end.

Definition debugObjectSnapshot (object : Obj) (g : Game) : GoValue * string :=
  match snapshot_panic object g with
  | Some recovered => (VNil, "snapshot panic: " +:+ recovered)
  | None => debugJSONValue (ObjectSnapshot object g)
  end.

Definition debugSnapshotVisible (object : Obj) (g : Game) : bool * string :=
  match SnapshotVisible object with
  | None => (true, ""%string)
  | Some visible =>
      match visible_panic object g with
      | Some recovered => (false, "visibility panic: " +:+ recovered)
      | None => (visible g, ""%string)
      end
  end.

Definition if_some {A} (o : option A) (name : string) : list string :=
  match o with Some _ => [name] | None => [] end.

Definition debugCapabilities (object : Obj) : list string :=
  (["snapshot"] ++ if_some (OnInit object) "init" ++ if_some (OnTick object) "tick" ++
   if_some (OnFullTick object) "fullTick" ++ if_some (OnRequest object) "request" ++
   if_some (OnAuthenticationAttempt object) "authentication" ++ if_some (SnapshotVisible object) "visibility" ++
   if_some (OnSceneSwitchRequest object) "sceneSwitch")%list.

(** The loop body of [debugObjectStates]. *)
Definition debug_object (g : Game) (object : Obj) : DebugObjectState :=
  match objectIdentity (Some object) g with
  | Err e => mkDebugObject "" "" (object_GoType object) false (debugCapabilities object) VNil (text_of e)
  | Ok (objectType, objectID) =>
      let (snapshot, snapshotError) := debugObjectSnapshot object g in
      let (visible, visibleError) := debugSnapshotVisible object g in
      let snapshotError :=
        if bool_decide (visibleError = ""%string) then snapshotError
        else (if bool_decide (snapshotError = ""%string) then snapshotError else snapshotError +:+ ", ") +:+ visibleError in
      mkDebugObject objectType objectID (object_GoType object) visible (debugCapabilities object) snapshot snapshotError
  end.

Definition by_object_id (a b : DebugObjectState) : bool := String.ltb (do_ObjectID a) (do_ObjectID b).

Definition debugObjectStates (objects : list Obj) (g : Game) : list DebugObjectState :=
  go_sort by_object_id (map (debug_object g) objects).

(** [snapshots[objectType][object.ObjectID] = object.Snapshot] for all of a type. *)
Definition snapshots_by_id (objects : list DebugObjectState) : gmap string GoValue :=
  foldl (fun m object => <[do_ObjectID object := do_Snapshot object]> m) ∅ objects.

Definition debugObjectGroups (objectsByType : gmap string (list Obj)) (g : Game)
    : list DebugObjectTypeState * gmap string (gmap string GoValue) * Z :=
  foldl (fun '(groups, snapshots, objectCount) '(objectType, objects) =>
    let objects := debugObjectStates objects g in
    (groups ++ [mkDebugObjectType objectType (zlen objects) objects],
     <[objectType := snapshots_by_id objects]> snapshots, objectCount + zlen objects))
    ([], ∅, 0) (sorted_entries objectsByType).

Definition runtime_DebugState (r : Runtime) (g : Game) : DebugRuntimeState :=
  let factories := debugFactoryStates (factories r) in
  let authentication :=
    mkDebugAuthentication (match authenticationHandler r with Some _ => true | None => false end)
      (authenticationObjectType r) (authenticationObjectID r)
      (match authenticationHandler r with Some object => object_GoType object | None => "" end) in
  let objectsByType := (fun objectsByID : gmap string Obj => (map_to_list objectsByID).*2) <$> objects r in
  let '(objectGroups, snapshotMap, objectCount) := debugObjectGroups objectsByType g in
  mkDebugRuntime (tick r) objectCount (zlen objectGroups) (zlen factories) factories authentication (rt_metrics r)
    (metrics (inputs r)) objectGroups snapshotMap.
End RuntimeState.

(** ** The UDP server *)

(** [now.Sub(t)]: it saturates; [None] is the zero time, which is more than the
    longest duration ago. *)
Definition max_duration : Z := 2 ^ 63 - 1.
Definition since (now : Z) (t : option Z) : Z :=
  match t with
  | None => max_duration
  | Some t => Z.max (- 2 ^ 63) (Z.min max_duration (now - t))
  end.

Section UDPState.
Context {Body : Type}.
Abbreviation UDPServer := (UDPServer (Body := Body)).
Abbreviation UDPClient := (UDPClient (Body := Body)).

Definition debug_client (now : Z) (addr : string) (client : UDPClient) : DebugUDPClient :=
  let idle := since now (Some (cl_lastHeardAt client)) in
  mkDebugUDPClient addr (cl_connectionID client) (cl_id client) (cl_authenticated client)
    (lastSeq (cl_window client)) (count (reliableOut (cl_out client))) (budgetDrops (cl_budget client))
    (budgetDeferrals (cl_budget client)) (bytesSent (cl_budget client)) (cl_lastHeardAt client)
    (duration_text (Truncate idle Millisecond)) (Seconds idle).

Definition debug_counters (s : UDPServer) : DebugUDPCounters :=
  let e := encoding (sv_metrics s) in
  mkDebugCounters (sv_requestsAccepted s) (sv_requestsDropped s) (sv_metrics s) (sv_counters s)
    (durationMillis (lastSnapshotEncodeDurationNs e)) (durationMillis (maxSnapshotEncodeDurationNs e))
    (durationMillis (totalSnapshotEncodeDurationNs e))
    (snapshotAverageDurationMillis (totalSnapshotEncodeDurationNs e) (snapshotEncodeCount e))
    (sv_clientsCreated s) (sv_clientsRemoved s).

Definition no_udp_state : DebugUDPState :=
  mkDebugUDP "" false None "" f_zero 0 0 "" (mkDebugCounters 0 0 newServerMetrics (mkOutCounters 0 0 0 0 0 0)
    f_zero f_zero f_zero f_zero 0 0) [].

(** [address] and [startedAt] are fields of the server that nothing else reads;
    [None] is the nil server.  The address of a client is its key in the table. *)
Definition udp_DebugState (address : string) (startedAt : option Z) (config : Config) (now : Z)
    (server : option UDPServer) : DebugUDPState :=
  match server with
  | None => no_udp_state
  | Some s =>
      let clients := sorted_map (debug_client now) (clients s) in
      let uptime := since now startedAt in
      mkDebugUDP address (match startedAt with Some _ => true | None => false end) startedAt
        (duration_text (Truncate uptime Millisecond)) (Seconds uptime) (zlen clients)
        (zlen (filter (fun c => dc_Authenticated c = true) clients)) (duration_text (ClientTimeout config))
        (debug_counters s) clients
  end.
End UDPState.

(** ** The report *)

(** [runtimeState], [featureState] and [udpState] are read one after the other, each
    under its own lock, so that they may be of different moments. *)
Definition server_DebugState (config : Config) (now : Z) (runtimeState : DebugRuntimeState)
    (featureState : DebugFeatureState) (udpState : DebugUDPState) : DebugState :=
  mkDebugState now (debugHTTPURL (DebugAddress config))
    (mkDebugSummary (dr_Tick runtimeState) (dr_ObjectCount runtimeState) (dr_ObjectTypes runtimeState)
       (dr_FactoryCount runtimeState) (du_ClientCount udpState) (du_AuthenticatedClientCount udpState)
       (da_Required (dr_Authentication runtimeState)) (dis_Enabled (dfe_InterestManagement featureState))
       (ds_Enabled (dfe_SceneManagement featureState)))
    (debugConfigState config) runtimeState featureState udpState.

(** What the report says of a server that has not started its UDP transport. *)
Definition udp_before_start (config : Config) : DebugUDPState :=
  mkDebugUDP (UDPAddress config) false None "" f_zero 0 0 (duration_text (ClientTimeout config))
    (du_Counters no_udp_state) [].

(** ** The endpoints *)
Record HttpResponse := mkHttp { hr_Status : Z; hr_Header : gmap string string; hr_Body : string }.

(** A handler: the method, the path and the headers set so far. *)
Definition Handler : Type := string -> string -> gmap string string -> HttpResponse.

Definition newline : string := String (Ascii.ascii_of_nat 10) "".

(** [http.Error]. *)
Definition http_error (header : gmap string string) (message : string) (code : Z) : HttpResponse :=
  mkHttp code (<["X-Content-Type-Options" := "nosniff"]> (<["Content-Type" := "text/plain; charset=utf-8"]> header))%string
    (message +:+ newline).

Definition not_allowed (header : gmap string string) (allow : string) : HttpResponse :=
  http_error (<["Allow"%string := allow]> header) "method not allowed" 405.

(** [state] is the JSON of the report, or the text of the encoder's error. *)
Definition serveDebugState (state : string + string) : Handler := fun method _ header =>
  if negb (bool_decide (method = "GET"%string)) then not_allowed header "GET"
  else
    let header := <["Cache-Control" := "no-store"]> (<["Content-Type" := "application/json; charset=utf-8"]> header) in
    match state with
    | inl json => mkHttp 200 header json
    | inr e => http_error header e 500
    end%string.

Definition serveDebugHealth : Handler := fun method _ header =>
  if negb (bool_decide (method = "GET"%string)) then not_allowed header "GET"
  else mkHttp 200 (<["Cache-Control" := "no-store"]> (<["Content-Type" := "text/plain; charset=utf-8"]> header))%string
    ("ok" +:+ newline).

Definition debugNoStore (handler : Handler) : Handler := fun method path header =>
  handler method path (<["Cache-Control" := "no-store"]> header)%string.

Definition serveDebugFrontendPath (handler : Handler) (path : string) : Handler := fun method _ header =>
  if negb (bool_decide (method = "GET"%string)) && negb (bool_decide (method = "HEAD"%string))
  then not_allowed header "GET, HEAD"
  else handler method path header.

(** [DebugHandler], for clean paths; [files] is the file server of the frontend. *)
Definition DebugHandler (files : Handler) (state : string + string) : Handler := fun method path header =>
  (let frontend := debugNoStore files in
   if bool_decide (path = "/debug/state") then serveDebugState state method path header
   else if bool_decide (path = "/healthz") then serveDebugHealth method path header
   else if HasPrefix path "/debug/" then frontend method (String.substring 6 (String.length path - 6) path) header
   else if bool_decide (path = "/debug") then serveDebugFrontendPath frontend "/" method path header
   else frontend method path header)%string.

(** ** Facts *)
#[local] Instance by_object_id_weak : StrictWeak by_object_id.
Proof. apply (strict_weak_key do_ObjectID String.ltb). apply _. Qed.

Section Facts.
Context {Obj Factory Payload Game : Type} `{!GameCode Obj Factory Payload Game} {diagnostics : Diagnostics Obj Factory Game}.

Definition debug_group (g : Game) (e : string * list Obj) : DebugObjectTypeState :=
  mkDebugObjectType e.1 (zlen (debugObjectStates e.2 g)) (debugObjectStates e.2 g).

Lemma debugObjectGroups_eq m (g : Game) :
  debugObjectGroups m g =
    (map (debug_group g) (sorted_entries m),
     insert_all (fun objects => snapshots_by_id (debugObjectStates objects g)) ∅ (sorted_entries m),
     zlen (concat (sorted_entries m).*2)).
Proof.
  unfold debugObjectGroups, insert_all.
  assert (forall l gs (ss : gmap string (gmap string GoValue)) n,
    foldl (fun '(groups, snapshots, objectCount) '(objectType, objects) =>
      let objects := debugObjectStates objects g in
      (groups ++ [mkDebugObjectType objectType (zlen objects) objects],
       <[objectType := snapshots_by_id objects]> snapshots, objectCount + zlen objects)) (gs, ss, n) l =
    (gs ++ map (debug_group g) l,
     foldl (fun s e => <[e.1 := snapshots_by_id (debugObjectStates e.2 g)]> s) ss l, n + zlen (concat l.*2))) as H.
  { induction l as [|[t os] l IH]; intros gs ss n; cbn [foldl map concat fmap list_fmap fst snd].
    - by rewrite app_nil_r, zlen_nil, Z.add_0_r.
    - rewrite IH, <- app_assoc. unfold debug_group at 2. cbn [fst snd app].
      assert (zlen (debugObjectStates os g) = zlen os) as ->
        by (unfold debugObjectStates; rewrite zlen_sort, zlen_map; done).
      by rewrite zlen_app, Z.add_assoc. }
  by rewrite H.
Qed.

Lemma concat_perm {A} (l k : list (list A)) : l ≡ₚ k -> concat l ≡ₚ concat k.
Proof.
  induction 1 as [|x l k _ IH|x y l|l k m _ IH1 _ IH2]; cbn; [done | by rewrite IH | | by etrans].
  rewrite !app_assoc. apply Permutation_app_tail, Permutation_app_comm.
Qed.

(** The identities of the objects are the keys that they were registered under. *)
Definition identities_stable (r : Runtime Obj Factory Payload) (g : Game) : Prop :=
  forall t i o, at_key r (t, i) = Some o -> objectIdentity (Some o) g = Ok (t, i).

Lemma identities_stable_map (r : Runtime Obj Factory Payload) (g : Game) :
  map_Forall (fun t => map_Forall (fun i o => objectIdentity (Some o) g = Ok (t, i))) (objects r) -> identities_stable r g.
Proof.
  intros H t i o. unfold at_key. cbn. intros Ho. destruct (objects r !! t) as [m|] eqn:Hm; [|done]. by apply (H t m).
Qed.

Lemma debug_object_identity (g : Game) o t i :
  objectIdentity (Some o) g = Ok (t, i) ->
  do_ObjectType (debug_object g o) = t /\ do_ObjectID (debug_object g o) = i /\
  do_Snapshot (debug_object g o) = (debugObjectSnapshot o g).1.
Proof.
  intros H. unfold debug_object. rewrite H. destruct (debugObjectSnapshot o g) as [v e].
  by destruct (debugSnapshotVisible o g).
Qed.

Definition objects_by_type (r : Runtime Obj Factory Payload) : gmap string (list Obj) :=
  (fun objectsByID : gmap string Obj => (map_to_list objectsByID).*2) <$> objects r.

Section Exact.
Context (r : Runtime Obj Factory Payload) (g : Game) (Hid : identities_stable r g).

(** The objects of one type: each once, in the order of their ids. *)
Lemma debug_type_states t objectsByID :
  objects r !! t = Some objectsByID ->
  debugObjectStates (map_to_list objectsByID).*2 g = map (fun e => debug_object g e.2) (sorted_entries objectsByID).
Proof.
  intros Ht. unfold debugObjectStates, sorted_entries. rewrite <- (go_sort_map_in _ by_name by_object_id).
  - f_equal. change ((map_to_list objectsByID).*2) with (map snd (map_to_list objectsByID)). by rewrite map_map.
  - intros [i o] [i' o'] H H'. apply elem_of_map_to_list in H, H'. cbn [snd].
    assert (forall j x, objectsByID !! j = Some x -> do_ObjectID (debug_object g x) = j) as Hj.
    { intros j x Hx. apply (debug_object_identity g x t j), Hid. unfold at_key. cbn. by rewrite Ht. }
    unfold by_object_id, by_name. by rewrite (Hj i o H), (Hj i' o' H').
Qed.

Lemma snapshots_by_id_eq t objectsByID :
  objects r !! t = Some objectsByID ->
  snapshots_by_id (map (fun e => debug_object g e.2) (sorted_entries objectsByID)) =
    (fun o => (debugObjectSnapshot o g).1) <$> objectsByID.
Proof.
  intros Ht. rewrite <- insert_all_sorted_entries. unfold snapshots_by_id, insert_all.
  assert (forall e, e ∈ sorted_entries objectsByID -> do_ObjectID (debug_object g e.2) = e.1 /\
    do_Snapshot (debug_object g e.2) = (debugObjectSnapshot e.2 g).1) as He.
  { intros [i o] H%elem_of_sorted_entries. apply (debug_object_identity g o t i), Hid. unfold at_key. cbn. by rewrite Ht. }
  revert He. generalize (∅ : gmap string GoValue).
  induction (sorted_entries objectsByID) as [|e l IH]; intros m He; [done|]. cbn [map foldl].
  destruct (He e) as [-> ->]; [left|]. apply IH. intros x Hx. apply He. by right.
Qed.

Lemma sorted_entries_fmap {A B} (f : A -> B) (m : gmap string A) :
  sorted_entries (f <$> m) = map (fun e => (e.1, f e.2)) (sorted_entries m).
Proof.
  unfold sorted_entries. rewrite <- (go_sort_map _ by_name by_name) by done. by rewrite map_to_list_fmap.
Qed.

(** The objects of the report: a group per type of the table in the order of the
    names, in it an entry per object in the order of the ids. *)
Definition object_groups : list DebugObjectTypeState :=
  map (fun e => mkDebugObjectType e.1 (count e.2) (map (fun x => debug_object g x.2) (sorted_entries e.2)))
    (sorted_entries (objects r)).

Definition object_snapshots (objectsByID : gmap string Obj) : gmap string GoValue :=
  (fun o => (debugObjectSnapshot o g).1) <$> objectsByID.

Lemma debugObjectGroups_exact :
  debugObjectGroups (objects_by_type r) g =
    (object_groups, (object_snapshots <$> objects r : gmap string (gmap string GoValue)), zlen (objectList r)).
Proof.
  rewrite debugObjectGroups_eq. unfold objects_by_type. rewrite sorted_entries_fmap.
  assert (forall t m, (t, m) ∈ sorted_entries (objects r) -> objects r !! t = Some m) as Hin
    by (intros t m; by rewrite elem_of_sorted_entries).
  f_equal; [f_equal|].
  - unfold object_groups. rewrite map_map. apply map_ext_in. intros [t m] Ht%list_elem_of_In%Hin.
    unfold debug_group. cbn [fst snd]. rewrite (debug_type_states t) by done. f_equal.
    by rewrite zlen_map, zlen_sorted_entries.
  - rewrite <- (insert_all_sorted_entries object_snapshots (objects r)).
    unfold insert_all. revert Hin. generalize (∅ : gmap string (gmap string GoValue)).
    induction (sorted_entries (objects r)) as [|[t m] l IH]; intros acc Hin; [done|]. cbn [map foldl fst snd].
    rewrite (debug_type_states t) by (apply Hin; left). rewrite (snapshots_by_id_eq t) by (apply Hin; left).
    apply IH. intros t' m' H. apply Hin. by right.
  - unfold objectList, zlen. apply (f_equal Z.of_nat), Permutation_length.
    change (?f <$> ?l) with (map f l). rewrite map_map. apply concat_perm.
    exact (fmap_Permutation (fun e : string * gmap string Obj => (map_to_list e.2).*2) _ _ (sorted_entries_perm (objects r))).
Qed.
End Exact.
End Facts.

Lemma length_map_sorted {A B} (f : string -> A -> B) (m : gmap string A) : zlen (sorted_map f m) = count m.
Proof. unfold sorted_map. by rewrite zlen_map, zlen_sorted_entries. Qed.

(** A request with a method that the endpoint does not serve gets a 405 that says
    which it serves; the state and the health check are never cached. *)
Lemma debug_methods state files method header :
  (method <> "GET"%string ->
     hr_Status (DebugHandler files state method "/debug/state" header) = 405 /\
     hr_Header (DebugHandler files state method "/debug/state" header) !! "Allow"%string = Some "GET"%string /\
     hr_Status (DebugHandler files state method "/healthz" header) = 405) /\
  (forall json, hr_Status (DebugHandler files (inl json) "GET" "/debug/state" header) = 200 /\
     hr_Body (DebugHandler files (inl json) "GET" "/debug/state" header) = json /\
     hr_Header (DebugHandler files (inl json) "GET" "/debug/state" header) !! "Cache-Control"%string = Some "no-store"%string).
Proof.
  split.
  - intros H. unfold DebugHandler, serveDebugState, serveDebugHealth.
    rewrite (bool_decide_eq_false_2 _ H). split; [reflexivity | split; [|reflexivity]].
    change ((<["X-Content-Type-Options" := "nosniff"]> (<["Content-Type" := "text/plain; charset=utf-8"]>
      (<["Allow" := "GET"]> header)))%string !! "Allow"%string = Some "GET"%string). by simplify_map_eq.
  - intros json. split; [reflexivity | split; [reflexivity|]].
    change ((<["Cache-Control" := "no-store"]> (<["Content-Type" := "application/json; charset=utf-8"]> header))%string
      !! "Cache-Control"%string = Some "no-store"%string). by simplify_map_eq.
Qed.

(** The URL of an address names its host and port, a wildcard host as localhost. *)
Lemma debugHTTPURL_host host port :
  let address := JoinHostPort host port in
  plain_host (chars host) -> plain_host (chars port) -> ":"%char ∉ chars port ->
  TrimSpace address = address -> HasPrefix address "http://" = false -> HasPrefix address "https://" = false ->
  debugHTTPURL address =
    ("http://" ++ JoinHostPort (if bool_decide (host ∈ [""; "0.0.0.0"; "::"]%list) then "localhost" else host) port)%string.
Proof.
  intros address Hh Hp Hc Ht H1 H2. unfold debugHTTPURL. rewrite Ht.
  assert (address <> ""%string) as Hne.
  { unfold address, JoinHostPort. destruct (has ":" (chars host)); [done|]. by destruct host. }
  rewrite (bool_decide_eq_false_2 _ Hne), H1, H2. cbn [orb].
  unfold address. rewrite SplitHostPort_JoinHostPort by done.
  replace (bool_decide (host ∈ [""; "0.0.0.0"; "::"; "[::]"]%list%string))
    with (bool_decide (host ∈ [""; "0.0.0.0"; "::"]%list%string)); [done|].
  apply bool_decide_ext. rewrite !elem_of_cons.
  assert (host <> "[::]"%string) by (intros ->; apply (proj1 Hh); left).
  intuition congruence.
Qed.

(** ** Properties *)

(** C29: when the objects still have the identities that they were registered under,
    the report lists every object of the table exactly once: a group per type in the
    order of the type names, in it the objects in the order of their ids, and in
    [objectsByType] the snapshot of each under its type and id.  The counts are those of
    the table, of the registered factories and of their groups; the summary repeats
    them, and authentication is required exactly when there is a handler. *)
Theorem debug_report_exact {Obj Factory Payload Game : Type} `{!GameCode Obj Factory Payload Game}
    {diagnostics : Diagnostics Obj Factory Game} (r : Runtime Obj Factory Payload) (g : Game)
    config now features udp :
  identities_stable r g ->
  let s := runtime_DebugState r g in
  let summary := dst_Summary (server_DebugState config now s features udp) in
  dr_Objects s =
    map (fun e => mkDebugObjectType e.1 (count e.2) (map (fun x => debug_object g x.2) (sorted_entries e.2)))
      (sorted_entries (objects r)) /\
  dr_ObjectsByType s = object_snapshots g <$> objects r /\
  dr_ObjectCount s = zlen (objectList r) /\ dr_ObjectTypes s = count (objects r) /\
  map df_ObjectType (dr_Factories s) = (sorted_entries (factories r)).*1 /\
  dr_FactoryCount s = count (factories r) /\
  (da_Required (dr_Authentication s) = true <-> is_Some (authenticationHandler r)) /\
  dsu_ObjectCount summary = zlen (objectList r) /\ dsu_FactoryCount summary = count (factories r) /\
  dsu_AuthenticationRequired summary = da_Required (dr_Authentication s).
Proof.
  intros Hid s summary.
  assert (s = runtime_DebugState r g) as Hs by done. clearbody s. subst summary.
  unfold runtime_DebugState in Hs. change ((fun m : gmap string Obj => (map_to_list m).*2) <$> objects r) with (objects_by_type r) in Hs.
  rewrite (debugObjectGroups_exact r g Hid) in Hs. subst s. cbn.
  unfold debugFactoryStates. rewrite length_map_sorted. unfold object_groups.
  rewrite zlen_map, zlen_sorted_entries. repeat split; [|by destruct (authenticationHandler r)..].
  unfold sorted_map. by rewrite map_map.
Qed.

(** ** Witnesses *)
#[local] Instance toy_diagnostics : Diagnostics Toy.thing unit Z := {
  object_GoType _ := "*toy.Thing"%string;
  factory_GoType _ := "network.ObjectFactory"%string;
  json_marshal _ := Ok [];
  json_unmarshal _ := Ok VNil;
  text_of _ := "error"%string;
  snapshot_panic o _ := match o with Toy.Guard _ => Some "asleep"%string | _ => None end;
  visible_panic _ _ := None
}.

Lemma debug_report_exact_witness :
  let w := (RegisterObject (Some Toy.Spawner) (RegisterObject (Some (Toy.Guard "g")) Toy.start).1).1 in
  map (fun t => (dt_ObjectType t, dt_Count t, map (fun o => (do_ObjectID o, do_SnapshotError o)) (dt_Objects t)))
    (dr_Objects (runtime_DebugState w.1 w.2)) =
    [("door", 1, [("inner", "")]); ("guard", 1, [("1", "snapshot panic: asleep")]); ("spawner", 1, [("s", "")])]%string /\
  dr_ObjectCount (runtime_DebugState w.1 w.2) = 3.
Proof.
  intros w. assert (identities_stable w.1 w.2) as H.
  { apply identities_stable_map, map_Forall_to_list.
    apply Forall_impl with (fun e => Forall (fun x => objectIdentity (Some x.2) w.2 = Ok (e.1, x.1)) (map_to_list e.2)).
    - vm_compute. repeat constructor.
    - intros [t m] Hm. by apply map_Forall_to_list, (Forall_impl _ _ _ Hm); intros []. }
  destruct (debug_report_exact w.1 w.2 DefaultConfig 0 (features_DebugState (features w.1)) no_udp_state H)
    as (-> & _ & -> & _). by vm_compute.
Defined.
