(* ===== verification/Process.v ===== *)
(** * The process

    [network/server.go] and [main.go]: the server that ties a runtime to its transport,
    the flags of the command line, the configuration that they make, and the loops of
    the UDP transport as a fold over what happens to the process.  Goroutines, the
    socket and the log are outside; the lines that are logged at the start are modelled. *)
From S2P Require Import Prelude Buffer Values Snapshot Messages Packet Config Keys InputBuffer Registry Payload Decode Scenes Interest Metrics Runtime View.
From S2P Require Import Budget Window ReliableIn ReliableOut ReliableStream UdpClients Outbound UdpSnapshot Server NetObjects GoText Debug.
#[local] Open Scope list_scope.
#[local] Open Scope string_scope.
#[local] Open Scope Z_scope.

(** ** The server *)
Section Wiring.
Context {Obj Factory G : Type} {libraries : Libraries}.
Abbreviation Game := (G * Net)%type.
Abbreviation World := (World Obj Factory InputPayload Game).
Abbreviation Runtime := (Runtime Obj Factory InputPayload).
Context `{!GameCode Obj Factory InputPayload Game}.

Record Server := mkServer_ {
  srv_config : Config;
  srv_runtime : Runtime;
  srv_udp : option Net
}.

Definition NewServer (config : Config) : Server :=
  let config := Normalized config in mkServer_ config (NewRuntime config) None.

(** The process: its server and the state of the game. *)
Definition Process : Type := Server * G.

(** What hooks see: before the transport starts there are no clients. *)
Definition world_of (p : Process) : World := (srv_runtime p.1, (p.2, default NewUDPServer (srv_udp p.1))).

Definition with_world (p : Process) (w : World) : Process :=
  (mkServer_ (srv_config p.1) w.1 ((fun _ => w.2.2) <$> srv_udp p.1), w.2.1).

Definition on_world {A} (f : World -> World * A) (p : Process) : Process * A :=
  let (w, a) := f (world_of p) in (with_world p w, a).

(** The methods that pass a call on to the runtime. *)
Definition server_RegisterObject (object : option Obj) : Process -> Process * result unit :=
  on_world (RegisterObject object).
Definition server_RegisterAuthenticationObject (object : option Obj) : Process -> Process * result unit :=
  on_world (RegisterAuthenticationObject object).
Definition server_RemoveObject (objectType objectID : string) (p : Process) : Process :=
  with_world p (on_runtime (world_of p) (fun r => RemoveObject r objectType objectID)).
Definition server_RegisterFactory (objectType : string) (factory : option Factory) : Process -> Process * result unit :=
  on_world (fun w => let (r, e) := RegisterFactory w.1 objectType factory in ((r, w.2), e)).
Definition server_CreateObject (objectType objectID : string) (now : Z) : Process -> Process * result (option Obj) :=
  on_world (CreateObject objectType objectID now).

(** What [ListenAndServeUDP] logs; the line of the debug interface comes from its own
    goroutine. *)
Definition debug_log (config : Config) : list string :=
  if DebugEnabled config then ["Enserva debug UI running on " ++ debugHTTPURL (DebugAddress config)] else [].

Definition startup_log (config : Config) : list string :=
  ["Enserva UDP API running on " ++ UDPAddress config;
   "Tick rate: " ++ itoa (TickRate config) ++ "/s, snapshots: " ++ itoa (SnapshotRate config) ++ "/s"] ++
  (if EnableDeltaSnapshots config
   then ["Delta snapshots enabled, full snapshot interval: " ++ itoa (FullSnapshotInterval config) ++ " snapshots"]
   else []).

(** [ListenAndServeUDP] up to the loop. *)
Definition ListenAndServeUDP (p : Process) : Process * list string :=
  ((mkServer_ (srv_config p.1) (srv_runtime p.1) (Some NewUDPServer), p.2), startup_log (srv_config p.1)).

(** ** The loops of the transport *)
Context (registry : option (WireMessageRegistry (World := World))).
Abbreviation Conn := (option (string -> bytes -> result unit)).

(** What happens: a datagram arrives, reading one fails, or the ticker fires.  The
    times are those of the handlers, the order is that of the reliable queues. *)
Inductive Event :=
  | Datagram (addr : string) (payload : bytes) (now : Z)
  | ReadError
  | Tick (order : list (string * list Z)) (duration now : Z).

(** The size of the receive buffer: a longer datagram loses its end. *)
Definition receive_buffer : nat := Z.to_nat 65535.

(** The bodies of the loops of [ListenAndServe] and [runTickLoop]; what they log is
    the error. *)
Definition serve_event (conn : Conn) (w : World) (e : Event) : World * result unit :=
  match e with
  | Datagram addr payload now => handleMessage registry conn addr (take receive_buffer payload) now w
  | ReadError => (w, Err (ErrOther "udp read error"))
  | Tick order duration now => advanceAndMaybeBroadcast registry conn order duration now w
  end.

(** The loops go on whatever the error was. *)
Definition serve_events (conn : Conn) (events : list Event) (w : World) : World :=
  foldl (fun w e => (serve_event conn w e).1) w events.

(** The started server, serving. *)
Definition serve (conn : Conn) (events : list Event) (p : Process) : Process :=
  with_world p (serve_events conn events (world_of p)).
End Wiring.

(** ** The command line *)

(** The flags, after [flag.Parse]. *)
Record Flags := mkFlags {
  udpPort : Z;
  udpAddr : string;
  tickRate : Z;
  snapshotRate : Z;
  deltaSnapshots : bool;
  fullSnapshotInterval : Z;
  clientTimeout : Z;
  maxClients : Z;
  maxUDPPacketSize_flag : Z;
  enableBandwidthBudget : bool;
  clientBytesPerSecond : Z;
  defaultSnapshotPriority_flag : Z;
  reliableRetryInterval : Z;
  reliableMaxAttempts : Z;
  reliableQueueLimit : Z;
  maxInputFutureTicks : Z;
  maxInputPastTicks : Z;
  inputBufferLimit : Z;
  exampleObjects : bool;
  debug : bool;
  debugAddr : string
}.

Definition default_flags : Flags := {|
  udpPort := 9000;
  udpAddr := "";
  tickRate := 128;
  snapshotRate := 20;
  deltaSnapshots := false;
  fullSnapshotInterval := 64;
  clientTimeout := 5 * Second;
  maxClients := 0;
  maxUDPPacketSize_flag := 1200;
  enableBandwidthBudget := false;
  clientBytesPerSecond := 0;
  defaultSnapshotPriority_flag := OutboundPriorityNormal;
  reliableRetryInterval := 100 * Millisecond;
  reliableMaxAttempts := 5;
  reliableQueueLimit := 64;
  maxInputFutureTicks := 8;
  maxInputPastTicks := 2;
  inputBufferLimit := 256;
  exampleObjects := true;
  debug := false;
  debugAddr := ":9100"
|}.

Definition udpListenAddress (address : string) (port : Z) : string :=
  let address := TrimSpace address in
  if negb (bool_decide (address = "")) then address else ":" ++ itoa port.

(** The configuration of [main]: every field is set from a flag, except the
    capabilities, which stay those of [DefaultConfig]. *)
Definition config_of_flags (f : Flags) : Config :=
  let config := DefaultConfig in {|
  UDPAddress := udpListenAddress (udpAddr f) (udpPort f);
  TickRate := tickRate f;
  SnapshotRate := snapshotRate f;
  EnableDeltaSnapshots := deltaSnapshots f;
  SupportedWireCapabilities := SupportedWireCapabilities config;
  FullSnapshotInterval := fullSnapshotInterval f;
  ClientTimeout := clientTimeout f;
  MaxClients := maxClients f;
  MaxUDPPacketSize := maxUDPPacketSize_flag f;
  EnableBandwidthBudget := enableBandwidthBudget f;
  ClientBytesPerSecond := clientBytesPerSecond f;
  DefaultSnapshotPriority := defaultSnapshotPriority_flag f;
  ReliableRetryInterval := reliableRetryInterval f;
  ReliableMaxAttempts := reliableMaxAttempts f;
  ReliableQueueLimit := reliableQueueLimit f;
  MaxInputFutureTicks := maxInputFutureTicks f;
  MaxInputPastTicks := maxInputPastTicks f;
  InputBufferLimit := inputBufferLimit f;
  DebugEnabled := debug f;
  DebugAddress := debugAddr f
|}.

(** The defaults of the flags are those of the package. *)
Example default_flags_config : config_of_flags default_flags = DefaultConfig.
Proof. vm_compute. reflexivity. Qed.

Example udpListenAddress_examples :
  udpListenAddress " " 9000 = ":9000" /\ udpListenAddress " host:1 " 9000 = "host:1" /\ udpListenAddress "" (-1) = ":-1".
Proof. vm_compute. done. Qed.

(** *** [main] up to the loops *)
Section Main.
Context {libraries : Libraries}.
Context (remarshalPlayer : GoAny -> PlayerRequest -> result PlayerRequest).
Context (unmarshalPlayer : bytes -> result PlayerRequest).
Context (remarshalBuilding : GoAny -> BuildingRequest -> result BuildingRequest).
Context (unmarshalBuilding : bytes -> result BuildingRequest).
Abbreviation Process := (Process (Obj := NetObject) (Factory := SampleFactory) (G := Heap)).
Abbreviation register := (Register (X := Net) (Payload := InputPayload)
  remarshalPlayer unmarshalPlayer remarshalBuilding unmarshalBuilding).

(** The process and what it has logged; an error of [Register] is fatal. *)
Definition main (f : Flags) : Process * result (list string) :=
  let server := (NewServer (config_of_flags f), mkHeap ∅ ∅ ∅) : Process in
  let (server, e) := if exampleObjects f then on_world register server else (server, Ok tt) in
  match e with
  | Err e => (server, Err e)
  | Ok _ => let (server, log) := ListenAndServeUDP server in (server, Ok log)
  end.
End Main.

(** ** The loops are runs of the server *)
Section Serving.
Context {Obj Factory G : Type} {libraries : Libraries}.
Abbreviation Game := (G * Net)%type.
Abbreviation World := (World Obj Factory InputPayload Game).
Context `{!GameCode Obj Factory InputPayload Game}.
Context (registry : option (WireMessageRegistry (World := World))) {laws : ServerLaws registry}.
Abbreviation run := (server_run registry).

Definition is_tick (e : Event) : bool := match e with Tick _ _ _ => true | _ => false end.

(** How often the ticker fires. *)
Definition tick_count (events : list Event) : Z := zlen (filter (fun e => is_tick e = true) events).

Lemma tick_count_cons e events : tick_count (e :: events) = (if is_tick e then 1 else 0) + tick_count events.
Proof. unfold tick_count. rewrite filter_cons. destruct (is_tick e); [by rewrite decide_True, zlen_cons by done | done]. Qed.

Lemma serve_event_run c g conn (w : World) h e :
  run c g w h ->
  (exists h', run c g (serve_event registry conn w e).1 h') /\
  tick (serve_event registry conn w e).1.1 = (if is_tick e then u64_inc (tick w.1) else tick w.1).
Proof.
  intros H. destruct (server_run_ok registry c g w h H) as [Hok _].
  destruct e as [addr payload now| |order duration now]; cbn [serve_event is_tick].
  - split; [eexists; by apply run_message|].
    by destruct (handleMessage_ok registry conn addr (take receive_buffer payload) now w h Hok) as [_ [_ Ht]].
  - split; [by exists h | done].
  - split; [eexists; by apply run_tick|].
    by destruct (advanceAndMaybeBroadcast_ok registry conn order duration now w h Hok) as (_ & _ & Ht).
Qed.

Lemma serve_events_run c g conn events (w : World) h :
  run c g w h ->
  (exists h', run c g (serve_events registry conn events w) h') /\
  tick (serve_events registry conn events w).1 = wrap 64 (tick w.1 + tick_count events).
Proof.
  revert w h. induction events as [|e events IH]; intros w h H.
  - split; [by exists h|]. cbn. rewrite Z.add_0_r. symmetry. apply wrap_small.
    destruct (server_run_ok registry c g w h H) as [[Hok _] _]. apply Hok.
  - destruct (serve_event_run c g conn w h e H) as [[h' H'] Ht].
    destruct (IH _ _ H') as [Hr Ht']. split; [exact Hr|].
    change (serve_events registry conn (e :: events) w) with (serve_events registry conn events (serve_event registry conn w e).1).
    rewrite Ht', Ht, tick_count_cons. unfold u64_inc, u64_add, wrap. destruct (is_tick e).
    + rewrite Zplus_mod_idemp_l. f_equal. lia.
    + done.
Qed.
End Serving.

(** ** The process that [main] starts *)
Section Started.
Context {libraries : Libraries}.
Context (remarshalPlayer : GoAny -> PlayerRequest -> result PlayerRequest).
Context (unmarshalPlayer : bytes -> result PlayerRequest).
Context (remarshalBuilding : GoAny -> BuildingRequest -> result BuildingRequest).
Context (unmarshalBuilding : bytes -> result BuildingRequest).
Abbreviation World := (World NetObject SampleFactory InputPayload (Heap * Net)).
Abbreviation register := (Register (X := Net) (Payload := InputPayload)
  remarshalPlayer unmarshalPlayer remarshalBuilding unmarshalBuilding).
#[local] Existing Instance sample_game.
#[local] Instance game : GameCode NetObject SampleFactory InputPayload (Heap * Net) :=
  sample_game remarshalPlayer unmarshalPlayer remarshalBuilding unmarshalBuilding.

Lemma RegisterFactory_ok (r : Runtime NetObject SampleFactory InputPayload) t f :
  key_ok t -> RegisterFactory r t (Some f) = (set_factories r (<[t := f]> (factories r)), Ok tt).
Proof. intros Ht. unfold RegisterFactory. by destruct (key_ok_eq t Ht) as [-> ->]. Qed.

Lemma Register_authenticator (w : World) p :
  authenticationHandler w.1 = None -> authenticators (heap w) !! p = Some (NewPlayerAuthenticator "default") ->
  let w' := (RegisterAuthenticationObject (GameCode0 := game) (Some (AuthenticatorPtr p)) w).1 in
  (RegisterAuthenticationObject (GameCode0 := game) (Some (AuthenticatorPtr p)) w).2 = Ok tt /\ w'.2 = w.2 /\
  config w'.1 = config w.1 /\ factories w'.1 = factories w.1 /\ authenticationHandler w'.1 = Some (AuthenticatorPtr p) /\
  objects w'.1 = objects (store w.1 "player-auth" "default" (AuthenticatorPtr p)) /\
  features w'.1 = features (disable_features w.1 "player-auth" "default").
Proof.
  intros Hn Hp. cbv zeta. unfold RegisterAuthenticationObject. change (OnAuthenticationAttempt (AuthenticatorPtr p)) with
    (Some (net_OnAuthenticationAttempt (X := Net) (Payload := InputPayload) remarshalPlayer unmarshalPlayer remarshalBuilding unmarshalBuilding p)).
  cbv iota. assert (objectIdentity (GameCode0 := game) (Some (AuthenticatorPtr p)) w.2 = Ok ("player-auth", "default")) as ->.
  { rewrite (net_identity_eq game) by reflexivity. unfold net_identity. cbn [net_ObjectType net_ObjectID].
    unfold net_ObjectID. unfold heap in Hp. rewrite Hp. reflexivity. }
  rewrite Hn. repeat split.
Qed.

(** The registration of the sample game in a runtime without an authentication handler. *)
Lemma Register_game (w : World) :
  authenticationHandler w.1 = None ->
  let (w', r) := register w in
  r = Ok tt /\ api_steps (GameCode0 := game) w.1 w'.1 /\ w'.2.2 = w.2.2 /\ config w'.1 = config w.1 /\
  exists p, authenticationHandler w'.1 = Some (AuthenticatorPtr p) /\
    authenticators (heap w') = <[p := NewPlayerAuthenticator "default"]> (authenticators (heap w)) /\
    factories w'.1 = <["building" := BuildingFactory]> (<["player" := PlayerFactory]> (factories w.1)) /\
    objects w'.1 = objects (store w.1 "player-auth" "default" (AuthenticatorPtr p)) /\
    features w'.1 = features (disable_features w.1 "player-auth" "default").
Proof.
  intros Hn. unfold Register, new_authenticator. set (p := fresh _). set (w1 := on_heap w _).
  assert (authenticators (heap w1) !! p = Some (NewPlayerAuthenticator "default")) as Hp by apply lookup_insert_eq.
  pose proof (Register_authenticator w1 p Hn Hp) as H. cbv zeta in H.
  pose proof (RegisterAuthenticationObject_steps (GameCode0 := game) (laws := net_objects_lawful _ _ _ _) (Some (AuthenticatorPtr p)) w1) as Hs.
  change (net_objects remarshalPlayer unmarshalPlayer remarshalBuilding unmarshalBuilding) with game.
  destruct (RegisterAuthenticationObject (Some (AuthenticatorPtr p)) w1) as [w2 r]. cbn [fst snd] in H, Hs.
  destruct H as (-> & Hg & Hc & Hf & Ha & Hobj & Hfe).
  rewrite !RegisterFactory_ok by (by split; [|discriminate]).
  split_and!.
  - done.
  - unfold api_steps in *. etrans; [exact Hs|].
    eapply rtc_l; [exact (api_factory w2.1 "player" (Some PlayerFactory))|].
    rewrite RegisterFactory_ok by (by split; [|discriminate]).
    apply rtc_once. pose proof (api_factory (GameCode0 := game) (set_factories w2.1 (<["player" := PlayerFactory]> (factories w2.1)))
      "building" (Some BuildingFactory)) as H. by rewrite RegisterFactory_ok in H by (by split; [|discriminate]).
  - cbn. by rewrite Hg.
  - by cbn.
  - exists p. split_and!; [by cbn | cbn; unfold heap; cbn; by rewrite Hg | cbn; by rewrite Hf | exact Hobj | exact Hfe].
Qed.

Lemma world_of_with_world (p : Process (Obj := NetObject) (Factory := SampleFactory) (G := Heap)) w :
  is_Some (srv_udp p.1) -> world_of (with_world p w) = w.
Proof. destruct p as [[c r u] g], w as [r' [g' n']]. intros [x Hx]. cbn in Hx. subst u. done. Qed.

Abbreviation start := (main remarshalPlayer unmarshalPlayer remarshalBuilding unmarshalBuilding).

(** [config_of_flags] leaves the capabilities to the default, so that normalizing the
    configuration again, in [NewRuntime], does not change it. *)
Lemma flags_config_normal f : Normalized (Normalized (config_of_flags f)) = Normalized (config_of_flags f).
Proof.
  apply Normalized_id; [apply Normalized_config_valid|]. destruct f as [? ? ? ? []]; vm_compute; discriminate.
Qed.

Lemma main_spec r f :
  let config := Normalized (config_of_flags f) in
  let (p, log) := start f in
  log = Ok (startup_log config) /\ srv_config p.1 = config /\ srv_udp p.1 = Some NewUDPServer /\
  AuthenticationRequired (srv_runtime p.1) = exampleObjects f /\
  tick (srv_runtime p.1) = 0 /\ Runtime.config (srv_runtime p.1) = config /\
  server_run (GameCode0 := game) (Some r) config (mkHeap ∅ ∅ ∅) (world_of p) ∅.
Proof.
  intros config. unfold Process.main. set (p0 := (NewServer _, _)).
  assert (server_run (GameCode0 := game) (Some r) config (mkHeap ∅ ∅ ∅) (world_of p0) ∅) as H0 by apply run_start.
  pose proof (flags_config_normal f) as Hn. fold config in Hn.
  destruct (exampleObjects f).
  - unfold on_world. pose proof (Register_game (world_of p0) eq_refl) as H.
    destruct (register (world_of p0)) as [w e]. destruct H as (-> & Hs & Hnet & Hc & q & Ha & _).
    cbn -[startup_log Normalized]. split_and!; [done | done | done | | | |].
    + unfold AuthenticationRequired. by rewrite Ha.
    + by apply api_steps_frame in Hs as [_ ->].
    + by rewrite Hc.
    + eapply run_call; [exact H0|]. unfold world_of. cbn. split; [exact Hs|]. done.
  - cbn -[startup_log Normalized]. by split_and!.
Qed.
End Started.

(** ** Properties *)

(** C12: with any flags, [main] does not fail: the sample game can be registered, the
    server's and the runtime's configuration are both the normalized configuration of
    the flags, which is valid, and authentication is required exactly when the sample
    objects are in use.  Whatever then arrives on the socket, fails to be read or
    ticks, in any order, the state is one of the runs that [Server] is about, with the
    configuration unchanged, and its tick is the number of times that the ticker fired. *)
Theorem main_serves {libraries : Libraries} remarshalPlayer unmarshalPlayer remarshalBuilding unmarshalBuilding
    r f conn events :
  NewDefaultWireMessageRegistry = Ok r ->
  (forall payload request, unmarshalRequest payload = Ok request -> in_u64 (rm_Sequence request)) ->
  let config := Normalized (config_of_flags f) in
  let game := sample_game remarshalPlayer unmarshalPlayer remarshalBuilding unmarshalBuilding in
  let (p, log) := main remarshalPlayer unmarshalPlayer remarshalBuilding unmarshalBuilding f in
  let w := world_of (serve (GameCode0 := game) (Some r) conn events p) in
  log = Ok (startup_log config) /\ config_valid config /\
  srv_config p.1 = config /\ Runtime.config (srv_runtime p.1) = config /\
  AuthenticationRequired (srv_runtime p.1) = exampleObjects f /\
  (exists h, server_run (GameCode0 := game) (Some r) config (mkHeap ∅ ∅ ∅) w h) /\
  Runtime.config w.1 = config /\ tick w.1 = wrap 64 (tick_count events).
Proof.
  intros Hr Hjson config game.
  pose proof (main_spec remarshalPlayer unmarshalPlayer remarshalBuilding unmarshalBuilding r f) as H. cbv zeta in H. fold config in H.
  destruct (main _ _ _ _ f) as [p log]. destruct H as (-> & Hc & Hu & Ha & Ht & Hrc & Hrun).
  pose proof (sample_laws remarshalPlayer unmarshalPlayer remarshalBuilding unmarshalBuilding r Hr Hjson) as laws.
  destruct (serve_events_run (GameCode0 := game) (laws := laws) (Some r) config _ conn events _ _ Hrun) as [[h Hh] Htick].
  cbv zeta. unfold serve. rewrite world_of_with_world by (by eexists).
  split_and!; [done | apply Normalized_config_valid | done | done | done | by exists h | |].
  - rewrite (proj2 (server_run_ok (GameCode0 := game) (laws := laws) (Some r) _ _ _ _ Hh)). apply flags_config_normal.
  - rewrite Htick. change ((world_of p).1) with (srv_runtime p.1). by rewrite Ht.
Qed.

(** ** Witnesses *)
Lemma main_serves_witness :
  exists r, NewDefaultWireMessageRegistry = Ok r /\
  let game := sample_game (libraries := Arena.arena_libraries) (fun _ r => Ok r) (fun _ => Ok zero_player_request)
    (fun _ r => Ok r) (fun _ => Ok zero_building_request) in
  let (p, log) := main (libraries := Arena.arena_libraries) (fun _ r => Ok r) (fun _ => Ok zero_player_request)
    (fun _ r => Ok r) (fun _ => Ok zero_building_request) default_flags in
  log = Ok ["Enserva UDP API running on :9000"; "Tick rate: 128/s, snapshots: 20/s"] /\
  AuthenticationRequired (srv_runtime p.1) = true /\
  tick (world_of (serve (libraries := Arena.arena_libraries) (GameCode0 := game) (Some r) None
    [Tick [] 5 1; ReadError; Datagram "a" [] 2; Tick [] 5 3] p)).1 = 2.
Proof.
  destruct (default_registry_exists (World := World NetObject SampleFactory InputPayload (Heap * Net))) as [r Hr].
  exists r. split; [exact Hr|].
  pose proof (main_serves (libraries := Arena.arena_libraries) (fun _ r => Ok r) (fun _ => Ok zero_player_request)
    (fun _ r => Ok r) (fun _ => Ok zero_building_request) r default_flags None
    [Tick [] 5 1; ReadError; Datagram "a" [] 2; Tick [] 5 3] Hr) as H.
  cbv zeta in H. cbv zeta. destruct (main _ _ _ _ default_flags) as [p log].
  assert (forall payload request, unmarshalRequest (Libraries := Arena.arena_libraries) payload = Ok request ->
    in_u64 (rm_Sequence request)) as Hjson by (intros payload request E; injection E as <-; split; reflexivity).
  destruct (H Hjson) as (-> & _ & _ & _ & -> & _ & _ & ->). repeat split; vm_compute; reflexivity.
Defined.
