(* ===== verification/Play.v ===== *)
(** * The sample game in play

    The process that [main] starts with the sample objects is ready for another player
    whatever it has received: every handler and every tick keeps what a login asks of
    the state ([Session.ready]), so that the theorem of [Session] holds of all its runs,
    for a login as for the datagram ([Handshake]) that asks for it. *)
From S2P Require Import Prelude Keys Values Snapshot Messages Config InputBuffer Registry Payload Decode Scenes Float64 Interest Metrics Runtime View.
From S2P Require Import Budget Window ReliableIn ReliableOut ReliableStream UdpClients Outbound UdpSnapshot Server Handshake NetObjects Session GoText Debug Process.
#[local] Open Scope string_scope.
#[local] Open Scope Z_scope.

Section Play.
Context {libraries : Libraries}.
Context (remarshalPlayer : GoAny -> PlayerRequest -> result PlayerRequest).
Context (unmarshalPlayer : bytes -> result PlayerRequest).
Context (remarshalBuilding : GoAny -> BuildingRequest -> result BuildingRequest).
Context (unmarshalBuilding : bytes -> result BuildingRequest).
Abbreviation World := (World NetObject SampleFactory InputPayload (Heap * Net)).
#[local] Instance play_game : GameCode NetObject SampleFactory InputPayload (Heap * Net) :=
  sample_game remarshalPlayer unmarshalPlayer remarshalBuilding unmarshalBuilding.
Abbreviation ready := (ready remarshalPlayer unmarshalPlayer remarshalBuilding unmarshalBuilding).
Abbreviation login p := (net_OnAuthenticationAttempt (X := Net) (Payload := InputPayload)
  remarshalPlayer unmarshalPlayer remarshalBuilding unmarshalBuilding p).

(** The state of the process that was started with the flags [f], after [events]. *)
Definition played registry conn f (events : list Event) : World :=
  world_of (serve registry conn events (main remarshalPlayer unmarshalPlayer remarshalBuilding unmarshalBuilding f).1).

(** Snapshots are made for the client at [addr], under the name [id], and what is made for
    that name shows the player of the name, as [player]. *)
Definition sees_player (w : World) (addr id : string) (player : Player) : Prop :=
  (exists client, cl_id client = id /\
     snapshotClients (src_authenticationRequired (runtime_source w)) (net w) !! addr = Some client) /\
  lookup_object (src_SnapshotForClient (runtime_source w) id) "player" id = Some (player_value player).

(** ** What everything but a login leaves *)
Record frames (w w' : World) : Prop := {
  fr_objects : objects w'.1 = objects w.1;
  fr_interest : interest (features w'.1) = interest (features w.1);
  fr_handler : authenticationHandler w'.1 = authenticationHandler w.1;
  fr_authenticators : authenticators (heap w') = authenticators (heap w);
  fr_ids o : net_ObjectID o (heap w') = net_ObjectID o (heap w)
}.

#[local] Instance frames_preorder : PreOrder frames.
Proof.
  split; [by intros w|]. intros w1 w2 w3 [O1 I1 H1 A1 N1] [O2 I2 H2 A2 N2].
  split; [congruence.. | intros o; by rewrite N2].
Qed.

Lemma ready_frames (w w' : World) p authenticator : frames w w' -> ready w p authenticator -> ready w' p authenticator.
Proof.
  intros [Ho Hi Hh Ha Hn] [H1 H2 H3 H4 H5]. split; rewrite ?Ha, ?Hh, ?Hi; try done.
  - exact (identities_keep remarshalPlayer unmarshalPlayer remarshalBuilding unmarshalBuilding w w' Ho Hn H3).
  - intros k o. rewrite (at_key_objects _ _ k Ho). apply H4.
Qed.

Lemma frames_net f (w : World) : frames w (on_net w f).
Proof. by split. Qed.

Lemma frames_gated (w w' : World) : gated w w' -> frames w w'.
Proof. intros (Ho & Hf & Hh & Ha & _)%gated_same. split; rewrite ?Hf, ?Hh; done. Qed.

Lemma frames_respond registry conn addr wire now message (w : World) :
  frames w (Respond (writer registry conn addr wire now) message w).1.
Proof. apply frames_gated, respond_gated. Qed.

Lemma frames_advances (w w' : World) : advances w w' -> frames w w'.
Proof. intros [Ho Hf Hh Ha Hn _]. split; rewrite ?Hf; done. Qed.

Lemma frames_players q player (w : World) :
  (exists old, players (heap w) !! q = Some old /\ pl_ID player = pl_ID old) ->
  frames w (on_heap w (fun h => on_players h (<[q := player]>))).
Proof.
  intros (old & Hq & Hid). split; try done. intros [p|p|p]; [|done..]. cbn.
  destruct (decide (q = p)) as [->|Hne]; [rewrite lookup_insert_eq | by rewrite lookup_insert_ne].
  change (w.2.1) with (heap w). rewrite Hq. exact Hid.
Qed.

Lemma frames_buildings q building (w : World) :
  (exists old, buildings (heap w) !! q = Some old /\ bd_ID building = bd_ID old) ->
  frames w (on_heap w (fun h => on_buildings h (<[q := building]>))).
Proof.
  intros (old & Hq & Hid). split; try done. intros [p|p|p]; [done | | done]. cbn.
  destruct (decide (q = p)) as [->|Hne]; [rewrite lookup_insert_eq | by rewrite lookup_insert_ne].
  change (w.2.1) with (heap w). rewrite Hq. exact Hid.
Qed.

Lemma player_OnRequest_id player clientID action decoded :
  pl_ID (player_OnRequest player clientID action decoded).1 = pl_ID player.
Proof. unfold player_OnRequest. destruct (negb _); [done|]. destruct decoded; [|done]. by destruct (is_move _). Qed.

Lemma building_OnRequest_id building clientID action decoded :
  bd_ID (building_OnRequest building clientID action decoded).1 = bd_ID building.
Proof.
  unfold building_OnRequest. destruct decoded as [request|e]; [|done]. cbn [fst bd_ID]. unfold building_action.
  destruct (bool_decide _); [done|]. destruct (bool_decide _); [done|]. by destruct (bool_decide _).
Qed.

(** ** Requests *)
Lemma net_OnRequest_frames o ctx (w : World) :
  frames w (net_OnRequest remarshalPlayer unmarshalPlayer remarshalBuilding unmarshalBuilding o ctx w).1.
Proof.
  destruct o as [q|q|q]; cbn [net_OnRequest]; [| |done].
  - destruct (players (heap w) !! q) as [player|] eqn:Hq; [|done].
    match goal with |- context [player_OnRequest player ?c ?a ?d] => pose proof (player_OnRequest_id player c a d) as Hid;
      destruct (player_OnRequest player c a d) as [player' r] end.
    apply frames_players. by exists player.
  - destruct (buildings (heap w) !! q) as [building|] eqn:Hq; [|done].
    match goal with |- context [building_OnRequest building ?c ?a ?d] => pose proof (building_OnRequest_id building c a d) as Hid;
      destruct (building_OnRequest building c a d) as [building' r] end.
    apply frames_buildings. by exists building.
Qed.

Lemma frames_scenes f (w : World) : frames w (on_runtime w (fun r => on_scenes r f)).
Proof. by split. Qed.

Lemma frames_switch objectType objectID clientID scene (w : World) :
  frames w (on_runtime w (fun r => switch_to r objectType objectID clientID scene)).
Proof. unfold switch_to. by destruct (bool_decide _); split. Qed.

Lemma requestSceneSwitch_frames ctx now (w : World) : frames w (requestSceneSwitch ctx now w).1.
Proof.
  unfold requestSceneSwitch. destruct (empty_key _); [done|].
  destruct (switch_key ctx w.2) as [[t i]|e]; [|done].
  destruct (match sc_Object ctx with Some o => Some o | None => _ end) as [object|]; [|done].
  destruct object as [q|q|q]; [|done..].
  match goal with |- context [OnSceneSwitchRequest ?o] => change (OnSceneSwitchRequest o) with
    (Some (fun ctx => net_OnSceneSwitchRequest (X := Net) (Payload := InputPayload) o ctx)) end. cbv iota beta.
  match goal with |- context [net_OnSceneSwitchRequest ?o ?c w] => pose proof (net_OnSceneSwitchRequest_world o c w) as Hw;
    destruct (net_OnSceneSwitchRequest o c w) as [w1 [decision e]] end.
  cbn [fst] in Hw. subst w1. destruct e as [[]|e]; [|done]. destruct (negb _); [done|]. apply frames_switch.
Qed.

Lemma HandleRequest_frames registry conn addr wire ctx now0 now (w : World) :
  rc_Response ctx = writer registry conn addr wire now0 ->
  frames w (HandleRequest decodeScenePayload Unmarshal ctx now w).1.
Proof.
  intros Hw. unfold HandleRequest. destruct (empty_key _); [done|]. destruct (empty_key _); [done|].
  destruct (GetObject w.1 _ _) as [object|]; [|done].
  match goal with |- context [resolved_context ?c ?t ?i ?o ?n ?w0] => set (ctx' := resolved_context c t i o n w0) end.
  destruct (isSceneSwitchAction _).
  - unfold handleSceneSwitchRequest. destruct (decodeSceneSwitch _ _ _) as [scene|e]; [|done].
    pose proof (requestSceneSwitch_frames (scene_context ctx' scene) now w) as Hs.
    destruct (requestSceneSwitch _ now w) as [w1 [decision e]]. cbn [fst] in Hs. destruct e as [[]|e]; [|done].
    change (rc_Response ctx') with (rc_Response ctx). rewrite Hw. etrans; [exact Hs | apply frames_respond].
  - destruct object as [q|q|q]; [| |done]; exact (net_OnRequest_frames _ ctx' w).
Qed.

(** ** Authentication *)
Lemma login_handler p ctx (w : World) :
  authenticationHandler (login p ctx w).1.1 = authenticationHandler w.1.
Proof.
  unfold net_OnAuthenticationAttempt. destruct (authenticators (heap w) !! p) as [a|]; [|done]. cbn [new_player].
  unfold RegisterObject. destruct (objectIdentity _ _) as [[t i]|e]; reflexivity.
Qed.

(** The authenticator after a login. *)
Definition counted (authenticator : PlayerAuthenticator) : PlayerAuthenticator :=
  mkAuthenticator (pa_ID authenticator) (u64_inc (pa_NextPlayerID authenticator)).

Lemma login_objects p authenticator ctx (w : World) k :
  authenticators (heap w) !! p = Some authenticator -> is_Some (at_key w.1 k) -> is_Some (at_key (login p ctx w).1.1 k).
Proof.
  intros Hp Hk. destruct (login_spec remarshalPlayer unmarshalPlayer remarshalBuilding unmarshalBuilding p authenticator ctx w Hp)
    as (q & _ & H).
  destruct (login p ctx w) as [w' r]. destruct H as (_ & _ & _ & _ & _ & _ & Ho & _). cbn [fst].
  rewrite (at_key_objects _ _ k Ho), at_key_store. by destruct (decide _).
Qed.

Lemma login_ready p authenticator ctx (w : World) :
  ready w p authenticator -> ready (login p ctx w).1 p (counted authenticator).
Proof.
  intros [H1 H2 H3 H4 H5].
  pose proof (login_view remarshalPlayer unmarshalPlayer remarshalBuilding unmarshalBuilding p authenticator ctx w H2 H3 H4) as Hview.
  pose proof (login_interest remarshalPlayer unmarshalPlayer remarshalBuilding unmarshalBuilding p authenticator ctx w H2) as Hint.
  pose proof (login_handler p ctx w) as Hh. cbv zeta in Hview, Hint.
  destruct (login_spec remarshalPlayer unmarshalPlayer remarshalBuilding unmarshalBuilding p authenticator ctx w H2) as (q & _ & H).
  destruct Hint as (_ & _ & _ & Hint).
  destruct (login p ctx w) as [w' r]. cbn [fst] in *. destruct H as (_ & Ha & _). split.
  - by rewrite Hh.
  - rewrite Ha. apply lookup_insert_eq.
  - apply Hview.
  - apply Hview.
  - intros k c Hc. destruct (Hint k c Hc) as [->|Hc']; [done | exact (H5 k c Hc')].
Qed.

(** The server is ready for another player. *)
Definition playing (w : World) : Prop := exists p authenticator, ready w p authenticator.

(** The way from one state to another keeps it so, and no object is lost on it. *)
Definition plays (w w' : World) : Prop :=
  playing w -> playing w' /\ forall k, is_Some (at_key w.1 k) -> is_Some (at_key w'.1 k).

#[local] Instance plays_preorder : PreOrder plays.
Proof.
  split; [by intros w H|]. intros w1 w2 w3 H1 H2 [H3 H4]%H1. destruct (H2 H3) as [H5 H6].
  split; [exact H5 | intros k H; by apply H6, H4].
Qed.

Lemma frames_plays (w w' : World) : frames w w' -> plays w w'.
Proof.
  intros H (p & a & Hr). split; [exists p, a; by apply (ready_frames w)|].
  intros k. by rewrite (at_key_objects _ _ k (fr_objects _ _ H)).
Qed.

Lemma net_plays f (w : World) : plays w (on_net w f).
Proof. apply frames_plays, frames_net. Qed.

Lemma HandleAuthenticationAttempt_plays ctx now (w : World) : plays w (HandleAuthenticationAttempt ctx now w).1.
Proof.
  intros (p & a & Hr). unfold HandleAuthenticationAttempt. rewrite (rd_handler _ _ _ _ _ _ _ Hr).
  change (OnAuthenticationAttempt (AuthenticatorPtr p)) with (Some (login p)). cbv iota.
  match goal with |- context [login p ?c w] => pose proof (login_ready p a c w Hr) as H;
    pose proof (fun k => login_objects p a c w k (rd_authenticator _ _ _ _ _ _ _ Hr)) as Hk;
    destruct (login p c w) as [w' attempt] end.
  cbn [fst] in H, Hk.
  match goal with |- playing ?w'' /\ _ => assert (w'' = w') as -> by (destruct attempt; [by destruct (empty_key _) | done]) end.
  split; [by exists p, (counted a) | exact Hk].
Qed.

Section Responding.
Context (registry : option (WireMessageRegistry (World := World))) (conn : option (string -> bytes -> result unit))
  (addr : string) (wire : bool) (now0 : Z).
Abbreviation response := (writer registry conn addr wire now0).

Lemma fail_with_plays request e (w : World) : plays w (fail_with response request e w).1.
Proof. apply frames_plays, frames_respond. Qed.

Lemma authentication_failed_plays request e (w : World) : plays w (authentication_failed response request e w).1.
Proof. etrans; [apply net_plays | apply fail_with_plays]. Qed.

Lemma handleAuthenticationAttempt_plays request payload now (w : World) :
  plays w (handleAuthenticationAttempt addr request payload response now w).1.
Proof.
  unfold handleAuthenticationAttempt. set (w0 := on_net w _). assert (plays w w0) as H0 by apply net_plays.
  pose proof (frames_plays _ _ (frames_gated _ _ (negotiate_gated addr payload w0))) as H1.
  destruct (negotiate addr payload w0) as [w1 [[]|e]]; cbn [fst] in H1;
    [|etrans; [exact H0|]; etrans; [exact H1 | apply authentication_failed_plays]].
  match goal with |- context [HandleAuthenticationAttempt ?c now w1] =>
    pose proof (HandleAuthenticationAttempt_plays c now w1) as H2; destruct (HandleAuthenticationAttempt c now w1) as [w2 attempt] end.
  cbn [fst] in H2. assert (plays w w2) as H by (etrans; [exact H0|]; etrans; [exact H1 | exact H2]).
  destruct attempt as [id|e]; [|etrans; [exact H | apply authentication_failed_plays]].
  destruct (authenticateClient (net w2) addr id) as [n [[]|e]];
    (etrans; [exact H|]; etrans; [apply (net_plays (fun _ => n))|]); [|apply authentication_failed_plays].
  match goal with |- context [Respond ?wr ?m ?v] => pose proof (frames_plays _ _ (frames_respond registry conn addr wire now0 m v)) as H3;
    destruct (Respond wr m v) as [w5 r5] end.
  cbn [fst] in *. etrans; [apply net_plays | exact H3].
Qed.
Lemma handleDecodedRequest_plays request payload now (w : World) :
  plays w (handleDecodedRequest addr request payload response now w).1.
Proof.
  unfold handleDecodedRequest. destruct (isAuthenticationRequest request); [apply handleAuthenticationAttempt_plays|].
  destruct (_ && _); [apply fail_with_plays|].
  match goal with |- context [HandleRequest _ _ ?c now w] =>
    pose proof (frames_plays _ _ (HandleRequest_frames registry conn addr wire c now0 now w eq_refl)) as H;
    destruct (HandleRequest _ _ c now w) as [w1 [[]|e]] end; cbn [fst] in H.
  - etrans; [exact H|]. destruct (isSceneSwitchAction _); [apply net_plays | done].
  - etrans; [exact H|]. etrans; [apply net_plays | apply fail_with_plays].
Qed.

Lemma handle_undispatched_plays packet now message (w : World) firstErr :
  plays w (handle_undispatched addr packet response now message w firstErr).1.
Proof.
  unfold handle_undispatched. set (payload := ib_payload (inc_Body message)).
  pose proof (frames_plays _ _ (frames_gated _ _ (bufferDecodedInput_gated addr (ip_sequence packet) now payload w))) as H1.
  destruct (bufferDecodedInput _ _ _ _ _) as [w1 [handledInput e1]]. cbn [fst] in H1.
  destruct handledInput; [done|]. destruct (emptyRequestMessage _); [done|].
  pose proof (handleDecodedRequest_plays (ib_request (inc_Body message)) payload now w1) as H2.
  destruct (handleDecodedRequest _ _ _ _ _ _) as [w2 e2]. etrans; [exact H1 | exact H2].
Qed.

Hypothesis default_registry : exists r, registry = Some r /\ NewDefaultWireMessageRegistry = Ok r.

Lemma handleWirePing_frames ctx (w : World) : ctx_Response ctx = response -> frames w (handleWirePing ctx w).1.
Proof.
  intros Hw. unfold handleWirePing. destruct (ctx_Message ctx) as [|[]| |]; try done. rewrite Hw. apply frames_respond.
Qed.

Lemma Dispatch_plays ctx (w : World) : ctx_Response ctx = response -> plays w (Dispatch registry ctx w).1.1.
Proof.
  intros Hw. apply frames_plays. destruct default_registry as (r & E & Hr). unfold Dispatch. rewrite E.
  destruct (Definition_ (Some r) (ctx_MessageID ctx)) as [d|] eqn:Ed; [|done].
  destruct (def_Handler d) as [handler|] eqn:Eh; [|done].
  rewrite (default_handler r _ d handler Hr Ed Eh). pose proof (handleWirePing_frames ctx w Hw) as H.
  by destruct (handleWirePing ctx w).
Qed.

Lemma handle_incoming_plays packet now acc message :
  plays acc.1 (handle_incoming registry addr packet response now acc message).1.
Proof.
  destruct acc as [w firstErr]. cbn [fst]. unfold handle_incoming.
  destruct (is_unknown _); [done|]. destruct (ip_wire packet); [|apply handle_undispatched_plays].
  pose proof (Dispatch_plays (message_context addr packet response now message w) w eq_refl) as H1.
  destruct (Dispatch _ _ _) as [[w1 handled] e]. cbn [fst] in H1. destruct handled; [done|].
  etrans; [exact H1 | apply handle_undispatched_plays].
Qed.

Lemma handle_messages_plays packet now messages acc :
  plays acc.1 (foldl (handle_incoming registry addr packet response now) acc messages).1.
Proof.
  revert acc. induction messages as [|m messages IH]; intros acc; [done|]. cbn [foldl].
  etrans; [exact (handle_incoming_plays packet now acc m) | apply IH].
Qed.
End Responding.

(** ** What arrives, and ticks *)
Section Serving.
Context (registry : option (WireMessageRegistry (World := World))) (conn : option (string -> bytes -> result unit)).
Hypothesis default_registry : exists r, registry = Some r /\ NewDefaultWireMessageRegistry = Ok r.

Lemma handleMessage_plays addr message now (w : World) : plays w (handleMessage registry conn addr message now w).1.
Proof.
  unfold handleMessage. set (w0 := on_net w _). assert (plays w w0) as H0 by apply net_plays.
  destruct (decodeUDPIncomingPacket registry message) as [packet|e]; [|etrans; [exact H0 | apply net_plays]].
  destruct (acceptClientRequest _ _ _ _ _ _ _) as [n accepted]. set (w1 := on_net w0 (fun _ => n)).
  assert (plays w w1) as H1 by (etrans; [exact H0 | apply net_plays]). destruct (negb accepted); [exact H1|].
  set (w2 := if ip_wire packet then _ else w1).
  assert (plays w w2) as H2 by (etrans; [exact H1|]; unfold w2; destruct (ip_wire packet); [apply net_plays | done]).
  destruct (receiveReliable (net w2) addr (ip_messages packet)) as [n3 messages].
  etrans; [exact H2|]. etrans; [apply (net_plays (fun _ => n3))|].
  exact (handle_messages_plays registry conn addr (ip_wire packet) now default_registry packet now messages (_, Ok tt)).
Qed.

Lemma advanceAndMaybeBroadcast_plays order duration now (w : World) :
  plays w (advanceAndMaybeBroadcast registry conn order duration now w).1.
Proof.
  unfold advanceAndMaybeBroadcast.
  pose proof (frames_plays _ _ (frames_advances _ _
    (Advance_advances remarshalPlayer unmarshalPlayer remarshalBuilding unmarshalBuilding duration w))) as H.
  destruct (Advance duration w) as [w1 t]. cbn [fst] in H.
  set (w2 := on_net w1 _). assert (plays w w2) as H2 by (etrans; [exact H | apply net_plays]).
  match goal with |- context [negb (t mod SnapshotEvery (config ?v.1) =? 0)] => set (w3 := v) end.
  assert (plays w w3) as H3 by (etrans; [exact H2|]; unfold w3; destruct conn; [apply net_plays | done]).
  destruct (negb _); [exact H3|]. destruct (snapshots _ _ _ _ _ _ _ _ _ _ _ _) as [n [l|e]];
    (etrans; [exact H3|]; etrans; [apply (net_plays (fun _ => n))|]); [|done].
  destruct conn; [apply net_plays | by destruct (decide _)].
Qed.

Lemma serve_events_plays events : forall w : World, plays w (serve_events registry conn events w).
Proof.
  induction events as [|e events IH]; intros w; [done|].
  change (plays w (serve_events registry conn events (serve_event registry conn w e).1)). etrans; [|apply IH].
  destruct e as [addr payload now| |order duration now];
    [apply handleMessage_plays | done | apply advanceAndMaybeBroadcast_plays].
Qed.

(** In particular no object ever goes: not the player of a client that has timed out, nor
    the former players of a client that authenticates again. *)
Lemma players_stay events (w : World) k :
  playing w -> is_Some (at_key w.1 k) -> is_Some (at_key (serve_events registry conn events w).1 k).
Proof. intros H. by apply (serve_events_plays events w H). Qed.
End Serving.

(** ** The start *)
Lemma main_plays f :
  exampleObjects f = true ->
  playing (world_of (main remarshalPlayer unmarshalPlayer remarshalBuilding unmarshalBuilding f).1).
Proof.
  intros Hf. unfold Process.main. rewrite Hf. set (p0 := (NewServer _, _)). unfold on_world.
  pose proof (Register_game remarshalPlayer unmarshalPlayer remarshalBuilding unmarshalBuilding (world_of p0) eq_refl) as H.
  destruct (Register _ _ _ _ (world_of p0)) as [w e]. destruct H as (-> & _ & _ & _ & q & Ha & Hh & _ & Ho & Hfe).
  apply (frames_plays w); [by split|].
  assert (forall k o, at_key w.1 k = Some o -> k = ("player-auth", "default") /\ o = AuthenticatorPtr q) as Hat.
  { intros k o. rewrite (at_key_objects _ _ k Ho), at_key_store. destruct (decide _) as [<-|_]; [by intros [= <-]|].
    unfold at_key. cbn. by rewrite lookup_empty. }
  exists q, (NewPlayerAuthenticator "default"). split.
  - exact Ha.
  - rewrite Hh. apply lookup_insert_eq.
  - intros k o [-> ->]%Hat. rewrite (net_identity_eq play_game) by done. unfold net_identity, net_ObjectID.
    change (w.2.1) with (heap w). rewrite Hh, lookup_insert_eq. reflexivity.
  - intros k o [-> _]%Hat. reflexivity.
  - intros k c. rewrite Hfe.
    change (interest (features (disable_features (world_of p0).1 "player-auth" "default"))) with (None : option InterestManager).
    cbn. by rewrite lookup_empty.
Qed.
End Play.

(** The served process is ready for another player at any time. *)
Lemma played_ready {libraries : Libraries} remarshalPlayer unmarshalPlayer remarshalBuilding unmarshalBuilding
    r f conn events :
  NewDefaultWireMessageRegistry = Ok r -> exampleObjects f = true ->
  exists q authenticator,
    ready remarshalPlayer unmarshalPlayer remarshalBuilding unmarshalBuilding
      (played remarshalPlayer unmarshalPlayer remarshalBuilding unmarshalBuilding (Some r) conn f events) q authenticator.
Proof.
  intros Hr Hf. unfold played.
  pose proof (main_plays remarshalPlayer unmarshalPlayer remarshalBuilding unmarshalBuilding f Hf) as H.
  pose proof (main_spec remarshalPlayer unmarshalPlayer remarshalBuilding unmarshalBuilding r f) as Hu. cbv zeta in Hu.
  destruct (main _ _ _ _ f) as [p log]. destruct Hu as (_ & _ & Hu & _). cbn [fst] in *.
  destruct (serve_events_plays remarshalPlayer unmarshalPlayer remarshalBuilding unmarshalBuilding (Some r) conn
    (ex_intro _ r (conj eq_refl Hr)) events (world_of p) H) as [(q & a & Hready) _].
  unfold serve. rewrite world_of_with_world by (by eexists). by exists q, a.
Qed.

(** ** Properties *)

(** C13: whatever the process that [main] started with the sample objects has received,
    an authentication request starts a session.  In every state that its loops can
    reach, the authenticator is registered; and an authentication request of a
    connected client (with a handshake that can be negotiated, or none) leaves the
    client authenticated under the next player's name, unless another client has it.
    The client is then among those that snapshots are made for, and the snapshot made
    for its name shows its player. *)
Theorem session_established {libraries : Libraries} remarshalPlayer unmarshalPlayer remarshalBuilding unmarshalBuilding
    r f conn events :
  NewDefaultWireMessageRegistry = Ok r -> exampleObjects f = true ->
  let w := played remarshalPlayer unmarshalPlayer remarshalBuilding unmarshalBuilding (Some r) conn f events in
  exists q authenticator,
    authenticationHandler w.1 = Some (AuthenticatorPtr q) /\ authenticators (heap w) !! q = Some authenticator /\
    let id := player_id (u64_inc (pa_NextPlayerID authenticator)) in
    forall addr request payload wire now,
      is_Some (clients (net w) !! addr) -> free_name w addr id -> (negotiate addr payload w).2 = Ok tt ->
      let w' := (handleAuthenticationAttempt
                   (GameCode0 := sample_game remarshalPlayer unmarshalPlayer remarshalBuilding unmarshalBuilding)
                   addr request payload (writer (Some r) conn addr wire now) now w).1 in
      sees_player remarshalPlayer unmarshalPlayer remarshalBuilding unmarshalBuilding w' addr id
        (AssignClient (NewPlayer id) id).
Proof.
  intros Hr Hf w.
  destruct (played_ready remarshalPlayer unmarshalPlayer remarshalBuilding unmarshalBuilding r f conn events Hr Hf)
    as (q & a & Hready). fold w in Hready. exists q, a.
  split; [apply (rd_handler _ _ _ _ _ _ _ Hready)|]. split; [apply (rd_authenticator _ _ _ _ _ _ _ Hready)|].
  intros id addr request payload wire now Hc Hfree Hneg.
  exact (session_shown remarshalPlayer unmarshalPlayer remarshalBuilding unmarshalBuilding (Some r) conn addr wire now
    request payload _ q a Hready Hc Hfree Hneg).
Qed.

(** C14: from the bytes of a datagram to a player on the screen.  In every state that the
    process started by [main] with the sample objects can reach, a datagram made of one
    [ClientHello] with the package's encoders, from any address, connected or new, starts
    a session: when its sequence number passes the receive window (and a new client finds
    a place), the hello can be negotiated and the next player's name is free, then after
    [handleMessage] snapshots are made for that address under the player's name, and
    they show the player.  (The hello does not end in an empty field, which the decoder
    would not read.) *)
Theorem hello_starts_session {libraries : Libraries} remarshalPlayer unmarshalPlayer remarshalBuilding unmarshalBuilding
    r f conn events :
  NewDefaultWireMessageRegistry = Ok r -> exampleObjects f = true ->
  let w := played remarshalPlayer unmarshalPlayer remarshalBuilding unmarshalBuilding (Some r) conn f events in
  exists q authenticator,
    authenticationHandler w.1 = Some (AuthenticatorPtr q) /\ authenticators (heap w) !! q = Some authenticator /\
    let id := player_id (u64_inc (pa_NextPlayerID authenticator)) in
    forall addr hello sequence ack ackBits datagram now,
      in_u64 sequence -> in_u64 ack -> in_u64 ackBits -> wc_typed hello -> wc_ends_empty hello = false ->
      hello_datagram r sequence ack ackBits hello = Ok datagram ->
      is_ok (NegotiateClientHello (config w.1) hello) = true -> free_name w addr id ->
      processes addr (hello_packet sequence ack ackBits hello) now w = true ->
      let w' := (handleMessage
                   (GameCode0 := sample_game remarshalPlayer unmarshalPlayer remarshalBuilding unmarshalBuilding)
                   (Some r) conn addr datagram now w).1 in
      sees_player remarshalPlayer unmarshalPlayer remarshalBuilding unmarshalBuilding w' addr id
        (AssignClient (NewPlayer id) id).
Proof.
  intros Hr Hf w.
  destruct (played_ready remarshalPlayer unmarshalPlayer remarshalBuilding unmarshalBuilding r f conn events Hr Hf)
    as (q & a & Hready). fold w in Hready. exists q, a.
  split; [apply (rd_handler _ _ _ _ _ _ _ Hready)|]. split; [apply (rd_authenticator _ _ _ _ _ _ _ Hready)|].
  intros id addr hello sequence ack ackBits datagram now Hs Ha Hb Ht He Hd Hneg Hfree Hp w'.
  pose proof (hello_datagram_decoded r Hr sequence ack ackBits hello datagram Hs Ha Hb Ht He Hd) as Hdec.
  destruct (hello_handled (GameCode0 := sample_game remarshalPlayer unmarshalPlayer remarshalBuilding unmarshalBuilding)
    r Hr conn addr datagram sequence ack ackBits now hello w Hdec Hp) as (w0 & Hw & H1 & H2 & Hc & _ & Hothers).
  clear Hr Hdec. clearbody w. unfold w'. rewrite Hw.
  assert (ready remarshalPlayer unmarshalPlayer remarshalBuilding unmarshalBuilding w0 q a) as Hready0.
  { apply (ready_frames _ _ _ _ w); [|exact Hready]. unfold heap. split; unfold heap; by rewrite ?H1, ?H2. }
  assert (free_name w0 addr id) as Hfree0
    by (intros x c Hne Hx; rewrite Hothers in Hx by exact Hne; exact (Hfree x c Hne Hx)).
  assert ((negotiate addr (AnyValue (MClientHello hello)) w0).2 = Ok tt) as Hneg0
    by (unfold negotiate; rewrite H1; by destruct (NegotiateClientHello _ _)).
  exact (session_shown remarshalPlayer unmarshalPlayer remarshalBuilding unmarshalBuilding (Some r) conn addr true now
    (hello_request sequence) (AnyValue (MClientHello hello)) w0 q a Hready0 Hc Hfree0 Hneg0).
Qed.

(** ** Witnesses *)
Lemma session_established_witness :
  exists r, NewDefaultWireMessageRegistry = Ok r /\
  let game := sample_game (libraries := Arena.arena_libraries) (fun _ r => Ok r) (fun _ => Ok zero_player_request)
    (fun _ r => Ok r) (fun _ => Ok zero_building_request) in
  let w := played (libraries := Arena.arena_libraries) (fun _ r => Ok r) (fun _ => Ok zero_player_request)
    (fun _ r => Ok r) (fun _ => Ok zero_building_request)
    (Some r) None default_flags [Tick [] 5 1; Datagram "a" [] 2] in
  let w' := (handleAuthenticationAttempt (libraries := Arena.arena_libraries) (GameCode0 := game) "a"
    (mkRequest "auth" 1 "" "" "" []) (AnyValue (MClientHello (mkClientHello "" "" 1 7 1200)))
    (writer (libraries := Arena.arena_libraries) (Some r) None "a" true 5) 5 w).1 in
  sees_player (libraries := Arena.arena_libraries) (fun _ r => Ok r) (fun _ => Ok zero_player_request)
    (fun _ r => Ok r) (fun _ => Ok zero_building_request)
    w' "a" "player-1" (AssignClient (NewPlayer "player-1") "player-1").
Proof.
  destruct (default_registry_exists (World := World NetObject SampleFactory InputPayload (Heap * Net))) as [r Hr].
  exists r. split; [exact Hr|]. intros game w w'.
  pose proof (session_established (libraries := Arena.arena_libraries) (fun _ r => Ok r) (fun _ => Ok zero_player_request)
    (fun _ r => Ok r) (fun _ => Ok zero_building_request) r default_flags None [Tick [] 5 1; Datagram "a" [] 2] Hr eq_refl) as H.
  destruct H as (q & a & Ha & Hq & H). change (authenticationHandler w.1 = Some (AuthenticatorPtr q)) in Ha.
  change (authenticators (heap w) !! q = Some a) in Hq.
  assert (authenticationHandler w.1 = Some (AuthenticatorPtr 0)) as Ha' by (vm_compute; reflexivity).
  rewrite Ha' in Ha. injection Ha as <-.
  assert (authenticators (heap w) !! 0%nat = Some (NewPlayerAuthenticator "default")) as Hq' by (vm_compute; reflexivity).
  rewrite Hq' in Hq. injection Hq as <-.
  assert (map_Forall (fun _ c => cl_authenticated c = false) (clients (net w))) as Hnobody
    by (apply map_Forall_to_list; vm_compute; repeat constructor).
  assert (is_Some (clients (net w) !! "a")) as Hc by (vm_compute; by eexists).
  apply (H "a" (mkRequest "auth" 1 "" "" "" []) (AnyValue (MClientHello (mkClientHello "" "" 1 7 1200))) true 5 Hc).
  - intros addr c _ Hcl Hauth. by rewrite (Hnobody addr c Hcl) in Hauth.
  - vm_compute. reflexivity.
Defined.

(** The first datagram of an address that the server does not know. *)
Lemma hello_starts_session_witness :
  exists r datagram, NewDefaultWireMessageRegistry = Ok r /\
  let game := sample_game (libraries := Arena.arena_libraries) (fun _ r => Ok r) (fun _ => Ok zero_player_request)
    (fun _ r => Ok r) (fun _ => Ok zero_building_request) in
  let w := played (libraries := Arena.arena_libraries) (fun _ r => Ok r) (fun _ => Ok zero_player_request)
    (fun _ r => Ok r) (fun _ => Ok zero_building_request) (Some r) None default_flags [Tick [] 5 1] in
  let w' := (handleMessage (libraries := Arena.arena_libraries) (GameCode0 := game) (Some r) None "a" datagram 5 w).1 in
  sees_player (libraries := Arena.arena_libraries) (fun _ r => Ok r) (fun _ => Ok zero_player_request)
    (fun _ r => Ok r) (fun _ => Ok zero_building_request)
    w' "a" "player-1" (AssignClient (NewPlayer "player-1") "player-1").
Proof.
  destruct (default_registry_exists (World := World NetObject SampleFactory InputPayload (Heap * Net))) as [r Hr].
  set (hello := mkClientHello "" "" 1 7 1200).
  assert (exists datagram, hello_datagram r 1 0 0 hello = Ok datagram) as [datagram Hd].
  { unfold hello_datagram. rewrite (hello_made r Hr hello (wc_bytes hello)) by (vm_compute; reflexivity).
    cbn [rbind]. eexists. vm_compute. reflexivity. }
  exists r, datagram. split; [exact Hr|]. intros game w w'.
  pose proof (hello_starts_session (libraries := Arena.arena_libraries) (fun _ r => Ok r) (fun _ => Ok zero_player_request)
    (fun _ r => Ok r) (fun _ => Ok zero_building_request) r default_flags None [Tick [] 5 1] Hr eq_refl) as H.
  destruct H as (q & a & Ha & Hq & H). change (authenticationHandler w.1 = Some (AuthenticatorPtr q)) in Ha.
  change (authenticators (heap w) !! q = Some a) in Hq.
  assert (authenticationHandler w.1 = Some (AuthenticatorPtr 0)) as Ha' by (vm_compute; reflexivity).
  rewrite Ha' in Ha. injection Ha as <-.
  assert (authenticators (heap w) !! 0%nat = Some (NewPlayerAuthenticator "default")) as Hq' by (vm_compute; reflexivity).
  rewrite Hq' in Hq. injection Hq as <-.
  assert (map_Forall (fun _ c => cl_authenticated c = false) (clients (net w))) as Hnobody
    by (apply map_Forall_to_list; vm_compute; repeat constructor).
  assert (in_u64 1) as H1 by (split; [discriminate | reflexivity]).
  assert (in_u64 0) as H0 by (split; [discriminate | reflexivity]).
  assert (wc_typed hello) as Ht by (vm_compute; intuition discriminate).
  assert (wc_ends_empty hello = false) as He by (vm_compute; reflexivity).
  assert (is_ok (NegotiateClientHello (config w.1) hello) = true) as Hneg by (vm_compute; reflexivity).
  assert (free_name w "a" "player-1") as Hfree
    by (intros addr c _ Hcl Hauth; by rewrite (Hnobody addr c Hcl) in Hauth).
  assert (processes "a" (hello_packet 1 0 0 hello) 5 w = true) as Hp by (vm_compute; reflexivity).
  exact (H "a" hello 1 0 0 datagram 5 H1 H0 H0 Ht He Hd Hneg Hfree Hp).
Defined.
